(** * The srdir output module of libsigrok (src/output/srdir.c)

    A shallow embedding of the buffering and chunked-write engine that
    turns a stream of logic and analog sample packets into a directory
    archive, and the properties of it that the specification states.

    Conventions of the embedding:
    - [size_t] is the 64-bit unsigned type of an LP64 platform, [guint] and
      [uint32_t] are 32 bits wide, [int] is 32 bits wide and signed; every
      arithmetic step of the source is written with its wrap-around
      ([usize], [u32], [c_int]);
    - a heap block ([uint8_t *samples], [float *samples]) is a function from
      offsets to cells, [memcpy] overwrites a range of it, [load] reads a
      prefix of it;
    - the file system and the allocator are a [world]: a trace of the
      operations performed so far, and two scripts that decide which of
      the coming operations fail;
    - a C function that may not return (a loop that never ends, a division
      by zero, a wild pointer) has an [outcome]. *)

From Stdlib Require Import ZArith Lia Strings.Byte String DecimalString Sorted.
From stdpp Require Import base list.

Local Open Scope Z_scope.

(** ** Machine integers *)

Definition u32 (z : Z) : Z := z mod 2 ^ 32.
Definition usize (z : Z) : Z := z mod 2 ^ 64.

(** An [int], 32 bits wide and signed: the two's complement value that a
    sum computed in [int] has. *)
Definition c_int (z : Z) : Z := (z + 2 ^ 31) mod 2 ^ 32 - 2 ^ 31.

Definition CHUNK_SIZE : Z := 4 * 1024 * 1024.
Definition sizeof_float : Z := 4.

(** Modelled from the spec: the return codes of libsigrok.h, a header that
    is not part of the sources at hand. Section 6 names the four that this
    file hands out: success, generic error, allocation failure, invalid
    argument. *)
Inductive sr_error_code : Set :=
| SR_OK
| SR_ERR
| SR_ERR_MALLOC
| SR_ERR_ARG.

Definition is_ok (r : sr_error_code) : bool :=
  match r with SR_OK => true | _ => false end.

(** What a call does: it returns, it never returns, or it traps. *)
Inductive outcome (A : Type) : Type :=
| Returns (a : A)
| Hangs
| Crashes.
Arguments Returns {A} a.
Arguments Hangs {A}.
Arguments Crashes {A}.

(** ** Channels and packets *)

(** Modelled from the spec: [struct sr_channel] and its type tag, declared
    in libsigrok.h. Section 3 lists what a channel has: a stable index, a
    type (logic or analog), an enabled flag and a name. *)
Inductive sr_channeltype : Set :=
| SR_CHANNEL_LOGIC
| SR_CHANNEL_ANALOG.

Record sr_channel : Set := mk_channel {
  ch_index : Z;
  ch_type : sr_channeltype;
  ch_enabled : bool;
  ch_name : string
}.

(** Modelled from the spec: the part of [struct sr_dev_inst] (libsigrok.h)
    that this file reads, the ordered channel list of section 4.1, and the
    device sample-rate query of section 6: [conf_samplerate] is what
    [sr_config_get] answers for [SR_CONF_SAMPLERATE], [None] when the
    driver has no such setting. *)
Record sr_dev_inst : Set := mk_dev_inst {
  channels : list sr_channel;
  conf_samplerate : option Z
}.

(** A float is carried around as its 32-bit pattern, it is never computed
    with. *)
Definition float32 : Set := Z.

(** Modelled from the spec: the packets of the session feed, declared in
    libsigrok.h. Section 6 gives their contents: stream metadata carries
    the sample rate, a logic packet raw bytes and a unit size, an analog
    packet its channels and its samples in their native encoding; section 9
    gives the tags, to which [SR_DF_OTHER] adds all the tags that [receive]
    lets pass. *)
Inductive sr_configkey : Set :=
| SR_CONF_SAMPLERATE
| SR_CONF_OTHER.

Record sr_config : Set := mk_config {
  key : sr_configkey;
  data : Z
}.

Record sr_datafeed_logic : Set := mk_logic {
  logic_length : Z;
  logic_unitsize : Z;
  logic_data : list byte
}.

Record sr_datafeed_analog : Set := mk_analog {
  analog_data : list byte;
  num_samples : Z;
  meaning_channels : list sr_channel
}.

Inductive sr_datafeed_packet : Set :=
| SR_DF_META (config : list sr_config)
| SR_DF_LOGIC (logic : sr_datafeed_logic)
| SR_DF_ANALOG (analog : sr_datafeed_analog)
| SR_DF_END
| SR_DF_OTHER.

(** ** Heap blocks *)

Definition mem (A : Type) : Type := Z -> A.

Definition memcpy {A} (dst : mem A) (off : Z) (src : list A) (n : Z) : mem A :=
  fun i =>
    if (off <=? i) && (i <? off + n) then
      match src !! Z.to_nat (i - off) with
      | Some x => x
      | None => dst i
      end
    else dst i.

Definition load {A} (m : mem A) (n : Z) : list A :=
  map (fun i => m (Z.of_nat i)) (seq 0 (Z.to_nat n)).

(** ** The archive directory and the allocator *)

Definition decimal (z : Z) : string :=
  NilZero.string_of_uint (N.to_uint (Z.to_N z)).

Inductive file_name : Set :=
| F_version
| F_metadata
| F_logic (chunk : Z)
| F_analog (ch_nr chunk : Z).

(** The name on disk, as the [g_strdup_printf] calls build it. *)
Definition file_name_string (f : file_name) : string :=
  match f with
  | F_version => "version"
  | F_metadata => "metadata"
  | F_logic n => "logic-1-" ++ decimal n
  | F_analog ch n => "analog-1-" ++ decimal ch ++ "-" ++ decimal n
  end.

(** The values of the key file. The package version and the printed sample
    rate come from libsigrok functions outside this file and stay
    symbolic. *)
Inductive meta_value : Set :=
| V_string (s : string)
| V_integer (z : Z)
| V_package_version
| V_samplerate_string (rate : Z).

Definition GKeyFile : Set := list (string * string * meta_value).

Definition g_key_file_set (meta : GKeyFile) (group k : string) (v : meta_value)
  : GKeyFile :=
  meta ++ [(group, k, v)].

Inductive payload : Set :=
| P_bytes (b : list byte)
| P_floats (v : list float32)
| P_keyfile (k : GKeyFile).

Inductive io_event : Set :=
| E_mkdir (path : string) (ok : bool)
| E_chdir (path : string) (ok : bool)
| E_write (f : file_name) (p : payload) (ok : bool).

(** [io_script] and [malloc_script] answer the coming file operations and
    [g_try_malloc0] calls in turn, [true] for success; an exhausted script
    means success. *)
Record world : Set := mk_world {
  trace : list io_event;
  io_script : list bool;
  malloc_script : list bool
}.

Definition next_answer (script : list bool) : bool * list bool :=
  match script with
  | [] => (true, [])
  | b :: rest => (b, rest)
  end.

Definition g_mkdir (w : world) (path : string) : bool * world :=
  let (ok, rest) := next_answer (io_script w) in
  (ok, mk_world (trace w ++ [E_mkdir path ok]) rest (malloc_script w)).

Definition g_chdir (w : world) (path : string) : bool * world :=
  let (ok, rest) := next_answer (io_script w) in
  (ok, mk_world (trace w ++ [E_chdir path ok]) rest (malloc_script w)).

(** [g_fopen] for writing, one [fwrite] of the whole payload, [fclose]:
    [false] when the open or the write fails. *)
Definition write_file (w : world) (f : file_name) (p : payload) : bool * world :=
  let (ok, rest) := next_answer (io_script w) in
  (ok, mk_world (trace w ++ [E_write f p ok]) rest (malloc_script w)).

(** glib answers NULL for a request of zero bytes. *)
Definition g_try_malloc0 (w : world) (n_bytes : Z) : bool * world :=
  if n_bytes =? 0 then (false, w)
  else
    let (ok, rest) := next_answer (malloc_script w) in
    (ok, mk_world (trace w) (io_script w) rest).

(** ** struct out_context *)

Record logic_buff : Type := mk_logic_buff {
  lb_unit_size : Z;
  lb_alloc_size : Z;
  lb_samples : mem byte;
  lb_fill_size : Z;
  lb_next_chunk_num : Z
}.

Record analog_buff : Type := mk_analog_buff {
  ab_alloc_size : Z;
  ab_samples : mem float32;
  ab_fill_size : Z;
  ab_next_chunk_num : Z
}.

Record out_context : Type := mk_out_context {
  dir_created : bool;
  samplerate : Z;
  filename : string;
  first_analog_index : Z;
  analog_ch_count : Z;
  analog_index_map : list Z;
  logic_buff_of : logic_buff;
  analog_buff_of : list analog_buff
}.

Record sr_output : Type := mk_output {
  o_filename : option string;
  o_sdi : option sr_dev_inst;
  o_priv : option out_context
}.

(** The part of the machine that a call of this file can change. *)
Record state : Type := mk_state {
  ctx : out_context;
  env : world
}.

Definition with_logic_buff (c : out_context) (b : logic_buff) : out_context :=
  mk_out_context (dir_created c) (samplerate c) (filename c)
    (first_analog_index c) (analog_ch_count c) (analog_index_map c)
    b (analog_buff_of c).

Definition with_analog_buff (c : out_context) (bs : list analog_buff)
  : out_context :=
  mk_out_context (dir_created c) (samplerate c) (filename c)
    (first_analog_index c) (analog_ch_count c) (analog_index_map c)
    (logic_buff_of c) bs.

Definition with_samplerate (c : out_context) (r : Z) : out_context :=
  mk_out_context (dir_created c) r (filename c)
    (first_analog_index c) (analog_ch_count c) (analog_index_map c)
    (logic_buff_of c) (analog_buff_of c).

Definition with_dir_created (c : out_context) (b : bool) : out_context :=
  mk_out_context b (samplerate c) (filename c)
    (first_analog_index c) (analog_ch_count c) (analog_index_map c)
    (logic_buff_of c) (analog_buff_of c).

Definition with_layout (c : out_context) (first count : Z) (map : list Z)
  : out_context :=
  mk_out_context (dir_created c) (samplerate c) (filename c)
    first count map (logic_buff_of c) (analog_buff_of c).

Definition lb_with_fill (b : logic_buff) (fill : Z) : logic_buff :=
  mk_logic_buff (lb_unit_size b) (lb_alloc_size b) (lb_samples b) fill
    (lb_next_chunk_num b).

Definition lb_with_samples (b : logic_buff) (m : mem byte) : logic_buff :=
  mk_logic_buff (lb_unit_size b) (lb_alloc_size b) m (lb_fill_size b)
    (lb_next_chunk_num b).

Definition lb_with_next_chunk_num (b : logic_buff) (n : Z) : logic_buff :=
  mk_logic_buff (lb_unit_size b) (lb_alloc_size b) (lb_samples b)
    (lb_fill_size b) n.

Definition ab_with_fill (b : analog_buff) (fill : Z) : analog_buff :=
  mk_analog_buff (ab_alloc_size b) (ab_samples b) fill (ab_next_chunk_num b).

Definition ab_with_samples (b : analog_buff) (m : mem float32) : analog_buff :=
  mk_analog_buff (ab_alloc_size b) m (ab_fill_size b) (ab_next_chunk_num b).

Definition ab_with_next_chunk_num (b : analog_buff) (n : Z) : analog_buff :=
  mk_analog_buff (ab_alloc_size b) (ab_samples b) (ab_fill_size b) n.

(** ** init *)

(** [g_malloc0] of the context: every field zero, every pointer NULL. *)
Definition zero_context (name : string) : out_context :=
  mk_out_context false 0 name 0 0 []
    (mk_logic_buff 0 0 (fun _ => x00) 0 0) [].

Definition init (o : sr_output) : sr_error_code * sr_output :=
  match o_filename o with
  | None => (SR_ERR_ARG, o)
  | Some name =>
      if String.eqb name "" then (SR_ERR_ARG, o)
      else (SR_OK, mk_output (o_filename o) (o_sdi o) (Some (zero_context name)))
  end.

(** ** dir_create *)

Record channel_counts : Set := mk_counts {
  logic_channels : Z;
  enabled_logic_channels : Z;
  enabled_analog_channels : Z
}.

(** The first walk over the channel list (three [guint] counters). *)
Fixpoint count_channels (l : list sr_channel) (c : channel_counts)
  : channel_counts :=
  match l with
  | [] => c
  | ch :: l' =>
      count_channels l'
        match ch_type ch with
        | SR_CHANNEL_LOGIC =>
            mk_counts (u32 (logic_channels c + 1))
              (if ch_enabled ch then u32 (enabled_logic_channels c + 1)
               else enabled_logic_channels c)
              (enabled_analog_channels c)
        | SR_CHANNEL_ANALOG =>
            mk_counts (logic_channels c) (enabled_logic_channels c)
              (if ch_enabled ch then u32 (enabled_analog_channels c + 1)
               else enabled_analog_channels c)
        end
  end.

Definition devgroup : string := "device 1".

(** The second walk: one key per enabled channel, and the slot of every
    enabled analog channel in the index map. [index] is a [guint], [ch_nr]
    a [size_t]; [ch->index + 1] is a sum of two [int], widened to [size_t]
    when it is stored in [ch_nr]. *)
Fixpoint name_channels (l : list sr_channel) (first index : Z)
    (map : list Z) (meta : GKeyFile) : Z * list Z * GKeyFile :=
  match l with
  | [] => (index, map, meta)
  | ch :: l' =>
      if negb (ch_enabled ch) then name_channels l' first index map meta
      else
        match ch_type ch with
        | SR_CHANNEL_LOGIC =>
            let ch_nr := usize (c_int (ch_index ch + 1)) in
            name_channels l' first index map
              (g_key_file_set meta devgroup ("probe" ++ decimal ch_nr)
                 (V_string (ch_name ch)))
        | SR_CHANNEL_ANALOG =>
            let ch_nr := usize (first + index) in
            name_channels l' first (u32 (index + 1))
              (<[Z.to_nat index := ch_index ch]> map)
              (g_key_file_set meta devgroup ("analog" ++ decimal ch_nr)
                 (V_string (ch_name ch)))
        end
  end.

Definition zero_analog_buff : analog_buff :=
  mk_analog_buff 0 (fun _ => 0) 0 0.

(** The loop that gives every analog channel its buffer; [todo] counts the
    iterations that are left, [index] runs from 0. *)
Fixpoint alloc_analog_buffs (todo : nat) (index : Z) (bufs : list analog_buff)
    (w : world) : sr_error_code * list analog_buff * world :=
  match todo with
  | O => (SR_OK, bufs, w)
  | S todo' =>
      let alloc_size := CHUNK_SIZE in
      let (ok, w1) := g_try_malloc0 w alloc_size in
      if negb ok then (SR_ERR_MALLOC, bufs, w1)
      else
        let alloc_size := alloc_size / sizeof_float in
        alloc_analog_buffs todo' (u32 (index + 1))
          (<[Z.to_nat index := mk_analog_buff alloc_size (fun _ => 0) 0 1]> bufs)
          w1
  end.

Definition dir_create (sdi : sr_dev_inst) (s : state) : sr_error_code * state :=
  let outc := ctx s in
  let outc :=
    if samplerate outc =? 0 then
      match conf_samplerate sdi with
      | Some r => with_samplerate outc r
      | None => outc
      end
    else outc in
  let (ok, w) := g_mkdir (env s) (filename outc) in
  if negb ok then (SR_ERR, mk_state outc w) else
  let (ok, w) := g_chdir w (filename outc) in
  if negb ok then (SR_ERR, mk_state outc w) else
  let (ok, w) := write_file w F_version (P_bytes [x32]) in
  if negb ok then (SR_ERR, mk_state outc w) else
  let meta := g_key_file_set [] "global" "sigrok version" V_package_version in
  let c := count_channels (channels sdi) (mk_counts 0 0 0) in
  let first :=
    if 0 <? enabled_logic_channels c then u32 (logic_channels c + 1) else 1 in
  let meta :=
    if 0 <? enabled_logic_channels c then
      g_key_file_set
        (g_key_file_set meta devgroup "capturefile" (V_string "logic-1"))
        devgroup "total probes" (V_integer (logic_channels c))
    else meta in
  let meta :=
    g_key_file_set meta devgroup "samplerate"
      (V_samplerate_string (samplerate outc)) in
  let meta :=
    g_key_file_set meta devgroup "total analog"
      (V_integer (enabled_analog_channels c)) in
  let count := enabled_analog_channels c in
  let '(_, map, meta) :=
    name_channels (channels sdi) first 0 (replicate (Z.to_nat count) 0) meta in
  let outc := with_layout outc first count map in
  let alloc_size := CHUNK_SIZE in
  let unit_size := usize (usize (logic_channels c + (8 - 1)) / 8) in
  let lb := logic_buff_of outc in
  let lb :=
    mk_logic_buff unit_size (lb_alloc_size lb) (lb_samples lb)
      (lb_fill_size lb) (lb_next_chunk_num lb) in
  let (ok, w) := g_try_malloc0 w alloc_size in
  if negb ok then (SR_ERR_MALLOC, mk_state (with_logic_buff outc lb) w) else
  let alloc_size :=
    if unit_size =? 0 then alloc_size else alloc_size / unit_size in
  let lb := mk_logic_buff unit_size alloc_size (fun _ => x00) 0 1 in
  let outc := with_logic_buff outc lb in
  let '(ret, bufs, w) :=
    alloc_analog_buffs (Z.to_nat count) 0
      (replicate (Z.to_nat count) zero_analog_buff) w in
  let outc := with_analog_buff outc bufs in
  if negb (is_ok ret) then (ret, mk_state outc w) else
  let meta :=
    if 0 <? unit_size then
      g_key_file_set meta devgroup "unitsize" (V_integer unit_size)
    else meta in
  let (ok, w) := write_file w F_metadata (P_keyfile meta) in
  if negb ok then (SR_ERR, mk_state outc w) else
  (SR_OK, mk_state outc w).

(** ** dir_append: one chunk of logic data *)

Definition dir_append (s : state) (buf : mem byte) (unitsize length : Z)
  : outcome (sr_error_code * state) :=
  if length =? 0 then Returns (SR_OK, s)
  else if unitsize =? 0 then Crashes (* length % unitsize *)
  else
    let outc := ctx s in
    let chunkname := F_logic (lb_next_chunk_num (logic_buff_of outc)) in
    let (ok, w) := write_file (env s) chunkname (P_bytes (load buf length)) in
    if negb ok then Returns (SR_ERR, mk_state outc w)
    else
      let lb := logic_buff_of outc in
      Returns (SR_OK,
        mk_state
          (with_logic_buff outc
             (lb_with_next_chunk_num lb (u32 (lb_next_chunk_num lb + 1))))
          w).

(** ** dir_append_queue: the logic buffer *)

Definition set_logic_fill (s : state) (fill : Z) : state :=
  mk_state
    (with_logic_buff (ctx s) (lb_with_fill (logic_buff_of (ctx s)) fill))
    (env s).

(** The [while (send_size)] loop. [fuel] bounds the number of iterations
    that are followed; when it is used up the answer is [Hangs]. *)
Fixpoint queue_loop (fuel : nat) (s : state) (rdptr : list byte)
    (send_size : Z) : outcome (sr_error_code * state) :=
  if send_size =? 0 then Returns (SR_OK, s)
  else
    match fuel with
    | O => Hangs
    | S fuel' =>
        let buff := logic_buff_of (ctx s) in
        let remain := usize (lb_alloc_size buff - lb_fill_size buff) in
        let '(s1, rdptr1, send_size1, remain1) :=
          if negb (remain =? 0) then
            let wrptr := usize (lb_fill_size buff * lb_unit_size buff) in
            let copy_size := Z.min send_size remain in
            let n := usize (copy_size * lb_unit_size buff) in
            let buff' :=
              lb_with_samples
                (lb_with_fill buff (usize (lb_fill_size buff + copy_size)))
                (memcpy (lb_samples buff) wrptr rdptr n) in
            (mk_state (with_logic_buff (ctx s) buff') (env s),
             drop (Z.to_nat n) rdptr,
             usize (send_size - copy_size),
             usize (remain - copy_size))
          else (s, rdptr, send_size, remain) in
        if negb (send_size1 =? 0) && (remain1 =? 0) then
          let buff1 := logic_buff_of (ctx s1) in
          match
            dir_append s1 (lb_samples buff1) (lb_unit_size buff1)
              (usize (lb_fill_size buff1 * lb_unit_size buff1))
          with
          | Returns (ret, s2) =>
              if negb (is_ok ret) then Returns (ret, s2)
              else queue_loop fuel' (set_logic_fill s2 0) rdptr1 send_size1
          | Hangs => Hangs
          | Crashes => Crashes
          end
        else queue_loop fuel' s1 rdptr1 send_size1
    end.

(** Iterations that a queue loop is followed for: one more than the
    samples to queue. That is enough whenever the buffer has room for a
    sample (lemmas [queue_loop_returns] and [analog_loop_returns]); a
    buffer without room makes the loop spin for ever (lemma
    [queue_loop_hangs]). *)
Definition loop_fuel (send_size : Z) : nat := S (Z.to_nat send_size).

Definition dir_append_queue (s : state) (buf : list byte)
    (unitsize length : Z) (flush : bool) : outcome (sr_error_code * state) :=
  let buff := logic_buff_of (ctx s) in
  if negb (length =? 0) && negb (unitsize =? lb_unit_size buff) then
    Returns (SR_ERR_ARG, s)
  else
    let send_size :=
      if lb_unit_size buff =? 0 then 0 else length / lb_unit_size buff in
    match queue_loop (loop_fuel send_size) s buf send_size with
    | Returns (ret, s1) =>
        if negb (is_ok ret) then Returns (ret, s1)
        else
          let buff1 := logic_buff_of (ctx s1) in
          if flush && negb (lb_fill_size buff1 =? 0) then
            match
              dir_append s1 (lb_samples buff1) (lb_unit_size buff1)
                (usize (lb_fill_size buff1 * lb_unit_size buff1))
            with
            | Returns (ret, s2) =>
                if negb (is_ok ret) then Returns (ret, s2)
                else Returns (SR_OK, set_logic_fill s2 0)
            | Hangs => Hangs
            | Crashes => Crashes
            end
          else Returns (SR_OK, s1)
    | Hangs => Hangs
    | Crashes => Crashes
    end.

(** ** dir_append_analog: one chunk of one analog channel *)

Definition dir_append_analog (s : state) (values : mem float32)
    (count ch_nr : Z) : outcome (sr_error_code * state) :=
  let outc := ctx s in
  let slot := Z.to_nat (usize (ch_nr - first_analog_index outc)) in
  match analog_buff_of outc !! slot with
  | None => Crashes
  | Some buff =>
      let size := usize (sizeof_float * count) in
      let chunkname := F_analog ch_nr (ab_next_chunk_num buff) in
      let (ok, w) :=
        write_file (env s) chunkname
          (P_floats (load values (size / sizeof_float))) in
      let sr_status := if ok then SR_OK else SR_ERR in
      let buff' :=
        ab_with_next_chunk_num buff (u32 (ab_next_chunk_num buff + 1)) in
      Returns (sr_status,
        mk_state
          (with_analog_buff outc (<[slot := buff']> (analog_buff_of outc)))
          w)
  end.

(** ** dir_append_analog_queue: the analog buffers *)

(** [buff->fill_size = fill] through the pointer [&outc->analog_buff[idx]]. *)
Definition set_analog_fill (s : state) (idx fill : Z) : state :=
  let bufs := analog_buff_of (ctx s) in
  match bufs !! Z.to_nat idx with
  | None => s
  | Some buff =>
      mk_state
        (with_analog_buff (ctx s)
           (<[Z.to_nat idx := ab_with_fill buff fill]> bufs))
        (env s)
  end.

(** The end-of-stream walk over all analog buffers. *)
Fixpoint flush_analog (todo : nat) (idx : Z) (s : state)
  : outcome (sr_error_code * state) :=
  match todo with
  | O => Returns (SR_OK, s)
  | S todo' =>
      let outc := ctx s in
      let nr := usize (first_analog_index outc + idx) in
      match analog_buff_of outc !! Z.to_nat idx with
      | None => Crashes
      | Some buff =>
          if ab_fill_size buff =? 0 then
            flush_analog todo' (usize (idx + 1)) s
          else
            match
              dir_append_analog s (ab_samples buff) (ab_fill_size buff) nr
            with
            | Returns (ret, s1) =>
                if negb (is_ok ret) then Returns (ret, s1)
                else
                  flush_analog todo' (usize (idx + 1))
                    (set_analog_fill s1 idx 0)
            | Hangs => Hangs
            | Crashes => Crashes
            end
      end
  end.

(** The search of the index map: the first slot that holds [ch_idx], or
    [analog_ch_count] when none does. [None] is a read outside the map. *)
Fixpoint find_slot (todo : nat) (idx : Z) (map : list Z) (ch_idx : Z)
  : option Z :=
  match todo with
  | O => Some idx
  | S todo' =>
      match map !! Z.to_nat idx with
      | None => None
      | Some v =>
          if v =? ch_idx then Some idx
          else find_slot todo' (usize (idx + 1)) map ch_idx
      end
  end.

(** The [while (send_size)] loop of the analog path, on the buffer in slot
    [idx] whose channel number is [nr]. *)
Fixpoint analog_loop (fuel : nat) (s : state) (idx nr : Z)
    (rdptr : list float32) (send_size : Z) : outcome (sr_error_code * state) :=
  if send_size =? 0 then Returns (SR_OK, s)
  else
    match fuel with
    | O => Hangs
    | S fuel' =>
        match analog_buff_of (ctx s) !! Z.to_nat idx with
        | None => Crashes
        | Some buff =>
            let remain := usize (ab_alloc_size buff - ab_fill_size buff) in
            let '(s1, rdptr1, send_size1, remain1) :=
              if negb (remain =? 0) then
                let wrptr := ab_fill_size buff in
                let copy_size := Z.min send_size remain in
                let buff' :=
                  ab_with_samples
                    (ab_with_fill buff (usize (ab_fill_size buff + copy_size)))
                    (memcpy (ab_samples buff) wrptr rdptr
                       (usize (copy_size * sizeof_float) / sizeof_float)) in
                (mk_state
                   (with_analog_buff (ctx s)
                      (<[Z.to_nat idx := buff']> (analog_buff_of (ctx s))))
                   (env s),
                 drop (Z.to_nat copy_size) rdptr,
                 usize (send_size - copy_size),
                 usize (remain - copy_size))
              else (s, rdptr, send_size, remain) in
            if negb (send_size1 =? 0) && (remain1 =? 0) then
              match analog_buff_of (ctx s1) !! Z.to_nat idx with
              | None => Crashes
              | Some buff1 =>
                  match
                    dir_append_analog s1 (ab_samples buff1)
                      (ab_fill_size buff1) nr
                  with
                  | Returns (ret, s2) =>
                      if negb (is_ok ret) then Returns (ret, s2)
                      else
                        analog_loop fuel' (set_analog_fill s2 idx 0) idx nr
                          rdptr1 send_size1
                  | Hangs => Hangs
                  | Crashes => Crashes
                  end
              end
            else analog_loop fuel' s1 idx nr rdptr1 send_size1
        end
    end.

Section Conversion.

(** [sr_analog_to_float] lives in another file of libsigrok: it turns the
    samples of a packet into floats, or fails. *)
Variable sr_analog_to_float :
  sr_datafeed_analog -> sr_error_code * list float32.

Definition dir_append_analog_queue (s : state)
    (analog : option sr_datafeed_analog) (flush : bool)
  : outcome (sr_error_code * state) :=
  match analog with
  | None =>
      if flush then flush_analog (Z.to_nat (analog_ch_count (ctx s))) 0 s
      else Crashes (* analog->meaning *)
  | Some a =>
      let outc := ctx s in
      match meaning_channels a with
      | [ch] =>
          match
            find_slot (Z.to_nat (analog_ch_count outc)) 0
              (analog_index_map outc) (ch_index ch)
          with
          | None => Crashes
          | Some idx =>
              if idx =? analog_ch_count outc then Returns (SR_ERR_ARG, s)
              else
                let nr := usize (first_analog_index outc + idx) in
                let (ok, w) :=
                  g_try_malloc0 (env s) (usize (num_samples a * sizeof_float)) in
                if negb ok then Returns (SR_ERR_MALLOC, mk_state outc w)
                else
                  let (ret, values) := sr_analog_to_float a in
                  if negb (is_ok ret) then Returns (ret, mk_state outc w)
                  else
                    let send_size := num_samples a in
                    match
                      analog_loop (loop_fuel send_size) (mk_state outc w)
                        idx nr values send_size
                    with
                    | Returns (ret, s1) =>
                        if negb (is_ok ret) then Returns (ret, s1)
                        else
                          match analog_buff_of (ctx s1) !! Z.to_nat idx with
                          | None => Crashes
                          | Some buff1 =>
                              if flush && negb (ab_fill_size buff1 =? 0) then
                                match
                                  dir_append_analog s1 (ab_samples buff1)
                                    (ab_fill_size buff1) nr
                                with
                                | Returns (ret, s2) =>
                                    if negb (is_ok ret) then Returns (ret, s2)
                                    else
                                      Returns (SR_OK, set_analog_fill s2 idx 0)
                                | Hangs => Hangs
                                | Crashes => Crashes
                                end
                              else Returns (SR_OK, s1)
                          end
                    | Hangs => Hangs
                    | Crashes => Crashes
                    end
          end
      | _ => Returns (SR_ERR, s) (* g_slist_length(...) != 1 *)
      end
  end.

(** ** receive *)

(** The SR_DF_META walk: the last sample rate of the list wins. *)
Fixpoint meta_samplerate (l : list sr_config) (rate : Z) : Z :=
  match l with
  | [] => rate
  | src :: l' =>
      match key src with
      | SR_CONF_SAMPLERATE => meta_samplerate l' (data src)
      | SR_CONF_OTHER => meta_samplerate l' rate
      end
  end.

(** [if (!outc->dir_created) { dir_create; dir_created = TRUE; }] *)
Definition ensure_dir (sdi : sr_dev_inst) (s : state) : sr_error_code * state :=
  if dir_created (ctx s) then (SR_OK, s)
  else
    let (ret, s1) := dir_create sdi s in
    if negb (is_ok ret) then (ret, s1)
    else (SR_OK, mk_state (with_dir_created (ctx s1) true) (env s1)).

Definition receive_packet (sdi : sr_dev_inst) (s : state)
    (packet : sr_datafeed_packet) : outcome (sr_error_code * state) :=
  match packet with
  | SR_DF_META config =>
      Returns (SR_OK,
        mk_state
          (with_samplerate (ctx s) (meta_samplerate config (samplerate (ctx s))))
          (env s))
  | SR_DF_LOGIC logic =>
      let (ret, s1) := ensure_dir sdi s in
      if negb (is_ok ret) then Returns (ret, s1)
      else
        dir_append_queue s1 (logic_data logic) (logic_unitsize logic)
          (logic_length logic) false
  | SR_DF_ANALOG analog =>
      let (ret, s1) := ensure_dir sdi s in
      if negb (is_ok ret) then Returns (ret, s1)
      else dir_append_analog_queue s1 (Some analog) false
  | SR_DF_END =>
      if dir_created (ctx s) then
        match dir_append_queue s [] 0 0 true with
        | Returns (ret, s1) =>
            if negb (is_ok ret) then Returns (ret, s1)
            else dir_append_analog_queue s1 None true
        | Hangs => Hangs
        | Crashes => Crashes
        end
      else Returns (SR_OK, s)
  | SR_DF_OTHER => Returns (SR_OK, s)
  end.

Definition receive (o : sr_output) (w : world) (packet : sr_datafeed_packet)
  : outcome (sr_error_code * sr_output * world) :=
  match o_sdi o, o_priv o with
  | Some sdi, Some outc =>
      match receive_packet sdi (mk_state outc w) packet with
      | Returns (ret, s) =>
          Returns (ret, mk_output (o_filename o) (o_sdi o) (Some (ctx s)), env s)
      | Hangs => Hangs
      | Crashes => Crashes
      end
  | _, _ => Returns (SR_ERR_ARG, o, w)
  end.

(** The caller of the module: it hands the packets of a stream to
    [receive] one after the other and stops at the first error. *)
Fixpoint feed (o : sr_output) (w : world) (packets : list sr_datafeed_packet)
  : outcome (sr_error_code * sr_output * world) :=
  match packets with
  | [] => Returns (SR_OK, o, w)
  | p :: rest =>
      match receive o w p with
      | Returns (SR_OK, o1, w1) => feed o1 w1 rest
      | other => other
      end
  end.

(** A caller that goes on after errors: the session after all the packets
    that [receive] returned from. *)
Fixpoint run (o : sr_output) (w : world) (packets : list sr_datafeed_packet)
  : sr_output * world :=
  match packets with
  | [] => (o, w)
  | p :: rest =>
      match receive o w p with
      | Returns (_, o1, w1) => run o1 w1 rest
      | _ => (o, w)
      end
  end.

End Conversion.

(** ** cleanup *)

(** The walk that frees the sample block of every analog buffer: it reads
    [outc->analog_buff[idx].samples] for each of the [analog_ch_count]
    slots. A slot that the array does not have (the array pointer is still
    NULL) is a wild read. *)
Fixpoint free_analog_samples (todo : nat) (idx : Z) (bufs : list analog_buff)
  : outcome unit :=
  match todo with
  | O => Returns tt
  | S todo' =>
      match bufs !! Z.to_nat idx with
      | None => Crashes
      | Some _ => free_analog_samples todo' (usize (idx + 1)) bufs
      end
  end.

(** Every block of the context is freed and [o->priv] is reset; the world
    of files and coming allocations is not touched. *)
Definition cleanup (o : sr_output) : outcome (sr_error_code * sr_output) :=
  match o_priv o with
  | None => Crashes (* outc->analog_index_map *)
  | Some outc =>
      match
        free_analog_samples (Z.to_nat (analog_ch_count outc)) 0
          (analog_buff_of outc)
      with
      | Returns _ =>
          Returns (SR_OK, mk_output (o_filename o) (o_sdi o) None)
      | Hangs => Hangs
      | Crashes => Crashes
      end
  end.

(** * Properties *)

(** ** What a reader of the archive sees *)

(** The bytes of the [logic-1-*] files, in the order they were written. *)
Fixpoint logic_written (tr : list io_event) : list byte :=
  match tr with
  | [] => []
  | E_write (F_logic _) (P_bytes b) true :: tr' => b ++ logic_written tr'
  | _ :: tr' => logic_written tr'
  end.

(** The chunk numbers of the [logic-1-*] files, in the order they were
    written. *)
Fixpoint logic_chunk_numbers (tr : list io_event) : list Z :=
  match tr with
  | [] => []
  | E_write (F_logic n) _ true :: tr' => n :: logic_chunk_numbers tr'
  | _ :: tr' => logic_chunk_numbers tr'
  end.

(** The samples the module holds for the archive: those in the files and
    those still in the buffer. *)
Definition logic_buffered (b : logic_buff) : list byte :=
  load (lb_samples b) (lb_fill_size b * lb_unit_size b).

Definition logic_stream (s : state) : list byte :=
  logic_written (trace (env s)) ++ logic_buffered (logic_buff_of (ctx s)).

(** Bytes that a write asks the file system for. *)
Definition payload_size (p : payload) : Z :=
  match p with
  | P_bytes b => Z.of_nat (length b)
  | P_floats v => sizeof_float * Z.of_nat (length v)
  | P_keyfile _ => 0
  end.

Definition is_chunk (f : file_name) : bool :=
  match f with
  | F_logic _ | F_analog _ _ => true
  | _ => false
  end.

(** An event that is not the write of an empty chunk. *)
Definition chunk_nonempty (e : io_event) : Prop :=
  match e with
  | E_write f p _ => is_chunk f = true -> 0 < payload_size p
  | _ => True
  end.

Definition is_mkdir (e : io_event) : bool :=
  match e with E_mkdir _ _ => true | _ => false end.

(** A run of successful logic chunk writes numbered [n], [n+1], ... that
    leaves [n'] as the next number. *)
Inductive logic_run : Z -> list io_event -> Z -> Prop :=
| logic_run_nil n : logic_run n [] n
| logic_run_cons n b tr n' :
    b <> [] ->
    logic_run (u32 (n + 1)) tr n' ->
    logic_run n (E_write (F_logic n) (P_bytes b) true :: tr) n'.

Definition reliable (w : world) : Prop :=
  Forall (fun b => b = true) (io_script w).

(** The buffer as a successful [dir_create] with a sensible number of logic
    channels leaves it, and as the queue keeps it. *)
Record logic_wf (b : logic_buff) : Prop := mk_logic_wf {
  wf_unit : 0 < lb_unit_size b;
  wf_alloc : 0 < lb_alloc_size b;
  wf_fill : 0 <= lb_fill_size b <= lb_alloc_size b;
  wf_bytes : lb_alloc_size b * lb_unit_size b <= CHUNK_SIZE;
  wf_chunk : 0 <= lb_next_chunk_num b < 2 ^ 32
}.

(** What a call of the logic path that met no failure has done: [new] are
    the events it added, [added] the bytes it took into the stream. *)
Record logic_step (s s' : state) (new : list io_event) (added : list byte)
  : Prop := mk_logic_step {
  step_wf : logic_wf (logic_buff_of (ctx s'));
  step_reliable : reliable (env s');
  step_unit :
    lb_unit_size (logic_buff_of (ctx s')) = lb_unit_size (logic_buff_of (ctx s));
  step_alloc :
    lb_alloc_size (logic_buff_of (ctx s')) =
    lb_alloc_size (logic_buff_of (ctx s));
  step_trace : trace (env s') = trace (env s) ++ new;
  step_run :
    logic_run (lb_next_chunk_num (logic_buff_of (ctx s))) new
      (lb_next_chunk_num (logic_buff_of (ctx s')));
  step_stream : logic_stream s' = logic_stream s ++ added
}.

Definition fresh_analog_buff (b : analog_buff) : Prop :=
  ab_alloc_size b = CHUNK_SIZE / sizeof_float /\
  0 <= ab_fill_size b <= ab_alloc_size b.

(** The analog side of the context once the directory exists. *)
Record analog_wf (c : out_context) : Prop := mk_analog_wf {
  wf_first : 0 <= first_analog_index c <= 2 ^ 32;
  wf_count : 0 <= analog_ch_count c < 2 ^ 32;
  wf_slots : length (analog_buff_of c) = Z.to_nat (analog_ch_count c);
  wf_buffs : Forall fresh_analog_buff (analog_buff_of c)
}.

(** Packets as their C types allow them: lengths are [size_t], the analog
    sample count is a [uint32_t]. *)
Definition packet_wf (p : sr_datafeed_packet) : Prop :=
  match p with
  | SR_DF_LOGIC l =>
      0 <= logic_length l < 2 ^ 64 /\ 0 <= logic_unitsize l < 2 ^ 64
  | SR_DF_ANALOG a => 0 <= num_samples a < 2 ^ 32
  | _ => True
  end.

(** The sessions that can come about: [init] accepted the file name, no
    file operation has been made yet, and any packets were received since,
    whatever [receive] answered. *)
Inductive reachable
    (sr_analog_to_float : sr_datafeed_analog -> sr_error_code * list float32)
  : sr_output -> world -> Prop :=
| reachable_init o0 o w :
    init o0 = (SR_OK, o) ->
    trace w = [] ->
    reachable sr_analog_to_float o w
| reachable_receive o w p ret o1 w1 :
    reachable sr_analog_to_float o w ->
    packet_wf p ->
    receive sr_analog_to_float o w p = Returns (ret, o1, w1) ->
    reachable sr_analog_to_float o1 w1.

(** What holds of every session that can come about: no event is the write
    of an empty chunk, and once the directory exists the analog buffers are
    well formed. *)
Definition session_inv (c : out_context) (w : world) : Prop :=
  Forall chunk_nonempty (trace w) /\
  (dir_created c = true -> analog_wf c).

(** From [s] to [s'] the logic buffer stayed well formed and kept its unit
    size and its capacity. *)
Definition logic_kept (s s' : state) : Prop :=
  logic_wf (logic_buff_of (ctx s')) /\
  lb_unit_size (logic_buff_of (ctx s')) = lb_unit_size (logic_buff_of (ctx s)) /\
  lb_alloc_size (logic_buff_of (ctx s')) = lb_alloc_size (logic_buff_of (ctx s)).

(** The index map has one slot for each of the [analog_ch_count] channels. *)
Definition index_map_wf (c : out_context) : Prop :=
  analog_ch_count c = Z.of_nat (length (analog_index_map c)) /\
  analog_ch_count c < 2 ^ 64.

(** The logic buffer of a session whose directory exists, on a device with
    few enough logic channels for a sample to fit into 4 MiB. *)
Record logic_ok (b : logic_buff) : Prop := mk_logic_ok {
  ok_unit : 0 <= lb_unit_size b;
  ok_alloc : 0 < lb_alloc_size b;
  ok_fill : 0 <= lb_fill_size b <= lb_alloc_size b;
  ok_bytes : lb_alloc_size b * lb_unit_size b <= CHUNK_SIZE;
  ok_empty : lb_unit_size b = 0 -> lb_fill_size b = 0;
  ok_chunk : 0 <= lb_next_chunk_num b < 2 ^ 32
}.

(** The invariant of the sessions on such devices: on top of [session_inv],
    the index map and the logic buffer are well formed once the directory
    exists. *)
Definition session_ok (c : out_context) (w : world) : Prop :=
  session_inv c w /\
  (dir_created c = true -> index_map_wf c /\ logic_ok (logic_buff_of c)).

(** A device whose logic samples fit into the buffer. *)
Definition small_device (sdi : sr_dev_inst) : Prop :=
  Z.of_nat (length (channels sdi)) <= 8 * CHUNK_SIZE.

(** An event that is no write of a chunk. *)
Definition not_chunk (e : io_event) : Prop :=
  match e with
  | E_write f _ _ => is_chunk f = false
  | _ => True
  end.

(** How often a list of events made the directory. *)
Definition mkdirs (tr : list io_event) : nat :=
  length (List.filter is_mkdir tr).

Definition is_sample_packet (p : sr_datafeed_packet) : bool :=
  match p with
  | SR_DF_LOGIC _ | SR_DF_ANALOG _ => true
  | _ => false
  end.

(** A caller that queues the blocks of a logic stream one after the other,
    all with unit size [unitsize], and stops at the first error. *)
Fixpoint queue_blocks (s : state) (unitsize : Z) (blocks : list (list byte))
  : outcome (sr_error_code * state) :=
  match blocks with
  | [] => Returns (SR_OK, s)
  | b :: rest =>
      match dir_append_queue s b unitsize (Z.of_nat (length b)) false with
      | Returns (SR_OK, s1) => queue_blocks s1 unitsize rest
      | other => other
      end
  end.

(** The same, followed by the flush call of the end of the stream. *)
Definition queue_blocks_flush (s : state) (unitsize : Z)
    (blocks : list (list byte)) : outcome (sr_error_code * state) :=
  match queue_blocks s unitsize blocks with
  | Returns (SR_OK, s1) => dir_append_queue s1 [] 0 0 true
  | other => other
  end.

(** A block of whole samples, of a length that a [size_t] holds. *)
Definition block_fits (unit_size : Z) (block : list byte) : Prop :=
  Z.of_nat (length block) mod unit_size = 0 /\
  Z.of_nat (length block) < 2 ^ 64.

(** What a call answered and which events it added to those of [s]. *)
Definition events_of (s : state) (r : outcome (sr_error_code * state))
  : option (sr_error_code * list io_event) :=
  match r with
  | Returns (ret, s') =>
      Some (ret, drop (length (trace (env s))) (trace (env s')))
  | _ => None
  end.

(** What a call answered and how it left the logic buffer: fill and next
    chunk number. *)
Definition logic_state_of (r : outcome (sr_error_code * state))
  : option (sr_error_code * Z * Z) :=
  match r with
  | Returns (ret, s') =>
      Some (ret, lb_fill_size (logic_buff_of (ctx s')),
            lb_next_chunk_num (logic_buff_of (ctx s')))
  | _ => None
  end.

(** An analog buffer as [dir_create] sets it up. *)
Definition new_analog_buff : analog_buff :=
  mk_analog_buff (CHUNK_SIZE / sizeof_float) (fun _ => 0) 0 1.

(** The four ways in which a call that queues an analog packet gives up
    before it copies a sample: the packet does not name exactly one
    channel, its channel is not in the index map, the array for the floats
    cannot be allocated, the conversion to floats fails. *)
Definition fails_early
    (sr_analog_to_float : sr_datafeed_analog -> sr_error_code * list float32)
    (s : state) (a : sr_datafeed_analog) : Prop :=
  length (meaning_channels a) <> 1%nat \/
  (exists ch,
     meaning_channels a = [ch] /\ ch_index ch ∉ analog_index_map (ctx s)) \/
  (g_try_malloc0 (env s) (usize (num_samples a * sizeof_float))).1 = false \/
  is_ok (sr_analog_to_float a).1 = false.

(** The write of a chunk that is not empty. *)
Definition is_chunk_write (e : io_event) : Prop :=
  match e with
  | E_write f p _ => is_chunk f = true /\ 0 < payload_size p
  | _ => False
  end.

(** From [s] to [s'] the only new events are writes of non-empty chunks. *)
Definition only_chunks (s s' : state) : Prop :=
  exists new,
    trace (env s') = trace (env s) ++ new /\ Forall is_chunk_write new.

(** From [s] to [s'] the context changed in its logic buffer at most, and
    the only new events are writes of non-empty chunks. *)
Record logic_frame (s s' : state) : Prop := mk_logic_frame {
  lf_ctx : ctx s' = with_logic_buff (ctx s) (logic_buff_of (ctx s'));
  lf_trace : only_chunks s s'
}.

(** The same for the analog buffers, which stay well formed. *)
Record analog_frame (s s' : state) : Prop := mk_analog_frame {
  af_wf : analog_wf (ctx s');
  af_ctx : ctx s' = with_analog_buff (ctx s) (analog_buff_of (ctx s'));
  af_trace : only_chunks s s'
}.

(** A step of the queues: it adds writes of non-empty chunks only, leaves
    the flag alone and keeps well-formed analog buffers well formed. *)
Definition quiet_step (s s' : state) : Prop :=
  only_chunks s s' /\
  dir_created (ctx s') = dir_created (ctx s) /\
  (analog_wf (ctx s) -> analog_wf (ctx s')).

(** What [receive] does to a session when it answers [ret]: the invariant
    stays, the directory is made at most once and only while it does not
    exist, and the flag is set when making it went well and never reset. *)
Record session_step (s s' : state) (ret : sr_error_code) : Prop :=
  mk_session_step {
  ss_inv : session_inv (ctx s') (env s');
  ss_events :
    exists new,
      trace (env s') = trace (env s) ++ new /\
      (mkdirs new <= if dir_created (ctx s) then 0 else 1)%nat /\
      (mkdirs new = 1%nat -> ret = SR_OK -> dir_created (ctx s') = true);
  ss_created : dir_created (ctx s) = true -> dir_created (ctx s') = true
}.

(** ** Channel layouts *)

Definition is_logic (ch : sr_channel) : bool :=
  match ch_type ch with
  | SR_CHANNEL_LOGIC => true
  | SR_CHANNEL_ANALOG => false
  end.

Definition is_enabled_logic (ch : sr_channel) : bool :=
  is_logic ch && ch_enabled ch.

Definition is_enabled_analog (ch : sr_channel) : bool :=
  negb (is_logic ch) && ch_enabled ch.

(** How many channels of a list pass a test. *)
Definition count_of (test : sr_channel -> bool) (l : list sr_channel) : Z :=
  Z.of_nat (length (List.filter test l)).

(** The keys of the key file that name analog channels, with their values. *)
Definition analog_keys (meta : GKeyFile) : list (string * meta_value) :=
  map (fun e => (e.1.2, e.2))
    (List.filter (fun e => String.prefix "analog" e.1.2) meta).

(** The key that the [k]-th enabled analog channel must get when the first
    analog number is [first]. *)
Definition analog_key (first : Z) (k : nat) (ch : sr_channel)
  : string * meta_value :=
  (("analog" ++ decimal (first + Z.of_nat k))%string, V_string (ch_name ch)).

(** ** Sample sessions *)

Definition logic_channel (i : nat) : sr_channel :=
  mk_channel (Z.of_nat i) SR_CHANNEL_LOGIC true "D".

Definition analog_channel (i : nat) : sr_channel :=
  mk_channel (Z.of_nat i) SR_CHANNEL_ANALOG true "A".

(** A device with [n] enabled logic channels followed by [m] enabled analog
    channels. *)
Definition device (n m : nat) : sr_dev_inst :=
  mk_dev_inst (map logic_channel (seq 0 n) ++ map analog_channel (seq n m)) None.

(** A stand-in for [sr_analog_to_float] in the sample sessions: every byte
    of the packet is one sample, a packet without data is malformed. *)
Definition bytes_to_float (a : sr_datafeed_analog)
  : sr_error_code * list float32 :=
  match analog_data a with
  | [] => (SR_ERR_ARG, [])
  | d => (SR_OK, map (fun b => Z.of_N (Byte.to_N b)) d)
  end.

(** Fill and next chunk number of every analog buffer. *)
Definition analog_state_of (s : state) : list (Z * Z) :=
  map (fun b => (ab_fill_size b, ab_next_chunk_num b)) (analog_buff_of (ctx s)).

(** A world in which the operations answer as [script] says. *)
Definition world_of (script : list bool) : world := mk_world [] script [].

(** The state of a session on [sdi] once the first sample packet has made
    it create the directory. *)
Definition opened (sdi : sr_dev_inst) (w : world) : state :=
  (ensure_dir sdi (mk_state (zero_context "capture") w)).2.

(** The state a call left behind, [s] itself when it did not return. *)
Definition after (s : state) (r : outcome (sr_error_code * state)) : state :=
  match r with
  | Returns (_, s') => s'
  | _ => s
  end.

(** ** Beyond the claims: what the further properties speak of *)

(** The write, failed or not, of a logic chunk of [size] bytes. *)
Definition logic_chunk_of_size (size : Z) (e : io_event) : Prop :=
  match e with
  | E_write (F_logic _) (P_bytes bytes) _ => Z.of_nat (length bytes) = size
  | _ => False
  end.

(** Every buffer of the context is empty. *)
Definition buffers_empty (c : out_context) : Prop :=
  lb_fill_size (logic_buff_of c) = 0 /\
  Forall (fun b => ab_fill_size b = 0) (analog_buff_of c).

(** A write that went well. *)
Definition write_ok (e : io_event) : Prop :=
  match e with
  | E_write _ _ ok => ok = true
  | _ => False
  end.

(** The failed write of a chunk. *)
Definition chunk_write_failed (e : io_event) : Prop :=
  match e with
  | E_write f _ ok => is_chunk f = true /\ ok = false
  | _ => False
  end.

Definition is_logic_chunk (e : io_event) : bool :=
  match e with
  | E_write (F_logic _) _ _ => true
  | _ => false
  end.

(** The events of a call that stops at the first write that fails: writes
    that went well, followed by the failed write of a chunk exactly when
    the call answers with an error, which is [SR_ERR]. *)
Definition fail_stop (ret : sr_error_code) (new : list io_event) : Prop :=
  ret = SR_OK /\ Forall write_ok new \/
  ret = SR_ERR /\
  exists done_ e,
    new = done_ ++ [e] /\ Forall write_ok done_ /\ chunk_write_failed e.

(** The analog buffer array has a slot for each of the channels that
    [analog_ch_count] counts. *)
Definition slots_present (c : out_context) : Prop :=
  0 <= analog_ch_count c < 2 ^ 64 /\
  (Z.to_nat (analog_ch_count c) <= length (analog_buff_of c))%nat.

(** What [g_key_file_get_value] finds in the key file: the value that was
    set last for the key [k] of the group. *)
Fixpoint g_key_file_get (meta : GKeyFile) (group k : string)
  : option meta_value :=
  match meta with
  | [] => None
  | (g, k', v) :: rest =>
      match g_key_file_get rest group k with
      | Some v' => Some v'
      | None =>
          if String.eqb g group && String.eqb k' k then Some v else None
      end
  end.

(** The keys of the key file that name logic channels, with their values. *)
Definition probe_keys (meta : GKeyFile) : list (string * meta_value) :=
  map (fun e => (e.1.2, e.2))
    (List.filter (fun e => String.prefix "probe" e.1.2) meta).

(** The key that an enabled logic channel gets: its own index plus one,
    added in [int] and printed as a [size_t]. *)
Definition probe_name (ch : sr_channel) : string :=
  "probe" ++ decimal (usize (c_int (ch_index ch + 1))).

Definition probe_key (ch : sr_channel) : string * meta_value :=
  (probe_name ch, V_string (ch_name ch)).

(** What the channel list puts under the key [k]: the name of the last
    enabled logic channel that gets this key, if there is one. *)
Definition probe_value (l : list sr_channel) (k : string)
  : option meta_value :=
  last (map (fun ch => V_string (ch_name ch))
          (List.filter
             (fun ch => is_enabled_logic ch && String.eqb (probe_name ch) k)
             l)).

(** An entry of the key file that names a channel. *)
Definition channel_entry (e : string * string * meta_value) : Prop :=
  String.prefix "probe" e.1.2 = true \/ String.prefix "analog" e.1.2 = true.

(** The sample rate that [dir_create] writes: the one of the context, or
    the one of the device when the context has none. *)
Definition effective_samplerate (sdi : sr_dev_inst) (rate : Z) : Z :=
  if rate =? 0 then
    match conf_samplerate sdi with
    | Some r => r
    | None => 0
    end
  else rate.

(** The entries of the key file that precede those of the channels. *)
Definition metadata_head (L E A rate : Z) : GKeyFile :=
  [("global"%string, "sigrok version"%string, V_package_version)] ++
  (if 0 <? E then
     [(devgroup, "capturefile"%string, V_string "logic-1");
      (devgroup, "total probes"%string, V_integer L)]
   else []) ++
  [(devgroup, "samplerate"%string, V_samplerate_string rate);
   (devgroup, "total analog"%string, V_integer A)].

Definition is_samplerate (src : sr_config) : bool :=
  match key src with
  | SR_CONF_SAMPLERATE => true
  | SR_CONF_OTHER => false
  end.

(** The sample rate that the stream metadata packets of a session have
    announced: the one of their last SR_CONF_SAMPLERATE entry, 0 when
    there is none. *)
Definition announced_samplerate (configs : list (list sr_config)) : Z :=
  default 0 (last (map data (List.filter is_samplerate (concat configs)))).

(** The floats of the [analog-1-<nr>-*] files, in the order they were
    written. *)
Fixpoint analog_written (nr : Z) (tr : list io_event) : list float32 :=
  match tr with
  | [] => []
  | E_write (F_analog ch _) (P_floats v) true :: tr' =>
      if ch =? nr then v ++ analog_written nr tr' else analog_written nr tr'
  | _ :: tr' => analog_written nr tr'
  end.

Definition analog_buffered (b : analog_buff) : list float32 :=
  load (ab_samples b) (ab_fill_size b).

(** The samples the module holds for the channel of slot [idx]: those in
    its files and those still in its buffer. *)
Definition analog_stream (s : state) (idx : Z) : list float32 :=
  analog_written (first_analog_index (ctx s) + idx) (trace (env s)) ++
  match analog_buff_of (ctx s) !! Z.to_nat idx with
  | Some b => analog_buffered b
  | None => []
  end.

(** The allocator never fails. *)
Definition roomy (w : world) : Prop :=
  Forall (fun b => b = true) (malloc_script w).

(** What a call of the analog path that met no failure has done for the
    channel of slot [idx]: [added] are the samples it took into the stream
    of that channel; the streams of the other channels and the logic
    stream are as they were. *)
Record analog_step (s s' : state) (idx : Z) (added : list float32) : Prop :=
  mk_analog_step {
  ast_frame : analog_frame s s';
  ast_reliable : reliable (env s');
  ast_roomy : roomy (env s');
  ast_logic : logic_written (trace (env s')) = logic_written (trace (env s));
  ast_stream : analog_stream s' idx = analog_stream s idx ++ added;
  ast_others :
    forall j, 0 <= j < analog_ch_count (ctx s) -> j <> idx ->
      analog_stream s' j = analog_stream s j
}.

(** Slot [idx] is the first slot of the index map that holds the channel
    index [v]. *)
Definition first_slot (map : list Z) (v : Z) (idx : Z) : Prop :=
  0 <= idx /\
  map !! Z.to_nat idx = Some v /\
  forall j, 0 <= j < idx -> map !! Z.to_nat j <> Some v.

(** What the walk of the end of the stream does when no write fails:
    every stream is as it was. *)
Record streams_kept (s s' : state) : Prop := mk_streams_kept {
  sk_frame : analog_frame s s';
  sk_reliable : reliable (env s');
  sk_roomy : roomy (env s');
  sk_logic : logic_written (trace (env s')) = logic_written (trace (env s));
  sk_streams :
    forall j, 0 <= j < analog_ch_count (ctx s) ->
      analog_stream s' j = analog_stream s j
}.

(** The number of the first analog channel on a device. *)
Definition first_analog_number (sdi : sr_dev_inst) : Z :=
  if 0 <? count_of is_enabled_logic (channels sdi)
  then count_of is_logic (channels sdi) + 1
  else 1.

(** The samples that a packet carries for the logic stream, and for the
    stream of the analog channel with index [v]. *)
Definition logic_of (p : sr_datafeed_packet) : list byte :=
  match p with
  | SR_DF_LOGIC l => logic_data l
  | _ => []
  end.

Definition analog_of
    (sr_analog_to_float : sr_datafeed_analog -> sr_error_code * list float32)
    (v : Z) (p : sr_datafeed_packet) : list float32 :=
  match p with
  | SR_DF_ANALOG a =>
      match meaning_channels a with
      | [ch] => if ch_index ch =? v then (sr_analog_to_float a).2 else []
      | _ => []
      end
  | _ => []
  end.

Definition logic_input (packets : list sr_datafeed_packet) : list byte :=
  concat (map logic_of packets).

Definition analog_input
    (sr_analog_to_float : sr_datafeed_analog -> sr_error_code * list float32)
    (v : Z) (packets : list sr_datafeed_packet) : list float32 :=
  concat (map (analog_of sr_analog_to_float v) packets).

(** A packet that fits the device: a logic packet has the unit size of the
    device's logic channels and holds whole samples; an analog packet is
    for one enabled analog channel of the device, holds at least one
    sample, and the conversion turns it into as many floats as it has
    samples. *)
Definition good_packet
    (sr_analog_to_float : sr_datafeed_analog -> sr_error_code * list float32)
    (sdi : sr_dev_inst) (p : sr_datafeed_packet) : Prop :=
  match p with
  | SR_DF_LOGIC l =>
      let L := count_of is_logic (channels sdi) in
      0 < L /\
      logic_unitsize l = (L + 7) / 8 /\
      logic_length l = Z.of_nat (length (logic_data l)) /\
      logic_length l mod logic_unitsize l = 0 /\
      logic_length l < 2 ^ 64
  | SR_DF_ANALOG a =>
      exists ch,
        meaning_channels a = [ch] /\
        ch_index ch ∈
          List.map ch_index (List.filter is_enabled_analog (channels sdi)) /\
        0 < num_samples a < 2 ^ 32 /\
        (sr_analog_to_float a).1 = SR_OK /\
        Z.of_nat (length (sr_analog_to_float a).2) = num_samples a
  | _ => True
  end.

(** The session once the directory exists, with a file system and an
    allocator that have not failed: the context is the one of the device,
    [lin] is the logic stream and [ain v] the stream of the analog channel
    with index [v]. *)
Record archive_inv (sdi : sr_dev_inst) (s : state)
    (lin : list byte) (ain : Z -> list float32) : Prop := mk_archive_inv {
  ai_created : dir_created (ctx s) = true;
  ai_analog : analog_wf (ctx s);
  ai_map_wf : index_map_wf (ctx s);
  ai_map :
    analog_index_map (ctx s) =
    List.map ch_index (List.filter is_enabled_analog (channels sdi));
  ai_first : first_analog_index (ctx s) = first_analog_number sdi;
  ai_logic : logic_ok (logic_buff_of (ctx s));
  ai_unit :
    lb_unit_size (logic_buff_of (ctx s)) =
    (count_of is_logic (channels sdi) + 7) / 8;
  ai_reliable : reliable (env s);
  ai_roomy : roomy (env s);
  ai_lin : logic_stream s = lin;
  ai_ain :
    forall j v,
      first_slot (analog_index_map (ctx s)) v j -> analog_stream s j = ain v
}.

(** The session from [init] on: nothing has happened before the directory
    exists. *)
Definition session_good (sdi : sr_dev_inst) (s : state)
    (lin : list byte) (ain : Z -> list float32) : Prop :=
  if dir_created (ctx s) then archive_inv sdi s lin ain
  else
    reliable (env s) /\ roomy (env s) /\ trace (env s) = [] /\
    lin = [] /\ forall v, ain v = [].

(** The write, failed or not, of a chunk. *)
Definition is_chunk_event (e : io_event) : bool :=
  match e with
  | E_write f _ _ => is_chunk f
  | _ => false
  end.

(** The write of the metadata file that went well. *)
Definition metadata_written (e : io_event) : Prop :=
  match e with
  | E_write F_metadata _ true => True
  | _ => False
  end.

(** Every write of a chunk comes after a write of the metadata file that
    went well. *)
Definition guarded (tr : list io_event) : Prop :=
  forall pre e post,
    tr = pre ++ e :: post ->
    is_chunk_event e = true ->
    Exists metadata_written pre.

(** What holds of the trace and the flag of every session: chunks are
    written after the metadata only, and the flag is set only after the
    metadata were written. *)
Definition setup_inv (c : out_context) (w : world) : Prop :=
  guarded (trace w) /\
  (dir_created c = true -> Exists metadata_written (trace w)).

(** The numbers of all the writes, failed or not, of chunks of the analog
    channel [nr], in the order they were made. *)
Fixpoint analog_chunk_numbers (nr : Z) (tr : list io_event) : list Z :=
  match tr with
  | [] => []
  | E_write (F_analog ch n) _ _ :: tr' =>
      if ch =? nr then n :: analog_chunk_numbers nr tr'
      else analog_chunk_numbers nr tr'
  | _ :: tr' => analog_chunk_numbers nr tr'
  end.

(** The first [k] chunk numbers: 1, 2, 3, ... in a 32-bit counter. *)
Definition count_up (k : nat) : list Z :=
  map (fun i => u32 (1 + Z.of_nat i)) (seq 0 k).

(** The logic chunks that were written carry the numbers from 1 on, and
    the counter of the buffer has the next one. *)
Definition logic_numbered (c : out_context) (tr : list io_event) : Prop :=
  exists k,
    logic_chunk_numbers tr = count_up k /\
    lb_next_chunk_num (logic_buff_of c) = u32 (1 + Z.of_nat k).

(** The same for every analog channel, where every attempt to write a
    chunk counts. *)
Definition analog_numbered (c : out_context) (tr : list io_event) : Prop :=
  forall idx b,
    analog_buff_of c !! idx = Some b ->
    exists k,
      analog_chunk_numbers (first_analog_index c + Z.of_nat idx) tr =
        count_up k /\
      ab_next_chunk_num b = u32 (1 + Z.of_nat k).

Definition numbered (s : state) : Prop :=
  logic_numbered (ctx s) (trace (env s)) /\
  analog_numbered (ctx s) (trace (env s)).

(** What holds of the chunk numbers of every session: without the
    directory no chunk was written, with it the chunks are numbered. *)
Definition numbering_inv (c : out_context) (w : world) : Prop :=
  if dir_created c then numbered (mk_state c w)
  else Forall not_chunk (trace w).

(** The write, failed or not, of a chunk of [size] floats of the analog
    channel [nr]. *)
Definition analog_chunk_of_size (nr size : Z) (e : io_event) : Prop :=
  match e with
  | E_write (F_analog ch _) (P_floats v) _ =>
      ch = nr /\ Z.of_nat (length v) = size
  | _ => False
  end.

(** Stream metadata, four bytes of logic data and two analog samples for
    a device with nine logic channels and an analog one. *)
Definition sample_packets : list sr_datafeed_packet :=
  [SR_DF_META [mk_config SR_CONF_SAMPLERATE 1000];
   SR_DF_LOGIC (mk_logic 4 2 [x01; x02; x03; x04]);
   SR_DF_ANALOG (mk_analog [x07; x08] 2 [analog_channel 9])].

Definition sample_output : sr_output :=
  mk_output (Some "capture"%string) (Some (device 9 1)) None.

(** ** Heap blocks *)

Lemma length_load {A} (m : mem A) n : length (load m n) = Z.to_nat n.
Proof. unfold load. by rewrite length_map, length_seq. Qed.

Lemma load_app {A} (m : mem A) a b :
  0 <= a -> 0 <= b ->
  load m (a + b) =
  load m a ++ map (fun i => m (a + Z.of_nat i)) (seq 0 (Z.to_nat b)).
Proof.
  intros Ha Hb. unfold load.
  rewrite Z2Nat.inj_add, seq_app, map_app by lia. f_equal.
  apply list_eq. intros i. rewrite !list_lookup_fmap.
  destruct (decide (i < Z.to_nat b)%nat) as [Hi|Hi].
  - rewrite !lookup_seq_lt by done. simpl. do 2 f_equal. lia.
  - by rewrite !lookup_seq_ge by lia.
Qed.

Lemma load_memcpy_below {A} (m : mem A) off src n k :
  0 <= k <= off -> load (memcpy m off src n) k = load m k.
Proof.
  intros Hk. unfold load. apply map_ext_in. intros i Hi.
  apply in_seq in Hi. unfold memcpy.
  destruct (off <=? Z.of_nat i) eqn:E; [apply Z.leb_le in E; lia | done].
Qed.

Lemma memcpy_range {A} (m : mem A) off (src : list A) n :
  0 <= n -> (Z.to_nat n <= length src)%nat ->
  map (fun i => memcpy m off src n (off + Z.of_nat i)) (seq 0 (Z.to_nat n)) =
  take (Z.to_nat n) src.
Proof.
  intros Hn Hlen. apply list_eq. intros i.
  rewrite list_lookup_fmap.
  destruct (decide (i < Z.to_nat n)%nat) as [Hi|Hi].
  - rewrite lookup_seq_lt by done. rewrite lookup_take_lt by done. simpl.
    unfold memcpy.
    replace (off <=? off + Z.of_nat i) with true
      by (symmetry; apply Z.leb_le; lia).
    replace (off + Z.of_nat i <? off + n) with true
      by (symmetry; apply Z.ltb_lt; lia).
    simpl. replace (Z.to_nat (off + Z.of_nat i - off)) with i by lia.
    destruct (lookup_lt_is_Some_2 src i) as [x Hx]; [lia|]. by rewrite Hx.
  - rewrite lookup_seq_ge by lia. rewrite lookup_take_ge by lia. done.
Qed.

Lemma load_memcpy {A} (m : mem A) off (src : list A) n :
  0 <= off -> 0 <= n -> (Z.to_nat n <= length src)%nat ->
  load (memcpy m off src n) (off + n) = load m off ++ take (Z.to_nat n) src.
Proof.
  intros Hoff Hn Hlen. rewrite load_app by done. f_equal.
  - apply (load_memcpy_below m off src n off). lia.
  - by apply memcpy_range.
Qed.

(** ** Machine integers and the scripts *)

Lemma usize_small z : 0 <= z < 2 ^ 64 -> usize z = z.
Proof. intros H. unfold usize. by apply Z.mod_small. Qed.

Lemma u32_small z : 0 <= z < 2 ^ 32 -> u32 z = z.
Proof. intros H. unfold u32. by apply Z.mod_small. Qed.

Lemma u32_range z : 0 <= u32 z < 2 ^ 32.
Proof. unfold u32. apply Z.mod_pos_bound. lia. Qed.

Lemma usize_range z : 0 <= usize z < 2 ^ 64.
Proof. unfold usize. apply Z.mod_pos_bound. lia. Qed.

Lemma CHUNK_SIZE_eq : CHUNK_SIZE = 4194304.
Proof. reflexivity. Qed.

Lemma write_file_trace w f p :
  trace (write_file w f p).2 = trace w ++ [E_write f p (write_file w f p).1] /\
  malloc_script (write_file w f p).2 = malloc_script w.
Proof. unfold write_file. by destruct (next_answer (io_script w)). Qed.

Lemma write_file_reliable w f p :
  reliable w ->
  exists w',
    write_file w f p = (true, w') /\
    trace w' = trace w ++ [E_write f p true] /\
    reliable w' /\
    malloc_script w' = malloc_script w.
Proof.
  unfold reliable, write_file, next_answer. intros H.
  destruct (io_script w) as [|b rest] eqn:E.
  - eexists. split; [reflexivity|]. simpl. by rewrite ?E.
  - inversion H; subst. eexists. split; [reflexivity|]. simpl. done.
Qed.

(** ** Runs of chunk writes *)

Lemma logic_written_app tr1 tr2 :
  logic_written (tr1 ++ tr2) = logic_written tr1 ++ logic_written tr2.
Proof.
  induction tr1 as [|e tr1 IH]; [done|]. simpl.
  destruct e as [| |f p ok]; try done.
  destruct f; try done. destruct p; try done. destruct ok; try done.
  by rewrite IH, app_assoc.
Qed.

Lemma logic_chunk_numbers_app tr1 tr2 :
  logic_chunk_numbers (tr1 ++ tr2) =
  logic_chunk_numbers tr1 ++ logic_chunk_numbers tr2.
Proof.
  induction tr1 as [|e tr1 IH]; [done|]. simpl.
  destruct e as [| |f p ok]; try done.
  destruct f; try done. destruct ok; try done. by rewrite IH.
Qed.

Lemma logic_run_app n tr1 m tr2 k :
  logic_run n tr1 m -> logic_run m tr2 k -> logic_run n (tr1 ++ tr2) k.
Proof.
  induction 1 as [|n b tr n' Hb H1 IH]; intros H2; [done|].
  simpl. constructor; auto.
Qed.

Lemma logic_run_one n b :
  b <> [] -> logic_run n [E_write (F_logic n) (P_bytes b) true] (u32 (n + 1)).
Proof. intros Hb. constructor; [done | constructor]. Qed.

(** The numbers of a run are consecutive modulo 2^32. *)
Lemma logic_run_numbers n tr n' :
  logic_run n tr n' ->
  0 <= n < 2 ^ 32 ->
  logic_chunk_numbers tr =
    map (fun i => u32 (n + Z.of_nat i)) (seq 0 (length tr)).
Proof.
  induction 1 as [n|n b tr n' Hb H1 IH]; intros Hn; [done|].
  simpl. f_equal.
  - rewrite Z.add_0_r. symmetry. by apply u32_small.
  - rewrite IH by apply u32_range.
    rewrite <- seq_shift, map_map. apply map_ext. intros i.
    unfold u32. rewrite Nat2Z.inj_succ.
    replace (n + Z.succ (Z.of_nat i)) with (n + 1 + Z.of_nat i) by lia.
    by rewrite Zplus_mod_idemp_l.
Qed.

(** Below the wrap of the 32-bit counter the numbers ascend, so the order
    of the writes is the order of the chunk numbers. *)
Lemma logic_run_ascending n tr n' :
  logic_run n tr n' ->
  0 <= n -> n + Z.of_nat (length tr) <= 2 ^ 32 ->
  logic_chunk_numbers tr = map (fun i => n + Z.of_nat i) (seq 0 (length tr)) /\
  StronglySorted Z.lt (logic_chunk_numbers tr).
Proof.
  induction 1 as [n|n b tr n' Hb H1 IH]; intros Hn Hk.
  - split; [done | constructor].
  - cbn [length] in Hk. rewrite Nat2Z.inj_succ in Hk. simpl.
    destruct tr as [|e tr].
    { simpl. rewrite Z.add_0_r. split; [done|]. repeat constructor. }
    cbn [length] in Hk, IH |- *. rewrite Nat2Z.inj_succ in Hk, IH.
    assert (Hu : u32 (n + 1) = n + 1) by (apply u32_small; lia).
    rewrite Hu in IH. destruct IH as [IH1 IH2]; [lia | lia |].
    assert (Heq : logic_chunk_numbers (e :: tr) =
                  map (fun i => n + Z.of_nat i) (seq 1 (S (length tr)))).
    { rewrite IH1, <- seq_shift, map_map. apply map_ext. intros i. lia. }
    split; [by rewrite Z.add_0_r, Heq|].
    constructor; [done|]. rewrite Heq. apply Forall_forall.
    intros x Hx. apply list_elem_of_fmap in Hx as (i & -> & Hi).
    apply elem_of_seq in Hi. lia.
Qed.

Lemma logic_run_written n tr n' :
  logic_run n tr n' -> Forall chunk_nonempty tr.
Proof.
  induction 1 as [|n b tr n' Hb H1 IH]; constructor; [|done].
  simpl. intros _. destruct b; [done | simpl; lia].
Qed.

(** ** The logic path when no write fails *)

Lemma logic_step_refl s :
  logic_wf (logic_buff_of (ctx s)) -> reliable (env s) -> logic_step s s [] [].
Proof.
  intros Hwf Hrel. split; try done.
  - by rewrite app_nil_r.
  - constructor.
  - by rewrite app_nil_r.
Qed.

Lemma logic_step_trans s s1 s2 new1 new2 added1 added2 :
  logic_step s s1 new1 added1 ->
  logic_step s1 s2 new2 added2 ->
  logic_step s s2 (new1 ++ new2) (added1 ++ added2).
Proof.
  intros [? ? Hu1 Ha1 Ht1 Hr1 Hs1] [? ? Hu2 Ha2 Ht2 Hr2 Hs2].
  split; try done.
  - by rewrite Hu2.
  - by rewrite Ha2.
  - by rewrite Ht2, Ht1, app_assoc.
  - by eapply logic_run_app.
  - by rewrite Hs2, Hs1, app_assoc.
Qed.

(** A flush of a buffer that holds samples writes them to the next chunk
    file; emptying the buffer afterwards leaves the stream as it is. *)
Lemma flush_reliable s :
  logic_wf (logic_buff_of (ctx s)) -> reliable (env s) ->
  0 < lb_fill_size (logic_buff_of (ctx s)) ->
  let b := logic_buff_of (ctx s) in
  exists s2,
    dir_append s (lb_samples b) (lb_unit_size b)
      (usize (lb_fill_size b * lb_unit_size b)) = Returns (SR_OK, s2) /\
    lb_fill_size (logic_buff_of (ctx (set_logic_fill s2 0))) = 0 /\
    logic_step s (set_logic_fill s2 0)
      [E_write (F_logic (lb_next_chunk_num b)) (P_bytes (logic_buffered b)) true]
      [].
Proof.
  intros [Hu Ha Hf Hb Hc] Hrel Hfill b. subst b.
  destruct s as [c w]. simpl in *.
  set (b := logic_buff_of c) in *.
  assert (Hlen : 0 < lb_fill_size b * lb_unit_size b <= CHUNK_SIZE) by nia.
  rewrite CHUNK_SIZE_eq in Hlen.
  rewrite usize_small by lia.
  unfold dir_append.
  destruct (Z.eqb_spec (lb_fill_size b * lb_unit_size b) 0) as [E|_]; [lia|].
  destruct (Z.eqb_spec (lb_unit_size b) 0) as [E|_]; [lia|].
  destruct (write_file_reliable w (F_logic (lb_next_chunk_num b))
              (P_bytes (load (lb_samples b) (lb_fill_size b * lb_unit_size b))))
    as (w' & Hw & Htr & Hrel' & _); [done|].
  simpl. fold b. rewrite Hw. simpl.
  eexists. split; [reflexivity|]. split; [done|].
  split; simpl; fold b; try done.
  - split; simpl; try lia. apply u32_range.
  - apply logic_run_one. intros E. apply (f_equal length) in E.
    unfold logic_buffered in E. rewrite length_load in E. simpl in E. lia.
  - unfold logic_stream. simpl. fold b. rewrite Htr, logic_written_app. simpl.
    unfold logic_buffered. simpl. by rewrite !app_nil_r.
Qed.

(** Copying [copy_size] samples into the room that is left. *)
Lemma copy_reliable s rd copy_size :
  let b := logic_buff_of (ctx s) in
  logic_wf b -> reliable (env s) ->
  0 < copy_size <= lb_alloc_size b - lb_fill_size b ->
  copy_size * lb_unit_size b <= Z.of_nat (length rd) ->
  logic_step s
    (mk_state
       (with_logic_buff (ctx s)
          (lb_with_samples
             (lb_with_fill b (usize (lb_fill_size b + copy_size)))
             (memcpy (lb_samples b) (usize (lb_fill_size b * lb_unit_size b))
                rd (usize (copy_size * lb_unit_size b)))))
       (env s))
    [] (take (Z.to_nat (copy_size * lb_unit_size b)) rd).
Proof.
  intros b [Hu Ha Hf Hb Hc] Hrel Hcopy Hrd.
  rewrite CHUNK_SIZE_eq in Hb.
  assert (0 <= lb_fill_size b * lb_unit_size b <= 4194304) by nia.
  assert (0 <= copy_size * lb_unit_size b <= 4194304) by nia.
  assert (lb_alloc_size b <= 4194304) by nia.
  rewrite !usize_small by lia.
  split; simpl; try done.
  - split; simpl; try done; try lia.
  - by rewrite app_nil_r.
  - constructor.
  - unfold logic_stream, logic_buffered. simpl. fold b.
    rewrite <- app_assoc. f_equal.
    rewrite Z.mul_add_distr_r. apply load_memcpy; lia.
Qed.

Lemma queue_loop_reliable fuel : forall s rd send_size,
  let b := logic_buff_of (ctx s) in
  logic_wf b -> reliable (env s) ->
  0 <= send_size < 2 ^ 64 ->
  send_size * lb_unit_size b <= Z.of_nat (length rd) ->
  (Z.to_nat send_size +
   (if (lb_fill_size b =? lb_alloc_size b)%Z then 1 else 0) <= fuel)%nat ->
  exists s' new,
    queue_loop fuel s rd send_size = Returns (SR_OK, s') /\
    logic_step s s' new (take (Z.to_nat (send_size * lb_unit_size b)) rd).
Proof.
  induction fuel as [|fuel IH]; intros s rd send_size b Hwf Hrel Hsend Hrd Hfuel.
  - assert (send_size = 0) as -> by lia. exists s, []. split; [done|].
    simpl. by apply logic_step_refl.
  - cbn [queue_loop]. fold b.
    destruct (Z.eqb_spec send_size 0) as [->|Hne].
    { exists s, []. split; [done|]. simpl. by apply logic_step_refl. }
    pose proof Hwf as [Hu Ha Hf Hb Hc]. rewrite CHUNK_SIZE_eq in Hb.
    assert (Hal : lb_alloc_size b <= 4194304) by nia.
    rewrite (usize_small (lb_alloc_size b - lb_fill_size b)) by lia.
    destruct (Z.eqb_spec (lb_alloc_size b - lb_fill_size b) 0) as [Hfull|Hroom];
      cbn [negb].
    + (* the buffer is full: flush, then go on *)
      destruct (Z.eqb_spec send_size 0) as [|_]; [done|]. cbn [negb andb].
      destruct (Z.eqb_spec (lb_alloc_size b - lb_fill_size b) 0) as [_|];
        [|done].
      destruct (flush_reliable s Hwf Hrel) as (s2 & Happ & Hfill & Hstep);
        [fold b; lia|].
      fold b in Happ |- *. rewrite Happ. cbn [is_ok negb].
      destruct (IH (set_logic_fill s2 0) rd send_size) as (s' & new & Hq & Hstep').
      * apply Hstep.
      * apply Hstep.
      * done.
      * by rewrite (step_unit _ _ _ _ Hstep).
      * rewrite Hfill, (step_alloc _ _ _ _ Hstep). fold b.
        destruct (Z.eqb_spec 0 (lb_alloc_size b)); [lia|].
        destruct (Z.eqb_spec (lb_fill_size b) (lb_alloc_size b)); lia.
      * rewrite (step_unit _ _ _ _ Hstep) in Hstep'. fold b in Hstep'.
        eexists s', _. split; [exact Hq|].
        apply (logic_step_trans _ _ _ _ _ _ _ Hstep Hstep').
    + (* there is room: copy, flush if that filled the buffer *)
      set (copy_size := Z.min send_size (lb_alloc_size b - lb_fill_size b)).
      assert (Hcopy : 0 < copy_size <= lb_alloc_size b - lb_fill_size b)
        by (unfold copy_size; lia).
      assert (Hcs : copy_size <= send_size) by (unfold copy_size; lia).
      assert (Hbytes : copy_size * lb_unit_size b <= Z.of_nat (length rd)) by nia.
      pose proof (copy_reliable s rd copy_size Hwf Hrel Hcopy Hbytes) as Hstep.
      fold b in Hstep.
      set (s1 := mk_state _ _) in Hstep |- *.
      rewrite (usize_small (send_size - copy_size)) by lia.
      rewrite (usize_small (lb_alloc_size b - lb_fill_size b - copy_size)) by lia.
      assert (Hn : usize (copy_size * lb_unit_size b) = copy_size * lb_unit_size b)
        by (apply usize_small; nia).
      assert (Hfill1 : lb_fill_size (logic_buff_of (ctx s1)) =
                       lb_fill_size b + copy_size).
      { subst s1. simpl. apply usize_small. lia. }
      assert (Htake :
        take (Z.to_nat (copy_size * lb_unit_size b)) rd ++
        take (Z.to_nat ((send_size - copy_size) * lb_unit_size b))
          (drop (Z.to_nat (copy_size * lb_unit_size b)) rd) =
        take (Z.to_nat (send_size * lb_unit_size b)) rd).
      { rewrite take_take_drop. f_equal. nia. }
      assert (Hrd' : (send_size - copy_size) * lb_unit_size b <=
                     Z.of_nat (length (drop (Z.to_nat (copy_size * lb_unit_size b)) rd))).
      { rewrite length_drop. nia. }
      destruct (Z.eqb_spec (send_size - copy_size) 0) as [Hdone|Hmore];
        cbn [negb andb].
      * (* everything is queued *)
        rewrite Hn.
        assert (queue_loop fuel s1
                  (drop (Z.to_nat (copy_size * lb_unit_size b)) rd)
                  (send_size - copy_size) = Returns (SR_OK, s1)) as ->.
        { rewrite Hdone. by destruct fuel. }
        exists s1, []. split; [done|].
        rewrite <- Htake, Hdone. simpl. by rewrite app_nil_r.
      * destruct (Z.eqb_spec (lb_alloc_size b - lb_fill_size b - copy_size) 0)
          as [Hfull|Hroom'].
        -- (* the copy filled the buffer *)
           destruct (flush_reliable s1) as (s2 & Happ & Hfill & Hstep2);
             [apply Hstep | apply Hstep | rewrite Hfill1; lia |].
           rewrite Happ. cbn [is_ok negb]. rewrite Hn.
           pose proof (logic_step_trans _ _ _ _ _ _ _ Hstep Hstep2) as Hstep12.
           destruct (IH (set_logic_fill s2 0)
                       (drop (Z.to_nat (copy_size * lb_unit_size b)) rd)
                       (send_size - copy_size)) as (s' & new & Hq & Hstep').
           ++ apply Hstep2.
           ++ apply Hstep2.
           ++ lia.
           ++ by rewrite (step_unit _ _ _ _ Hstep12).
           ++ rewrite Hfill, (step_alloc _ _ _ _ Hstep12). fold b.
              destruct (Z.eqb_spec 0 (lb_alloc_size b)); [lia|].
              destruct (Z.eqb_spec (lb_fill_size b) (lb_alloc_size b)); lia.
           ++ rewrite (step_unit _ _ _ _ Hstep12) in Hstep'. fold b in Hstep'.
              eexists s', _. split; [exact Hq|]. rewrite <- Htake.
              rewrite app_nil_r in Hstep12.
              apply (logic_step_trans _ _ _ _ _ _ _ Hstep12 Hstep').
        -- (* room is left, the next round copies again *)
           rewrite Hn.
           destruct (IH s1 (drop (Z.to_nat (copy_size * lb_unit_size b)) rd)
                       (send_size - copy_size)) as (s' & new & Hq & Hstep').
           ++ apply Hstep.
           ++ apply Hstep.
           ++ lia.
           ++ by rewrite (step_unit _ _ _ _ Hstep).
           ++ rewrite Hfill1, (step_alloc _ _ _ _ Hstep). fold b.
              destruct (Z.eqb_spec (lb_fill_size b + copy_size) (lb_alloc_size b));
                [lia|].
              destruct (Z.eqb_spec (lb_fill_size b) (lb_alloc_size b)); lia.
           ++ rewrite (step_unit _ _ _ _ Hstep) in Hstep'. fold b in Hstep'.
              eexists s', _. split; [exact Hq|]. rewrite <- Htake.
              apply (logic_step_trans _ _ _ _ _ _ _ Hstep Hstep').
Qed.

Lemma dir_append_queue_reliable s buf unitsize length flush :
  let b := logic_buff_of (ctx s) in
  logic_wf b -> reliable (env s) ->
  length = 0 \/ unitsize = lb_unit_size b ->
  0 <= length < 2 ^ 64 ->
  length <= Z.of_nat (List.length buf) ->
  exists s' new,
    dir_append_queue s buf unitsize length flush = Returns (SR_OK, s') /\
    logic_step s s' new
      (take (Z.to_nat (length / lb_unit_size b * lb_unit_size b)) buf) /\
    (flush = true -> lb_fill_size (logic_buff_of (ctx s')) = 0).
Proof.
  intros b Hwf Hrel Hunit Hlen Hbuf. unfold dir_append_queue. fold b.
  assert (Hu : 0 < lb_unit_size b) by apply Hwf.
  replace (negb (length =? 0) && negb (unitsize =? lb_unit_size b))
    with false.
  2:{ destruct Hunit as [->| ->]; [done|].
      rewrite Z.eqb_refl. by destruct (length =? 0). }
  destruct (Z.eqb_spec (lb_unit_size b) 0) as [|_]; [lia|].
  set (send_size := length / lb_unit_size b).
  assert (Hsend : 0 <= send_size <= length).
  { unfold send_size. split; [apply Z.div_pos; lia|].
    apply Z.div_le_upper_bound; nia. }
  assert (Hmul : send_size * lb_unit_size b <= length).
  { unfold send_size. rewrite Z.mul_comm. apply Z.mul_div_le. lia. }
  destruct (queue_loop_reliable (loop_fuel send_size) s buf send_size)
    as (s1 & new & Hq & Hstep); try done; try lia.
  { fold b. lia. }
  { fold b. unfold loop_fuel.
    destruct (lb_fill_size b =? lb_alloc_size b); lia. }
  fold b in Hstep. rewrite Hq. cbn [is_ok negb].
  destruct flush; cbn [andb]; [|by exists s1, new].
  destruct (Z.eqb_spec (lb_fill_size (logic_buff_of (ctx s1))) 0) as [E|E];
    cbn [negb].
  { by exists s1, new. }
  destruct (flush_reliable s1) as (s2 & Happ & Hfill & Hstep2);
    [apply Hstep | apply Hstep | |].
  { pose proof (wf_fill _ (step_wf _ _ _ _ Hstep)). lia. }
  rewrite Happ. cbn [is_ok negb].
  eexists _, _. split; [reflexivity|]. split; [|done].
  pose proof (logic_step_trans _ _ _ _ _ _ _ Hstep Hstep2) as H.
  by rewrite app_nil_r in H.
Qed.

Lemma queue_blocks_reliable blocks : forall s,
  let b := logic_buff_of (ctx s) in
  logic_wf b -> reliable (env s) ->
  Forall (block_fits (lb_unit_size b)) blocks ->
  exists s' new,
    queue_blocks s (lb_unit_size b) blocks = Returns (SR_OK, s') /\
    logic_step s s' new (concat blocks).
Proof.
  induction blocks as [|blk blocks IH]; intros s b Hwf Hrel Hfits.
  - exists s, []. split; [done|]. by apply logic_step_refl.
  - inversion Hfits as [|? ? [Hmod Hlt] Hrest]; subst.
    cbn [queue_blocks]. fold b.
    destruct (dir_append_queue_reliable s blk (lb_unit_size b)
                (Z.of_nat (length blk)) false)
      as (s1 & new1 & Hq & Hstep & _); try done; try lia.
    { by right. }
    fold b in Hstep. rewrite Hq.
    assert (Hu : 0 < lb_unit_size b) by apply Hwf.
    assert (Hall : take (Z.to_nat (Z.of_nat (length blk) / lb_unit_size b *
                                   lb_unit_size b)) blk = blk).
    { apply take_ge.
      pose proof (Z.div_mod (Z.of_nat (length blk)) (lb_unit_size b)). lia. }
    rewrite Hall in Hstep.
    destruct (IH s1) as (s' & new & Hqs & Hsteps).
    + apply Hstep.
    + apply Hstep.
    + by rewrite (step_unit _ _ _ _ Hstep).
    + rewrite (step_unit _ _ _ _ Hstep) in Hqs. fold b in Hqs.
      exists s', (new1 ++ new). split; [done|].
      apply (logic_step_trans _ _ _ _ _ _ _ Hstep Hsteps).
Qed.

(** ** C1: the logic chunks hold the input *)

(** C1 (as amended). Take a logic buffer with a positive unit size and room
    for at least one sample, and a file system that does not fail. Queue
    any sequence of blocks, each a whole number of samples long, with the
    configured unit size, then make the flush call of the end of the
    stream. All calls succeed; the events added are successful writes of
    non-empty logic chunks with consecutive chunk numbers, ascending as long
    as the 32-bit counter does not wrap; and the concatenation of these
    chunks is what the buffer held before, followed by the concatenation of
    the blocks. Nothing stays in the buffer. *)
Theorem logic_roundtrip s blocks :
  let b := logic_buff_of (ctx s) in
  logic_wf b ->
  reliable (env s) ->
  Forall (block_fits (lb_unit_size b)) blocks ->
  exists s' new,
    queue_blocks_flush s (lb_unit_size b) blocks = Returns (SR_OK, s') /\
    trace (env s') = trace (env s) ++ new /\
    logic_run (lb_next_chunk_num b) new
      (lb_next_chunk_num (logic_buff_of (ctx s'))) /\
    (lb_next_chunk_num b + Z.of_nat (length new) <= 2 ^ 32 ->
     StronglySorted Z.lt (logic_chunk_numbers new)) /\
    logic_written new = logic_buffered b ++ concat blocks /\
    lb_fill_size (logic_buff_of (ctx s')) = 0.
Proof.
  intros b Hwf Hrel Hfits. unfold queue_blocks_flush.
  destruct (queue_blocks_reliable blocks s Hwf Hrel Hfits)
    as (s1 & new1 & Hq & Hstep1).
  fold b in Hq. rewrite Hq.
  destruct (dir_append_queue_reliable s1 [] 0 0 true)
    as (s' & new2 & Hf & Hstep2 & Hfill); try done.
  { apply Hstep1. } { apply Hstep1. } { by left. }
  specialize (Hfill eq_refl). rewrite take_nil in Hstep2.
  pose proof (logic_step_trans _ _ _ _ _ _ _ Hstep1 Hstep2) as Hstep.
  rewrite app_nil_r in Hstep.
  exists s', (new1 ++ new2). split; [done|].
  destruct Hstep as [_ _ _ _ Htr Hrun Hstream]. fold b in Hrun.
  repeat split; try done.
  - intros Hk. eapply logic_run_ascending; [exact Hrun | apply Hwf | done].
  - unfold logic_stream in Hstream.
    rewrite Htr, logic_written_app in Hstream.
    unfold logic_buffered at 1 in Hstream. rewrite Hfill in Hstream.
    simpl in Hstream. rewrite app_nil_r, <- app_assoc in Hstream.
    by apply app_inv_head in Hstream.
Qed.

Lemma logic_roundtrip_witness :
  exists s' new,
    queue_blocks_flush (opened (device 9 0) (world_of [])) 2
      [[x01; x02]; [x03; x04; x05; x06]] = Returns (SR_OK, s') /\
    trace (env s') = trace (env (opened (device 9 0) (world_of []))) ++ new /\
    logic_run 1 new (lb_next_chunk_num (logic_buff_of (ctx s'))) /\
    (1 + Z.of_nat (length new) <= 2 ^ 32 ->
     StronglySorted Z.lt (logic_chunk_numbers new)) /\
    logic_written new = [] ++ [x01; x02; x03; x04; x05; x06] /\
    lb_fill_size (logic_buff_of (ctx s')) = 0.
Proof.
  apply (logic_roundtrip (opened (device 9 0) (world_of []))
           [[x01; x02]; [x03; x04; x05; x06]]).
  - split; vm_compute; done.
  - constructor.
  - repeat constructor.
Defined.

(** C1 as stated fails. Nine logic channels make the unit size 2; blocks of
    3 bytes and 1 byte have a total length of 4, a multiple of 2. The only
    chunk written holds the first two bytes: the odd byte of the first
    block and the whole second block are gone. *)
Lemma logic_roundtrip_counterexample :
  let s := opened (device 9 0) (world_of []) in
  let blocks := [[x01; x02; x03]; [x04]] in
  logic_wf (logic_buff_of (ctx s)) /\
  reliable (env s) /\
  lb_unit_size (logic_buff_of (ctx s)) = 2 /\
  Z.of_nat (length (concat blocks)) mod 2 = 0 /\
  events_of s (queue_blocks_flush s 2 blocks) =
    Some (SR_OK, [E_write (F_logic 1) (P_bytes [x01; x02]) true]) /\
  [x01; x02] <> concat blocks.
Proof. repeat split; vm_compute; done. Qed.

(** ** C3: a block with another unit size *)

(** C3 (as amended). A call that brings data ([length] is not zero) with a
    unit size other than the configured one answers SR_ERR_ARG and leaves
    the whole state as it was: buffer, fill, chunk number and files. *)
Theorem unit_size_mismatch s buf unitsize length flush :
  length <> 0 ->
  unitsize <> lb_unit_size (logic_buff_of (ctx s)) ->
  dir_append_queue s buf unitsize length flush = Returns (SR_ERR_ARG, s).
Proof.
  intros Hlen Hunit. unfold dir_append_queue.
  destruct (Z.eqb_spec length 0) as [|_]; [done|].
  by destruct (Z.eqb_spec unitsize (lb_unit_size (logic_buff_of (ctx s)))).
Qed.

Lemma unit_size_mismatch_witness :
  dir_append_queue (opened (device 9 0) (world_of [])) [x01; x02; x03] 3 3 true
  = Returns (SR_ERR_ARG, opened (device 9 0) (world_of [])).
Proof. apply unit_size_mismatch; vm_compute; done. Defined.

(** C3 as stated fails. With eight logic channels the unit size is 1.
    After three samples were queued, the flush call of the end of the
    stream comes with unit size 0 and length 0: the unit sizes differ, yet
    the call succeeds, writes chunk 1 and resets the fill from 3 to 0. *)
Lemma unit_size_mismatch_counterexample :
  let s0 := opened (device 8 0) (world_of []) in
  let s := after s0 (dir_append_queue s0 [x01; x02; x03] 1 3 false) in
  lb_unit_size (logic_buff_of (ctx s)) = 1 /\
  lb_fill_size (logic_buff_of (ctx s)) = 3 /\
  lb_next_chunk_num (logic_buff_of (ctx s)) = 1 /\
  events_of s (dir_append_queue s [] 0 0 true) =
    Some (SR_OK, [E_write (F_logic 1) (P_bytes [x01; x02; x03]) true]) /\
  logic_state_of (dir_append_queue s [] 0 0 true) = Some (SR_OK, 0, 2).
Proof. repeat split; vm_compute; done. Qed.

(** ** C7: blocks that end in a partial sample *)

Lemma dir_append_queue_unit_zero s buf unitsize length flush :
  lb_unit_size (logic_buff_of (ctx s)) = 0 ->
  length = 0 \/ unitsize = 0 ->
  exists s',
    dir_append_queue s buf unitsize length flush = Returns (SR_OK, s') /\
    env s' = env s /\
    logic_stream s' = logic_stream s /\
    (lb_fill_size (logic_buff_of (ctx s)) = 0 -> s' = s).
Proof.
  intros Hz Hcall. unfold dir_append_queue. rewrite Hz.
  replace (negb (length =? 0) && negb (unitsize =? 0)) with false
    by (destruct Hcall as [->| ->]; [done | by destruct (length =? 0)]).
  cbn [Z.eqb loop_fuel queue_loop is_ok negb].
  destruct flush; cbn [andb]; [|by exists s].
  destruct (Z.eqb_spec (lb_fill_size (logic_buff_of (ctx s))) 0) as [E|E];
    cbn [negb]; [by exists s|].
  rewrite Hz, Z.mul_0_r.
  cbn [usize Z.modulo Z.div_eucl dir_append Z.eqb is_ok negb].
  eexists. split; [reflexivity|]. split; [done|]. split; [|done].
  unfold logic_stream, logic_buffered. simpl. by rewrite Hz, !Z.mul_0_r.
Qed.

(** C7 (as amended). (1) With the configured unit size [u > 0] passed
    along, a buffer as [dir_create] sets it up, and no failing write, a
    call with any length succeeds and takes exactly the first
    [length / u] samples of the block into the stream: the [length mod u]
    bytes after them are dropped. (2) When the configured unit size is 0,
    a call that passes unit size 0, or length 0, succeeds, touches no file
    and adds nothing to the stream. *)
Theorem partial_sample_dropped s buf unitsize length flush :
  let b := logic_buff_of (ctx s) in
  0 <= length < 2 ^ 64 ->
  length <= Z.of_nat (List.length buf) ->
  (logic_wf b /\ reliable (env s) /\ unitsize = lb_unit_size b) \/
  (lb_unit_size b = 0 /\ (length = 0 \/ unitsize = 0)) ->
  exists s',
    dir_append_queue s buf unitsize length flush = Returns (SR_OK, s') /\
    (0 < lb_unit_size b ->
     logic_stream s' =
     logic_stream s ++
     take (Z.to_nat (length / lb_unit_size b * lb_unit_size b)) buf /\
     length / lb_unit_size b * lb_unit_size b = length - length mod lb_unit_size b) /\
    (lb_unit_size b = 0 ->
     env s' = env s /\ logic_stream s' = logic_stream s).
Proof.
  intros b Hlen Hbuf [(Hwf & Hrel & ->)|(Hz & Hcall)].
  - destruct (dir_append_queue_reliable s buf (lb_unit_size b) length flush)
      as (s' & new & Hq & Hstep & _); try done.
    { by right. }
    exists s'. split; [done|]. split.
    + intros Hu. split; [apply Hstep|].
      pose proof (Z.div_mod length (lb_unit_size b)). lia.
    + intros Hz. pose proof (wf_unit _ Hwf). fold b in H. lia.
  - destruct (dir_append_queue_unit_zero s buf unitsize length flush Hz Hcall)
      as (s' & Hq & Henv & Hstream & _).
    exists s'. split; [done|]. split; [fold b in Hz; lia | done].
Qed.

Lemma partial_sample_dropped_witness :
  exists s',
    dir_append_queue (opened (device 9 0) (world_of []))
      [x01; x02; x03] 2 3 false = Returns (SR_OK, s') /\
    (0 < 2 ->
     logic_stream s' =
     logic_stream (opened (device 9 0) (world_of [])) ++
     take (Z.to_nat (3 / 2 * 2)) [x01; x02; x03] /\
     3 / 2 * 2 = 3 - 3 mod 2) /\
    (2 = 0 ->
     env s' = env (opened (device 9 0) (world_of [])) /\
     logic_stream s' = logic_stream (opened (device 9 0) (world_of []))).
Proof.
  apply (partial_sample_dropped (opened (device 9 0) (world_of []))
           [x01; x02; x03] 2 3 false).
  - lia.
  - simpl. lia.
  - left. split; [split; vm_compute; done|]. split; [constructor | reflexivity].
Defined.

(** C7 as stated fails in its last part. A device without logic channels
    makes the configured unit size 0; a logic block of one byte with unit
    size 1 is then answered with SR_ERR_ARG. *)
Lemma partial_sample_dropped_counterexample :
  let s := opened (device 0 1) (world_of []) in
  lb_unit_size (logic_buff_of (ctx s)) = 0 /\
  logic_state_of (dir_append_queue s [x01] 1 1 false) = Some (SR_ERR_ARG, 0, 1).
Proof. split; vm_compute; done. Qed.

(** ** dir_create *)

Lemma count_of_nonneg test l : 0 <= count_of test l.
Proof. unfold count_of. lia. Qed.

Lemma count_of_le test l : count_of test l <= Z.of_nat (length l).
Proof.
  unfold count_of. apply inj_le. induction l as [|x l IH]; simpl; [lia|].
  destruct (test x); simpl; lia.
Qed.

Lemma count_of_cons test ch l :
  count_of test (ch :: l) = (if test ch then 1 else 0) + count_of test l.
Proof.
  unfold count_of. cbn [List.filter]. destruct (test ch); [|lia].
  cbn [length]. lia.
Qed.

Lemma u32_succ n : u32 (u32 n + 1) = u32 (n + 1).
Proof. unfold u32. by rewrite Zplus_mod_idemp_l. Qed.

(** The three counters count, modulo 2^32. *)
Lemma count_channels_spec l : forall c n1 n2 n3,
  c = mk_counts (u32 n1) (u32 n2) (u32 n3) ->
  count_channels l c =
  mk_counts (u32 (n1 + count_of is_logic l))
    (u32 (n2 + count_of is_enabled_logic l))
    (u32 (n3 + count_of is_enabled_analog l)).
Proof.
  induction l as [|ch l IH]; intros c n1 n2 n3 ->.
  - unfold count_of. simpl. by rewrite !Z.add_0_r.
  - cbn [count_channels]. rewrite !(count_of_cons _ ch l).
    unfold is_enabled_logic, is_enabled_analog, is_logic.
    destruct (ch_type ch), (ch_enabled ch);
      cbn [andb negb logic_channels enabled_logic_channels
           enabled_analog_channels];
      rewrite ?u32_succ, ?Z.add_0_l.
    + rewrite (IH _ (n1 + 1) (n2 + 1) n3) by done. by rewrite !Z.add_assoc.
    + rewrite (IH _ (n1 + 1) n2 n3) by done. by rewrite !Z.add_assoc.
    + rewrite (IH _ n1 n2 (n3 + 1)) by done. by rewrite !Z.add_assoc.
    + by rewrite (IH _ n1 n2 n3).
Qed.

Lemma count_channels_exact l :
  Z.of_nat (length l) < 2 ^ 32 ->
  count_channels l (mk_counts 0 0 0) =
  mk_counts (count_of is_logic l) (count_of is_enabled_logic l)
    (count_of is_enabled_analog l).
Proof.
  intros Hlen. rewrite (count_channels_spec l _ 0 0 0) by done. simpl.
  pose proof (count_of_le is_logic l).
  pose proof (count_of_le is_enabled_logic l).
  pose proof (count_of_le is_enabled_analog l).
  pose proof (count_of_nonneg is_logic l).
  pose proof (count_of_nonneg is_enabled_logic l).
  pose proof (count_of_nonneg is_enabled_analog l).
  by rewrite !u32_small by lia.
Qed.

Lemma analog_keys_app m1 m2 :
  analog_keys (m1 ++ m2) = analog_keys m1 ++ analog_keys m2.
Proof. unfold analog_keys. by rewrite List.filter_app, map_app. Qed.

Lemma analog_keys_probe meta n v :
  analog_keys (g_key_file_set meta devgroup ("probe" ++ decimal n) v) =
  analog_keys meta.
Proof.
  unfold g_key_file_set. rewrite analog_keys_app.
  unfold analog_keys. simpl. apply app_nil_r.
Qed.

Lemma analog_keys_analog meta n v :
  analog_keys (g_key_file_set meta devgroup ("analog" ++ decimal n) v) =
  analog_keys meta ++ [(("analog" ++ decimal n)%string, v)].
Proof.
  unfold g_key_file_set. rewrite analog_keys_app. f_equal.
  unfold analog_keys. cbn. by destruct (decimal n).
Qed.

(** The second walk, from any point on: the enabled analog channels fill
    the slots from [index] on in the order of the list, and get the keys
    of the numbers from [first + index] on. *)
Lemma name_channels_spec l : forall first index map meta,
  0 <= first <= 2 ^ 32 ->
  0 <= index ->
  index + count_of is_enabled_analog l < 2 ^ 32 ->
  (Z.to_nat (index + count_of is_enabled_analog l) <= length map)%nat ->
  exists meta',
    name_channels l first index map meta =
      (index + count_of is_enabled_analog l,
       take (Z.to_nat index) map ++
       List.map ch_index (List.filter is_enabled_analog l) ++
       drop (Z.to_nat (index + count_of is_enabled_analog l)) map,
       meta') /\
    analog_keys meta' =
      analog_keys meta ++
      zip_with (analog_key first)
        (seq (Z.to_nat index) (length (List.filter is_enabled_analog l)))
        (List.filter is_enabled_analog l).
Proof.
  induction l as [|ch l IH]; intros first index map meta Hfirst Hidx Hmax Hlen.
  - exists meta. unfold count_of. simpl. rewrite !Z.add_0_r, !app_nil_r.
    by rewrite take_drop.
  - cbn [name_channels]. rewrite count_of_cons in Hmax, Hlen |- *.
    pose proof (count_of_nonneg is_enabled_analog l) as Hnn.
    cbn [List.filter].
    assert (E : is_enabled_analog ch =
                negb (is_logic ch) && ch_enabled ch) by done.
    unfold is_logic in E.
    destruct (ch_enabled ch), (ch_type ch); cbn [negb andb] in E;
      rewrite E in *; clear E.
    + destruct (IH first index map
                  (g_key_file_set meta devgroup
                     ("probe" ++ decimal (usize (c_int (ch_index ch + 1))))
                     (V_string (ch_name ch)))) as (meta' & Hn & Hk);
        try done.
      exists meta'. split; [done|]. by rewrite Hk, analog_keys_probe.
    + rewrite (u32_small (index + 1)) by lia.
      rewrite (usize_small (first + index)) by lia.
      destruct (IH first (index + 1) (<[Z.to_nat index := ch_index ch]> map)
                  (g_key_file_set meta devgroup
                     ("analog" ++ decimal (first + index))
                     (V_string (ch_name ch)))) as (meta' & Hn & Hk);
        try done; try lia.
      { rewrite length_insert. lia. }
      exists meta'. split.
      * rewrite Hn. cbn [negb]. f_equal. f_equal; [lia|].
        replace (Z.to_nat (index + 1)) with (S (Z.to_nat index)) by lia.
        destruct (lookup_lt_is_Some_2 map (Z.to_nat index)) as [x Hx]; [lia|].
        erewrite take_S_r by (rewrite list_lookup_insert_eq; [done|lia]).
        rewrite take_insert_ge by lia. rewrite <- app_assoc. simpl.
        do 3 f_equal.
        replace (index + 1 + count_of is_enabled_analog l)
          with (index + (1 + count_of is_enabled_analog l)) by lia.
        apply drop_insert_lt. lia.
      * rewrite Hk, analog_keys_analog. rewrite <- app_assoc. f_equal.
        cbn [length seq zip_with].
        replace (Z.to_nat (index + 1)) with (S (Z.to_nat index)) by lia.
        cbn [app]. do 2 f_equal. unfold analog_key. do 3 f_equal. lia.
    + destruct (IH first index map meta) as (meta' & Hn & Hk); try done.
      exists meta'. by split.
    + destruct (IH first index map meta) as (meta' & Hn & Hk); try done.
      exists meta'. by split.
Qed.

Lemma g_try_malloc0_trace w n :
  trace (g_try_malloc0 w n).2 = trace w /\
  io_script (g_try_malloc0 w n).2 = io_script w.
Proof.
  unfold g_try_malloc0. destruct (n =? 0); [done|].
  by destruct (next_answer (malloc_script w)).
Qed.

Lemma alloc_analog_buffs_trace todo : forall index bufs w,
  trace (alloc_analog_buffs todo index bufs w).2 = trace w /\
  io_script (alloc_analog_buffs todo index bufs w).2 = io_script w.
Proof.
  induction todo as [|todo IH]; intros index bufs w; [done|].
  cbn [alloc_analog_buffs].
  pose proof (g_try_malloc0_trace w CHUNK_SIZE) as [Ht Hs].
  destruct (g_try_malloc0 w CHUNK_SIZE) as [[] w1]; cbn [negb]; [|done].
  simpl in Ht, Hs. rewrite <- Ht, <- Hs. apply IH.
Qed.

Lemma alloc_analog_buffs_ok todo : forall index bufs w bufs' w',
  alloc_analog_buffs todo index bufs w = (SR_OK, bufs', w') ->
  0 <= index ->
  index + Z.of_nat todo < 2 ^ 32 ->
  (Z.to_nat index + todo <= length bufs)%nat ->
  bufs' =
  take (Z.to_nat index) bufs ++ replicate todo new_analog_buff ++
  drop (Z.to_nat index + todo) bufs.
Proof.
  induction todo as [|todo IH]; intros index bufs w bufs' w' H Hidx Hmax Hlen.
  - injection H as <- _. simpl. by rewrite Nat.add_0_r, take_drop.
  - cbn [alloc_analog_buffs] in H.
    destruct (g_try_malloc0 w CHUNK_SIZE) as [[] w1]; cbn [negb] in H; [|done].
    rewrite u32_small in H by lia.
    apply IH in H; [| lia | lia | rewrite length_insert; lia].
    subst bufs'.
    replace (Z.to_nat (index + 1)) with (S (Z.to_nat index)) by lia.
    destruct (lookup_lt_is_Some_2 bufs (Z.to_nat index)) as [x Hx]; [lia|].
    erewrite take_S_r by (rewrite list_lookup_insert_eq; [done|lia]).
    rewrite take_insert_ge by lia. rewrite <- app_assoc. simpl.
    do 2 f_equal. fold new_analog_buff. f_equal.
    rewrite drop_insert_lt by lia. f_equal. lia.
Qed.

(** What a successful [dir_create] has done. *)
Lemma dir_create_ok sdi s s' :
  dir_create sdi s = (SR_OK, s') ->
  let c := count_channels (channels sdi) (mk_counts 0 0 0) in
  let first :=
    if 0 <? enabled_logic_channels c then u32 (logic_channels c + 1) else 1 in
  let unit_size := usize (usize (logic_channels c + (8 - 1)) / 8) in
  let alloc_size :=
    if unit_size =? 0 then CHUNK_SIZE else CHUNK_SIZE / unit_size in
  let count := enabled_analog_channels c in
  exists rate head index map meta tail,
    analog_keys head = [] /\
    analog_keys tail = [] /\
    name_channels (channels sdi) first 0 (replicate (Z.to_nat count) 0) head =
      (index, map, meta) /\
    ctx s' =
      mk_out_context (dir_created (ctx s)) rate (filename (ctx s)) first count
        map (mk_logic_buff unit_size alloc_size (fun _ => x00) 0 1)
        (replicate (Z.to_nat count) new_analog_buff) /\
    trace (env s') =
      trace (env s) ++
      [E_mkdir (filename (ctx s)) true; E_chdir (filename (ctx s)) true;
       E_write F_version (P_bytes [x32]) true;
       E_write F_metadata (P_keyfile (meta ++ tail)) true].
Proof.
  unfold dir_create.
  set (outc := if samplerate (ctx s) =? 0 then _ else _).
  assert (Hname : filename outc = filename (ctx s)).
  { subst outc. destruct (samplerate (ctx s) =? 0); [|done].
    by destruct (conf_samplerate sdi). }
  assert (Hdc : dir_created outc = dir_created (ctx s)).
  { subst outc. destruct (samplerate (ctx s) =? 0); [|done].
    by destruct (conf_samplerate sdi). }
  unfold g_mkdir, g_chdir, write_file.
  destruct (next_answer (io_script (env s))) as [[] r1]; cbn [negb]; [|done].
  cbn [io_script trace malloc_script].
  destruct (next_answer r1) as [[] r2]; cbn [negb]; [|done].
  cbn [io_script trace malloc_script].
  destruct (next_answer r2) as [[] r3]; cbn [negb]; [|done].
  set (c := count_channels (channels sdi) (mk_counts 0 0 0)).
  set (first := if 0 <? enabled_logic_channels c then _ else _).
  set (head := g_key_file_set (g_key_file_set _ _ _ _) _ _ _).
  destruct (name_channels (channels sdi) first 0
              (replicate (Z.to_nat (enabled_analog_channels c)) 0) head)
    as [[index map] meta] eqn:Hnc.
  set (unit_size := usize (usize (logic_channels c + (8 - 1)) / 8)).
  set (w3 := mk_world _ r3 _).
  pose proof (g_try_malloc0_trace w3 CHUNK_SIZE) as [Ht4 Hs4].
  destruct (g_try_malloc0 w3 CHUNK_SIZE) as [[] w4]; cbn [negb]; [|done].
  cbn [snd] in Ht4, Hs4.
  pose proof (alloc_analog_buffs_trace (Z.to_nat (enabled_analog_channels c)) 0
                (replicate (Z.to_nat (enabled_analog_channels c))
                   zero_analog_buff) w4) as [Ht5 Hs5].
  destruct (alloc_analog_buffs _ 0 _ w4) as [[ret bufs] w5] eqn:Ha.
  cbn [snd] in Ht5, Hs5.
  destruct ret; cbn [is_ok negb]; try done.
  apply alloc_analog_buffs_ok in Ha.
  2: lia.
  2:{ pose proof (u32_range 0).
      assert (0 <= enabled_analog_channels c < 2 ^ 32); [|lia].
      subst c. rewrite (count_channels_spec _ _ 0 0 0) by done. apply u32_range. }
  2:{ rewrite length_replicate. lia. }
  rewrite take_0, drop_ge in Ha by (rewrite length_replicate; lia).
  rewrite app_nil_r in Ha. simpl in Ha. subst bufs.
  destruct (next_answer (io_script w5)) as [[] r6]; cbn [negb]; [|done].
  intros [= <-].
  exists (samplerate outc), head, index, map, meta,
    (if 0 <? unit_size
     then [(devgroup, "unitsize"%string, V_integer unit_size)] else []).
  split; [|split; [|split; [|split]]].
  - subst head. unfold g_key_file_set. rewrite !analog_keys_app.
    by destruct (0 <? enabled_logic_channels c).
  - by destruct (0 <? unit_size).
  - done.
  - cbn [ctx]. unfold with_analog_buff, with_logic_buff, with_layout.
    cbn [dir_created samplerate filename first_analog_index analog_ch_count
         analog_index_map logic_buff_of analog_buff_of].
    by rewrite Hname, Hdc.
  - cbn [env trace]. rewrite Ht5, Ht4. subst w3. cbn [trace].
    rewrite Hname, <- !app_assoc. cbn [app]. do 5 f_equal.
    unfold g_key_file_set. destruct (0 <? unit_size); [done|].
    by rewrite app_nil_r.
Qed.

(** ** C2: the numbering of the analog channels *)

(** C2. Let the channel list (shorter than the range of the 32-bit
    counters) have [L] logic channels, [E] of them enabled, and [A] enabled
    analog channels. A [dir_create] that succeeds leaves
    [first_analog_index = L + 1] when [E > 0] and [1] otherwise, the count
    [A], and an index map whose slot [k] holds the channel index of the
    [k]-th enabled analog channel; the key file it writes names that
    channel [analog<first_analog_index + k>]. For the empty list the count
    is 0, the map is empty and the first number is 1. *)
Theorem channel_layout sdi s s' :
  let l := channels sdi in
  let L := count_of is_logic l in
  let E := count_of is_enabled_logic l in
  let A := count_of is_enabled_analog l in
  Z.of_nat (length l) < 2 ^ 32 - 1 ->
  dir_create sdi s = (SR_OK, s') ->
  first_analog_index (ctx s') = (if 0 <? E then L + 1 else 1) /\
  analog_ch_count (ctx s') = A /\
  analog_index_map (ctx s') =
    List.map ch_index (List.filter is_enabled_analog l) /\
  (exists meta,
     last (trace (env s')) = Some (E_write F_metadata (P_keyfile meta) true) /\
     analog_keys meta =
       zip_with (analog_key (first_analog_index (ctx s')))
         (seq 0 (Z.to_nat A)) (List.filter is_enabled_analog l)) /\
  (l = [] ->
   first_analog_index (ctx s') = 1 /\ analog_ch_count (ctx s') = 0 /\
   analog_index_map (ctx s') = []).
Proof.
  intros l L E A Hlen Hok.
  destruct (dir_create_ok _ _ _ Hok)
    as (rate & head & index & map & meta & tail & Hhead & Htail & Hnc & Hctx & Htr).
  fold l in Hnc, Hctx.
  rewrite (count_channels_exact l) in Hnc, Hctx by lia.
  cbn [logic_channels enabled_logic_channels enabled_analog_channels]
    in Hnc, Hctx.
  fold L E A in Hnc, Hctx.
  pose proof (count_of_le is_logic l). pose proof (count_of_nonneg is_logic l).
  pose proof (count_of_le is_enabled_analog l).
  pose proof (count_of_nonneg is_enabled_analog l).
  fold L in H, H0. fold A in H1, H2.
  rewrite (u32_small (L + 1)) in Hnc, Hctx by lia.
  set (first := if 0 <? E then L + 1 else 1) in *.
  assert (Hfirst : 0 <= first <= 2 ^ 32).
  { subst first. destruct (0 <? E); lia. }
  destruct (name_channels_spec l first 0 (replicate (Z.to_nat A) 0) head)
    as (meta' & Hspec & Hkeys); try done; try (fold A; lia).
  { fold A. rewrite length_replicate. lia. }
  rewrite Hnc in Hspec. injection Hspec as _ Hmap <-.
  fold A in Hmap. rewrite Z.add_0_l in Hmap.
  change (Z.to_nat 0) with 0%nat in Hmap, Hkeys.
  rewrite drop_ge, app_nil_r in Hmap by (rewrite length_replicate; lia).
  assert (Hm : analog_index_map (ctx s') =
               List.map ch_index (List.filter is_enabled_analog l))
    by (by rewrite Hctx).
  assert (Hf : first_analog_index (ctx s') = first) by (by rewrite Hctx).
  assert (Hc : analog_ch_count (ctx s') = A) by (by rewrite Hctx).
  split; [done|]. split; [done|]. split; [done|]. split.
  - exists (meta ++ tail). split.
    + by rewrite Htr, last_app.
    + rewrite analog_keys_app, Htail, Hkeys, Hhead, app_nil_r, Hf. cbn [app].
      do 2 f_equal. unfold A, count_of. lia.
  - intros Hnil. rewrite Hf, Hc, Hm. subst first E A. rewrite Hnil. done.
Qed.

Lemma channel_layout_witness :
  let s := mk_state (zero_context "capture") (world_of []) in
  let s' := (dir_create (device 3 2) s).2 in
  first_analog_index (ctx s') = 4 /\
  analog_ch_count (ctx s') = 2 /\
  analog_index_map (ctx s') = [3; 4] /\
  (exists meta,
     last (trace (env s')) = Some (E_write F_metadata (P_keyfile meta) true) /\
     analog_keys meta =
       [("analog4"%string, V_string "A"); ("analog5"%string, V_string "A")]) /\
  (channels (device 3 2) = [] ->
   first_analog_index (ctx s') = 1 /\ analog_ch_count (ctx s') = 0 /\
   analog_index_map (ctx s') = []).
Proof.
  apply (channel_layout (device 3 2)
           (mk_state (zero_context "capture") (world_of []))).
  - vm_compute. reflexivity.
  - reflexivity.
Defined.

(** ** C5: the sizes of the buffers *)

(** C5 (as amended). With [L > 0] logic channels a successful [dir_create]
    sets the unit size to [(L + 7) / 8], the least number of bytes that
    hold [L] bits, and the capacity to the whole part of
    [CHUNK_SIZE / unit_size]: capacity times unit size is at most 4 MiB and
    misses it by less than one sample; it is exactly 4 MiB if and only if
    the unit size divides 4 MiB. Every analog buffer has room for
    4 MiB / 4 = 1048576 floats. *)
Theorem buffer_capacity sdi s s' :
  let L := count_of is_logic (channels sdi) in
  let b := logic_buff_of (ctx s') in
  0 < L ->
  Z.of_nat (length (channels sdi)) < 2 ^ 32 ->
  dir_create sdi s = (SR_OK, s') ->
  lb_unit_size b = (L + 7) / 8 /\
  8 * (lb_unit_size b - 1) < L <= 8 * lb_unit_size b /\
  lb_alloc_size b = CHUNK_SIZE / lb_unit_size b /\
  CHUNK_SIZE - lb_unit_size b < lb_alloc_size b * lb_unit_size b <= CHUNK_SIZE /\
  (lb_alloc_size b * lb_unit_size b = CHUNK_SIZE <->
   CHUNK_SIZE mod lb_unit_size b = 0) /\
  CHUNK_SIZE = 4194304 /\
  Forall (fun ab => ab_alloc_size ab = CHUNK_SIZE / sizeof_float /\
                    ab_alloc_size ab = 1048576)
    (analog_buff_of (ctx s')).
Proof.
  intros L b HL Hlen Hok.
  destruct (dir_create_ok _ _ _ Hok)
    as (rate & head & index & map & meta & tail & _ & _ & _ & Hctx & _).
  rewrite (count_channels_exact (channels sdi)) in Hctx by lia.
  cbn [logic_channels enabled_logic_channels enabled_analog_channels] in Hctx.
  fold L in Hctx.
  pose proof (count_of_le is_logic (channels sdi)) as HLle. fold L in HLle.
  assert (Hu : usize (usize (L + (8 - 1)) / 8) = (L + 7) / 8).
  { rewrite (usize_small (L + (8 - 1))) by lia.
    replace (L + (8 - 1)) with (L + 7) by lia.
    apply usize_small. split; [apply Z.div_pos; lia|].
    apply Z.div_lt_upper_bound; lia. }
  rewrite Hu in Hctx.
  assert (Hpos : 0 < (L + 7) / 8).
  { apply Z.div_str_pos. lia. }
  assert (Hb : b = mk_logic_buff ((L + 7) / 8) (CHUNK_SIZE / ((L + 7) / 8))
                     (fun _ => x00) 0 1).
  { subst b. rewrite Hctx. cbn [logic_buff_of].
    by destruct (Z.eqb_spec ((L + 7) / 8) 0); [lia|]. }
  rewrite Hb. cbn [lb_unit_size lb_alloc_size].
  set (u := (L + 7) / 8) in *.
  pose proof (Z.div_mod (L + 7) 8) as Hdm. fold u in Hdm.
  pose proof (Z.mod_pos_bound (L + 7) 8) as Hmb.
  pose proof (Z.div_mod CHUNK_SIZE u) as Hcd.
  pose proof (Z.mod_pos_bound CHUNK_SIZE u) as Hcb.
  split; [done|]. split; [lia|]. split; [done|]. split; [lia|].
  split; [lia|]. split; [done|].
  rewrite Hctx. cbn [analog_buff_of]. apply Forall_replicate. by split.
Qed.

Lemma buffer_capacity_witness :
  let s' := (dir_create (device 9 2)
               (mk_state (zero_context "capture") (world_of []))).2 in
  let b := logic_buff_of (ctx s') in
  lb_unit_size b = (9 + 7) / 8 /\
  8 * (lb_unit_size b - 1) < 9 <= 8 * lb_unit_size b /\
  lb_alloc_size b = CHUNK_SIZE / lb_unit_size b /\
  CHUNK_SIZE - lb_unit_size b < lb_alloc_size b * lb_unit_size b <= CHUNK_SIZE /\
  (lb_alloc_size b * lb_unit_size b = CHUNK_SIZE <->
   CHUNK_SIZE mod lb_unit_size b = 0) /\
  CHUNK_SIZE = 4194304 /\
  Forall (fun ab => ab_alloc_size ab = CHUNK_SIZE / sizeof_float /\
                    ab_alloc_size ab = 1048576)
    (analog_buff_of (ctx s')).
Proof.
  apply (buffer_capacity (device 9 2)
           (mk_state (zero_context "capture") (world_of []))).
  - vm_compute. reflexivity.
  - vm_compute. reflexivity.
  - reflexivity.
Defined.

(** C5 as stated fails. Seventeen logic channels need 3 bytes a sample; the
    capacity is 1398101 samples, which is 4194303 bytes, not 4 MiB. *)
Lemma buffer_capacity_counterexample :
  let sdi := device 17 0 in
  let r := dir_create sdi (mk_state (zero_context "capture") (world_of [])) in
  let b := logic_buff_of (ctx r.2) in
  count_of is_logic (channels sdi) = 17 /\
  r.1 = SR_OK /\
  lb_unit_size b = 3 /\
  lb_alloc_size b = 1398101 /\
  lb_alloc_size b * lb_unit_size b = 4194303 /\
  lb_alloc_size b * lb_unit_size b <> 4194304.
Proof. repeat split; vm_compute; done. Qed.

(** ** C8 and C10: analog packets that are turned down *)

Lemma find_slot_spec todo : forall idx map ch_idx,
  0 <= idx ->
  idx + Z.of_nat todo < 2 ^ 64 ->
  (Z.to_nat idx + todo <= length map)%nat ->
  exists r,
    find_slot todo idx map ch_idx = Some r /\
    idx <= r <= idx + Z.of_nat todo /\
    (r < idx + Z.of_nat todo -> map !! Z.to_nat r = Some ch_idx).
Proof.
  induction todo as [|todo IH]; intros idx map ch_idx Hidx Hmax Hlen.
  - exists idx. split; [done|]. split; lia.
  - cbn [find_slot].
    destruct (lookup_lt_is_Some_2 map (Z.to_nat idx)) as [v Hv]; [lia|].
    rewrite Hv. destruct (Z.eqb_spec v ch_idx) as [->|Hne].
    + exists idx. split; [done|]. split; [lia|done].
    + rewrite usize_small by lia.
      destruct (IH (idx + 1) map ch_idx) as (r & Hr & Hrange & Hfound);
        try lia.
      exists r. split; [done|]. split; [lia|]. intros Hlt. apply Hfound. lia.
Qed.

(** The search answers [analog_ch_count] for a channel that the map does
    not hold. *)
Lemma find_slot_absent c ch_idx :
  index_map_wf c ->
  ch_idx ∉ analog_index_map c ->
  find_slot (Z.to_nat (analog_ch_count c)) 0 (analog_index_map c) ch_idx =
  Some (analog_ch_count c).
Proof.
  intros [Hcount Hmax] Habsent.
  destruct (find_slot_spec (Z.to_nat (analog_ch_count c)) 0
              (analog_index_map c) ch_idx) as (r & Hr & Hrange & Hfound);
    try lia.
  rewrite Hr. f_equal.
  destruct (decide (r < 0 + Z.of_nat (Z.to_nat (analog_ch_count c))))
    as [Hlt|Hge]; [|lia].
  destruct Habsent. eapply list_elem_of_lookup_2. by apply Hfound.
Qed.

(** C8. A call that queues an analog packet which names no channel, or more
    than one, answers SR_ERR (the code libsigrok has for it; the log says
    that such packets are not supported yet) and leaves the state as it
    was: no fill, chunk number or file changes. A packet whose one channel
    is not in the index map is answered with SR_ERR_ARG, the state again
    untouched. *)
Theorem analog_packet_rejected
    (sr_analog_to_float : sr_datafeed_analog -> sr_error_code * list float32)
    s a flush :
  index_map_wf (ctx s) ->
  (length (meaning_channels a) <> 1%nat ->
   dir_append_analog_queue sr_analog_to_float s (Some a) flush =
   Returns (SR_ERR, s)) /\
  (forall ch,
     meaning_channels a = [ch] ->
     ch_index ch ∉ analog_index_map (ctx s) ->
     dir_append_analog_queue sr_analog_to_float s (Some a) flush =
     Returns (SR_ERR_ARG, s)).
Proof.
  intros Hwf. split.
  - intros Hlen. unfold dir_append_analog_queue.
    by destruct (meaning_channels a) as [|ch [|ch' rest]].
  - intros ch Hch Habsent. unfold dir_append_analog_queue.
    rewrite Hch, (find_slot_absent _ _ Hwf Habsent). by rewrite Z.eqb_refl.
Qed.

(** C10. When a call that queues an analog packet gives up early, for any
    of the four reasons of [fails_early], it returns an error, and the
    context (every fill, every chunk number) and the files are as they were
    before the call. *)
Theorem analog_failure_atomic
    (sr_analog_to_float : sr_datafeed_analog -> sr_error_code * list float32)
    s a flush :
  index_map_wf (ctx s) ->
  fails_early sr_analog_to_float s a ->
  exists ret s',
    dir_append_analog_queue sr_analog_to_float s (Some a) flush =
      Returns (ret, s') /\
    ret <> SR_OK /\
    ctx s' = ctx s /\
    trace (env s') = trace (env s) /\
    io_script (env s') = io_script (env s).
Proof.
  intros Hwf Hearly. unfold dir_append_analog_queue.
  destruct (meaning_channels a) as [|ch [|ch' rest]] eqn:Hch.
  - by exists SR_ERR, s.
  - destruct Hwf as [Hcount Hmax].
    destruct (find_slot_spec (Z.to_nat (analog_ch_count (ctx s))) 0
                (analog_index_map (ctx s)) (ch_index ch))
      as (r & Hr & Hrange & Hfound); try lia.
    rewrite Hr.
    destruct (Z.eqb_spec r (analog_ch_count (ctx s))) as [_|Hslot].
    { by exists SR_ERR_ARG, s. }
    pose proof (g_try_malloc0_trace (env s)
                  (usize (num_samples a * sizeof_float))) as [Ht Hs].
    destruct (g_try_malloc0 (env s) (usize (num_samples a * sizeof_float)))
      as [[] w] eqn:Hm; cbn [negb snd] in *.
    2:{ by exists SR_ERR_MALLOC, (mk_state (ctx s) w). }
    destruct (sr_analog_to_float a) as [ret values] eqn:Hconv.
    destruct ret; cbn [is_ok negb].
    2-4: eexists _, (mk_state (ctx s) w); by repeat split.
    exfalso. destruct Hearly as [Hlen|[(ch0 & Hch0 & Habsent)|[Hf|Hf]]].
    + by rewrite Hch in Hlen.
    + rewrite Hch in Hch0. injection Hch0 as <-.
      destruct Habsent. eapply list_elem_of_lookup_2. apply Hfound. lia.
    + by rewrite Hm in Hf.
    + by rewrite Hconv in Hf.
  - by exists SR_ERR, s.
Qed.

Lemma analog_packet_rejected_witness :
  let s := opened (device 0 1) (world_of []) in
  dir_append_analog_queue bytes_to_float s
    (Some (mk_analog [x01] 1 [])) false = Returns (SR_ERR, s) /\
  dir_append_analog_queue bytes_to_float s
    (Some (mk_analog [x01] 1 [analog_channel 7])) false =
  Returns (SR_ERR_ARG, s).
Proof.
  intros s.
  assert (Hwf : index_map_wf (ctx s)) by (split; vm_compute; done).
  split.
  - apply (analog_packet_rejected bytes_to_float s
             (mk_analog [x01] 1 []) false Hwf).
    simpl. lia.
  - apply (proj2 (analog_packet_rejected bytes_to_float s
                    (mk_analog [x01] 1 [analog_channel 7]) false Hwf)
             (analog_channel 7)); [reflexivity|].
    apply not_elem_of_cons. split; [done | apply not_elem_of_nil].
Defined.

Lemma analog_failure_atomic_witness :
  let s := opened (device 0 1) (world_of []) in
  exists ret s',
    dir_append_analog_queue bytes_to_float s
      (Some (mk_analog [] 1 [analog_channel 0])) true = Returns (ret, s') /\
    ret <> SR_OK /\
    ctx s' = ctx s /\
    trace (env s') = trace (env s) /\
    io_script (env s') = io_script (env s).
Proof.
  intros s.
  apply (analog_failure_atomic bytes_to_float s
           (mk_analog [] 1 [analog_channel 0]) true).
  - split; vm_compute; done.
  - right. right. right. reflexivity.
Defined.

(** ** C4: chunk numbers *)

(** Both counters start at 1. *)
Lemma chunk_numbers_start_at_1 sdi s s' :
  dir_create sdi s = (SR_OK, s') ->
  lb_next_chunk_num (logic_buff_of (ctx s')) = 1 /\
  Forall (fun b => ab_next_chunk_num b = 1) (analog_buff_of (ctx s')).
Proof.
  intros Hok.
  destruct (dir_create_ok _ _ _ Hok)
    as (rate & head & index & map & meta & tail & _ & _ & _ & Hctx & _).
  rewrite Hctx. split; [done|]. simpl. by apply Forall_replicate.
Qed.

(** The logic path: the number advances by one, modulo 2^32, with a write
    that succeeds, and stays with a write that fails. *)
Lemma dir_append_chunk_number s buf unitsize length ret s' :
  length <> 0 ->
  dir_append s buf unitsize length = Returns (ret, s') ->
  let n := lb_next_chunk_num (logic_buff_of (ctx s)) in
  let n' := lb_next_chunk_num (logic_buff_of (ctx s')) in
  exists ok,
    trace (env s') =
      trace (env s) ++ [E_write (F_logic n) (P_bytes (load buf length)) ok] /\
    ret = (if ok then SR_OK else SR_ERR) /\
    n' = (if ok then u32 (n + 1) else n).
Proof.
  intros Hlen. unfold dir_append.
  destruct (Z.eqb_spec length 0) as [|_]; [done|].
  destruct (unitsize =? 0); [done|].
  pose proof (write_file_trace (env s)
                (F_logic (lb_next_chunk_num (logic_buff_of (ctx s))))
                (P_bytes (load buf length))) as [Ht _].
  destruct (write_file _ _ _) as [[] w]; cbn [negb fst snd] in *;
    intros [= <- <-]; eexists; by repeat split.
Qed.

(** The analog path: the number advances by one, modulo 2^32, whether the
    write succeeds or fails. *)
Lemma dir_append_analog_chunk_number s values count ch_nr ret s' :
  dir_append_analog s values count ch_nr = Returns (ret, s') ->
  let slot := Z.to_nat (usize (ch_nr - first_analog_index (ctx s))) in
  exists buff ok,
    analog_buff_of (ctx s) !! slot = Some buff /\
    trace (env s') =
      trace (env s) ++
      [E_write (F_analog ch_nr (ab_next_chunk_num buff))
         (P_floats (load values (usize (sizeof_float * count) / sizeof_float)))
         ok] /\
    ret = (if ok then SR_OK else SR_ERR) /\
    analog_buff_of (ctx s') =
      <[slot := ab_with_next_chunk_num buff (u32 (ab_next_chunk_num buff + 1))]>
        (analog_buff_of (ctx s)) /\
    with_analog_buff (ctx s') (analog_buff_of (ctx s)) = ctx s /\
    io_script (env s') = tail (io_script (env s)).
Proof.
  intros H slot. unfold dir_append_analog in H. fold slot in H.
  destruct (analog_buff_of (ctx s) !! slot) as [buff|] eqn:Hb; [|done].
  unfold write_file, next_answer in H.
  exists buff.
  destruct (io_script (env s)) as [|ok rest]; injection H as <- <-.
  - exists true. repeat split; try done. by destruct (ctx s).
  - exists ok. repeat split; try done. by destruct (ctx s).
Qed.

(** C4 breaks on the analog path. One analog channel, five samples in its
    buffer, and the write of the chunk at the end of the stream fails
    (the fifth file operation of the session): [receive] answers SR_ERR, no
    chunk was written, the samples are still in the buffer, and the next
    chunk number went from 1 to 2 all the same. *)
Lemma analog_chunk_number_advances_on_failure :
  let s0 := opened (device 0 1) (world_of [true; true; true; true; false]) in
  let packet := mk_analog [x01; x02; x03; x04; x05] 5 [analog_channel 0] in
  let s :=
    after s0 (dir_append_analog_queue bytes_to_float s0 (Some packet) false) in
  let r := receive_packet bytes_to_float (device 0 1) s SR_DF_END in
  analog_state_of s = [(5, 1)] /\
  events_of s r =
    Some (SR_ERR, [E_write (F_analog 1 1) (P_floats [1; 2; 3; 4; 5]) false]) /\
  analog_state_of (after s r) = [(5, 2)].
Proof. repeat split; vm_compute; done. Qed.

(** The same failure on the logic path leaves the number alone. *)
Lemma logic_chunk_number_stays_on_failure :
  let s0 := opened (device 8 0) (world_of [true; true; true; true; false]) in
  let s := after s0 (dir_append_queue s0 [x01; x02; x03] 1 3 false) in
  let r := receive_packet bytes_to_float (device 8 0) s SR_DF_END in
  logic_state_of (Returns (SR_OK, s)) = Some (SR_OK, 3, 1) /\
  events_of s r =
    Some (SR_ERR, [E_write (F_logic 1) (P_bytes [x01; x02; x03]) false]) /\
  logic_state_of r = Some (SR_ERR, 3, 1).
Proof. repeat split; vm_compute; done. Qed.

(** ** What the queue calls do to the files, whatever fails *)

Lemma is_chunk_write_nonempty e : is_chunk_write e -> chunk_nonempty e.
Proof. destruct e as [| |f p ok]; try done. by intros [_ H] _. Qed.

Lemma is_chunk_write_not_mkdir e : is_chunk_write e -> is_mkdir e = false.
Proof. by destruct e. Qed.

Lemma only_chunks_same s s' :
  trace (env s') = trace (env s) -> only_chunks s s'.
Proof. intros H. exists []. by rewrite app_nil_r. Qed.

Lemma only_chunks_refl s : only_chunks s s.
Proof. by apply only_chunks_same. Qed.

Lemma only_chunks_trans s1 s2 s3 :
  only_chunks s1 s2 -> only_chunks s2 s3 -> only_chunks s1 s3.
Proof.
  intros (n1 & H1 & F1) (n2 & H2 & F2). exists (n1 ++ n2). split.
  - by rewrite H2, H1, app_assoc.
  - by apply Forall_app_2.
Qed.

Lemma logic_frame_refl s : logic_frame s s.
Proof. split; [by destruct (ctx s) | apply only_chunks_refl]. Qed.

Lemma logic_frame_trans s1 s2 s3 :
  logic_frame s1 s2 -> logic_frame s2 s3 -> logic_frame s1 s3.
Proof.
  intros [H1 T1] [H2 T2]. split; [|by eapply only_chunks_trans].
  rewrite H2, H1. done.
Qed.

Lemma dir_append_frame s buf unitsize length ret s' :
  0 <= length ->
  dir_append s buf unitsize length = Returns (ret, s') ->
  logic_frame s s'.
Proof.
  intros Hlen. unfold dir_append.
  destruct (Z.eqb_spec length 0) as [|Hne].
  { intros [= <- <-]. apply logic_frame_refl. }
  destruct (unitsize =? 0); [done|].
  pose proof (write_file_trace (env s)
                (F_logic (lb_next_chunk_num (logic_buff_of (ctx s))))
                (P_bytes (load buf length))) as [Ht _].
  assert (Hev : forall ok,
    Forall is_chunk_write
      [E_write (F_logic (lb_next_chunk_num (logic_buff_of (ctx s))))
         (P_bytes (load buf length)) ok]).
  { intros ok. constructor; [|done]. split; [done|]. simpl.
    rewrite length_load. lia. }
  destruct (write_file _ _ _) as [[] w]; cbn [negb fst snd] in *;
    intros [= <- <-]; (split; [by destruct (ctx s) | by eexists]).
Qed.

Lemma set_logic_fill_frame s fill : logic_frame s (set_logic_fill s fill).
Proof. split; [done | by apply only_chunks_same]. Qed.

Lemma queue_loop_frame fuel : forall s rd send_size ret s',
  queue_loop fuel s rd send_size = Returns (ret, s') -> logic_frame s s'.
Proof.
  induction fuel as [|fuel IH]; intros s rd send_size ret s'.
  - simpl. destruct (send_size =? 0); [|done].
    intros [= <- <-]. apply logic_frame_refl.
  - cbn [queue_loop]. destruct (send_size =? 0).
    { intros [= <- <-]. apply logic_frame_refl. }
    set (b := logic_buff_of (ctx s)).
    destruct (negb (usize (lb_alloc_size b - lb_fill_size b) =? 0)).
    + set (s1 := mk_state _ _).
      assert (H1 : logic_frame s s1) by (split; [done | by apply only_chunks_same]).
      destruct (_ && _).
      * destruct (dir_append s1 _ _ _) as [[ret2 s2]| |] eqn:Happ; try done.
        apply dir_append_frame in Happ; [|apply usize_range].
        destruct (negb (is_ok ret2)).
        -- intros [= <- <-]. by eapply logic_frame_trans.
        -- intros H%IH. eapply logic_frame_trans; [exact H1|].
           eapply logic_frame_trans; [exact Happ|].
           eapply logic_frame_trans; [apply set_logic_fill_frame | exact H].
      * intros H%IH. by eapply logic_frame_trans.
    + destruct (_ && _).
      * destruct (dir_append s _ _ _) as [[ret2 s2]| |] eqn:Happ; try done.
        apply dir_append_frame in Happ; [|apply usize_range].
        destruct (negb (is_ok ret2)).
        -- by intros [= <- <-].
        -- intros H%IH. eapply logic_frame_trans; [exact Happ|].
           eapply logic_frame_trans; [apply set_logic_fill_frame | exact H].
      * apply IH.
Qed.

Lemma dir_append_queue_frame s buf unitsize length flush ret s' :
  dir_append_queue s buf unitsize length flush = Returns (ret, s') ->
  logic_frame s s'.
Proof.
  unfold dir_append_queue. destruct (_ && _).
  { intros [= <- <-]. apply logic_frame_refl. }
  destruct (queue_loop _ s buf _) as [[ret1 s1]| |] eqn:Hq; try done.
  apply queue_loop_frame in Hq.
  destruct (negb (is_ok ret1)); [by intros [= <- <-]|].
  destruct (_ && _); [|by intros [= <- <-]].
  destruct (dir_append s1 _ _ _) as [[ret2 s2]| |] eqn:Happ; try done.
  apply dir_append_frame in Happ; [|apply usize_range].
  destruct (negb (is_ok ret2)); intros [= <- <-].
  - by eapply logic_frame_trans.
  - eapply logic_frame_trans; [exact Hq|].
    eapply logic_frame_trans; [exact Happ | apply set_logic_fill_frame].
Qed.

Lemma with_analog_buff_same c : with_analog_buff c (analog_buff_of c) = c.
Proof. by destruct c. Qed.

Lemma analog_frame_refl s : analog_wf (ctx s) -> analog_frame s s.
Proof.
  intros Hwf. split; [done | by rewrite with_analog_buff_same |].
  apply only_chunks_refl.
Qed.

Lemma analog_frame_trans s1 s2 s3 :
  analog_frame s1 s2 -> analog_frame s2 s3 -> analog_frame s1 s3.
Proof.
  intros [_ H1 T1] [W2 H2 T2]. split; [done| |by eapply only_chunks_trans].
  rewrite H2, H1. done.
Qed.

(** Putting a well-formed buffer into a slot keeps the context well
    formed. *)
Lemma analog_wf_insert c i b :
  analog_wf c -> fresh_analog_buff b ->
  analog_wf (with_analog_buff c (<[i := b]> (analog_buff_of c))).
Proof.
  intros [Hf Hc Hs Hb] Hfresh. split; simpl; try done.
  - by rewrite length_insert.
  - by apply Forall_insert.
Qed.

Lemma analog_slot c idx :
  analog_wf c -> 0 <= idx < analog_ch_count c ->
  exists buff,
    analog_buff_of c !! Z.to_nat idx = Some buff /\ fresh_analog_buff buff /\
    usize (usize (first_analog_index c + idx) - first_analog_index c) = idx.
Proof.
  intros [Hf Hc Hs Hb] Hidx.
  destruct (lookup_lt_is_Some_2 (analog_buff_of c) (Z.to_nat idx))
    as [buff Hbuff]; [lia|].
  exists buff. split; [done|]. split.
  - eapply Forall_lookup_1; eauto.
  - rewrite (usize_small (first_analog_index c + idx)) by lia.
    rewrite usize_small; lia.
Qed.

Lemma fresh_alloc b : fresh_analog_buff b -> ab_alloc_size b = 1048576.
Proof. by intros [-> _]. Qed.

(** A chunk of the buffer in slot [idx], which holds samples. *)
Lemma dir_append_analog_frame s idx buff values ret s' :
  analog_wf (ctx s) ->
  0 <= idx < analog_ch_count (ctx s) ->
  analog_buff_of (ctx s) !! Z.to_nat idx = Some buff ->
  0 < ab_fill_size buff ->
  dir_append_analog s values (ab_fill_size buff)
    (usize (first_analog_index (ctx s) + idx)) = Returns (ret, s') ->
  analog_frame s s' /\
  analog_buff_of (ctx s') !! Z.to_nat idx =
    Some (ab_with_next_chunk_num buff (u32 (ab_next_chunk_num buff + 1))).
Proof.
  intros Hwf Hidx Hbuff Hfill Happ.
  destruct (analog_slot _ _ Hwf Hidx) as (buff0 & Hb0 & Hfresh & Hslot).
  rewrite Hbuff in Hb0. injection Hb0 as <-.
  apply dir_append_analog_chunk_number in Happ
    as (buff1 & ok & Hb1 & Htr & _ & Hbufs & Hctx & _).
  rewrite Hslot, Hbuff in Hb1. injection Hb1 as <-.
  rewrite Hslot in Hbufs.
  pose proof (fresh_alloc _ Hfresh) as Ha. destruct Hfresh as [_ Hrange].
  assert (Hfresh' : fresh_analog_buff
            (ab_with_next_chunk_num buff (u32 (ab_next_chunk_num buff + 1)))).
  { split; simpl; [by rewrite Ha | lia]. }
  split; [split|].
  - rewrite <- (with_analog_buff_same (ctx s')), Hbufs, <- Hctx. simpl.
    rewrite <- Hctx in Hwf. destruct Hwf as [H1 H2 H3 H4]. simpl in *.
    split; simpl; try done.
    + by rewrite length_insert.
    + by apply Forall_insert.
  - rewrite <- Hctx. by destruct (ctx s').
  - eexists. split; [exact Htr|]. constructor; [|done]. split; [done|].
    simpl. rewrite length_load. unfold sizeof_float.
    rewrite usize_small by lia.
    replace (4 * ab_fill_size buff / 4) with (ab_fill_size buff)
      by (symmetry; rewrite Z.mul_comm; apply Z.div_mul; lia).
    lia.
  - rewrite Hbufs. apply list_lookup_insert_eq.
    by apply lookup_lt_is_Some_1.
Qed.

Lemma analog_frame_layout s s' :
  analog_frame s s' ->
  first_analog_index (ctx s') = first_analog_index (ctx s) /\
  analog_ch_count (ctx s') = analog_ch_count (ctx s) /\
  dir_created (ctx s') = dir_created (ctx s) /\
  analog_index_map (ctx s') = analog_index_map (ctx s) /\
  logic_buff_of (ctx s') = logic_buff_of (ctx s).
Proof. intros [_ H _]. by rewrite H. Qed.

Lemma set_analog_fill_frame s idx :
  analog_wf (ctx s) -> analog_frame s (set_analog_fill s idx 0).
Proof.
  intros Hwf. unfold set_analog_fill.
  destruct (analog_buff_of (ctx s) !! Z.to_nat idx) as [buff|] eqn:Hb;
    [|by apply analog_frame_refl].
  assert (Hfresh : fresh_analog_buff buff).
  { eapply Forall_lookup_1; [apply Hwf | exact Hb]. }
  split; simpl.
  - apply analog_wf_insert; [done|]. pose proof (fresh_alloc _ Hfresh).
    destruct Hfresh. split; simpl; [done | lia].
  - done.
  - by apply only_chunks_same.
Qed.

Lemma set_analog_fill_lookup s idx buff :
  analog_buff_of (ctx s) !! Z.to_nat idx = Some buff ->
  analog_buff_of (ctx (set_analog_fill s idx 0)) !! Z.to_nat idx =
  Some (ab_with_fill buff 0).
Proof.
  intros Hb. unfold set_analog_fill. rewrite Hb. simpl.
  apply list_lookup_insert_eq. by apply lookup_lt_is_Some_1.
Qed.

(** Flush the buffer of slot [idx], which holds samples, and empty it
    when the write went well: the step that all three flush sites of the
    analog path make. *)
Lemma analog_flush_frame s idx buff ret s2 :
  analog_wf (ctx s) ->
  0 <= idx < analog_ch_count (ctx s) ->
  analog_buff_of (ctx s) !! Z.to_nat idx = Some buff ->
  0 < ab_fill_size buff ->
  dir_append_analog s (ab_samples buff) (ab_fill_size buff)
    (usize (first_analog_index (ctx s) + idx)) = Returns (ret, s2) ->
  analog_frame s s2 /\ analog_frame s (set_analog_fill s2 idx 0).
Proof.
  intros Hwf Hidx Hb Hfill Happ.
  apply (dir_append_analog_frame _ _ _ _ _ _ Hwf Hidx Hb Hfill) in Happ
    as [Hframe _].
  split; [done|]. eapply analog_frame_trans; [exact Hframe|].
  apply set_analog_fill_frame, Hframe.
Qed.

Lemma analog_loop_frame fuel : forall s idx nr rd send_size ret s',
  analog_wf (ctx s) ->
  0 <= idx < analog_ch_count (ctx s) ->
  nr = usize (first_analog_index (ctx s) + idx) ->
  0 <= send_size < 2 ^ 64 ->
  analog_loop fuel s idx nr rd send_size = Returns (ret, s') ->
  analog_frame s s'.
Proof.
  induction fuel as [|fuel IH]; intros s idx nr rd send_size ret s' Hwf Hidx Hnr Hsend.
  - simpl. destruct (send_size =? 0); [|done].
    intros [= <- <-]. by apply analog_frame_refl.
  - cbn [analog_loop]. destruct (Z.eqb_spec send_size 0) as [|Hne].
    { intros [= <- <-]. by apply analog_frame_refl. }
    destruct (analog_slot _ _ Hwf Hidx) as (buff & Hb & Hfresh & _).
    rewrite Hb. pose proof (fresh_alloc _ Hfresh) as Ha.
    destruct Hfresh as [_ Hrange]. rewrite Ha in Hrange.
    rewrite (usize_small (ab_alloc_size buff - ab_fill_size buff)) by lia.
    destruct (Z.eqb_spec (ab_alloc_size buff - ab_fill_size buff) 0)
      as [Hfull|Hroom]; cbn [negb].
    + (* the buffer is full *)
      destruct (Z.eqb_spec send_size 0) as [|_]; [done|]. cbn [negb andb].
      destruct (Z.eqb_spec (ab_alloc_size buff - ab_fill_size buff) 0)
        as [_|]; [|done].
      rewrite Hb.
      destruct (dir_append_analog s _ _ nr) as [[ret2 s2]| |] eqn:Happ;
        try done.
      rewrite Hnr in Happ.
      apply analog_flush_frame in Happ as [H2 H3]; try done; [|lia].
      destruct (negb (is_ok ret2)); [by intros [= <- <-]|].
      intros H. eapply analog_frame_trans; [exact H3|].
      destruct (analog_frame_layout _ _ H3) as (Hf & Hc & _).
      apply IH in H; [done | apply H3 | by rewrite Hc | by rewrite Hf | done].
    + (* there is room *)
      set (copy_size := Z.min send_size (ab_alloc_size buff - ab_fill_size buff)).
      assert (Hcopy : 0 < copy_size <= ab_alloc_size buff - ab_fill_size buff)
        by (unfold copy_size; lia).
      assert (Hcs : copy_size <= send_size) by (unfold copy_size; lia).
      rewrite (usize_small (ab_fill_size buff + copy_size)) by lia.
      rewrite (usize_small (send_size - copy_size)) by lia.
      rewrite (usize_small (ab_alloc_size buff - ab_fill_size buff - copy_size))
        by lia.
      set (buff' := ab_with_samples _ _).
      set (s1 := mk_state _ _).
      assert (Hfresh' : fresh_analog_buff buff').
      { split; simpl; [by rewrite Ha | lia]. }
      assert (H1 : analog_frame s s1).
      { split; [by apply analog_wf_insert | done | by apply only_chunks_same]. }
      assert (Hb1 : analog_buff_of (ctx s1) !! Z.to_nat idx = Some buff').
      { simpl. apply list_lookup_insert_eq. by apply lookup_lt_is_Some_1. }
      destruct (Z.eqb_spec (send_size - copy_size) 0) as [Hdone|Hmore];
        cbn [negb andb].
      * intros H. eapply analog_frame_trans; [exact H1|].
        apply IH in H; [done | apply H1 | exact Hidx | exact Hnr | lia].
      * destruct (Z.eqb_spec
                    (ab_alloc_size buff - ab_fill_size buff - copy_size) 0)
          as [Hfull|Hroom'].
        -- rewrite Hb1.
           destruct (dir_append_analog s1 _ _ nr) as [[ret2 s2]| |] eqn:Happ;
             try done.
           rewrite Hnr in Happ.
           apply (analog_flush_frame s1 idx buff') in Happ as [H2 H3];
             try done; [|apply H1 | simpl; lia].
           destruct (negb (is_ok ret2)).
           { intros [= <- <-]. by eapply analog_frame_trans. }
           intros H. eapply analog_frame_trans; [exact H1|].
           eapply analog_frame_trans; [exact H3|].
           destruct (analog_frame_layout _ _ H3) as (Hf & Hc & _).
           apply IH in H;
             [done | apply H3 | rewrite Hc; exact Hidx | rewrite Hf; exact Hnr
             | lia].
        -- intros H. eapply analog_frame_trans; [exact H1|].
           apply IH in H; [done | apply H1 | exact Hidx | exact Hnr | lia].
Qed.

Lemma flush_analog_frame todo : forall idx s ret s',
  analog_wf (ctx s) ->
  0 <= idx ->
  idx + Z.of_nat todo <= analog_ch_count (ctx s) ->
  flush_analog todo idx s = Returns (ret, s') ->
  analog_frame s s'.
Proof.
  induction todo as [|todo IH]; intros idx s ret s' Hwf Hidx Hmax.
  - intros [= <- <-]. by apply analog_frame_refl.
  - cbn [flush_analog].
    destruct (analog_slot (ctx s) idx Hwf) as (buff & Hb & Hfresh & _); [lia|].
    rewrite Hb. pose proof (wf_count _ Hwf) as Hc.
    rewrite (usize_small (idx + 1)) by lia.
    destruct (Z.eqb_spec (ab_fill_size buff) 0) as [Hz|Hnz].
    { apply IH; [done | lia | lia]. }
    destruct (dir_append_analog s _ _ _) as [[ret2 s2]| |] eqn:Happ; try done.
    apply analog_flush_frame in Happ as [H2 H3]; try done; try lia.
    2:{ destruct Hfresh. lia. }
    destruct (negb (is_ok ret2)); [by intros [= <- <-]|].
    intros H. eapply analog_frame_trans; [exact H3|].
    destruct (analog_frame_layout _ _ H3) as (_ & Hc' & _).
    apply (IH (idx + 1) _ _ _ (af_wf _ _ H3)) in H; [done | lia|].
    rewrite Hc'. lia.
Qed.

Lemma find_slot_range todo : forall idx map ch_idx r,
  0 <= idx ->
  idx + Z.of_nat todo < 2 ^ 64 ->
  find_slot todo idx map ch_idx = Some r ->
  idx <= r <= idx + Z.of_nat todo.
Proof.
  induction todo as [|todo IH]; intros idx map ch_idx r Hidx Hmax.
  - intros [= <-]. lia.
  - cbn [find_slot]. destruct (map !! Z.to_nat idx) as [v|]; [|done].
    destruct (v =? ch_idx); [intros [= <-]; lia|].
    rewrite usize_small by lia. intros H%IH; lia.
Qed.

Lemma malloc_frame s n :
  analog_wf (ctx s) ->
  analog_frame s (mk_state (ctx s) (g_try_malloc0 (env s) n).2).
Proof.
  intros Hwf. split; simpl; [done | by rewrite with_analog_buff_same|].
  apply only_chunks_same. simpl. apply g_try_malloc0_trace.
Qed.

(** Whatever an analog queue call answers, it leaves the analog buffers
    well formed, changes nothing else in the context, and adds nothing but
    writes of non-empty chunks. *)
Lemma dir_append_analog_queue_frame
    (sr_analog_to_float : sr_datafeed_analog -> sr_error_code * list float32)
    s analog flush ret s' :
  analog_wf (ctx s) ->
  match analog with Some a => 0 <= num_samples a < 2 ^ 32 | None => True end ->
  dir_append_analog_queue sr_analog_to_float s analog flush = Returns (ret, s') ->
  analog_frame s s'.
Proof.
  intros Hwf Hpkt. unfold dir_append_analog_queue.
  pose proof (wf_count _ Hwf) as Hc.
  destruct analog as [a|].
  2:{ destruct flush; [|done]. apply flush_analog_frame; [done | lia | lia]. }
  destruct (meaning_channels a) as [|ch [|ch' rest]].
  1,3: intros [= <- <-]; by apply analog_frame_refl.
  destruct (find_slot _ 0 _ _) as [idx|] eqn:Hfind; [|done].
  apply find_slot_range in Hfind; [|lia|lia].
  destruct (Z.eqb_spec idx (analog_ch_count (ctx s))) as [_|Hslot].
  { intros [= <- <-]. by apply analog_frame_refl. }
  pose proof (malloc_frame s (usize (num_samples a * sizeof_float)) Hwf) as Hm.
  destruct (g_try_malloc0 (env s) _) as [[] w]; cbn [negb snd] in *.
  2:{ by intros [= <- <-]. }
  destruct (sr_analog_to_float a) as [retc values].
  destruct (negb (is_ok retc)); [by intros [= <- <-]|].
  destruct (analog_loop _ _ idx _ values _) as [[ret1 s1]| |] eqn:Hloop;
    try done.
  apply analog_loop_frame in Hloop; [|done|simpl; lia|done|lia].
  assert (H1 : analog_frame s s1) by (by eapply analog_frame_trans).
  destruct (negb (is_ok ret1)); [by intros [= <- <-]|].
  destruct (analog_frame_layout _ _ H1) as (Hf & Hc' & _).
  destruct (analog_slot (ctx s1) idx (af_wf _ _ H1)) as (buff1 & Hb1 & Hfresh & _);
    [lia|].
  rewrite Hb1. destruct flush; cbn [andb]; [|by intros [= <- <-]].
  destruct (Z.eqb_spec (ab_fill_size buff1) 0) as [_|Hnz]; cbn [negb].
  { by intros [= <- <-]. }
  destruct (dir_append_analog s1 _ _ _) as [[ret2 s2]| |] eqn:Happ; try done.
  rewrite <- Hf in Happ.
  apply analog_flush_frame in Happ as [H2 H3]; try done; try lia.
  2: apply H1.
  2:{ destruct Hfresh. lia. }
  destruct (negb (is_ok ret2)); intros [= <- <-];
    by eapply analog_frame_trans.
Qed.

(** ** Sessions *)

Lemma mkdirs_app tr1 tr2 : mkdirs (tr1 ++ tr2) = (mkdirs tr1 + mkdirs tr2)%nat.
Proof. unfold mkdirs. by rewrite List.filter_app, length_app. Qed.

Lemma mkdirs_chunks tr : Forall is_chunk_write tr -> mkdirs tr = 0%nat.
Proof.
  induction 1 as [|e tr He _ IH]; [done|].
  unfold mkdirs in *. simpl. by rewrite (is_chunk_write_not_mkdir _ He).
Qed.

Lemma not_chunk_nonempty e : not_chunk e -> chunk_nonempty e.
Proof. destruct e as [| |f p ok]; try done. simpl. by intros ->. Qed.

(** Whatever [dir_create] answers, it made the directory once, wrote no
    chunk, and left the flag of the context alone. *)
Lemma dir_create_any sdi s ret s' :
  dir_create sdi s = (ret, s') ->
  dir_created (ctx s') = dir_created (ctx s) /\
  exists new,
    trace (env s') = trace (env s) ++ new /\
    Forall not_chunk new /\
    mkdirs new = 1%nat.
Proof.
  unfold dir_create.
  set (outc := if samplerate (ctx s) =? 0 then _ else _).
  assert (Hdc : dir_created outc = dir_created (ctx s)).
  { subst outc. destruct (samplerate (ctx s) =? 0); [|done].
    by destruct (conf_samplerate sdi). }
  unfold g_mkdir, g_chdir, write_file.
  destruct (next_answer (io_script (env s))) as [ok1 r1].
  cbn [io_script trace malloc_script].
  destruct ok1; cbn [negb].
  2:{ intros [= <- <-]. split; [done|]. eexists. split; [reflexivity|].
      split; [by repeat constructor | done]. }
  destruct (next_answer r1) as [ok2 r2].
  cbn [io_script trace malloc_script].
  destruct ok2; cbn [negb].
  2:{ intros [= <- <-]. split; [done|]. eexists. split.
      { cbn [env trace]. rewrite <- app_assoc. reflexivity. }
      split; [by repeat constructor | done]. }
  destruct (next_answer r2) as [ok3 r3].
  destruct ok3; cbn [negb].
  2:{ intros [= <- <-]. split; [done|]. eexists. split.
      { cbn [env trace]. rewrite <- !app_assoc. reflexivity. }
      split; [by repeat constructor | done]. }
  set (c := count_channels (channels sdi) (mk_counts 0 0 0)).
  destruct (name_channels (channels sdi) _ 0 _ _) as [[index map] meta].
  set (w3 := mk_world _ r3 _).
  pose proof (g_try_malloc0_trace w3 CHUNK_SIZE) as [Ht4 Hs4].
  destruct (g_try_malloc0 w3 CHUNK_SIZE) as [ok4 w4]. cbn [snd] in Ht4, Hs4.
  destruct ok4; cbn [negb].
  2:{ intros [= <- <-]. split; [done|]. eexists. split.
      { cbn [env]. rewrite Ht4. subst w3. cbn [trace].
        rewrite <- !app_assoc. reflexivity. }
      split; [by repeat constructor | done]. }
  pose proof (alloc_analog_buffs_trace (Z.to_nat (enabled_analog_channels c)) 0
                (replicate (Z.to_nat (enabled_analog_channels c))
                   zero_analog_buff) w4) as [Ht5 Hs5].
  destruct (alloc_analog_buffs _ 0 _ w4) as [[ret5 bufs] w5].
  cbn [snd] in Ht5, Hs5.
  destruct (negb (is_ok ret5)).
  { intros [= <- <-]. split; [done|]. eexists. split.
    { cbn [env]. rewrite Ht5, Ht4. subst w3. cbn [trace].
      rewrite <- !app_assoc. reflexivity. }
    split; [by repeat constructor | done]. }
  destruct (next_answer (io_script w5)) as [ok6 r6].
  destruct ok6; cbn [negb]; intros [= <- <-]; (split; [done|]);
    eexists; (split;
      [cbn [env trace]; rewrite Ht5, Ht4; subst w3; cbn [trace];
       rewrite <- !app_assoc; reflexivity
      | split; [by repeat constructor | done]]).
Qed.

Lemma dir_create_analog_wf sdi s s' :
  dir_create sdi s = (SR_OK, s') -> analog_wf (ctx s').
Proof.
  intros Hok.
  destruct (dir_create_ok _ _ _ Hok)
    as (rate & head & index & map & meta & tail & _ & _ & _ & Hctx & _).
  rewrite Hctx.
  rewrite (count_channels_spec _ _ 0 0 0) by done.
  cbn [logic_channels enabled_logic_channels enabled_analog_channels].
  split; cbn [first_analog_index analog_ch_count analog_buff_of].
  - destruct (0 <? u32 (0 + count_of is_enabled_logic (channels sdi)));
      [|lia].
    pose proof (u32_range (u32 (0 + count_of is_logic (channels sdi)) + 1)).
    lia.
  - apply u32_range.
  - by rewrite length_replicate.
  - apply Forall_replicate. split; [done|]. by vm_compute.
Qed.

Lemma analog_wf_logic c b : analog_wf c -> analog_wf (with_logic_buff c b).
Proof. by intros []. Qed.

Lemma analog_wf_samplerate c r : analog_wf c -> analog_wf (with_samplerate c r).
Proof. by intros []. Qed.

Lemma analog_wf_created c b : analog_wf c -> analog_wf (with_dir_created c b).
Proof. by intros []. Qed.

Lemma quiet_step_refl s : quiet_step s s.
Proof. split; [apply only_chunks_refl | done]. Qed.

Lemma quiet_step_trans s1 s2 s3 :
  quiet_step s1 s2 -> quiet_step s2 s3 -> quiet_step s1 s3.
Proof.
  intros (T1 & D1 & W1) (T2 & D2 & W2).
  split; [by eapply only_chunks_trans|]. split; [by rewrite D2 | auto].
Qed.

Lemma logic_frame_quiet s s' : logic_frame s s' -> quiet_step s s'.
Proof.
  intros [Hctx Htr]. split; [done|]. rewrite Hctx. split; [done|].
  apply analog_wf_logic.
Qed.

Lemma analog_frame_quiet s s' : analog_frame s s' -> quiet_step s s'.
Proof.
  intros H. destruct (analog_frame_layout _ _ H) as (_ & _ & Hd & _).
  destruct H as [Hwf _ Htr]. by split.
Qed.

Lemma quiet_step_inv s s' :
  quiet_step s s' ->
  session_inv (ctx s) (env s) ->
  session_inv (ctx s') (env s').
Proof.
  intros ((new & Htr & Hnew) & Hd & Hwf) [Hne Ha]. split.
  - rewrite Htr. apply Forall_app_2; [done|].
    eapply Forall_impl; [exact Hnew | apply is_chunk_write_nonempty].
  - rewrite Hd. auto.
Qed.

Lemma quiet_step_session s s' ret :
  quiet_step s s' ->
  session_inv (ctx s) (env s) ->
  session_step s s' ret.
Proof.
  intros Hq Hinv. pose proof (quiet_step_inv _ _ Hq Hinv) as Hinv'.
  destruct Hq as ((new & Htr & Hnew) & Hd & Hwf).
  split; [done| |by rewrite Hd].
  exists new. split; [done|]. rewrite (mkdirs_chunks _ Hnew).
  split; [lia | done].
Qed.

(** The step that makes the directory when it does not exist yet. *)
Lemma ensure_dir_step sdi s ret s' :
  session_inv (ctx s) (env s) ->
  ensure_dir sdi s = (ret, s') ->
  session_step s s' ret /\
  (ret = SR_OK -> dir_created (ctx s') = true).
Proof.
  intros Hinv. pose proof Hinv as [Hne _]. unfold ensure_dir.
  destruct (dir_created (ctx s)) eqn:Hd.
  { intros [= <- <-]. split; [|done]. split; [done| |done].
    exists []. rewrite app_nil_r, Hd. by repeat split. }
  destruct (dir_create sdi s) as [ret1 s1] eqn:Hc.
  pose proof (dir_create_any _ _ _ _ Hc) as (Hd1 & new & Htr & Hnc & Hmk).
  assert (Hne1 : Forall chunk_nonempty (trace (env s1))).
  { rewrite Htr. apply Forall_app_2; [done|].
    eapply Forall_impl; [exact Hnc | apply not_chunk_nonempty]. }
  destruct ret1; cbn [is_ok negb]; intros [= <- <-].
  - apply dir_create_analog_wf in Hc. split; [|done].
    split; [split; [done|]; intros _; by apply analog_wf_created | |done].
    exists new. rewrite Hd, Hmk. by repeat split.
  - split; [|done]. split; [split; [done|]; by rewrite Hd1, Hd | |by rewrite Hd].
    exists new. rewrite Hd, Hmk. by repeat split.
  - split; [|done]. split; [split; [done|]; by rewrite Hd1, Hd | |by rewrite Hd].
    exists new. rewrite Hd, Hmk. by repeat split.
  - split; [|done]. split; [split; [done|]; by rewrite Hd1, Hd | |by rewrite Hd].
    exists new. rewrite Hd, Hmk. by repeat split.
Qed.

(** The directory step, followed by a step of the queues when it went
    well. *)
Lemma ensure_then_quiet s s1 s' ret :
  session_step s s1 SR_OK ->
  dir_created (ctx s1) = true ->
  quiet_step s1 s' ->
  session_step s s' ret.
Proof.
  intros [Hinv1 (new1 & Htr1 & Hle & Hmk) Hcr] Hd1 Hq.
  pose proof (quiet_step_inv _ _ Hq Hinv1) as Hinv'.
  destruct Hq as ((new2 & Htr2 & Hnew2) & Hd & Hwf).
  split; [done| |by rewrite Hd, Hd1].
  exists (new1 ++ new2). split; [by rewrite Htr2, Htr1, app_assoc|].
  rewrite mkdirs_app, (mkdirs_chunks _ Hnew2), Nat.add_0_r.
  split; [done|]. by rewrite Hd, Hd1.
Qed.

Lemma receive_packet_step
    (sr_analog_to_float : sr_datafeed_analog -> sr_error_code * list float32)
    sdi s p ret s' :
  session_inv (ctx s) (env s) ->
  packet_wf p ->
  receive_packet sr_analog_to_float sdi s p = Returns (ret, s') ->
  session_step s s' ret.
Proof.
  intros Hinv Hp. destruct p as [config|logic|analog| |]; cbn [receive_packet].
  - intros [= <- <-]. apply quiet_step_session; [|done].
    split; [by apply only_chunks_same|]. split; [done|].
    apply analog_wf_samplerate.
  - destruct (ensure_dir sdi s) as [ret1 s1] eqn:He.
    apply ensure_dir_step in He as [Hstep Hok]; [|done].
    destruct ret1; cbn [is_ok negb]; try (by intros [= <- <-]).
    intros H%dir_append_queue_frame%logic_frame_quiet.
    eapply ensure_then_quiet; eauto.
  - destruct (ensure_dir sdi s) as [ret1 s1] eqn:He.
    apply ensure_dir_step in He as [Hstep Hok]; [|done].
    destruct ret1; cbn [is_ok negb]; try (by intros [= <- <-]).
    intros H. apply dir_append_analog_queue_frame in H; [|by apply Hstep, Hok|done].
    eapply ensure_then_quiet; eauto using analog_frame_quiet.
  - destruct (dir_created (ctx s)) eqn:Hd.
    2:{ intros [= <- <-]. apply quiet_step_session, Hinv. apply quiet_step_refl. }
    destruct (dir_append_queue s [] 0 0 true) as [[ret1 s1]| |] eqn:Hq; try done.
    apply dir_append_queue_frame, logic_frame_quiet in Hq.
    destruct (negb (is_ok ret1)).
    { intros [= <- <-]. by apply quiet_step_session. }
    intros H. apply dir_append_analog_queue_frame in H; [|  |done].
    + apply quiet_step_session; [|done].
      eapply quiet_step_trans; [exact Hq | by apply analog_frame_quiet].
    + apply Hq, Hinv. done.
  - intros [= <- <-]. apply quiet_step_session, Hinv. apply quiet_step_refl.
Qed.

Lemma init_ok o0 o :
  init o0 = (SR_OK, o) ->
  exists name,
    o = mk_output (o_filename o0) (o_sdi o0) (Some (zero_context name)).
Proof.
  unfold init. destruct (o_filename o0) as [name|]; [|done].
  destruct (String.eqb name ""); [done|]. intros [= <-]. by exists name.
Qed.

(** [receive] on a session that has its device and its context. *)
Lemma receive_step
    (sr_analog_to_float : sr_datafeed_analog -> sr_error_code * list float32)
    o w p ret o1 w1 sdi c :
  o_sdi o = Some sdi ->
  o_priv o = Some c ->
  session_inv c w ->
  packet_wf p ->
  receive sr_analog_to_float o w p = Returns (ret, o1, w1) ->
  exists c1,
    o1 = mk_output (o_filename o) (Some sdi) (Some c1) /\
    session_step (mk_state c w) (mk_state c1 w1) ret.
Proof.
  intros Hsdi Hpriv Hinv Hp. unfold receive. rewrite Hsdi, Hpriv.
  destruct (receive_packet _ sdi _ p) as [[r s1]| |] eqn:Hr; try done.
  intros [= <- <- <-]. exists (ctx s1). split; [done|].
  apply receive_packet_step in Hr; [|done|done]. by destruct s1.
Qed.

Lemma reachable_inv
    (sr_analog_to_float : sr_datafeed_analog -> sr_error_code * list float32)
    o w :
  reachable sr_analog_to_float o w ->
  exists c, o_priv o = Some c /\ session_inv c w.
Proof.
  induction 1 as [o0 o w Hinit Htr|o w p ret o1 w1 _ (c & Hpriv & Hinv) Hp Hr].
  - apply init_ok in Hinit as (name & ->). eexists. split; [done|].
    split; [by rewrite Htr | done].
  - destruct (o_sdi o) as [sdi|] eqn:Hsdi.
    + destruct (receive_step _ _ _ _ _ _ _ _ _ Hsdi Hpriv Hinv Hp Hr)
        as (c1 & -> & Hstep).
      exists c1. split; [done|]. apply Hstep.
    + unfold receive in Hr. rewrite Hsdi in Hr. injection Hr as _ <- <-.
      by exists c.
Qed.

Lemma run_reachable
    (sr_analog_to_float : sr_datafeed_analog -> sr_error_code * list float32)
    packets : forall o w,
  reachable sr_analog_to_float o w ->
  Forall packet_wf packets ->
  reachable sr_analog_to_float (run sr_analog_to_float o w packets).1
    (run sr_analog_to_float o w packets).2.
Proof.
  induction packets as [|p rest IH]; intros o w Hr Hwf; [done|].
  inversion Hwf as [|? ? Hp Hrest]; subst. cbn [run].
  destruct (receive _ o w p) as [[[ret o1] w1]| |] eqn:Hrec; try done.
  apply IH; [|done]. by eapply reachable_receive.
Qed.

(** ** C6: no empty chunk *)

(** C6. In every session that can come about, through any sequence of
    well-formed packets and whatever the file system and the allocator
    answered, every write of a [logic-1-*] or [analog-1-*-*] file that was
    asked for, from the queue loops or from the flush at the end of the
    stream, carried at least one byte. *)
Theorem no_empty_chunk
    (sr_analog_to_float : sr_datafeed_analog -> sr_error_code * list float32)
    o w :
  reachable sr_analog_to_float o w ->
  Forall chunk_nonempty (trace w).
Proof. intros (c & _ & Hinv & _)%reachable_inv. exact Hinv. Qed.

Lemma no_empty_chunk_witness :
  let o := mk_output (Some "capture"%string) (Some (device 9 1))
             (Some (zero_context "capture")) in
  let packets :=
    [SR_DF_META [mk_config SR_CONF_SAMPLERATE 1000];
     SR_DF_LOGIC (mk_logic 4 2 [x01; x02; x03; x04]);
     SR_DF_ANALOG (mk_analog [x07; x08] 2 [analog_channel 9]);
     SR_DF_END] in
  Forall chunk_nonempty (trace (run bytes_to_float o (world_of []) packets).2).
Proof.
  intros o packets.
  apply (no_empty_chunk bytes_to_float
           (run bytes_to_float o (world_of []) packets).1).
  apply run_reachable.
  - apply (reachable_init _
             (mk_output (Some "capture"%string) (Some (device 9 1)) None));
      reflexivity.
  - repeat constructor; simpl; lia.
Defined.

(** ** When the directory is made *)





(** A caller that got SR_OK for all of [pre] goes on with the rest. *)
Lemma feed_app
    (sr_analog_to_float : sr_datafeed_analog -> sr_error_code * list float32)
    pre rest : forall o w o1 w1,
  feed sr_analog_to_float o w pre = Returns (SR_OK, o1, w1) ->
  feed sr_analog_to_float o w (pre ++ rest) =
    feed sr_analog_to_float o1 w1 rest.
Proof.
  induction pre as [|p pre IH]; intros o w o1 w1; cbn [feed app].
  - by intros [= <- <-].
  - destruct (receive _ o w p) as [[[r o2] w2]| |]; try done.
    destruct r; try done. apply IH.
Qed.

(** Once the directory exists, no packet makes it again, also for a caller
    that does not stop at errors. *)
Lemma created_once
    (sr_analog_to_float : sr_datafeed_analog -> sr_error_code * list float32)
    o w c p ret o' w' :
  reachable sr_analog_to_float o w ->
  o_priv o = Some c ->
  dir_created c = true ->
  packet_wf p ->
  receive sr_analog_to_float o w p = Returns (ret, o', w') ->
  exists c' new,
    o_priv o' = Some c' /\ dir_created c' = true /\
    trace w' = trace w ++ new /\ mkdirs new = 0%nat.
Proof.
  intros Hr Hpriv Hd Hp Hrec.
  apply reachable_inv in Hr as (c0 & Hc0 & Hinv).
  rewrite Hpriv in Hc0. injection Hc0 as <-.
  destruct (o_sdi o) as [sdi|] eqn:Hsdi.
  - destruct (receive_step _ _ _ _ _ _ _ _ _ Hsdi Hpriv Hinv Hp Hrec)
      as (c1 & -> & [_ (new & Htr & Hle & _) Hcr]).
    cbn [ctx env] in *. rewrite Hd in Hle.
    exists c1, new. repeat split; [by apply Hcr|done|lia].
  - unfold receive in Hrec. rewrite Hsdi in Hrec.
    injection Hrec as <- <- <-. exists c, []. by rewrite app_nil_r.
Qed.

(** ** The fuel of the queue loops *)

(** A logic buffer without room for a single sample (a unit size above
    4 MiB) makes the loop spin: it flushes nothing and copies nothing,
    whatever the fuel. *)
Lemma queue_loop_hangs fuel : forall s rd send_size,
  lb_alloc_size (logic_buff_of (ctx s)) = 0 ->
  lb_fill_size (logic_buff_of (ctx s)) = 0 ->
  send_size <> 0 ->
  queue_loop fuel s rd send_size = Hangs.
Proof.
  induction fuel as [|fuel IH]; intros s rd send_size Ha Hf Hne.
  - simpl. by destruct (Z.eqb_spec send_size 0).
  - cbn [queue_loop]. destruct (Z.eqb_spec send_size 0) as [|_]; [done|].
    rewrite Ha, Hf. change (usize (0 - 0)) with 0. cbn [Z.eqb negb].
    destruct (Z.eqb_spec send_size 0) as [|_]; [done|]. cbn [negb andb].
    rewrite Hf, Z.mul_0_l. change (usize 0) with 0.
    cbn [dir_append Z.eqb is_ok negb].
    apply IH; simpl; done.
Qed.

Lemma logic_kept_refl s : logic_wf (logic_buff_of (ctx s)) -> logic_kept s s.
Proof. by split. Qed.

Lemma logic_kept_trans s1 s2 s3 :
  logic_kept s1 s2 -> logic_kept s2 s3 -> logic_kept s1 s3.
Proof.
  intros (_ & Hu1 & Ha1) (Hwf & Hu2 & Ha2).
  split; [done|]. by rewrite Hu2, Ha2.
Qed.

Lemma set_logic_fill_kept s :
  logic_wf (logic_buff_of (ctx s)) -> logic_kept s (set_logic_fill s 0).
Proof. intros []. split; [|done]. split; simpl; try done. lia. Qed.

Lemma dir_append_returns s buf unitsize length :
  logic_wf (logic_buff_of (ctx s)) ->
  0 < unitsize ->
  exists ret s2,
    dir_append s buf unitsize length = Returns (ret, s2) /\ logic_kept s s2.
Proof.
  intros Hwf Hu. unfold dir_append.
  destruct (length =? 0); [by exists SR_OK, s|].
  destruct (Z.eqb_spec unitsize 0) as [|_]; [lia|].
  destruct Hwf.
  destruct (write_file _ _ _) as [[] w]; cbn [negb];
    eexists _, _; (split; [reflexivity|]);
    (split; [split; simpl; try done; apply u32_range | done]).
Qed.

(** With room for a sample the loop returns within [loop_fuel], whether
    the writes succeed or fail, and the buffer stays well formed. *)
Lemma queue_loop_returns fuel : forall s rd send_size,
  let b := logic_buff_of (ctx s) in
  logic_wf b ->
  0 <= send_size < 2 ^ 64 ->
  (Z.to_nat send_size +
   (if (lb_fill_size b =? lb_alloc_size b)%Z then 1 else 0) <= fuel)%nat ->
  exists ret s',
    queue_loop fuel s rd send_size = Returns (ret, s') /\ logic_kept s s'.
Proof.
  induction fuel as [|fuel IH]; intros s rd send_size b Hwf Hsend Hfuel.
  - assert (send_size = 0) as -> by lia. exists SR_OK, s.
    split; [done | by apply logic_kept_refl].
  - cbn [queue_loop]. fold b.
    destruct (Z.eqb_spec send_size 0) as [->|Hne].
    { exists SR_OK, s. split; [done | by apply logic_kept_refl]. }
    pose proof Hwf as [Hu Ha Hf Hb Hc]. rewrite CHUNK_SIZE_eq in Hb.
    assert (Hal : lb_alloc_size b <= 4194304) by nia.
    rewrite (usize_small (lb_alloc_size b - lb_fill_size b)) by lia.
    destruct (Z.eqb_spec (lb_alloc_size b - lb_fill_size b) 0) as [Hfull|Hroom];
      cbn [negb].
    + destruct (Z.eqb_spec send_size 0) as [|_]; [done|]. cbn [negb andb].
      destruct (Z.eqb_spec (lb_alloc_size b - lb_fill_size b) 0) as [_|];
        [|done].
      destruct (dir_append_returns s (lb_samples b) (lb_unit_size b)
                  (usize (lb_fill_size b * lb_unit_size b)) Hwf Hu)
        as (ret2 & s2 & Happ & Hk2).
      fold b in Happ |- *. rewrite Happ.
      destruct (negb (is_ok ret2)); [by eexists _, _|].
      pose proof (logic_kept_trans _ _ _ Hk2
                    (set_logic_fill_kept s2 (proj1 Hk2))) as Hk3.
      destruct (IH (set_logic_fill s2 0) rd send_size) as (ret & s' & Hq & Hk);
        [apply Hk3 | done | |].
      * destruct Hk3 as (_ & _ & ->). fold b.
        change (lb_fill_size (logic_buff_of (ctx (set_logic_fill s2 0))))
          with 0.
        destruct (Z.eqb_spec 0 (lb_alloc_size b)); [lia|].
        destruct (Z.eqb_spec (lb_fill_size b) (lb_alloc_size b)); lia.
      * exists ret, s'. split; [done | exact (logic_kept_trans _ _ _ Hk3 Hk)].
    + set (copy_size := Z.min send_size (lb_alloc_size b - lb_fill_size b)).
      assert (Hcopy : 0 < copy_size <= lb_alloc_size b - lb_fill_size b)
        by (unfold copy_size; lia).
      assert (Hcs : copy_size <= send_size) by (unfold copy_size; lia).
      rewrite (usize_small (lb_fill_size b + copy_size)) by lia.
      rewrite (usize_small (send_size - copy_size)) by lia.
      rewrite (usize_small (lb_alloc_size b - lb_fill_size b - copy_size)) by lia.
      set (s1 := mk_state _ _).
      assert (Hk1 : logic_kept s s1).
      { split; [|done]. split; simpl; fold b; try done; try lia. }
      assert (Hf1 : lb_fill_size (logic_buff_of (ctx s1)) =
                    lb_fill_size b + copy_size) by done.
      destruct (Z.eqb_spec (send_size - copy_size) 0) as [Hdone|Hmore];
        cbn [negb andb].
      * rewrite Hdone. exists SR_OK, s1. split; [by destruct fuel | done].
      * destruct (Z.eqb_spec (lb_alloc_size b - lb_fill_size b - copy_size) 0)
          as [Hfull|Hroom'].
        -- destruct (dir_append_returns s1
                       (lb_samples (logic_buff_of (ctx s1)))
                       (lb_unit_size (logic_buff_of (ctx s1)))
                       (usize (lb_fill_size (logic_buff_of (ctx s1)) *
                               lb_unit_size (logic_buff_of (ctx s1))))
                       (proj1 Hk1))
             as (ret2 & s2 & Happ & Hk2); [by simpl|].
           rewrite Happ.
           pose proof (logic_kept_trans _ _ _ Hk1 Hk2) as Hk12.
           destruct (negb (is_ok ret2)); [by eexists _, _|].
           pose proof (logic_kept_trans _ _ _ Hk12
                         (set_logic_fill_kept s2 (proj1 Hk2))) as Hk3.
           destruct (IH (set_logic_fill s2 0)
                       (drop (Z.to_nat (usize (copy_size * lb_unit_size b))) rd)
                       (send_size - copy_size)) as (ret & s' & Hq & Hk);
             [apply Hk3 | lia | |].
           ++ destruct Hk3 as (_ & _ & ->). fold b.
              change (lb_fill_size (logic_buff_of (ctx (set_logic_fill s2 0))))
                with 0.
              destruct (Z.eqb_spec 0 (lb_alloc_size b)); [lia|]. lia.
           ++ exists ret, s'.
              split; [done | exact (logic_kept_trans _ _ _ Hk3 Hk)].
        -- destruct (IH s1
                       (drop (Z.to_nat (usize (copy_size * lb_unit_size b))) rd)
                       (send_size - copy_size)) as (ret & s' & Hq & Hk);
             [apply Hk1 | lia | |].
           ++ rewrite Hf1. destruct Hk1 as (_ & _ & ->). fold b.
              destruct (Z.eqb_spec (lb_fill_size b + copy_size)
                          (lb_alloc_size b)); lia.
           ++ exists ret, s'.
              split; [done | exact (logic_kept_trans _ _ _ Hk1 Hk)].
Qed.

Lemma dir_append_analog_returns s idx values count :
  analog_wf (ctx s) ->
  0 <= idx < analog_ch_count (ctx s) ->
  exists ret s2,
    dir_append_analog s values count
      (usize (first_analog_index (ctx s) + idx)) = Returns (ret, s2).
Proof.
  intros Hwf Hidx.
  destruct (analog_slot _ _ Hwf Hidx) as (buff & Hb & _ & Hslot).
  unfold dir_append_analog. rewrite Hslot, Hb.
  destruct (write_file _ _ _) as [ok w]. by eexists _, _.
Qed.

(** The analog loop returns within [loop_fuel] on every buffer of a session
    whose directory exists: such a buffer has room for 1048576 samples. *)
Lemma analog_loop_returns fuel : forall s idx nr rd send_size buff,
  analog_wf (ctx s) ->
  0 <= idx < analog_ch_count (ctx s) ->
  nr = usize (first_analog_index (ctx s) + idx) ->
  0 <= send_size < 2 ^ 64 ->
  analog_buff_of (ctx s) !! Z.to_nat idx = Some buff ->
  (Z.to_nat send_size +
   (if (ab_fill_size buff =? ab_alloc_size buff)%Z then 1 else 0) <= fuel)%nat ->
  exists ret s', analog_loop fuel s idx nr rd send_size = Returns (ret, s').
Proof.
  induction fuel as [|fuel IH];
    intros s idx nr rd send_size buff Hwf Hidx Hnr Hsend Hb Hfuel.
  - assert (send_size = 0) as -> by lia. by exists SR_OK, s.
  - cbn [analog_loop].
    destruct (Z.eqb_spec send_size 0) as [->|Hne]; [by exists SR_OK, s|].
    rewrite Hb.
    assert (Hfresh : fresh_analog_buff buff).
    { eapply Forall_lookup_1; [apply Hwf | exact Hb]. }
    pose proof (fresh_alloc _ Hfresh) as Ha.
    destruct Hfresh as [_ Hrange]. rewrite Ha in Hrange.
    rewrite (usize_small (ab_alloc_size buff - ab_fill_size buff)) by lia.
    destruct (Z.eqb_spec (ab_alloc_size buff - ab_fill_size buff) 0)
      as [Hfull|Hroom]; cbn [negb].
    + destruct (Z.eqb_spec send_size 0) as [|_]; [done|]. cbn [negb andb].
      destruct (Z.eqb_spec (ab_alloc_size buff - ab_fill_size buff) 0)
        as [_|]; [|done].
      rewrite Hb.
      destruct (dir_append_analog s (ab_samples buff) (ab_fill_size buff) nr)
        as [[ret2 s2]| |] eqn:Happ.
      2,3: rewrite Hnr in Happ;
           destruct (dir_append_analog_returns s idx (ab_samples buff)
                       (ab_fill_size buff) Hwf Hidx) as (? & ? & Hr);
           by rewrite Hr in Happ.
      rewrite Hnr in Happ.
      apply dir_append_analog_frame in Happ as [H2 Hb2]; try done; [|lia].
      destruct (negb (is_ok ret2)); [by eexists _, _|].
      pose proof (set_analog_fill_frame s2 idx (af_wf _ _ H2)) as H3.
      pose proof (set_analog_fill_lookup _ _ _ Hb2) as Hb3.
      destruct (analog_frame_layout _ _ (analog_frame_trans _ _ _ H2 H3))
        as (Hf & Hc & _).
      eapply IH; [apply H3 | by rewrite Hc | by rewrite Hf | done | exact Hb3 |].
      simpl. rewrite Ha. simpl.
      destruct (Z.eqb_spec (ab_fill_size buff) (ab_alloc_size buff)); lia.
    + set (copy_size := Z.min send_size (ab_alloc_size buff - ab_fill_size buff)).
      assert (Hcopy : 0 < copy_size <= ab_alloc_size buff - ab_fill_size buff)
        by (unfold copy_size; lia).
      assert (Hcs : copy_size <= send_size) by (unfold copy_size; lia).
      rewrite (usize_small (ab_fill_size buff + copy_size)) by lia.
      rewrite (usize_small (send_size - copy_size)) by lia.
      rewrite (usize_small (ab_alloc_size buff - ab_fill_size buff - copy_size))
        by lia.
      set (buff' := ab_with_samples _ _).
      set (s1 := mk_state _ _).
      assert (Hfresh' : fresh_analog_buff buff').
      { split; simpl; [by rewrite Ha | lia]. }
      assert (H1 : analog_frame s s1).
      { split; [by apply analog_wf_insert | done | by apply only_chunks_same]. }
      assert (Hb1 : analog_buff_of (ctx s1) !! Z.to_nat idx = Some buff').
      { simpl. apply list_lookup_insert_eq. by apply lookup_lt_is_Some_1. }
      destruct (Z.eqb_spec (send_size - copy_size) 0) as [Hdone|Hmore];
        cbn [negb andb].
      * rewrite Hdone. exists SR_OK, s1. by destruct fuel.
      * destruct (Z.eqb_spec
                    (ab_alloc_size buff - ab_fill_size buff - copy_size) 0)
          as [Hfull|Hroom'].
        -- rewrite Hb1.
           destruct (dir_append_analog s1 (ab_samples buff')
                       (ab_fill_size buff') nr) as [[ret2 s2]| |] eqn:Happ.
           2,3: rewrite Hnr in Happ;
                destruct (dir_append_analog_returns s1 idx (ab_samples buff')
                            (ab_fill_size buff') (af_wf _ _ H1) Hidx)
                  as (? & ? & Hr);
                change (first_analog_index (ctx s1))
                  with (first_analog_index (ctx s)) in Hr;
                by rewrite Hr in Happ.
           rewrite Hnr in Happ.
           apply (dir_append_analog_frame s1 idx buff') in Happ as [H2 Hb2];
             try done; [|apply H1 | simpl; lia].
           destruct (negb (is_ok ret2)); [by eexists _, _|].
           pose proof (set_analog_fill_frame s2 idx (af_wf _ _ H2)) as H3.
           pose proof (set_analog_fill_lookup _ _ _ Hb2) as Hb3.
           destruct (analog_frame_layout _ _
                       (analog_frame_trans _ _ _ H2 H3)) as (Hf & Hc & _).
           eapply IH; [apply H3 | by rewrite Hc | by rewrite Hf | | exact Hb3 |].
           ++ lia.
           ++ simpl. rewrite Ha. simpl. lia.
        -- eapply IH; [apply H1 | done | done | | exact Hb1 |].
           ++ lia.
           ++ simpl.
              destruct (Z.eqb_spec (ab_fill_size buff + copy_size)
                          (ab_alloc_size buff)); lia.
Qed.

(** ** Sessions on small devices always get an answer *)

Lemma logic_ok_wf b : logic_ok b -> 0 < lb_unit_size b -> logic_wf b.
Proof. intros [] Hu. by split. Qed.

Lemma logic_wf_ok b : logic_wf b -> logic_ok b.
Proof. intros []. split; try done; lia. Qed.

Lemma dir_append_queue_returns s buf unitsize length flush :
  logic_ok (logic_buff_of (ctx s)) ->
  0 <= length < 2 ^ 64 ->
  exists ret s',
    dir_append_queue s buf unitsize length flush = Returns (ret, s') /\
    logic_ok (logic_buff_of (ctx s')).
Proof.
  intros Hok Hlen. unfold dir_append_queue.
  destruct (_ && _); [by exists SR_ERR_ARG, s|].
  set (b := logic_buff_of (ctx s)) in *.
  destruct (Z.eqb_spec (lb_unit_size b) 0) as [Hz|Hnz].
  - cbn [loop_fuel queue_loop Z.eqb is_ok negb]. fold b.
    rewrite (ok_empty _ Hok Hz). rewrite andb_false_r. by exists SR_OK, s.
  - assert (Hu : 0 < lb_unit_size b) by (pose proof (ok_unit _ Hok); lia).
    pose proof (logic_ok_wf _ Hok Hu) as Hwf.
    set (send_size := length / lb_unit_size b).
    assert (Hsend : 0 <= send_size <= length).
    { unfold send_size. split; [apply Z.div_pos; lia|].
      apply Z.div_le_upper_bound; nia. }
    destruct (queue_loop_returns (loop_fuel send_size) s buf send_size)
      as (ret1 & s1 & Hq & Hk1); [done | lia | |].
    { fold b. unfold loop_fuel.
      destruct (lb_fill_size b =? lb_alloc_size b); lia. }
    rewrite Hq. destruct (negb (is_ok ret1)).
    { exists ret1, s1. split; [done|]. apply logic_wf_ok, Hk1. }
    destruct (flush && _).
    2:{ exists SR_OK, s1. split; [done|]. apply logic_wf_ok, Hk1. }
    destruct (dir_append_returns s1 (lb_samples (logic_buff_of (ctx s1)))
                (lb_unit_size (logic_buff_of (ctx s1)))
                (usize (lb_fill_size (logic_buff_of (ctx s1)) *
                        lb_unit_size (logic_buff_of (ctx s1)))))
      as (ret2 & s2 & Happ & Hk2); [apply Hk1 | apply Hk1 |].
    rewrite Happ. destruct (negb (is_ok ret2)).
    + exists ret2, s2. split; [done|]. apply logic_wf_ok, Hk2.
    + exists SR_OK, (set_logic_fill s2 0). split; [done|].
      apply logic_wf_ok, (set_logic_fill_kept s2), Hk2.
Qed.

Lemma flush_analog_returns todo : forall idx s,
  analog_wf (ctx s) ->
  0 <= idx ->
  idx + Z.of_nat todo <= analog_ch_count (ctx s) ->
  exists ret s', flush_analog todo idx s = Returns (ret, s').
Proof.
  induction todo as [|todo IH]; intros idx s Hwf Hidx Hmax.
  - by exists SR_OK, s.
  - cbn [flush_analog].
    assert (Hin : 0 <= idx < analog_ch_count (ctx s)) by lia.
    destruct (analog_slot (ctx s) idx Hwf Hin) as (buff & Hb & Hfresh & _).
    rewrite Hb. pose proof (wf_count _ Hwf) as Hc.
    rewrite (usize_small (idx + 1)) by lia.
    destruct (Z.eqb_spec (ab_fill_size buff) 0) as [Hz|Hnz].
    { apply IH; [done | lia | lia]. }
    destruct (dir_append_analog_returns s idx (ab_samples buff)
                (ab_fill_size buff) Hwf Hin) as (ret2 & s2 & Happ).
    rewrite Happ.
    apply analog_flush_frame in Happ as [H2 H3]; try done.
    2:{ destruct Hfresh. lia. }
    destruct (negb (is_ok ret2)); [by eexists _, _|].
    destruct (analog_frame_layout _ _ H3) as (_ & Hc' & _).
    apply IH; [apply H3 | lia | rewrite Hc'; lia].
Qed.

Lemma dir_append_analog_queue_returns
    (sr_analog_to_float : sr_datafeed_analog -> sr_error_code * list float32)
    s analog flush :
  analog_wf (ctx s) ->
  index_map_wf (ctx s) ->
  match analog with
  | Some a => 0 <= num_samples a < 2 ^ 32
  | None => flush = true
  end ->
  exists ret s',
    dir_append_analog_queue sr_analog_to_float s analog flush =
    Returns (ret, s').
Proof.
  intros Hwf [Hcount Hmax] Hpkt. unfold dir_append_analog_queue.
  pose proof (wf_count _ Hwf) as Hc.
  destruct analog as [a|].
  2:{ rewrite Hpkt. apply flush_analog_returns; [done | lia | lia]. }
  destruct (meaning_channels a) as [|ch [|ch' rest]]; try (by eexists _, _).
  destruct (find_slot_spec (Z.to_nat (analog_ch_count (ctx s))) 0
              (analog_index_map (ctx s)) (ch_index ch))
    as (idx & Hfind & Hrange & _); try lia.
  rewrite Hfind.
  destruct (Z.eqb_spec idx (analog_ch_count (ctx s))) as [_|Hslot];
    [by eexists _, _|].
  pose proof (malloc_frame s (usize (num_samples a * sizeof_float)) Hwf) as Hm.
  destruct (g_try_malloc0 (env s) _) as [[] w]; cbn [negb snd] in *;
    [|by eexists _, _].
  destruct (sr_analog_to_float a) as [retc values].
  destruct (negb (is_ok retc)); [by eexists _, _|].
  assert (Hin : 0 <= idx < analog_ch_count (ctx s)) by lia.
  destruct (analog_slot (ctx s) idx Hwf Hin) as (buff & Hb & _ & _).
  destruct (analog_loop_returns (loop_fuel (num_samples a))
              (mk_state (ctx s) w) idx
              (usize (first_analog_index (ctx s) + idx)) values
              (num_samples a) buff) as (ret1 & s1 & Hloop);
    try done; try lia.
  { unfold loop_fuel. destruct (_ =? _)%Z; lia. }
  rewrite Hloop.
  apply analog_loop_frame in Hloop; [|done|exact Hin|done|lia].
  destruct (negb (is_ok ret1)); [by eexists _, _|].
  destruct (analog_frame_layout _ _ Hloop) as (Hf & Hc' & _).
  cbn [ctx] in Hf, Hc'.
  assert (Hin1 : 0 <= idx < analog_ch_count (ctx s1)) by (rewrite Hc'; lia).
  destruct (analog_slot (ctx s1) idx (af_wf _ _ Hloop) Hin1)
    as (buff1 & Hb1 & _ & _).
  rewrite Hb1. destruct (flush && _); [|by eexists _, _].
  destruct (dir_append_analog_returns s1 idx (ab_samples buff1)
              (ab_fill_size buff1) (af_wf _ _ Hloop) Hin1)
    as (ret2 & s2 & Happ).
  rewrite Hf in Happ. rewrite Happ.
  destruct (negb (is_ok ret2)); by eexists _, _.
Qed.

Lemma name_channels_length l : forall first index map meta,
  length (name_channels l first index map meta).1.2 = length map.
Proof.
  induction l as [|ch l IH]; intros first index map meta; [done|].
  cbn [name_channels]. destruct (negb (ch_enabled ch)); [apply IH|].
  destruct (ch_type ch); rewrite IH; [done | apply length_insert].
Qed.

(** On a small device a successful [dir_create] leaves a well-formed index
    map and a logic buffer with room. *)
Lemma dir_create_session_ok sdi s s' :
  small_device sdi ->
  dir_create sdi s = (SR_OK, s') ->
  index_map_wf (ctx s') /\ logic_ok (logic_buff_of (ctx s')).
Proof.
  unfold small_device. rewrite CHUNK_SIZE_eq. intros Hsmall Hok.
  destruct (dir_create_ok _ _ _ Hok)
    as (rate & head & index & map & meta & tail & _ & _ & Hnc & Hctx & _).
  pose proof (name_channels_length (channels sdi)
                (if 0 <? enabled_logic_channels
                           (count_channels (channels sdi) (mk_counts 0 0 0))
                 then u32 (logic_channels
                             (count_channels (channels sdi) (mk_counts 0 0 0)) + 1)
                 else 1) 0
                (replicate (Z.to_nat (enabled_analog_channels
                   (count_channels (channels sdi) (mk_counts 0 0 0)))) 0) head)
    as Hlen.
  rewrite Hnc, length_replicate in Hlen. cbn [fst snd] in Hlen.
  rewrite (count_channels_exact (channels sdi)) in Hctx, Hlen by lia.
  cbn [logic_channels enabled_logic_channels enabled_analog_channels]
    in Hctx, Hlen.
  pose proof (count_of_le is_logic (channels sdi)) as HL.
  pose proof (count_of_nonneg is_logic (channels sdi)) as HL0.
  pose proof (count_of_le is_enabled_analog (channels sdi)) as HA.
  pose proof (count_of_nonneg is_enabled_analog (channels sdi)) as HA0.
  set (L := count_of is_logic (channels sdi)) in *.
  assert (Hu : usize (usize (L + (8 - 1)) / 8) = (L + 7) / 8).
  { rewrite (usize_small (L + (8 - 1))) by lia.
    replace (L + (8 - 1)) with (L + 7) by lia.
    apply usize_small. split; [apply Z.div_pos; lia|].
    apply Z.div_lt_upper_bound; lia. }
  rewrite Hu in Hctx. rewrite Hctx.
  cbn [analog_ch_count analog_index_map logic_buff_of].
  assert (Hu0 : 0 <= (L + 7) / 8) by (apply Z.div_pos; lia).
  assert (Hu1 : (L + 7) / 8 <= 4194304).
  { assert ((L + 7) / 8 < 4194305); [|lia].
    apply Z.div_lt_upper_bound; lia. }
  split; [split|]; cbn [analog_ch_count analog_index_map]; try lia.
  destruct (Z.eqb_spec ((L + 7) / 8) 0) as [Hz|Hnz].
  - split; simpl; rewrite ?Hz, ?CHUNK_SIZE_eq; lia.
  - pose proof (Z.div_mod CHUNK_SIZE ((L + 7) / 8) Hnz) as Hdm.
    pose proof (Z.mod_pos_bound CHUNK_SIZE ((L + 7) / 8)) as Hmb.
    rewrite CHUNK_SIZE_eq in *.
    assert (1 <= 4194304 / ((L + 7) / 8)).
    { apply Z.div_le_lower_bound; lia. }
    split; simpl; rewrite ?CHUNK_SIZE_eq; try lia.
Qed.

Lemma index_map_wf_logic c b :
  index_map_wf c -> index_map_wf (with_logic_buff c b).
Proof. done. Qed.

Lemma receive_packet_returns
    (sr_analog_to_float : sr_datafeed_analog -> sr_error_code * list float32)
    sdi s p :
  small_device sdi ->
  session_ok (ctx s) (env s) ->
  packet_wf p ->
  exists ret s',
    receive_packet sr_analog_to_float sdi s p = Returns (ret, s') /\
    session_ok (ctx s') (env s').
Proof.
  intros Hsmall [Hinv Hok] Hp.
  assert (Hstep : forall ret s',
    receive_packet sr_analog_to_float sdi s p = Returns (ret, s') ->
    session_inv (ctx s') (env s')).
  { intros ret s' H. by apply receive_packet_step in H as [H _ _]. }
  assert (Hgoal : forall ret s',
    receive_packet sr_analog_to_float sdi s p = Returns (ret, s') ->
    (dir_created (ctx s') = true ->
     index_map_wf (ctx s') /\ logic_ok (logic_buff_of (ctx s'))) ->
    exists ret s',
      receive_packet sr_analog_to_float sdi s p = Returns (ret, s') /\
      session_ok (ctx s') (env s')).
  { intros ret s' H Hs. exists ret, s'. split; [done|]. split; eauto. }
  clear Hstep.
  assert (Hdir : forall ret1 s1,
    ensure_dir sdi s = (ret1, s1) ->
    session_inv (ctx s1) (env s1) /\
    (ret1 = SR_OK -> dir_created (ctx s1) = true) /\
    (dir_created (ctx s1) = true ->
     index_map_wf (ctx s1) /\ logic_ok (logic_buff_of (ctx s1)))).
  { intros ret1 s1 He.
    pose proof (ensure_dir_step _ _ _ _ Hinv He) as [[Hinv1 _ _] Hcr].
    split; [done|]. split; [done|].
    unfold ensure_dir in He. destruct (dir_created (ctx s)) eqn:Hd.
    { injection He as <- <-. by rewrite Hd. }
    destruct (dir_create sdi s) as [r s0] eqn:Hc.
    destruct r; cbn [is_ok negb] in He; injection He as <- <-.
    - intros _. by destruct (dir_create_session_ok sdi s s0 Hsmall Hc).
    - destruct (dir_create_any _ _ _ _ Hc) as [-> _]. by rewrite Hd.
    - destruct (dir_create_any _ _ _ _ Hc) as [-> _]. by rewrite Hd.
    - destruct (dir_create_any _ _ _ _ Hc) as [-> _]. by rewrite Hd. }
  destruct p as [config|logic|analog| |]; cbn [receive_packet] in *.
  - eapply Hgoal; [reflexivity|]. simpl. intros Hd.
    destruct (Hok Hd) as [Hmap Hlb]. by split.
  - destruct (ensure_dir sdi s) as [ret1 s1] eqn:He.
    destruct (Hdir _ _ eq_refl) as (Hinv1 & Hcr & Hok1).
    destruct ret1; cbn [is_ok negb] in *;
      try (eapply Hgoal; [reflexivity | done]).
    destruct (Hok1 (Hcr eq_refl)) as [Hmap Hlb].
    destruct (dir_append_queue_returns s1 (logic_data logic)
                (logic_unitsize logic) (logic_length logic) false Hlb)
      as (ret & s' & Hq & Hlb'); [apply Hp|].
    eapply Hgoal; [exact Hq|]. intros _.
    apply dir_append_queue_frame in Hq as [Hctx _].
    split; [|done]. rewrite Hctx. by apply index_map_wf_logic.
  - destruct (ensure_dir sdi s) as [ret1 s1] eqn:He.
    destruct (Hdir _ _ eq_refl) as (Hinv1 & Hcr & Hok1).
    destruct ret1; cbn [is_ok negb] in *;
      try (eapply Hgoal; [reflexivity | done]).
    destruct (Hok1 (Hcr eq_refl)) as [Hmap Hlb].
    pose proof (proj2 Hinv1 (Hcr eq_refl)) as Hwf.
    destruct (dir_append_analog_queue_returns sr_analog_to_float s1
                (Some analog) false Hwf Hmap Hp) as (ret & s' & Hq).
    eapply Hgoal; [exact Hq|]. intros _.
    apply dir_append_analog_queue_frame in Hq; [|done|done].
    destruct (analog_frame_layout _ _ Hq) as (_ & Hc & _ & Hm & Hl).
    rewrite Hl. split; [|done]. unfold index_map_wf. by rewrite Hc, Hm.
  - destruct (dir_created (ctx s)) eqn:Hd.
    2:{ eapply Hgoal; [reflexivity|]. by rewrite Hd. }
    destruct (Hok eq_refl) as [Hmap Hlb].
    destruct (dir_append_queue_returns s [] 0 0 true Hlb)
      as (ret1 & s1 & Hq & Hlb1); [lia|].
    rewrite Hq in *.
    pose proof (dir_append_queue_frame _ _ _ _ _ _ _ Hq) as [Hctx Htr].
    assert (Hmap1 : index_map_wf (ctx s1)).
    { rewrite Hctx. by apply index_map_wf_logic. }
    destruct (negb (is_ok ret1)).
    { eapply Hgoal; [reflexivity | done]. }
    assert (Hwf1 : analog_wf (ctx s1)).
    { rewrite Hctx. apply analog_wf_logic, Hinv, Hd. }
    destruct (dir_append_analog_queue_returns sr_analog_to_float s1
                None true Hwf1 Hmap1 eq_refl) as (ret & s' & Hq2).
    eapply Hgoal; [exact Hq2|]. intros _.
    apply dir_append_analog_queue_frame in Hq2; [|done|done].
    destruct (analog_frame_layout _ _ Hq2) as (_ & Hc & _ & Hm & Hl).
    rewrite Hl. split; [|done]. unfold index_map_wf. by rewrite Hc, Hm.
  - eapply Hgoal; [reflexivity | done].
Qed.

Lemma receive_sdi
    (sr_analog_to_float : sr_datafeed_analog -> sr_error_code * list float32)
    o w p ret o1 w1 :
  receive sr_analog_to_float o w p = Returns (ret, o1, w1) ->
  o_sdi o1 = o_sdi o.
Proof.
  unfold receive. destruct (o_sdi o) as [sdi|] eqn:Hsdi.
  2:{ intros [= _ <- _]. done. }
  destruct (o_priv o) as [c|]; [|by intros [= _ <- _]].
  destruct (receive_packet _ _ _ _) as [[r s]| |]; try done.
  by intros [= _ <- _].
Qed.

Lemma reachable_ok
    (sr_analog_to_float : sr_datafeed_analog -> sr_error_code * list float32)
    o w :
  reachable sr_analog_to_float o w ->
  (forall sdi, o_sdi o = Some sdi -> small_device sdi) ->
  exists c, o_priv o = Some c /\ session_ok c w.
Proof.
  induction 1 as [o0 o w Hinit Htr|o w p ret o1 w1 _ IH Hp Hr]; intros Hsmall.
  - apply init_ok in Hinit as (name & ->). eexists. split; [done|].
    split; [split; [by rewrite Htr | done] | done].
  - pose proof (receive_sdi _ _ _ _ _ _ _ Hr) as Hsdi.
    rewrite Hsdi in Hsmall. destruct (IH Hsmall) as (c & Hpriv & Hok).
    unfold receive in Hr. destruct (o_sdi o) as [sdi|] eqn:Ho.
    2:{ injection Hr as _ <- <-. by exists c. }
    rewrite Hpriv in Hr.
    destruct (receive_packet_returns sr_analog_to_float sdi (mk_state c w) p)
      as (r & s' & Hrp & Hok'); [by apply Hsmall | done | done |].
    rewrite Hrp in Hr. injection Hr as _ <- <-. by exists (ctx s').
Qed.

(** ** C9: the directory is made late, and not again once it is there *)







(** X12. On a device with at most 33554432 channels every well-formed
    packet gets an answer from every session that can come about, whatever
    failed on the way: [receive] neither spins in a queue loop nor reads
    outside the buffer array or the index map. *)
Theorem receive_returns
    (sr_analog_to_float : sr_datafeed_analog -> sr_error_code * list float32)
    o w p :
  reachable sr_analog_to_float o w ->
  (forall sdi, o_sdi o = Some sdi -> small_device sdi) ->
  packet_wf p ->
  exists ret o1 w1, receive sr_analog_to_float o w p = Returns (ret, o1, w1).
Proof.
  intros Hreach Hsmall Hp.
  destruct (reachable_ok _ _ _ Hreach Hsmall) as (c & Hpriv & Hok).
  unfold receive. destruct (o_sdi o) as [sdi|] eqn:Ho; [|by eexists _, _, _].
  rewrite Hpriv.
  destruct (receive_packet_returns sr_analog_to_float sdi (mk_state c w) p)
    as (r & s' & Hrp & _); [by apply Hsmall | done | done |].
  rewrite Hrp. by eexists _, _, _.
Qed.

(** The index map is well formed after every successful [dir_create], on
    any device. *)
Lemma dir_create_index_map_wf sdi s s' :
  dir_create sdi s = (SR_OK, s') -> index_map_wf (ctx s').
Proof.
  intros Hok.
  destruct (dir_create_ok _ _ _ Hok)
    as (rate & head & index & map & meta & tail & _ & _ & Hnc & Hctx & _).
  pose proof (name_channels_length (channels sdi)
                (if 0 <? enabled_logic_channels
                           (count_channels (channels sdi) (mk_counts 0 0 0))
                 then u32 (logic_channels
                             (count_channels (channels sdi) (mk_counts 0 0 0)) + 1)
                 else 1) 0
                (replicate (Z.to_nat (enabled_analog_channels
                   (count_channels (channels sdi) (mk_counts 0 0 0)))) 0) head)
    as Hlen.
  rewrite Hnc, length_replicate in Hlen. cbn [fst snd] in Hlen.
  rewrite Hctx. unfold index_map_wf.
  cbn [analog_ch_count analog_index_map].
  rewrite (count_channels_spec _ _ 0 0 0) in Hlen |- * by done.
  cbn [enabled_analog_channels] in Hlen |- *.
  pose proof (u32_range (0 + count_of is_enabled_analog (channels sdi))).
  lia.
Qed.

(** ** A session from start to end *)

(** Nine logic channels and an analog one; stream metadata, four bytes of
    logic data, two analog samples, the end of the stream. The directory
    is made once, and the two chunks hold the samples. *)
Example sample_session :
  let o := mk_output (Some "capture"%string) (Some (device 9 1)) None in
  let packets :=
    [SR_DF_META [mk_config SR_CONF_SAMPLERATE 1000];
     SR_DF_LOGIC (mk_logic 4 2 [x01; x02; x03; x04]);
     SR_DF_ANALOG (mk_analog [x07; x08] 2 [analog_channel 9]);
     SR_DF_END] in
  let w := (run bytes_to_float (init o).2 (world_of []) packets).2 in
  (init o).1 = SR_OK /\
  mkdirs (trace w) = 1%nat /\
  drop 4 (trace w) =
    [E_write (F_logic 1) (P_bytes [x01; x02; x03; x04]) true;
     E_write (F_analog 10 1) (P_floats [7; 8]) true] /\
  List.map file_name_string [F_logic 1; F_analog 10 1] =
    ["logic-1-1"%string; "analog-1-10-1"%string].
Proof. repeat split; vm_compute; reflexivity. Qed.

(** The loop at work on a buffer of two samples of one byte (a capacity
    that [dir_create] never sets up, small enough to show every branch):
    five bytes fill and flush the buffer twice, the flush call of the end
    of the stream writes the fifth. *)
Example small_buffer_chunks :
  let c :=
    with_logic_buff (zero_context "capture")
      (mk_logic_buff 1 2 (fun _ => x00) 0 1) in
  let s := mk_state c (world_of []) in
  events_of s (queue_blocks_flush s 1 [[x01; x02; x03]; [x04; x05]]) =
    Some (SR_OK,
          [E_write (F_logic 1) (P_bytes [x01; x02]) true;
           E_write (F_logic 2) (P_bytes [x03; x04]) true;
           E_write (F_logic 3) (P_bytes [x05]) true]) /\
  logic_state_of (queue_blocks_flush s 1 [[x01; x02; x03]; [x04; x05]]) =
    Some (SR_OK, 0, 4).
Proof. split; vm_compute; reflexivity. Qed.

(** * The rest of the module

    Properties of the functions and of their interplay beyond the claims
    of the specification. *)

(** ** Sample sessions *)

Lemma sample_reachable packets w :
  trace w = [] ->
  Forall packet_wf packets ->
  reachable bytes_to_float
    (run bytes_to_float (init sample_output).2 w packets).1
    (run bytes_to_float (init sample_output).2 w packets).2.
Proof.
  intros Htr Hwf. apply run_reachable; [|done].
  by apply (reachable_init _ sample_output).
Qed.

Lemma sample_packets_wf : Forall packet_wf sample_packets.
Proof. repeat constructor; simpl; lia. Qed.

(** ** The logic buffer: what is copied and what is written *)

(** X3. A logic block whose whole samples fit into the room that is left
    in the buffer is only copied: the call answers SR_OK, performs no file
    operation and consumes nothing of the world, the fill grows by
    [length / unit_size] samples, the chunk number stays, and the buffer
    holds what it held followed by the bytes of the whole samples of the
    block. A buffer that the block fills to the brim is not flushed yet. *)
Theorem logic_block_fits s buf unitsize length :
  let b := logic_buff_of (ctx s) in
  logic_wf b ->
  unitsize = lb_unit_size b ->
  0 <= length < 2 ^ 64 ->
  length <= Z.of_nat (List.length buf) ->
  lb_fill_size b + length / lb_unit_size b <= lb_alloc_size b ->
  exists s',
    dir_append_queue s buf unitsize length false = Returns (SR_OK, s') /\
    env s' = env s /\
    ctx s' = with_logic_buff (ctx s) (logic_buff_of (ctx s')) /\
    lb_fill_size (logic_buff_of (ctx s')) =
      lb_fill_size b + length / lb_unit_size b /\
    lb_next_chunk_num (logic_buff_of (ctx s')) = lb_next_chunk_num b /\
    logic_buffered (logic_buff_of (ctx s')) =
      logic_buffered b ++
      take (Z.to_nat (length / lb_unit_size b * lb_unit_size b)) buf.
Proof.
  intros b [Hu Ha Hf Hb Hc] -> Hlen Hbuf Hroom.
  rewrite CHUNK_SIZE_eq in Hb.
  set (n := length / lb_unit_size b) in *.
  assert (Hn : 0 <= n) by (apply Z.div_pos; lia).
  assert (Hnu : n * lb_unit_size b <= length).
  { pose proof (Z.mul_div_le length (lb_unit_size b) Hu). lia. }
  unfold dir_append_queue. fold b.
  rewrite Z.eqb_refl. cbn [negb]. rewrite andb_false_r.
  destruct (Z.eqb_spec (lb_unit_size b) 0) as [|_]; [lia|]. fold n.
  unfold loop_fuel. cbn [queue_loop]. fold b.
  destruct (Z.eqb_spec n 0) as [E|Hne].
  - exists s. rewrite E. cbn [andb Z.mul Z.to_nat take].
    rewrite app_nil_r, Z.add_0_r. repeat split. by destruct s as [[] ?].
  - assert (Hal : lb_alloc_size b <= 4194304) by nia.
    rewrite (usize_small (lb_alloc_size b - lb_fill_size b)) by lia.
    destruct (Z.eqb_spec (lb_alloc_size b - lb_fill_size b) 0) as [|_]; [lia|].
    cbn [negb].
    rewrite Z.min_l by lia. rewrite Z.sub_diag.
    change (usize 0) with 0. cbn [Z.eqb negb andb].
    assert (Hq : forall fuel s1 rd, queue_loop fuel s1 rd 0 = Returns (SR_OK, s1))
      by (by intros []).
    rewrite Hq. cbn [is_ok negb andb].
    eexists. split; [reflexivity|]. cbn [ctx env logic_buff_of with_logic_buff
      lb_with_samples lb_with_fill lb_fill_size lb_next_chunk_num].
    repeat split.
    + apply usize_small. lia.
    + unfold logic_buffered.
      cbn [lb_samples lb_fill_size lb_unit_size lb_with_samples lb_with_fill].
      rewrite !usize_small by nia.
      rewrite Z.mul_add_distr_r. apply load_memcpy; nia.
Qed.

Lemma logic_block_fits_witness :
  let s :=
    mk_state
      (with_logic_buff (zero_context "capture")
         (mk_logic_buff 2 4 (fun _ => x00) 1 1))
      (world_of []) in
  exists s',
    dir_append_queue s [x01; x02; x03; x04; x05] 2 5 false =
      Returns (SR_OK, s') /\
    env s' = env s /\
    ctx s' = with_logic_buff (ctx s) (logic_buff_of (ctx s')) /\
    lb_fill_size (logic_buff_of (ctx s')) = 1 + 5 / 2 /\
    lb_next_chunk_num (logic_buff_of (ctx s')) = 1 /\
    logic_buffered (logic_buff_of (ctx s')) =
      logic_buffered (logic_buff_of (ctx s)) ++
      take (Z.to_nat (5 / 2 * 2)) [x01; x02; x03; x04; x05].
Proof.
  intros s.
  apply (logic_block_fits s [x01; x02; x03; x04; x05] 2 5).
  - split; vm_compute; done.
  - reflexivity.
  - lia.
  - simpl. lia.
  - vm_compute. discriminate.
Defined.

Lemma dir_append_full s ret s2 :
  let b := logic_buff_of (ctx s) in
  logic_wf b ->
  lb_fill_size b = lb_alloc_size b ->
  dir_append s (lb_samples b) (lb_unit_size b)
    (usize (lb_fill_size b * lb_unit_size b)) = Returns (ret, s2) ->
  logic_kept s s2 /\
  exists e,
    trace (env s2) = trace (env s) ++ [e] /\
    logic_chunk_of_size (lb_alloc_size b * lb_unit_size b) e.
Proof.
  intros b Hwf Hfull Happ.
  destruct (dir_append_returns s (lb_samples b) (lb_unit_size b)
              (usize (lb_fill_size b * lb_unit_size b)) Hwf (wf_unit _ Hwf))
    as (ret' & s2' & Happ' & Hk).
  rewrite Happ in Happ'. injection Happ' as <- <-. split; [done|].
  destruct Hwf as [Hu Ha Hf Hb Hc]. rewrite CHUNK_SIZE_eq in Hb.
  rewrite usize_small in Happ by nia. unfold dir_append in Happ.
  destruct (Z.eqb_spec (lb_fill_size b * lb_unit_size b) 0) as [|_]; [nia|].
  destruct (Z.eqb_spec (lb_unit_size b) 0) as [|_]; [lia|].
  pose proof (write_file_trace (env s)
                (F_logic (lb_next_chunk_num (logic_buff_of (ctx s))))
                (P_bytes (load (lb_samples b)
                            (lb_fill_size b * lb_unit_size b)))) as [Htr _].
  destruct (write_file _ _ _) as [ok w]. cbn [fst snd] in Htr.
  eexists. split.
  - destruct ok; cbn [negb] in Happ; injection Happ as <- <-; exact Htr.
  - cbn. rewrite length_load, Hfull. nia.
Qed.

Lemma queue_loop_full_chunks fuel : forall s rd send_size ret s',
  let b := logic_buff_of (ctx s) in
  logic_wf b ->
  0 <= send_size < 2 ^ 64 ->
  queue_loop fuel s rd send_size = Returns (ret, s') ->
  logic_kept s s' /\
  exists new,
    trace (env s') = trace (env s) ++ new /\
    Forall (logic_chunk_of_size (lb_alloc_size b * lb_unit_size b)) new.
Proof.
  induction fuel as [|fuel IH]; intros s rd send_size ret s' b Hwf Hsend.
  - simpl. destruct (send_size =? 0); [|done]. intros [= <- <-].
    split; [by apply logic_kept_refl|]. exists []. by rewrite app_nil_r.
  - cbn [queue_loop]. fold b.
    destruct (Z.eqb_spec send_size 0) as [->|Hne].
    { intros [= <- <-]. split; [by apply logic_kept_refl|].
      exists []. by rewrite app_nil_r. }
    pose proof Hwf as [Hu Ha Hf Hb Hc]. rewrite CHUNK_SIZE_eq in Hb.
    assert (Hal : lb_alloc_size b <= 4194304) by nia.
    rewrite (usize_small (lb_alloc_size b - lb_fill_size b)) by lia.
    destruct (Z.eqb_spec (lb_alloc_size b - lb_fill_size b) 0) as [Hfull|Hroom];
      cbn [negb].
    + destruct (Z.eqb_spec send_size 0) as [|_]; [done|]. cbn [negb andb].
      destruct (Z.eqb_spec (lb_alloc_size b - lb_fill_size b) 0) as [_|];
        [|done].
      destruct (dir_append s _ _ _) as [[ret2 s2]| |] eqn:Happ; try done.
      apply dir_append_full in Happ as (Hk2 & e & Htr2 & He); [|done|fold b; lia].
      fold b in He.
      destruct (negb (is_ok ret2)).
      { intros [= <- <-]. split; [done|]. exists [e]. split; [done|].
        by constructor. }
      pose proof (logic_kept_trans _ _ _ Hk2
                    (set_logic_fill_kept s2 (proj1 Hk2))) as Hk3.
      intros Hq. apply IH in Hq as (Hk & new & Htr & Hnew); [|apply Hk3|done].
      split; [exact (logic_kept_trans _ _ _ Hk3 Hk)|].
      exists (e :: new). split.
      * rewrite Htr. cbn [set_logic_fill env]. rewrite Htr2, <- app_assoc. done.
      * constructor; [done|]. destruct Hk3 as (_ & -> & ->) in Hnew. done.
    + set (copy_size := Z.min send_size (lb_alloc_size b - lb_fill_size b)).
      assert (Hcopy : 0 < copy_size <= lb_alloc_size b - lb_fill_size b)
        by (unfold copy_size; lia).
      assert (Hcs : copy_size <= send_size) by (unfold copy_size; lia).
      rewrite (usize_small (lb_fill_size b + copy_size)) by lia.
      rewrite (usize_small (send_size - copy_size)) by lia.
      rewrite (usize_small (lb_alloc_size b - lb_fill_size b - copy_size)) by lia.
      set (s1 := mk_state _ _).
      assert (Hk1 : logic_kept s s1).
      { split; [|done]. split; simpl; fold b; try done; try lia. }
      assert (Hf1 : lb_fill_size (logic_buff_of (ctx s1)) =
                    lb_fill_size b + copy_size) by done.
      assert (Ht1 : trace (env s1) = trace (env s)) by done.
      destruct (Z.eqb_spec (send_size - copy_size) 0) as [Hdone|Hmore];
        cbn [negb andb].
      * rewrite Hdone.
        replace (queue_loop fuel s1 _ 0) with (Returns (SR_OK, s1))
          by (by destruct fuel).
        intros [= <- <-]. split; [done|]. exists []. by rewrite app_nil_r.
      * destruct (Z.eqb_spec (lb_alloc_size b - lb_fill_size b - copy_size) 0)
          as [Hfull|Hroom'].
        -- destruct (dir_append s1 _ _ _) as [[ret2 s2]| |] eqn:Happ; try done.
           apply dir_append_full in Happ as (Hk2 & e & Htr2 & He);
             [|apply Hk1|rewrite Hf1; destruct Hk1 as (_ & _ & ->); fold b; lia].
           destruct Hk1 as (Hwf1 & Hu1 & Ha1). rewrite Hu1, Ha1 in He. fold b in He.
           pose proof (logic_kept_trans _ _ _ (conj Hwf1 (conj Hu1 Ha1)) Hk2)
             as Hk12.
           destruct (negb (is_ok ret2)).
           { intros [= <- <-]. split; [done|]. exists [e].
             split; [by rewrite Htr2, Ht1 | by constructor]. }
           pose proof (logic_kept_trans _ _ _ Hk12
                         (set_logic_fill_kept s2 (proj1 Hk2))) as Hk3.
           intros Hq. apply IH in Hq as (Hk & new & Htr & Hnew);
             [|apply Hk3|lia].
           split; [exact (logic_kept_trans _ _ _ Hk3 Hk)|].
           exists (e :: new). split.
           ++ rewrite Htr. cbn [set_logic_fill env].
              by rewrite Htr2, Ht1, <- app_assoc.
           ++ constructor; [done|]. destruct Hk3 as (_ & -> & ->) in Hnew. done.
        -- intros Hq. apply IH in Hq as (Hk & new & Htr & Hnew);
             [|apply Hk1|lia].
           split; [exact (logic_kept_trans _ _ _ Hk1 Hk)|].
           exists new. split; [by rewrite Htr, Ht1|].
           destruct Hk1 as (_ & -> & ->) in Hnew. done.
Qed.

(** X4. Whatever the file system answers, every chunk that a call of
    [dir_append_queue] writes from inside its loop is a full buffer,
    [alloc_size * unit_size] bytes. Only the flush that the caller asks for
    adds a chunk that may be shorter: at most one, the last event of the
    call, not empty and no longer than a full buffer. *)
Theorem logic_chunks_full s buf unitsize length flush ret s' :
  let b := logic_buff_of (ctx s) in
  let cap := lb_alloc_size b * lb_unit_size b in
  logic_wf b ->
  0 <= length < 2 ^ 64 ->
  dir_append_queue s buf unitsize length flush = Returns (ret, s') ->
  exists full final,
    trace (env s') = trace (env s) ++ full ++ final /\
    Forall (logic_chunk_of_size cap) full /\
    (flush = false -> final = []) /\
    (List.length final <= 1)%nat /\
    Forall (fun e => exists size,
              0 < size <= cap /\ logic_chunk_of_size size e) final.
Proof.
  intros b cap Hwf Hlen. unfold dir_append_queue. fold b.
  destruct (negb (length =? 0) && negb (unitsize =? lb_unit_size b)).
  { intros [= <- <-]. exists [], []. rewrite !app_nil_r.
    repeat split; try done. simpl. lia. }
  pose proof (wf_unit _ Hwf) as Hu0.
  destruct (Z.eqb_spec (lb_unit_size b) 0) as [E|_]; [lia|].
  assert (Hsend : 0 <= length / lb_unit_size b < 2 ^ 64).
  { split.
    - apply Z.div_pos; lia.
    - apply Z.div_lt_upper_bound; nia. }
  destruct (queue_loop _ s buf _) as [[ret1 s1]| |] eqn:Hq; try done.
  apply queue_loop_full_chunks in Hq as (Hk & full & Htr & Hfull); try done.
  fold b in Hfull. fold cap in Hfull.
  destruct (negb (is_ok ret1)).
  { intros [= <- <-]. exists full, []. rewrite app_nil_r.
    repeat split; try done. simpl. lia. }
  destruct flush; cbn [andb].
  2:{ intros [= <- <-]. exists full, []. rewrite app_nil_r.
      repeat split; try done. simpl. lia. }
  destruct Hk as (Hwf1 & Hu1 & Ha1).
  set (b1 := logic_buff_of (ctx s1)) in *.
  destruct (Z.eqb_spec (lb_fill_size b1) 0) as [E|Hne]; cbn [negb].
  { intros [= <- <-]. exists full, []. rewrite app_nil_r.
    repeat split; try done. simpl. lia. }
  pose proof Hwf1 as [Hu Ha Hf Hb Hc]. rewrite CHUNK_SIZE_eq in Hb.
  rewrite usize_small by nia. unfold dir_append.
  destruct (Z.eqb_spec (lb_fill_size b1 * lb_unit_size b1) 0) as [|_]; [nia|].
  destruct (Z.eqb_spec (lb_unit_size b1) 0) as [|_]; [lia|].
  pose proof (write_file_trace (env s1)
                (F_logic (lb_next_chunk_num (logic_buff_of (ctx s1))))
                (P_bytes (load (lb_samples b1)
                            (lb_fill_size b1 * lb_unit_size b1)))) as [Htr1 _].
  destruct (write_file _ _ _) as [ok w]. cbn [fst snd] in Htr1.
  intros Hret.
  assert (Htr' : trace (env s') = trace w).
  { destruct ok; cbn [negb is_ok] in Hret; by injection Hret as <- <-. }
  eexists full, [_]. split; [by rewrite Htr', Htr1, Htr, <- app_assoc|].
  split; [done|]. split; [done|]. split; [simpl; lia|].
  constructor; [|done]. exists (lb_fill_size b1 * lb_unit_size b1). split.
  - subst cap b. rewrite <- Hu1, <- Ha1. nia.
  - cbn. rewrite length_load. nia.
Qed.

Lemma logic_chunks_full_witness :
  let s :=
    mk_state
      (with_logic_buff (zero_context "capture")
         (mk_logic_buff 1 2 (fun _ => x00) 0 1))
      (world_of []) in
  exists full final,
    trace (env (after s (dir_append_queue s [x01; x02; x03; x04; x05] 1 5 true)))
      = trace (env s) ++ full ++ final /\
    Forall (logic_chunk_of_size 2) full /\
    (true = false -> final = []) /\
    (List.length final <= 1)%nat /\
    Forall (fun e => exists size,
              0 < size <= 2 /\ logic_chunk_of_size size e) final.
Proof.
  intros s.
  apply (logic_chunks_full s [x01; x02; x03; x04; x05] 1 5 true SR_OK
           (after s (dir_append_queue s [x01; x02; x03; x04; x05] 1 5 true))).
  - split; vm_compute; done.
  - lia.
  - vm_compute. reflexivity.
Defined.

(** ** dir_create: its stages *)

(** X5. [dir_create] makes its four file operations in a fixed order and
    stops at the first that fails, undoing nothing: its events are
    [mkdir], [chdir], the write of "2" to [version], the write of
    [metadata]. It answers SR_ERR when one of the first three fails, and
    has then changed nothing in the context but the sample rate;
    SR_ERR_MALLOC when a buffer cannot be allocated, after [version] was
    written; SR_ERR or SR_OK with the answer of the write of [metadata]. It
    never sets the [dir_created] flag itself. *)
Theorem dir_create_stages sdi s ret s' :
  dir_create sdi s = (ret, s') ->
  let name := filename (ctx s) in
  let version := E_write F_version (P_bytes [x32]) in
  exists new,
    trace (env s') = trace (env s) ++ new /\
    dir_created (ctx s') = dir_created (ctx s) /\
    ((ret = SR_ERR /\
      (new = [E_mkdir name false] \/
       new = [E_mkdir name true; E_chdir name false] \/
       new = [E_mkdir name true; E_chdir name true; version false]) /\
      ctx s' = with_samplerate (ctx s) (samplerate (ctx s'))) \/
     (ret = SR_ERR_MALLOC /\
      new = [E_mkdir name true; E_chdir name true; version true]) \/
     (exists meta (ok : bool),
        ret = (if ok then SR_OK else SR_ERR) /\
        new = [E_mkdir name true; E_chdir name true; version true;
               E_write F_metadata (P_keyfile meta) ok])).
Proof.
  unfold dir_create.
  set (outc := if samplerate (ctx s) =? 0 then _ else _).
  assert (Hdc : dir_created outc = dir_created (ctx s)).
  { subst outc. destruct (samplerate (ctx s) =? 0); [|done].
    by destruct (conf_samplerate sdi). }
  assert (Hname : filename outc = filename (ctx s)).
  { subst outc. destruct (samplerate (ctx s) =? 0); [|done].
    by destruct (conf_samplerate sdi). }
  assert (Hrate : outc = with_samplerate (ctx s) (samplerate outc)).
  { subst outc. destruct (ctx s). destruct (_ =? 0); [|done].
    by destruct (conf_samplerate sdi). }
  unfold g_mkdir, g_chdir, write_file. rewrite Hname.
  destruct (next_answer (io_script (env s))) as [ok1 r1].
  cbn [io_script trace malloc_script].
  destruct ok1; cbn [negb].
  2:{ intros [= <- <-]. eexists. split; [reflexivity|]. split; [done|].
      left. split; [done|]. split; [by left | done]. }
  destruct (next_answer r1) as [ok2 r2].
  cbn [io_script trace malloc_script].
  destruct ok2; cbn [negb].
  2:{ intros [= <- <-]. eexists. split.
      { cbn [env trace]. rewrite <- app_assoc. reflexivity. }
      split; [done|]. left. split; [done|]. split; [by right; left | done]. }
  destruct (next_answer r2) as [ok3 r3].
  destruct ok3; cbn [negb].
  2:{ intros [= <- <-]. eexists. split.
      { cbn [env trace]. rewrite <- !app_assoc. reflexivity. }
      split; [done|]. left. split; [done|]. split; [by right; right | done]. }
  set (c := count_channels (channels sdi) (mk_counts 0 0 0)).
  destruct (name_channels (channels sdi) _ 0 _ _) as [[index map] meta].
  set (w3 := mk_world _ r3 _).
  pose proof (g_try_malloc0_trace w3 CHUNK_SIZE) as [Ht4 Hs4].
  destruct (g_try_malloc0 w3 CHUNK_SIZE) as [ok4 w4]. cbn [snd] in Ht4, Hs4.
  destruct ok4; cbn [negb].
  2:{ intros [= <- <-]. eexists. split.
      { cbn [env]. rewrite Ht4. subst w3. cbn [trace].
        rewrite <- !app_assoc. reflexivity. }
      split; [done|]. right. left. done. }
  pose proof (alloc_analog_buffs_trace (Z.to_nat (enabled_analog_channels c)) 0
                (replicate (Z.to_nat (enabled_analog_channels c))
                   zero_analog_buff) w4) as [Ht5 Hs5].
  destruct (alloc_analog_buffs _ 0 _ w4) as [[ret5 bufs] w5] eqn:Ha.
  cbn [snd] in Ht5, Hs5.
  assert (Hret5 : ret5 = SR_OK \/ ret5 = SR_ERR_MALLOC).
  { clear -Ha. revert Ha. generalize 0 at 1.
    generalize (replicate (Z.to_nat (enabled_analog_channels c))
                  zero_analog_buff).
    revert w4.
    induction (Z.to_nat (enabled_analog_channels c)) as [|n IH];
      intros w4 l z; cbn [alloc_analog_buffs].
    - intros [= <- _ _]. by left.
    - destruct (g_try_malloc0 w4 CHUNK_SIZE) as [[] w]; cbn [negb].
      + apply IH.
      + intros [= <- _ _]. by right. }
  destruct Hret5 as [-> | ->]; cbn [is_ok negb].
  2:{ intros [= <- <-]. eexists. split.
      { cbn [env]. rewrite Ht5, Ht4. subst w3. cbn [trace].
        rewrite <- !app_assoc. reflexivity. }
      split; [done|]. right. left. done. }
  destruct (next_answer (io_script w5)) as [ok6 r6].
  destruct ok6; cbn [negb]; intros [= <- <-];
    (eexists; split;
      [cbn [env trace]; rewrite Ht5, Ht4; subst w3; cbn [trace];
       rewrite <- !app_assoc; reflexivity|]);
    (split; [done|]); right; right.
  - eexists _, true. done.
  - eexists _, false. done.
Qed.

Lemma dir_create_stages_witness :
  let s := mk_state (zero_context "capture") (world_of [true; false]) in
  let r := dir_create (device 1 1) s in
  let name := filename (ctx s) in
  let version := E_write F_version (P_bytes [x32]) in
  exists new,
    trace (env r.2) = trace (env s) ++ new /\
    dir_created (ctx r.2) = dir_created (ctx s) /\
    ((r.1 = SR_ERR /\
      (new = [E_mkdir name false] \/
       new = [E_mkdir name true; E_chdir name false] \/
       new = [E_mkdir name true; E_chdir name true; version false]) /\
      ctx r.2 = with_samplerate (ctx s) (samplerate (ctx r.2))) \/
     (r.1 = SR_ERR_MALLOC /\
      new = [E_mkdir name true; E_chdir name true; version true]) \/
     (exists meta (ok : bool),
        r.1 = (if ok then SR_OK else SR_ERR) /\
        new = [E_mkdir name true; E_chdir name true; version true;
               E_write F_metadata (P_keyfile meta) ok])).
Proof.
  intros s r.
  apply (dir_create_stages (device 1 1) s r.1 r.2).
  vm_compute. reflexivity.
Defined.

(** ** The end of the stream *)

(** A walk over buffers that are all empty changes nothing. *)
Lemma flush_analog_noop todo : forall idx s,
  analog_wf (ctx s) ->
  0 <= idx ->
  idx + Z.of_nat todo <= analog_ch_count (ctx s) ->
  Forall (fun b => ab_fill_size b = 0) (analog_buff_of (ctx s)) ->
  flush_analog todo idx s = Returns (SR_OK, s).
Proof.
  induction todo as [|todo IH]; intros idx s Hwf Hidx Hmax Hall; [done|].
  cbn [flush_analog].
  destruct (analog_slot (ctx s) idx Hwf) as (buff & Hb & _ & _); [lia|].
  rewrite Hb. pose proof (wf_count _ Hwf) as Hc.
  rewrite (Forall_lookup_1 _ _ _ _ Hall Hb). cbn [Z.eqb].
  rewrite usize_small by lia. apply IH; try done; lia.
Qed.

(** A walk that went well has emptied the buffers it passed and has left
    the fill of the others alone. *)
Lemma flush_analog_empties todo : forall idx s s',
  analog_wf (ctx s) ->
  0 <= idx ->
  idx + Z.of_nat todo <= analog_ch_count (ctx s) ->
  flush_analog todo idx s = Returns (SR_OK, s') ->
  forall j buff,
    analog_buff_of (ctx s') !! j = Some buff ->
    (Z.to_nat idx <= j < Z.to_nat idx + todo)%nat /\ ab_fill_size buff = 0 \/
    ~ (Z.to_nat idx <= j < Z.to_nat idx + todo)%nat /\
      exists buff0,
        analog_buff_of (ctx s) !! j = Some buff0 /\
        ab_fill_size buff = ab_fill_size buff0.
Proof.
  induction todo as [|todo IH]; intros idx s s' Hwf Hidx Hmax.
  - intros [= <-] j buff Hj. right. split; [lia|]. by exists buff.
  - cbn [flush_analog].
    destruct (analog_slot (ctx s) idx Hwf) as (buff0 & Hb & Hfresh & _); [lia|].
    rewrite Hb. pose proof (wf_count _ Hwf) as Hc.
    rewrite (usize_small (idx + 1)) by lia.
    destruct (Z.eqb_spec (ab_fill_size buff0) 0) as [Hz|Hnz].
    { intros Hfl j buff Hj.
      destruct (IH (idx + 1) s s' Hwf ltac:(lia) ltac:(lia) Hfl j buff Hj)
        as [[Hr Hf]|[Hr (b0 & Hb0 & Hf)]].
      - left. split; [lia | done].
      - destruct (decide (j = Z.to_nat idx)) as [->|Hne].
        + left. split; [lia|]. rewrite Hb in Hb0. injection Hb0 as <-.
          by rewrite Hf.
        + right. split; [lia|]. by exists b0. }
    destruct (dir_append_analog s _ _ _) as [[ret2 s2]| |] eqn:Happ; try done.
    pose proof Happ as Happ'.
    apply dir_append_analog_frame in Happ' as [H2 Hb2]; try done; try lia.
    2:{ destruct Hfresh. lia. }
    pose proof (set_analog_fill_frame s2 idx (af_wf _ _ H2)) as H3.
    destruct ret2; cbn [is_ok negb]; try done.
    intros Hfl j buff Hj.
    destruct (analog_frame_layout _ _ H2) as (_ & Hc2 & _).
    destruct (analog_frame_layout _ _ H3) as (_ & Hc3 & _).
    destruct (IH (idx + 1) _ s' (af_wf _ _ H3) ltac:(lia) ltac:(lia) Hfl j buff Hj)
      as [[Hr Hf]|[Hr (b0 & Hb0 & Hf)]].
    + left. split; [lia | done].
    + destruct (decide (j = Z.to_nat idx)) as [->|Hne].
      * left. split; [lia|].
        rewrite (set_analog_fill_lookup _ _ _ Hb2) in Hb0.
        injection Hb0 as <-. by rewrite Hf.
      * right. split; [lia|].
        unfold set_analog_fill in Hb0. rewrite Hb2 in Hb0. simpl in Hb0.
        rewrite list_lookup_insert_ne in Hb0 by done.
        pose proof (dir_append_analog_chunk_number _ _ _ _ _ _ Happ)
          as (buff1 & ok & Hb1 & _ & _ & Hbufs & _).
        rewrite Hbufs in Hb0. rewrite list_lookup_insert_ne in Hb0.
        -- by exists b0.
        -- destruct (analog_slot (ctx s) idx Hwf) as (_ & _ & _ & ->); [lia|].
           done.
Qed.

Lemma send_size_zero (u : Z) : (if u =? 0 then 0 else 0 / u) = 0.
Proof. destruct (u =? 0); [done | apply Zdiv_0_l]. Qed.

Lemma logic_flush_empties s ret s1 :
  dir_append_queue s [] 0 0 true = Returns (ret, s1) ->
  ret = SR_OK ->
  lb_fill_size (logic_buff_of (ctx s1)) = 0.
Proof.
  unfold dir_append_queue. cbn [Z.eqb negb andb].
  rewrite send_size_zero. cbn [loop_fuel Z.to_nat queue_loop Z.eqb is_ok negb andb].
  destruct (Z.eqb_spec (lb_fill_size (logic_buff_of (ctx s))) 0) as [E|_];
    cbn [negb].
  { by intros [= _ <-]. }
  destruct (dir_append s _ _ _) as [[ret2 s2]| |]; try done.
  destruct ret2; cbn [is_ok negb]; by intros [= <- <-].
Qed.

Lemma logic_flush_noop s :
  lb_fill_size (logic_buff_of (ctx s)) = 0 ->
  dir_append_queue s [] 0 0 true = Returns (SR_OK, s).
Proof.
  intros Hf. unfold dir_append_queue. cbn [Z.eqb negb andb].
  rewrite send_size_zero. cbn [loop_fuel Z.to_nat queue_loop Z.eqb is_ok negb andb].
  by rewrite Hf.
Qed.

(** X10. An end of the stream that was answered with SR_OK leaves every
    buffer empty, and a second end of the stream right after it is
    answered with SR_OK and does nothing at all: no event, no change of the
    context. *)
Theorem end_of_stream_idempotent
    (sr_analog_to_float : sr_datafeed_analog -> sr_error_code * list float32)
    o w o1 w1 :
  reachable sr_analog_to_float o w ->
  receive sr_analog_to_float o w SR_DF_END = Returns (SR_OK, o1, w1) ->
  (exists c1,
     o_priv o1 = Some c1 /\ (dir_created c1 = true -> buffers_empty c1)) /\
  receive sr_analog_to_float o1 w1 SR_DF_END = Returns (SR_OK, o1, w1).
Proof.
  intros Hreach. apply reachable_inv in Hreach as (c & Hpriv & Hinv).
  unfold receive at 1. rewrite Hpriv.
  destruct (o_sdi o) as [sdi|] eqn:Hsdi; [|done].
  cbn [receive_packet ctx].
  destruct (dir_created c) eqn:Hd.
  2:{ intros [= <- <-]. cbn [ctx env]. split.
      - exists c. split; [done|]. by rewrite Hd.
      - unfold receive. cbn [o_sdi o_priv receive_packet ctx o_filename env].
        by rewrite Hd. }
  destruct (dir_append_queue _ [] 0 0 true) as [[ret1 s1]| |] eqn:Hq; try done.
  pose proof (logic_flush_empties _ _ _ Hq) as Hempty.
  apply dir_append_queue_frame in Hq as [Hctx1 _]. cbn [ctx] in Hctx1.
  destruct ret1; cbn [is_ok negb]; try (by intros [= ]).
  specialize (Hempty eq_refl).
  assert (Hwf1 : analog_wf (ctx s1)).
  { rewrite Hctx1. apply analog_wf_logic. by apply Hinv. }
  unfold dir_append_analog_queue.
  destruct (flush_analog _ 0 s1) as [[ret2 s2]| |] eqn:Hfl; try done.
  intros [= -> <- <-].
  pose proof (wf_count _ Hwf1) as Hc.
  assert (H0 : 0 <= 0) by lia.
  assert (Hmax : 0 + Z.of_nat (Z.to_nat (analog_ch_count (ctx s1))) <=
                 analog_ch_count (ctx s1)) by lia.
  pose proof (flush_analog_frame _ _ _ _ _ Hwf1 H0 Hmax Hfl) as Hframe.
  destruct (analog_frame_layout _ _ Hframe) as (_ & Hc2 & Hd2 & _ & Hl2).
  assert (Hall : Forall (fun b => ab_fill_size b = 0) (analog_buff_of (ctx s2))).
  { apply Forall_lookup_2. intros j buff Hj.
    destruct (flush_analog_empties _ _ _ _ Hwf1 H0 Hmax Hfl j buff Hj)
      as [[_ Hf]|[Hr _]]; [done|].
    exfalso. apply Hr. apply lookup_lt_Some in Hj.
    rewrite (wf_slots _ (af_wf _ _ Hframe)) in Hj. lia. }
  assert (Hd1 : dir_created (ctx s1) = true) by (by rewrite Hctx1).
  split.
  - exists (ctx s2). split; [done|]. intros _. split; [by rewrite Hl2 | done].
  - unfold receive. cbn [o_sdi o_priv o_filename receive_packet ctx env].
    rewrite Hd2, Hd1.
    replace (mk_state (ctx s2) (env s2)) with s2 by (by destruct s2).
    rewrite logic_flush_noop by (by rewrite Hl2). cbn [is_ok negb].
    unfold dir_append_analog_queue.
    rewrite flush_analog_noop; try done; try lia.
    apply Hframe.
Qed.

Lemma end_of_stream_idempotent_witness :
  let r := run bytes_to_float (init sample_output).2 (world_of []) sample_packets in
  let r1 := run bytes_to_float r.1 r.2 [SR_DF_END] in
  (exists c1,
     o_priv r1.1 = Some c1 /\ (dir_created c1 = true -> buffers_empty c1)) /\
  receive bytes_to_float r1.1 r1.2 SR_DF_END = Returns (SR_OK, r1.1, r1.2).
Proof.
  intros r r1.
  apply (end_of_stream_idempotent bytes_to_float r.1 r.2 r1.1 r1.2).
  - apply sample_reachable; [reflexivity | apply sample_packets_wf].
  - vm_compute. reflexivity.
Defined.

Lemma fail_stop_app new1 ret new2 :
  Forall write_ok new1 -> fail_stop ret new2 -> fail_stop ret (new1 ++ new2).
Proof.
  intros H1 [[-> H2]|[-> (d & e & -> & Hd & He)]].
  - left. split; [done | by apply Forall_app_2].
  - right. split; [done|]. exists (new1 ++ d), e.
    split; [by rewrite app_assoc|]. split; [by apply Forall_app_2 | done].
Qed.

Lemma flush_analog_fail_stop todo : forall idx s ret s',
  analog_wf (ctx s) ->
  0 <= idx ->
  idx + Z.of_nat todo <= analog_ch_count (ctx s) ->
  flush_analog todo idx s = Returns (ret, s') ->
  exists new,
    trace (env s') = trace (env s) ++ new /\ fail_stop ret new /\
    Forall (fun e => is_logic_chunk e = false) new.
Proof.
  induction todo as [|todo IH]; intros idx s ret s' Hwf Hidx Hmax.
  - intros [= <- <-]. exists []. rewrite app_nil_r. split; [done|].
    split; [by left | done].
  - cbn [flush_analog].
    destruct (analog_slot (ctx s) idx Hwf) as (buff0 & Hb & Hfresh & _); [lia|].
    rewrite Hb. pose proof (wf_count _ Hwf) as Hc.
    rewrite (usize_small (idx + 1)) by lia.
    destruct (Z.eqb_spec (ab_fill_size buff0) 0) as [Hz|Hnz].
    { apply IH; [done | lia | lia]. }
    destruct (dir_append_analog s _ _ _) as [[ret2 s2]| |] eqn:Happ; try done.
    pose proof Happ as Happ'.
    apply dir_append_analog_frame in Happ' as [H2 Hb2]; try done; try lia.
    2:{ destruct Hfresh. lia. }
    pose proof (set_analog_fill_frame s2 idx (af_wf _ _ H2)) as H3.
    pose proof (dir_append_analog_chunk_number _ _ _ _ _ _ Happ)
      as (buff1 & ok & _ & Htr & Hret & _).
    destruct ok; subst ret2; cbn [is_ok negb].
    2:{ intros [= <- <-]. eexists. split; [exact Htr|]. split; [|by constructor].
        right. split; [done|]. eexists [], _. by repeat split. }
    intros Hfl.
    destruct (analog_frame_layout _ _ H2) as (_ & Hc2 & _).
    destruct (analog_frame_layout _ _ H3) as (_ & Hc3 & _).
    apply IH in Hfl as (new & Htr' & Hfs & Hnl);
      [|apply H3|lia|lia].
    eexists (_ :: new). split.
    + rewrite Htr'. unfold set_analog_fill.
      destruct (analog_buff_of (ctx s2) !! Z.to_nat idx); cbn [env];
        rewrite Htr, <- app_assoc; reflexivity.
    + split; [|by constructor].
      apply (fail_stop_app [_]); [|done]. by constructor.
Qed.

(** The flush call of the end of the stream on the logic buffer: it adds
    at most one event; when it fails, that event is the failed write of a
    logic chunk and the context is as it was. *)
Lemma logic_flush_events s ret s1 :
  dir_append_queue s [] 0 0 true = Returns (ret, s1) ->
  (ret = SR_OK /\
   exists new,
     trace (env s1) = trace (env s) ++ new /\ Forall write_ok new) \/
  (ret = SR_ERR /\ ctx s1 = ctx s /\
   exists e,
     trace (env s1) = trace (env s) ++ [e] /\
     is_logic_chunk e = true /\ chunk_write_failed e).
Proof.
  unfold dir_append_queue. cbn [Z.eqb negb andb].
  rewrite send_size_zero.
  cbn [loop_fuel Z.to_nat queue_loop Z.eqb is_ok negb andb].
  destruct (Z.eqb_spec (lb_fill_size (logic_buff_of (ctx s))) 0) as [E|_];
    cbn [negb].
  { intros [= <- <-]. left. split; [done|]. exists []. by rewrite app_nil_r. }
  unfold dir_append.
  destruct (usize _ =? 0).
  { cbn [is_ok negb]. intros [= <- <-]. left. split; [done|].
    exists []. by rewrite app_nil_r. }
  destruct (lb_unit_size _ =? 0); [done|].
  match goal with |- context [write_file ?w ?f ?p] =>
    pose proof (write_file_trace w f p) as [Htr _];
    destruct (write_file w f p) as [ok w'] end.
  cbn [fst snd] in Htr.
  destruct ok; cbn [is_ok negb]; intros [= <- <-].
  - left. split; [done|]. eexists. split; [exact Htr|]. by constructor.
  - right. split; [done|]. split; [done|]. eexists. split; [exact Htr|]. done.
Qed.

(** X11. The end of the stream can only fail on a chunk write. Its events
    are writes that went well, followed, exactly when the answer is an
    error, by one failed chunk write; the error is SR_ERR and nothing is
    written after it. When the failed write is the one of the logic chunk
    it is the only event, and the session is left as it was: the samples
    are still in the buffer and the chunk number is the same, so the end of
    the stream can be sent again. *)
Theorem end_of_stream_failure
    (sr_analog_to_float : sr_datafeed_analog -> sr_error_code * list float32)
    o w sdi ret o1 w1 :
  reachable sr_analog_to_float o w ->
  o_sdi o = Some sdi ->
  receive sr_analog_to_float o w SR_DF_END = Returns (ret, o1, w1) ->
  exists new,
    trace w1 = trace w ++ new /\
    fail_stop ret new /\
    (forall e,
       e ∈ new -> is_logic_chunk e = true -> chunk_write_failed e ->
       new = [e] /\ o1 = o).
Proof.
  intros Hreach Hsdi. apply reachable_inv in Hreach as (c & Hpriv & Hinv).
  unfold receive. rewrite Hpriv, Hsdi. cbn [receive_packet ctx].
  destruct (dir_created c) eqn:Hd.
  2:{ intros [= <- <- <-]. exists []. rewrite app_nil_r. split; [done|].
      split; [by left|]. by intros e He%elem_of_nil. }
  destruct (dir_append_queue _ [] 0 0 true) as [[ret1 s1]| |] eqn:Hq; try done.
  pose proof (dir_append_queue_frame _ _ _ _ _ _ _ Hq) as [Hctx1 _].
  cbn [ctx] in Hctx1.
  apply logic_flush_events in Hq
    as [[-> (new1 & Htr1 & Hok1)]|[-> [Hc1 (e & Htr1 & Hl & Hf)]]];
    cbn [is_ok negb env ctx] in *.
  2:{ intros [= <- <- <-]. exists [e]. split; [done|]. split.
      - right. split; [done|]. by exists [], e.
      - intros e' ->%list_elem_of_singleton _ _. split; [done|].
        rewrite Hc1. destruct o. simpl in *. by subst. }
  assert (Hwf1 : analog_wf (ctx s1)).
  { rewrite Hctx1. apply analog_wf_logic. by apply Hinv. }
  unfold dir_append_analog_queue.
  destruct (flush_analog _ 0 s1) as [[ret2 s2]| |] eqn:Hfl; try done.
  intros [= <- <- <-].
  pose proof (wf_count _ Hwf1) as Hc.
  apply flush_analog_fail_stop in Hfl as (new2 & Htr2 & Hfs & Hnl);
    [|done|lia|lia].
  exists (new1 ++ new2). split; [by rewrite Htr2, Htr1, app_assoc|].
  split; [by apply fail_stop_app|].
  intros e [He|He]%elem_of_app Hl Hf.
  - pose proof (proj1 (Forall_forall _ _) Hok1 e He) as Hok.
    destruct e as [| |f p ok]; try done. simpl in Hok, Hf. destruct Hf. congruence.
  - pose proof (proj1 (Forall_forall _ _) Hnl e He) as Hn. simpl in Hn.
    congruence.
Qed.

Lemma end_of_stream_failure_witness :
  let r :=
    run bytes_to_float (init sample_output).2
      (world_of [true; true; true; true; false]) sample_packets in
  let r1 := run bytes_to_float r.1 r.2 [SR_DF_END] in
  exists new,
    trace r1.2 = trace r.2 ++ new /\
    fail_stop SR_ERR new /\
    (forall e,
       e ∈ new -> is_logic_chunk e = true -> chunk_write_failed e ->
       new = [e] /\ r1.1 = r.1).
Proof.
  intros r r1.
  apply (end_of_stream_failure bytes_to_float r.1 r.2 (device 9 1) SR_ERR
           r1.1 r1.2).
  - apply sample_reachable; [reflexivity | apply sample_packets_wf].
  - vm_compute. reflexivity.
  - vm_compute. reflexivity.
Defined.

(** ** cleanup *)

Lemma free_analog_samples_returns todo : forall idx bufs,
  0 <= idx ->
  idx + Z.of_nat todo < 2 ^ 64 ->
  (Z.to_nat idx + todo <= length bufs)%nat ->
  free_analog_samples todo idx bufs = Returns tt.
Proof.
  induction todo as [|todo IH]; intros idx bufs Hidx Hmax Hlen; [done|].
  cbn [free_analog_samples].
  destruct (lookup_lt_is_Some_2 bufs (Z.to_nat idx)) as [b ->]; [lia|].
  rewrite usize_small by lia. apply IH; lia.
Qed.

Lemma cleanup_returns o c :
  o_priv o = Some c ->
  slots_present c ->
  cleanup o = Returns (SR_OK, mk_output (o_filename o) (o_sdi o) None).
Proof.
  intros Hpriv [Hc Hlen]. unfold cleanup. rewrite Hpriv.
  rewrite free_analog_samples_returns; [done|lia|lia|lia].
Qed.

Lemma alloc_analog_buffs_length todo : forall index bufs w,
  length (alloc_analog_buffs todo index bufs w).1.2 = length bufs.
Proof.
  induction todo as [|todo IH]; intros index bufs w; [done|].
  cbn [alloc_analog_buffs].
  destruct (g_try_malloc0 w CHUNK_SIZE) as [[] w1]; cbn [negb]; [|done].
  by rewrite IH, length_insert.
Qed.

(** A [dir_create] that does not fail for want of memory leaves the array
    in place. *)
Lemma dir_create_slots sdi s ret s' :
  dir_create sdi s = (ret, s') ->
  ret <> SR_ERR_MALLOC ->
  slots_present (ctx s) ->
  slots_present (ctx s').
Proof.
  intros Hc Hret Hs. revert Hc. unfold dir_create.
  set (outc := if samplerate (ctx s) =? 0 then _ else _).
  assert (Hrate : outc = with_samplerate (ctx s) (samplerate outc)).
  { subst outc. destruct (ctx s). destruct (_ =? 0); [|done].
    by destruct (conf_samplerate sdi). }
  unfold g_mkdir, g_chdir, write_file.
  destruct (next_answer (io_script (env s))) as [ok1 r1].
  destruct ok1; cbn [negb].
  2:{ intros [= _ <-]. cbn [ctx]. by rewrite Hrate. }
  destruct (next_answer _) as [ok2 r2].
  destruct ok2; cbn [negb].
  2:{ intros [= _ <-]. cbn [ctx]. by rewrite Hrate. }
  destruct (next_answer _) as [ok3 r3].
  destruct ok3; cbn [negb].
  2:{ intros [= _ <-]. cbn [ctx]. by rewrite Hrate. }
  set (c := count_channels (channels sdi) (mk_counts 0 0 0)).
  destruct (name_channels (channels sdi) _ 0 _ _) as [[index map] meta].
  destruct (g_try_malloc0 _ CHUNK_SIZE) as [ok4 w4].
  destruct ok4; cbn [negb]; [|by intros [= <- _]].
  destruct (alloc_analog_buffs _ 0 _ w4) as [[ret5 bufs] w5] eqn:Ha.
  assert (Hlen : length bufs = Z.to_nat (enabled_analog_channels c)).
  { pose proof (alloc_analog_buffs_length
                  (Z.to_nat (enabled_analog_channels c)) 0
                  (replicate (Z.to_nat (enabled_analog_channels c))
                     zero_analog_buff) w4) as H.
    by rewrite Ha, length_replicate in H. }
  assert (Hcount : 0 <= enabled_analog_channels c < 2 ^ 64).
  { subst c. rewrite (count_channels_spec _ _ 0 0 0) by done.
    cbn [enabled_analog_channels].
    pose proof (u32_range (0 + count_of is_enabled_analog (channels sdi))).
    lia. }
  destruct (negb (is_ok ret5)).
  { intros [= _ <-]. split; cbn; [done | lia]. }
  destruct (next_answer _) as [ok6 r6].
  destruct ok6; cbn [negb]; intros [= _ <-]; (split; cbn; [done | lia]).
Qed.

Lemma analog_wf_slots c : analog_wf c -> slots_present c.
Proof. intros [_ H1 H2 _]. split; lia. Qed.

Lemma ensure_dir_slots sdi s ret s' :
  ensure_dir sdi s = (ret, s') ->
  ret <> SR_ERR_MALLOC ->
  slots_present (ctx s) ->
  slots_present (ctx s').
Proof.
  unfold ensure_dir. destruct (dir_created (ctx s)); [by intros [= _ <-]|].
  destruct (dir_create sdi s) as [ret1 s1] eqn:Hc.
  destruct (negb (is_ok ret1)) eqn:Hok.
  - intros [= <- <-] Hret Hs. by eapply dir_create_slots.
  - intros [= <- <-] _ Hs. destruct ret1; try done.
    apply (dir_create_slots _ _ _ _ Hc) in Hs; [|done]. done.
Qed.

(** A packet whose answer is not [SR_ERR_MALLOC] leaves the array in
    place. *)
Lemma receive_packet_slots
    (sr_analog_to_float : sr_datafeed_analog -> sr_error_code * list float32)
    sdi s p ret s' :
  session_inv (ctx s) (env s) ->
  packet_wf p ->
  slots_present (ctx s) ->
  receive_packet sr_analog_to_float sdi s p = Returns (ret, s') ->
  ret <> SR_ERR_MALLOC ->
  slots_present (ctx s').
Proof.
  intros Hinv Hp Hs. destruct p as [config|logic|analog| |]; cbn [receive_packet].
  - by intros [= <- <-].
  - destruct (ensure_dir sdi s) as [ret1 s1] eqn:He.
    pose proof (ensure_dir_step _ _ _ _ Hinv He) as [Hstep Hok].
    destruct (negb (is_ok ret1)) eqn:E.
    { intros [= <- <-] Hret. by eapply ensure_dir_slots. }
    destruct ret1; try done.
    intros [Hctx _]%dir_append_queue_frame _.
    rewrite Hctx. apply analog_wf_slots, analog_wf_logic.
    by apply Hstep, Hok.
  - destruct (ensure_dir sdi s) as [ret1 s1] eqn:He.
    pose proof (ensure_dir_step _ _ _ _ Hinv He) as [Hstep Hok].
    destruct (negb (is_ok ret1)) eqn:E.
    { intros [= <- <-] Hret. by eapply ensure_dir_slots. }
    destruct ret1; try done.
    intros H _. apply dir_append_analog_queue_frame in H;
      [|by apply Hstep, Hok|done].
    apply analog_wf_slots, H.
  - destruct (dir_created (ctx s)) eqn:Hd; [|by intros [= <- <-]].
    destruct (dir_append_queue s [] 0 0 true) as [[ret1 s1]| |] eqn:Hq; try done.
    apply dir_append_queue_frame in Hq as [Hctx _].
    assert (Hwf1 : analog_wf (ctx s1)).
    { rewrite Hctx. apply analog_wf_logic. by apply Hinv. }
    destruct (negb (is_ok ret1)).
    { intros [= <- <-] _. by apply analog_wf_slots. }
    intros H _. apply dir_append_analog_queue_frame in H; [|done|done].
    apply analog_wf_slots, H.
  - by intros [= <- <-].
Qed.

Lemma feed_slots
    (sr_analog_to_float : sr_datafeed_analog -> sr_error_code * list float32)
    sdi packets : forall o w c ret o' w',
  o_sdi o = Some sdi ->
  o_priv o = Some c ->
  session_inv c w ->
  slots_present c ->
  Forall packet_wf packets ->
  feed sr_analog_to_float o w packets = Returns (ret, o', w') ->
  ret <> SR_ERR_MALLOC ->
  exists c',
    o' = mk_output (o_filename o) (o_sdi o) (Some c') /\ slots_present c'.
Proof.
  induction packets as [|p rest IH];
    intros o w c ret o' w' Hsdi Hpriv Hinv Hs Hall.
  - intros [= <- <- <-] _. exists c. split; [|done].
    destruct o. simpl in *. by subst.
  - inversion Hall as [|? ? Hp Hrest]; subst. cbn [feed].
    destruct (receive _ o w p) as [[[r1 o1] w1]| |] eqn:Hrec; try done.
    destruct (receive_step _ _ _ _ _ _ _ _ _ Hsdi Hpriv Hinv Hp Hrec)
      as (c1 & -> & [Hinv1 _ _]).
    cbn [ctx env] in *.
    unfold receive in Hrec. rewrite Hsdi, Hpriv in Hrec.
    destruct (receive_packet _ _ _ _) as [[r s1]| |] eqn:Hrp; try done.
    injection Hrec as -> <- <-.
    pose proof (receive_packet_slots _ _ (mk_state c w) _ _ _ Hinv Hp Hs Hrp)
      as Hs1.
    cbn [ctx] in Hs1.
    assert (Hstop : r1 <> SR_OK ->
                    Returns (r1, mk_output (o_filename o) (Some sdi)
                                   (Some (ctx s1)), env s1)
                    = Returns (ret, o', w') ->
                    ret <> SR_ERR_MALLOC ->
                    exists c',
                      o' = mk_output (o_filename o) (o_sdi o) (Some c') /\
                      slots_present c').
    { intros _ [= <- <- <-] Hret. exists (ctx s1). rewrite Hsdi.
      split; [done|]. by apply Hs1. }
    destruct r1; try (by apply Hstop).
    intros Hfeed Hret.
    eapply (IH _ _ (ctx s1)) in Hfeed as (c' & -> & Hs'); try done.
    + exists c'. by rewrite Hsdi.
    + by apply Hs1.
Qed.

(** X16. A session that its caller ran by the rules, from [init] on and
    stopping at the first error, can be cleaned up unless that error was
    SR_ERR_MALLOC: [cleanup] returns SR_OK and takes the context away.
    After it every packet is answered with SR_ERR_ARG and nothing is
    done. *)
Theorem cleanup_after_session
    (sr_analog_to_float : sr_datafeed_analog -> sr_error_code * list float32)
    o0 o w packets ret o' w' :
  init o0 = (SR_OK, o) ->
  trace w = [] ->
  Forall packet_wf packets ->
  feed sr_analog_to_float o w packets = Returns (ret, o', w') ->
  ret <> SR_ERR_MALLOC ->
  let closed := mk_output (o_filename o0) (o_sdi o0) None in
  cleanup o' = Returns (SR_OK, closed) /\
  forall p w'',
    receive sr_analog_to_float closed w'' p = Returns (SR_ERR_ARG, closed, w'').
Proof.
  intros Hinit Htr Hall Hfeed Hret closed.
  apply init_ok in Hinit as (name & ->).
  split.
  2:{ intros p w''. unfold receive, closed. cbn [o_sdi o_priv].
      by destruct (o_sdi o0). }
  assert (Hs0 : slots_present (zero_context name)).
  { split; cbn; [lia | done]. }
  destruct (o_sdi o0) as [sdi|] eqn:Hsdi.
  - eapply feed_slots in Hfeed as (c' & -> & Hs'); try done.
    + cbn [o_filename o_sdi]. by rewrite (cleanup_returns _ c').
    + split; [by rewrite Htr | done].
  - assert (o' = mk_output (o_filename o0) None (Some (zero_context name)))
      as ->.
    { destruct packets as [|p rest]; cbn [feed] in Hfeed.
      - by injection Hfeed as _ <- _.
      - unfold receive in Hfeed. cbn [o_sdi] in Hfeed.
        by injection Hfeed as _ <- _. }
    by rewrite (cleanup_returns _ (zero_context name)).
Qed.

Lemma cleanup_after_session_witness :
  let r :=
    feed bytes_to_float (init sample_output).2 (world_of [])
      (sample_packets ++ [SR_DF_END]) in
  let o' := match r with Returns (_, o', _) => o' | _ => sample_output end in
  let closed := mk_output (o_filename sample_output) (o_sdi sample_output) None in
  cleanup o' = Returns (SR_OK, closed) /\
  forall p w'',
    receive bytes_to_float closed w'' p = Returns (SR_ERR_ARG, closed, w'').
Proof.
  intros r o'.
  apply (cleanup_after_session bytes_to_float sample_output
           (init sample_output).2 (world_of [])
           (sample_packets ++ [SR_DF_END]) SR_OK o'
           (run bytes_to_float (init sample_output).2 (world_of [])
              (sample_packets ++ [SR_DF_END])).2).
  - reflexivity.
  - reflexivity.
  - repeat constructor; simpl; lia.
  - vm_compute. reflexivity.
  - discriminate.
Defined.

Lemma next_answer_reliable script :
  Forall (fun b => b = true) script ->
  exists rest,
    next_answer script = (true, rest) /\ Forall (fun b => b = true) rest.
Proof.
  intros H. destruct script as [|b rest]; [by exists []|].
  inversion H; subst. by exists rest.
Qed.

(** X17. When the first sample packet finds no memory for the logic buffer
    on a device with an enabled analog channel, [dir_create] has counted
    the analog channels (line 166) but returns (line 218) before it
    allocates their array (line 226): [receive] answers SR_ERR_MALLOC, and
    the [cleanup] that follows reads [outc->analog_buff[0].samples] through
    the NULL array pointer. *)
Theorem cleanup_after_failed_allocation
    (sr_analog_to_float : sr_datafeed_analog -> sr_error_code * list float32)
    o0 o sdi w p mallocs :
  init o0 = (SR_OK, o) ->
  o_sdi o0 = Some sdi ->
  is_sample_packet p = true ->
  0 < count_of is_enabled_analog (channels sdi) ->
  Z.of_nat (length (channels sdi)) < 2 ^ 32 ->
  reliable w ->
  malloc_script w = false :: mallocs ->
  exists o' w',
    receive sr_analog_to_float o w p = Returns (SR_ERR_MALLOC, o', w') /\
    cleanup o' = Crashes.
Proof.
  intros Hinit Hsdi Hp Hcount Hlen Hrel Hm.
  apply init_ok in Hinit as (name & ->).
  assert (Hcreate : exists s1,
            dir_create sdi (mk_state (zero_context name) w) =
              (SR_ERR_MALLOC, s1) /\
            analog_ch_count (ctx s1) =
              count_of is_enabled_analog (channels sdi) /\
            analog_buff_of (ctx s1) = [] /\
            dir_created (ctx s1) = false).
  { unfold dir_create. cbn [ctx env samplerate zero_context Z.eqb].
    set (outc := match conf_samplerate sdi with Some _ => _ | None => _ end).
    assert (Hbufs : analog_buff_of outc = [] /\ dir_created outc = false).
    { subst outc. by destruct (conf_samplerate sdi). }
    unfold g_mkdir, g_chdir, write_file.
    destruct (next_answer_reliable _ Hrel) as (r1 & -> & Hr1).
    cbn [negb io_script].
    destruct (next_answer_reliable _ Hr1) as (r2 & -> & Hr2).
    cbn [negb io_script].
    destruct (next_answer_reliable _ Hr2) as (r3 & -> & Hr3).
    cbn [negb io_script trace malloc_script].
    destruct (name_channels (channels sdi) _ 0 _ _) as [[index map] meta].
    unfold g_try_malloc0. cbn [malloc_script]. rewrite Hm.
    change (CHUNK_SIZE =? 0) with false. cbn [next_answer negb].
    eexists. split; [reflexivity|].
    cbn [ctx with_logic_buff with_layout analog_ch_count analog_buff_of
         dir_created].
    rewrite (count_channels_spec _ _ 0 0 0) by done.
    cbn [enabled_analog_channels]. split; [|done].
    rewrite Z.add_0_l. apply u32_small.
    pose proof (count_of_le is_enabled_analog (channels sdi)). lia. }
  destruct Hcreate as (s1 & Hc & Hcnt & Hbufs & Hd).
  assert (Hrec : receive_packet sr_analog_to_float sdi
                   (mk_state (zero_context name) w) p =
                 Returns (SR_ERR_MALLOC, s1)).
  { destruct p as [config|logic|analog| |]; try done;
      cbn [receive_packet]; unfold ensure_dir;
      cbn [ctx zero_context dir_created]; by rewrite Hc. }
  unfold receive. cbn [o_sdi o_priv o_filename]. rewrite Hsdi, Hrec.
  eexists _, _. split; [reflexivity|].
  unfold cleanup. cbn [o_priv]. rewrite Hcnt, Hbufs.
  destruct (Z.to_nat (count_of is_enabled_analog (channels sdi))) eqn:E; [lia|].
  done.
Qed.

Lemma cleanup_after_failed_allocation_witness :
  exists o' w',
    receive bytes_to_float (init sample_output).2 (mk_world [] [] [false])
      (SR_DF_LOGIC (mk_logic 4 2 [x01; x02; x03; x04])) =
      Returns (SR_ERR_MALLOC, o', w') /\
    cleanup o' = Crashes.
Proof.
  apply (cleanup_after_failed_allocation bytes_to_float sample_output
           (init sample_output).2 (device 9 1) (mk_world [] [] [false])
           (SR_DF_LOGIC (mk_logic 4 2 [x01; x02; x03; x04])) []).
  - reflexivity.
  - reflexivity.
  - reflexivity.
  - vm_compute. reflexivity.
  - vm_compute. reflexivity.
  - constructor.
  - reflexivity.
Defined.

(** ** The metadata file *)

Lemma g_key_file_get_app m1 m2 group k :
  g_key_file_get (m1 ++ m2) group k =
  match g_key_file_get m2 group k with
  | Some v => Some v
  | None => g_key_file_get m1 group k
  end.
Proof.
  induction m1 as [|[[g k'] v] m1 IH]; cbn [app g_key_file_get].
  - by destruct (g_key_file_get m2 group k).
  - rewrite IH. by destruct (g_key_file_get m2 group k).
Qed.

Lemma g_key_file_get_channels added group k :
  Forall channel_entry added ->
  String.prefix "probe" k = false ->
  String.prefix "analog" k = false ->
  g_key_file_get added group k = None.
Proof.
  intros Hall Hp Ha. induction Hall as [|[[g k'] v] rest He _ IH]; [done|].
  cbn [g_key_file_get]. rewrite IH.
  destruct (String.eqb_spec k' k) as [->|_]; [|by rewrite andb_false_r].
  unfold channel_entry in He. simpl in He. destruct He; congruence.
Qed.

Lemma probe_keys_app m1 m2 :
  probe_keys (m1 ++ m2) = probe_keys m1 ++ probe_keys m2.
Proof. unfold probe_keys. by rewrite List.filter_app, map_app. Qed.

(** The second walk adds entries for channels only, among them one for
    each enabled logic channel, in the order of the list. *)
Lemma name_channels_added l : forall first index map meta,
  exists added,
    (name_channels l first index map meta).2 = meta ++ added /\
    Forall channel_entry added /\
    probe_keys added = List.map probe_key (List.filter is_enabled_logic l).
Proof.
  induction l as [|ch l IH]; intros first index map meta.
  - exists []. by rewrite app_nil_r.
  - cbn [name_channels List.filter].
    unfold is_enabled_logic at 1, is_logic at 1.
    destruct (ch_enabled ch), (ch_type ch); cbn [negb andb].
    + destruct (IH first index map
                  (g_key_file_set meta devgroup
                     ("probe" ++ decimal (usize (c_int (ch_index ch + 1))))
                     (V_string (ch_name ch)))) as (added & -> & Hall & Hk).
      eexists (_ :: added). unfold g_key_file_set. rewrite <- app_assoc.
      split; [reflexivity|]. split.
      * constructor; [|done]. left. unfold channel_entry. cbn.
        by destruct (decimal (usize (c_int (ch_index ch + 1)))).
      * change (?x :: added) with ([x] ++ added).
        rewrite probe_keys_app, Hk. cbn [List.map]. f_equal.
        unfold probe_keys, probe_key, probe_name. cbn.
        by destruct (decimal (usize (c_int (ch_index ch + 1)))).
    + destruct (IH first (u32 (index + 1))
                  (<[Z.to_nat index := ch_index ch]> map)
                  (g_key_file_set meta devgroup
                     ("analog" ++ decimal (usize (first + index)))
                     (V_string (ch_name ch)))) as (added & -> & Hall & Hk).
      eexists (_ :: added). unfold g_key_file_set. rewrite <- app_assoc.
      split; [reflexivity|]. split.
      * constructor; [|done]. right. unfold channel_entry. cbn.
        by destruct (decimal (usize (first + index))).
      * change (?x :: added) with ([x] ++ added).
        by rewrite probe_keys_app, Hk.
    + apply IH.
    + apply IH.
Qed.

(** What a reader finds under a key that starts with "probe" after the
    second walk: what the list put there, or else what was there before. *)
Lemma name_channels_probe l : forall first index imap meta k,
  String.prefix "probe" k = true ->
  g_key_file_get (name_channels l first index imap meta).2 devgroup k =
  match probe_value l k with
  | Some v => Some v
  | None => g_key_file_get meta devgroup k
  end.
Proof.
  induction l as [|ch l IH]; intros first index imap meta k Hk; [done|].
  cbn [name_channels]. unfold probe_value. cbn [List.filter].
  unfold is_enabled_logic at 1, is_logic at 1.
  destruct (ch_enabled ch), (ch_type ch); cbn [negb andb].
  - rewrite IH by done. fold (probe_value l k).
    unfold g_key_file_set. rewrite g_key_file_get_app.
    cbn [g_key_file_get]. fold (probe_name ch).
    destruct (String.eqb (probe_name ch) k); cbn [map].
    + rewrite last_cons. fold (probe_value l k).
      by destruct (probe_value l k).
    + fold (probe_value l k). by destruct (probe_value l k).
  - rewrite IH by done. fold (probe_value l k).
    unfold g_key_file_set. rewrite g_key_file_get_app.
    cbn [g_key_file_get].
    destruct (String.eqb_spec ("analog" ++ decimal (usize (first + index))) k)
      as [<-|_]; [done|].
    by rewrite andb_false_r.
  - apply IH, Hk.
  - apply IH, Hk.
Qed.

(** The fixed keys of the head are no probe keys. *)
Lemma metadata_head_probe L E A rate k :
  String.prefix "probe" k = true ->
  g_key_file_get (metadata_head L E A rate) devgroup k = None.
Proof.
  intros Hk. unfold metadata_head.
  destruct (0 <? E); cbn [app g_key_file_get];
    repeat match goal with
    | |- context [String.eqb ?a k] =>
        destruct (String.eqb_spec a k) as [<-|_]; [done|]
    end; by rewrite ?andb_false_r.
Qed.

(** The key file that a successful [dir_create] writes, and the events it
    adds. *)
Lemma dir_create_keyfile sdi s s' :
  dir_create sdi s = (SR_OK, s') ->
  let c := count_channels (channels sdi) (mk_counts 0 0 0) in
  let unit_size := usize (usize (logic_channels c + (8 - 1)) / 8) in
  let rate := effective_samplerate sdi (samplerate (ctx s)) in
  exists added,
    trace (env s') =
      trace (env s) ++
      [E_mkdir (filename (ctx s)) true; E_chdir (filename (ctx s)) true;
       E_write F_version (P_bytes [x32]) true;
       E_write F_metadata
         (P_keyfile
            (metadata_head (logic_channels c) (enabled_logic_channels c)
               (enabled_analog_channels c) rate ++
             added ++
             (if 0 <? unit_size
              then [(devgroup, "unitsize"%string, V_integer unit_size)]
              else []))) true] /\
    Forall channel_entry added /\
    probe_keys added =
      List.map probe_key (List.filter is_enabled_logic (channels sdi)) /\
    samplerate (ctx s') = rate /\
    (forall k,
       String.prefix "probe" k = true ->
       g_key_file_get
         (metadata_head (logic_channels c) (enabled_logic_channels c)
            (enabled_analog_channels c) rate ++ added) devgroup k =
       probe_value (channels sdi) k).
Proof.
  unfold dir_create.
  set (outc := if samplerate (ctx s) =? 0 then _ else _).
  assert (Hname : filename outc = filename (ctx s)).
  { subst outc. destruct (samplerate (ctx s) =? 0); [|done].
    by destruct (conf_samplerate sdi). }
  assert (Hrate : samplerate outc =
                  effective_samplerate sdi (samplerate (ctx s))).
  { subst outc. unfold effective_samplerate.
    destruct (Z.eqb_spec (samplerate (ctx s)) 0) as [E|]; [|done].
    by destruct (conf_samplerate sdi). }
  unfold g_mkdir, g_chdir, write_file.
  destruct (next_answer (io_script (env s))) as [[] r1]; cbn [negb]; [|done].
  cbn [io_script trace malloc_script].
  destruct (next_answer r1) as [[] r2]; cbn [negb]; [|done].
  cbn [io_script trace malloc_script].
  destruct (next_answer r2) as [[] r3]; cbn [negb]; [|done].
  set (c := count_channels (channels sdi) (mk_counts 0 0 0)).
  set (first := if 0 <? enabled_logic_channels c then _ else _).
  set (head := g_key_file_set (g_key_file_set _ _ _ _) _ _ _).
  assert (Hhead : head =
            metadata_head (logic_channels c) (enabled_logic_channels c)
              (enabled_analog_channels c) (samplerate outc)).
  { subst head. unfold metadata_head, g_key_file_set.
    destruct (0 <? enabled_logic_channels c); by rewrite <- ?app_assoc. }
  destruct (name_channels_added (channels sdi) first 0
              (replicate (Z.to_nat (enabled_analog_channels c)) 0) head)
    as (added & Hmeta & Hall & Hprobe).
  assert (Hget : forall k,
            String.prefix "probe" k = true ->
            g_key_file_get (head ++ added) devgroup k =
            probe_value (channels sdi) k).
  { intros k Hk. rewrite <- Hmeta, name_channels_probe by done.
    destruct (probe_value (channels sdi) k); [done|].
    rewrite Hhead. by apply metadata_head_probe. }
  destruct (name_channels (channels sdi) first 0 _ head)
    as [[index map] meta] eqn:Hnc.
  cbn [snd] in Hmeta. subst meta.
  set (unit_size := usize (usize (logic_channels c + (8 - 1)) / 8)).
  set (w3 := mk_world _ r3 _).
  pose proof (g_try_malloc0_trace w3 CHUNK_SIZE) as [Ht4 Hs4].
  destruct (g_try_malloc0 w3 CHUNK_SIZE) as [[] w4]; cbn [negb]; [|done].
  cbn [snd] in Ht4, Hs4.
  pose proof (alloc_analog_buffs_trace (Z.to_nat (enabled_analog_channels c)) 0
                (replicate (Z.to_nat (enabled_analog_channels c))
                   zero_analog_buff) w4) as [Ht5 Hs5].
  destruct (alloc_analog_buffs _ 0 _ w4) as [[ret bufs] w5] eqn:Ha.
  cbn [snd] in Ht5, Hs5.
  destruct ret; cbn [is_ok negb]; try done.
  destruct (next_answer (io_script w5)) as [[] r6]; cbn [negb]; [|done].
  intros [= <-]. exists added.
  split; [|split; [done|split; [done|split]]].
  - cbn [env trace]. rewrite Ht5, Ht4. subst w3. cbn [trace].
    rewrite Hname, <- !app_assoc. cbn [app]. do 5 f_equal.
    rewrite Hhead, Hrate. unfold g_key_file_set.
    destruct (0 <? unit_size); by rewrite <- ?app_assoc, ?app_nil_r.
  - by rewrite <- Hrate.
  - intros k Hk. rewrite <- Hrate, <- Hhead. by apply Hget.
Qed.

(** X6. The [metadata] file of a successful [dir_create], as a reader
    looks it up. "sigrok version", "samplerate" and "total analog" (the
    number of enabled analog channels) are always there; "capturefile" and
    "total probes" (the number of all logic channels) are there exactly
    when a logic channel is enabled; "unitsize" (the bytes of a logic
    sample) is there exactly when the device has a logic channel, enabled
    or not. *)
Theorem metadata_keys sdi s s' :
  let l := channels sdi in
  let L := count_of is_logic l in
  let E := count_of is_enabled_logic l in
  let A := count_of is_enabled_analog l in
  Z.of_nat (length l) < 2 ^ 32 ->
  dir_create sdi s = (SR_OK, s') ->
  exists meta,
    last (trace (env s')) = Some (E_write F_metadata (P_keyfile meta) true) /\
    g_key_file_get meta "global" "sigrok version" = Some V_package_version /\
    g_key_file_get meta devgroup "capturefile" =
      (if 0 <? E then Some (V_string "logic-1") else None) /\
    g_key_file_get meta devgroup "total probes" =
      (if 0 <? E then Some (V_integer L) else None) /\
    g_key_file_get meta devgroup "samplerate" =
      Some (V_samplerate_string
              (effective_samplerate sdi (samplerate (ctx s)))) /\
    g_key_file_get meta devgroup "total analog" = Some (V_integer A) /\
    g_key_file_get meta devgroup "unitsize" =
      (if 0 <? L then Some (V_integer ((L + 7) / 8)) else None).
Proof.
  intros l L E A Hlen Hok.
  destruct (dir_create_keyfile _ _ _ Hok) as (added & Htr & Hall & _ & _).
  fold l in Htr. rewrite (count_channels_exact l) in Htr by lia.
  cbn [logic_channels enabled_logic_channels enabled_analog_channels] in Htr.
  fold L E A in Htr.
  pose proof (count_of_le is_logic l). pose proof (count_of_nonneg is_logic l).
  fold L in H, H0.
  assert (Hunit : usize (usize (L + (8 - 1)) / 8) = (L + 7) / 8).
  { rewrite (usize_small (L + (8 - 1))) by lia.
    apply usize_small. split.
    - apply Z.div_pos; lia.
    - apply Z.div_lt_upper_bound; lia. }
  rewrite Hunit in Htr.
  assert (Hpos : (0 <? (L + 7) / 8) = (0 <? L)).
  { destruct (Z.ltb_spec 0 L) as [Hl|Hl].
    - apply Z.ltb_lt. apply Z.div_str_pos. lia.
    - assert (L = 0) as -> by lia. done. }
  rewrite Hpos in Htr.
  eexists. split; [by rewrite Htr, last_app|].
  assert (Hget : forall g k,
            String.prefix "probe" k = false ->
            String.prefix "analog" k = false ->
            forall head tail,
              g_key_file_get (head ++ added ++ tail) g k =
              match g_key_file_get tail g k with
              | Some v => Some v
              | None => g_key_file_get head g k
              end).
  { intros g k Hp Ha head tail. rewrite !g_key_file_get_app.
    rewrite (g_key_file_get_channels added g k Hall Hp Ha).
    by destruct (g_key_file_get tail g k). }
  rewrite !Hget by done. unfold metadata_head.
  repeat split; destruct (0 <? L), (0 <? E); reflexivity.
Qed.

Lemma metadata_keys_witness :
  let s := mk_state (zero_context "capture") (world_of []) in
  let s' := (dir_create (device 9 1) s).2 in
  exists meta,
    last (trace (env s')) = Some (E_write F_metadata (P_keyfile meta) true) /\
    g_key_file_get meta "global" "sigrok version" = Some V_package_version /\
    g_key_file_get meta devgroup "capturefile" =
      (if 0 <? count_of is_enabled_logic (channels (device 9 1))
       then Some (V_string "logic-1") else None) /\
    g_key_file_get meta devgroup "total probes" =
      (if 0 <? count_of is_enabled_logic (channels (device 9 1))
       then Some (V_integer (count_of is_logic (channels (device 9 1))))
       else None) /\
    g_key_file_get meta devgroup "samplerate" =
      Some (V_samplerate_string
              (effective_samplerate (device 9 1) (samplerate (ctx s)))) /\
    g_key_file_get meta devgroup "total analog" =
      Some (V_integer (count_of is_enabled_analog (channels (device 9 1)))) /\
    g_key_file_get meta devgroup "unitsize" =
      (if 0 <? count_of is_logic (channels (device 9 1))
       then Some (V_integer ((count_of is_logic (channels (device 9 1)) + 7) / 8))
       else None).
Proof.
  intros s s'.
  apply (metadata_keys (device 9 1) s s').
  - vm_compute. reflexivity.
  - vm_compute. reflexivity.
Defined.

(** X7. The [metadata] file of a successful [dir_create], as a reader
    looks up the keys that start with "probe": the key [probe<n>] is there
    exactly when an enabled logic channel has it, [n] being the channel's
    own index plus one (added in [int], printed as a [size_t]) and not its
    place in the list; its value is the name of the last such channel of
    the list. When no two enabled logic channels share a key, the probe
    keys were set one per enabled logic channel, in the order of the
    channel list. *)
Theorem probe_names sdi s s' :
  dir_create sdi s = (SR_OK, s') ->
  exists meta,
    last (trace (env s')) = Some (E_write F_metadata (P_keyfile meta) true) /\
    (forall k,
       String.prefix "probe" k = true ->
       g_key_file_get meta devgroup k = probe_value (channels sdi) k) /\
    (NoDup (List.map probe_name
              (List.filter is_enabled_logic (channels sdi))) ->
     probe_keys meta =
       List.map probe_key (List.filter is_enabled_logic (channels sdi))).
Proof.
  intros Hok.
  destruct (dir_create_keyfile _ _ _ Hok)
    as (added & Htr & _ & Hprobe & _ & Hget).
  eexists. split; [by rewrite Htr, last_app|]. split.
  - intros k Hk. rewrite app_assoc, g_key_file_get_app, (Hget k Hk).
    destruct (0 <? usize _); [|done].
    cbn [g_key_file_get].
    destruct (String.eqb_spec "unitsize" k) as [<-|_]; [done|].
    by rewrite andb_false_r.
  - intros _. rewrite !probe_keys_app, Hprobe. unfold metadata_head.
    destruct (0 <? enabled_logic_channels _), (0 <? usize _);
      cbn; by rewrite ?app_nil_r.
Qed.

Lemma probe_names_witness :
  let sdi :=
    mk_dev_inst
      [mk_channel 4 SR_CHANNEL_LOGIC true "clk";
       mk_channel 0 SR_CHANNEL_LOGIC false "off";
       mk_channel (-1) SR_CHANNEL_LOGIC true "low";
       mk_channel 2147483647 SR_CHANNEL_LOGIC true "top";
       mk_channel 4 SR_CHANNEL_LOGIC true "clk2";
       mk_channel 7 SR_CHANNEL_ANALOG true "volt"] None in
  let s := mk_state (zero_context "capture") (world_of []) in
  let s' := (dir_create sdi s).2 in
  probe_value (channels sdi) "probe5" = Some (V_string "clk2") /\
  probe_value (channels sdi) "probe1" = None /\
  probe_value (channels sdi) "probe0" = Some (V_string "low") /\
  probe_value (channels sdi) "probe18446744071562067968" =
    Some (V_string "top") /\
  exists meta,
    last (trace (env s')) = Some (E_write F_metadata (P_keyfile meta) true) /\
    (forall k,
       String.prefix "probe" k = true ->
       g_key_file_get meta devgroup k = probe_value (channels sdi) k) /\
    (NoDup (List.map probe_name
              (List.filter is_enabled_logic (channels sdi))) ->
     probe_keys meta =
       List.map probe_key (List.filter is_enabled_logic (channels sdi))).
Proof.
  intros sdi s s'.
  split; [vm_compute; reflexivity|].
  split; [vm_compute; reflexivity|].
  split; [vm_compute; reflexivity|].
  split; [vm_compute; reflexivity|].
  apply (probe_names sdi s s').
  vm_compute. reflexivity.
Defined.

Lemma meta_samplerate_last l : forall rate,
  meta_samplerate l rate =
  default rate (last (map data (List.filter is_samplerate l))).
Proof.
  induction l as [|src l IH]; intros rate; [done|].
  cbn [meta_samplerate List.filter]. unfold is_samplerate at 1.
  destruct (key src); [|apply IH].
  rewrite IH. cbn [map]. rewrite last_cons.
  by destruct (last (map data (List.filter is_samplerate l))).
Qed.

Lemma meta_samplerate_app l1 l2 rate :
  meta_samplerate (l1 ++ l2) rate =
  meta_samplerate l2 (meta_samplerate l1 rate).
Proof.
  revert rate. induction l1 as [|src l1 IH]; intros rate; [done|].
  cbn [app meta_samplerate]. by destruct (key src).
Qed.

(** Stream metadata packets before the first samples: all are answered
    with SR_OK, and the context takes the rate that was announced last. *)
Lemma feed_metas
    (sr_analog_to_float : sr_datafeed_analog -> sr_error_code * list float32)
    sdi configs : forall o w c,
  o_sdi o = Some sdi ->
  o_priv o = Some c ->
  feed sr_analog_to_float o w (map SR_DF_META configs) =
    Returns (SR_OK,
      mk_output (o_filename o) (Some sdi)
        (Some (with_samplerate c
                 (meta_samplerate (concat configs) (samplerate c)))),
      w).
Proof.
  induction configs as [|config configs IH]; intros o w c Hsdi Hpriv.
  - cbn [map feed concat meta_samplerate]. destruct o, c. simpl in *.
    by subst.
  - cbn [map feed concat]. unfold receive. rewrite Hsdi, Hpriv.
    cbn [receive_packet ctx env].
    rewrite (IH _ w (with_samplerate c (meta_samplerate config (samplerate c))))
      by done.
    cbn [o_filename]. by rewrite meta_samplerate_app.
Qed.

Lemma g_key_file_get_samplerate L E A rate added tail :
  Forall channel_entry added ->
  tail = [] \/ (exists v, tail = [(devgroup, "unitsize"%string, v)]) ->
  g_key_file_get (metadata_head L E A rate ++ added ++ tail)
    devgroup "samplerate" = Some (V_samplerate_string rate).
Proof.
  intros Hall Htail. rewrite !g_key_file_get_app.
  rewrite (g_key_file_get_channels added _ _ Hall) by done.
  unfold metadata_head.
  destruct Htail as [->|[v ->]]; by destruct (0 <? E).
Qed.

(** X8. The sample rate in the [metadata] file. When stream metadata
    packets come before the first sample packet, and that packet is
    answered with SR_OK, the fourth event of the session is the write of
    [metadata], and its "samplerate" is the rate of the last
    SR_CONF_SAMPLERATE entry of those packets; when there is none, or it
    is 0, it is the rate of the device, and 0 when the device has
    none. *)
Theorem metadata_samplerate
    (sr_analog_to_float : sr_datafeed_analog -> sr_error_code * list float32)
    o0 o sdi w configs p o' w' :
  init o0 = (SR_OK, o) ->
  o_sdi o0 = Some sdi ->
  trace w = [] ->
  is_sample_packet p = true ->
  packet_wf p ->
  feed sr_analog_to_float o w (map SR_DF_META configs ++ [p]) =
    Returns (SR_OK, o', w') ->
  exists meta,
    trace w' !! 3%nat = Some (E_write F_metadata (P_keyfile meta) true) /\
    g_key_file_get meta devgroup "samplerate" =
      Some (V_samplerate_string
              (effective_samplerate sdi (announced_samplerate configs))).
Proof.
  intros Hinit Hsdi Htr Hs Hp Hfeed.
  apply init_ok in Hinit as (name & ->).
  rewrite (feed_app _ _ _ _ _ _ _
             (feed_metas sr_analog_to_float sdi configs
                (mk_output (o_filename o0) (o_sdi o0)
                   (Some (zero_context name))) w
                (zero_context name) Hsdi eq_refl)) in Hfeed.
  cbn [feed o_filename samplerate zero_context] in Hfeed.
  rewrite meta_samplerate_last in Hfeed. fold (announced_samplerate configs) in Hfeed.
  set (c := with_samplerate _ _) in Hfeed.
  assert (Hrate : samplerate c = announced_samplerate configs) by done.
  assert (Hd : dir_created c = false) by done.
  clearbody c.
  unfold receive in Hfeed. cbn [o_sdi o_priv o_filename] in Hfeed.
  destruct (receive_packet _ sdi _ p) as [[r s1]| |] eqn:Hr; try done.
  assert (r = SR_OK) as -> by (destruct r; by injection Hfeed).
  injection Hfeed as _ <-.
  assert (Hcreate : exists s0 new,
            dir_create sdi (mk_state c w) = (SR_OK, s0) /\
            trace (env s1) = trace (env s0) ++ new).
  { destruct p as [config|logic|analog| |]; try done;
      cbn [receive_packet] in Hr; unfold ensure_dir in Hr;
      cbn [ctx] in Hr; rewrite Hd in Hr;
      destruct (dir_create sdi (mk_state c w)) as [ret0 s0] eqn:Hc;
      (destruct ret0; cbn [is_ok negb] in Hr; try done).
    - apply dir_append_queue_frame in Hr as [_ (new & Hnew & _)].
      by exists s0, new.
    - apply dir_append_analog_queue_frame in Hr as [_ _ (new & Hnew & _)];
        [by exists s0, new| |done].
      cbn [ctx]. apply analog_wf_created. by eapply dir_create_analog_wf. }
  destruct Hcreate as (s0 & new & Hc & Hnew).
  destruct (dir_create_keyfile _ _ _ Hc) as (added & Htr0 & Hall & _ & _).
  cbn [ctx env] in Htr0. rewrite Htr in Htr0. cbn [app] in Htr0.
  eexists. split.
  - rewrite Hnew, Htr0. reflexivity.
  - rewrite Hrate. apply g_key_file_get_samplerate; [done|].
    destruct (0 <? usize _); [right; by eexists | by left].
Qed.

Lemma metadata_samplerate_witness :
  let configs := [[mk_config SR_CONF_SAMPLERATE 1000]; [mk_config SR_CONF_OTHER 5]] in
  let p := SR_DF_LOGIC (mk_logic 4 2 [x01; x02; x03; x04]) in
  let r :=
    run bytes_to_float (init sample_output).2 (world_of [])
      (map SR_DF_META configs ++ [p]) in
  exists meta,
    trace r.2 !! 3%nat = Some (E_write F_metadata (P_keyfile meta) true) /\
    g_key_file_get meta devgroup "samplerate" =
      Some (V_samplerate_string
              (effective_samplerate (device 9 1) (announced_samplerate configs))).
Proof.
  intros configs p r.
  apply (metadata_samplerate bytes_to_float sample_output
           (init sample_output).2 (device 9 1) (world_of []) configs p r.1 r.2).
  - reflexivity.
  - reflexivity.
  - reflexivity.
  - reflexivity.
  - simpl. lia.
  - vm_compute. reflexivity.
Defined.

(** ** The analog path without failures *)

Lemma analog_written_app nr tr1 tr2 :
  analog_written nr (tr1 ++ tr2) = analog_written nr tr1 ++ analog_written nr tr2.
Proof.
  induction tr1 as [|e tr1 IH]; [done|].
  destruct e as [| |f p ok]; simpl; try done.
  destruct f; try done. destruct p; try done. destruct ok; try done.
  destruct (ch_nr =? nr); [|done]. by rewrite IH, app_assoc.
Qed.

Lemma analog_step_refl s idx :
  analog_wf (ctx s) -> reliable (env s) -> roomy (env s) ->
  analog_step s s idx [].
Proof.
  intros Hwf Hrel Hroom. split; try done.
  - by apply analog_frame_refl.
  - by rewrite app_nil_r.
Qed.

Lemma analog_step_trans s s1 s2 idx added1 added2 :
  analog_step s s1 idx added1 ->
  analog_step s1 s2 idx added2 ->
  analog_step s s2 idx (added1 ++ added2).
Proof.
  intros [F1 R1 M1 L1 S1 O1] [F2 R2 M2 L2 S2 O2].
  split; try done.
  - by eapply analog_frame_trans.
  - by rewrite L2.
  - by rewrite S2, S1, app_assoc.
  - intros j Hj Hne. rewrite O2, O1; try done.
    destruct (analog_frame_layout _ _ F1) as (_ & -> & _). done.
Qed.

(** A flush of the buffer of slot [idx], which holds samples, writes them
    to the next chunk file of the channel; emptying the buffer afterwards
    leaves every stream as it is. *)
Lemma analog_flush_reliable s idx buff :
  analog_wf (ctx s) -> reliable (env s) -> roomy (env s) ->
  0 <= idx < analog_ch_count (ctx s) ->
  analog_buff_of (ctx s) !! Z.to_nat idx = Some buff ->
  0 < ab_fill_size buff ->
  exists s2,
    dir_append_analog s (ab_samples buff) (ab_fill_size buff)
      (usize (first_analog_index (ctx s) + idx)) = Returns (SR_OK, s2) /\
    analog_buff_of (ctx (set_analog_fill s2 idx 0)) !! Z.to_nat idx =
      Some (ab_with_fill
              (ab_with_next_chunk_num buff (u32 (ab_next_chunk_num buff + 1)))
              0) /\
    analog_step s (set_analog_fill s2 idx 0) idx [].
Proof.
  intros Hwf Hrel Hroom Hidx Hb Hfill.
  destruct (dir_append_analog_returns s idx (ab_samples buff)
              (ab_fill_size buff) Hwf Hidx) as (ret & s2 & Happ).
  pose proof (dir_append_analog_chunk_number _ _ _ _ _ _ Happ)
    as (buff1 & ok & Hb1 & Htr & Hret & Hbufs & Hctx & Hio).
  destruct (analog_slot _ _ Hwf Hidx) as (buff0 & Hb0 & Hfresh & Hslot).
  rewrite Hb in Hb0. injection Hb0 as <-.
  rewrite Hslot, Hb in Hb1. injection Hb1 as <-. rewrite Hslot in Hbufs.
  pose proof (fresh_alloc _ Hfresh) as Ha. destruct Hfresh as [_ Hrange].
  rewrite Ha in Hrange.
  assert (Hok : ok = true).
  { unfold dir_append_analog in Happ. rewrite Hslot, Hb in Happ.
    destruct (write_file_reliable (env s)
                (F_analog (usize (first_analog_index (ctx s) + idx))
                   (ab_next_chunk_num buff))
                (P_floats (load (ab_samples buff)
                             (usize (sizeof_float * ab_fill_size buff) /
                              sizeof_float))) Hrel)
      as (w' & Hw & _).
    rewrite Hw in Happ. injection Happ as Hr _. rewrite <- Hr in Hret.
    by destruct ok. }
  subst ok ret.
  assert (Hrel2 : reliable (env s2) /\ malloc_script (env s2) = malloc_script (env s)).
  { unfold dir_append_analog in Happ. rewrite Hslot, Hb in Happ.
    destruct (write_file_reliable (env s)
                (F_analog (usize (first_analog_index (ctx s) + idx))
                   (ab_next_chunk_num buff))
                (P_floats (load (ab_samples buff)
                             (usize (sizeof_float * ab_fill_size buff) /
                              sizeof_float))) Hrel)
      as (w' & Hw & _ & Hrel' & Hm).
    rewrite Hw in Happ. cbn [is_ok negb] in Happ.
    assert (s2 = mk_state
              (with_analog_buff (ctx s)
                 (<[Z.to_nat idx :=
                      ab_with_next_chunk_num buff
                        (u32 (ab_next_chunk_num buff + 1))]>
                    (analog_buff_of (ctx s)))) w') as -> by congruence.
    by split. }
  destruct Hrel2 as [Hrel2 Hm2].
  exists s2. split; [done|].
  pose proof (dir_append_analog_frame _ _ _ _ _ _ Hwf Hidx Hb Hfill Happ)
    as [H2 Hb2].
  pose proof (set_analog_fill_frame s2 idx (af_wf _ _ H2)) as H3.
  pose proof (set_analog_fill_lookup _ _ _ Hb2) as Hb3.
  split; [done|].
  assert (Hld : usize (sizeof_float * ab_fill_size buff) / sizeof_float =
                ab_fill_size buff).
  { unfold sizeof_float. rewrite usize_small by lia.
    rewrite Z.mul_comm. apply Z.div_mul. lia. }
  rewrite Hld in Htr.
  assert (Htr3 : trace (env (set_analog_fill s2 idx 0)) = trace (env s2)).
  { unfold set_analog_fill.
    by destruct (analog_buff_of (ctx s2) !! Z.to_nat idx). }
  assert (Henv3 : env (set_analog_fill s2 idx 0) = env s2).
  { unfold set_analog_fill.
    by destruct (analog_buff_of (ctx s2) !! Z.to_nat idx). }
  pose proof (wf_first _ Hwf) as Hf. pose proof (wf_count _ Hwf) as Hc.
  rewrite (usize_small (first_analog_index (ctx s) + idx)) in Htr by lia.
  destruct (analog_frame_layout _ _ (analog_frame_trans _ _ _ H2 H3))
    as (Hf3 & Hc3 & _).
  split.
  - by eapply analog_frame_trans.
  - by rewrite Henv3.
  - unfold roomy. by rewrite Henv3, Hm2.
  - rewrite Htr3, Htr, logic_written_app. simpl. by rewrite app_nil_r.
  - unfold analog_stream. rewrite Hf3, Htr3, Htr, analog_written_app, Hb3, Hb.
    simpl. rewrite Z.eqb_refl. unfold analog_buffered. simpl.
    by rewrite !app_nil_r.
  - intros j Hj Hne. unfold analog_stream.
    rewrite Hf3, Htr3, Htr, analog_written_app. simpl.
    destruct (Z.eqb_spec (first_analog_index (ctx s) + idx)
                (first_analog_index (ctx s) + j)) as [E|_]; [lia|].
    rewrite app_nil_r. f_equal.
    unfold set_analog_fill. rewrite Hb2. simpl.
    rewrite list_lookup_insert_ne by lia. rewrite Hbufs.
    by rewrite list_lookup_insert_ne by lia.
Qed.

(** Copying [copy_size] samples into the room that is left in the buffer
    of slot [idx]. *)
Lemma analog_copy_reliable s idx buff rd copy_size :
  analog_wf (ctx s) -> reliable (env s) -> roomy (env s) ->
  0 <= idx < analog_ch_count (ctx s) ->
  analog_buff_of (ctx s) !! Z.to_nat idx = Some buff ->
  0 < copy_size <= ab_alloc_size buff - ab_fill_size buff ->
  copy_size <= Z.of_nat (length rd) ->
  analog_step s
    (mk_state
       (with_analog_buff (ctx s)
          (<[Z.to_nat idx :=
               ab_with_samples
                 (ab_with_fill buff (ab_fill_size buff + copy_size))
                 (memcpy (ab_samples buff) (ab_fill_size buff) rd
                    (usize (copy_size * sizeof_float) / sizeof_float))]>
             (analog_buff_of (ctx s))))
       (env s))
    idx (take (Z.to_nat copy_size) rd).
Proof.
  intros Hwf Hrel Hroom Hidx Hb Hcopy Hrd.
  assert (Hfresh : fresh_analog_buff buff).
  { eapply Forall_lookup_1; [apply Hwf | exact Hb]. }
  pose proof (fresh_alloc _ Hfresh) as Ha. destruct Hfresh as [_ Hrange].
  rewrite Ha in Hrange, Hcopy.
  assert (Hn : usize (copy_size * sizeof_float) / sizeof_float = copy_size).
  { unfold sizeof_float. rewrite usize_small by lia. apply Z.div_mul. lia. }
  rewrite Hn.
  split; cbn [env ctx]; try done.
  - split; [|done|by apply only_chunks_same].
    apply analog_wf_insert; [done|]. split; simpl; [by rewrite Ha | lia].
  - unfold analog_stream. cbn [ctx env with_analog_buff first_analog_index
      analog_buff_of].
    rewrite list_lookup_insert_eq by (by apply lookup_lt_is_Some_1).
    rewrite Hb, <- app_assoc. f_equal. unfold analog_buffered. simpl.
    apply load_memcpy; lia.
  - intros j Hj Hne. unfold analog_stream.
    cbn [ctx env with_analog_buff first_analog_index analog_buff_of].
    by rewrite list_lookup_insert_ne by lia.
Qed.

Lemma analog_loop_reliable fuel : forall s idx nr rd send_size buff,
  analog_wf (ctx s) -> reliable (env s) -> roomy (env s) ->
  0 <= idx < analog_ch_count (ctx s) ->
  nr = usize (first_analog_index (ctx s) + idx) ->
  0 <= send_size < 2 ^ 64 ->
  send_size <= Z.of_nat (length rd) ->
  analog_buff_of (ctx s) !! Z.to_nat idx = Some buff ->
  (Z.to_nat send_size +
   (if (ab_fill_size buff =? ab_alloc_size buff)%Z then 1 else 0) <= fuel)%nat ->
  exists s',
    analog_loop fuel s idx nr rd send_size = Returns (SR_OK, s') /\
    analog_step s s' idx (take (Z.to_nat send_size) rd).
Proof.
  induction fuel as [|fuel IH];
    intros s idx nr rd send_size buff Hwf Hrel Hroom Hidx Hnr Hsend Hrd Hb Hfuel.
  - assert (send_size = 0) as -> by lia. exists s. split; [done|].
    by apply analog_step_refl.
  - cbn [analog_loop].
    destruct (Z.eqb_spec send_size 0) as [->|Hne].
    { exists s. split; [done|]. by apply analog_step_refl. }
    rewrite Hb.
    assert (Hfresh : fresh_analog_buff buff).
    { eapply Forall_lookup_1; [apply Hwf | exact Hb]. }
    pose proof (fresh_alloc _ Hfresh) as Ha.
    destruct Hfresh as [_ Hrange]. rewrite Ha in Hrange.
    rewrite (usize_small (ab_alloc_size buff - ab_fill_size buff)) by lia.
    destruct (Z.eqb_spec (ab_alloc_size buff - ab_fill_size buff) 0)
      as [Hfull|Hroom']; cbn [negb].
    + destruct (Z.eqb_spec send_size 0) as [|_]; [done|]. cbn [negb andb].
      destruct (Z.eqb_spec (ab_alloc_size buff - ab_fill_size buff) 0)
        as [_|]; [|done].
      rewrite Hb, Hnr.
      destruct (analog_flush_reliable s idx buff) as (s2 & Happ & Hb3 & Hstep);
        try done; [lia|].
      rewrite Happ. cbn [is_ok negb].
      destruct (analog_frame_layout _ _ (ast_frame _ _ _ _ Hstep))
        as (Hf & Hc & _).
      destruct (IH (set_analog_fill s2 idx 0) idx
                  (usize (first_analog_index (ctx s) + idx)) rd send_size
                  (ab_with_fill
                     (ab_with_next_chunk_num buff
                        (u32 (ab_next_chunk_num buff + 1))) 0)
                  (af_wf _ _ (ast_frame _ _ _ _ Hstep))
                  (ast_reliable _ _ _ _ Hstep) (ast_roomy _ _ _ _ Hstep))
        as (s' & Hq & Hstep'); try done.
      * by rewrite Hc.
      * by rewrite Hf.
      * simpl. rewrite Ha. simpl.
        destruct (Z.eqb_spec (ab_fill_size buff) (ab_alloc_size buff)); lia.
      * exists s'. split; [done|].
        apply (analog_step_trans _ _ _ _ _ _ Hstep Hstep').
    + set (copy_size := Z.min send_size (ab_alloc_size buff - ab_fill_size buff)).
      assert (Hcopy : 0 < copy_size <= ab_alloc_size buff - ab_fill_size buff)
        by (unfold copy_size; lia).
      assert (Hcs : copy_size <= send_size) by (unfold copy_size; lia).
      rewrite (usize_small (ab_fill_size buff + copy_size)) by lia.
      rewrite (usize_small (send_size - copy_size)) by lia.
      rewrite (usize_small (ab_alloc_size buff - ab_fill_size buff - copy_size))
        by lia.
      pose proof (analog_copy_reliable s idx buff rd copy_size Hwf Hrel Hroom
                    Hidx Hb Hcopy ltac:(lia)) as Hstep.
      set (buff' := ab_with_samples _ _) in Hstep |- *.
      set (s1 := mk_state _ _) in Hstep |- *.
      assert (Hb1 : analog_buff_of (ctx s1) !! Z.to_nat idx = Some buff').
      { simpl. apply list_lookup_insert_eq. by apply lookup_lt_is_Some_1. }
      assert (Htake :
        take (Z.to_nat copy_size) rd ++
        take (Z.to_nat (send_size - copy_size)) (drop (Z.to_nat copy_size) rd) =
        take (Z.to_nat send_size) rd).
      { rewrite take_take_drop. f_equal. lia. }
      assert (Hrd' : send_size - copy_size <=
                     Z.of_nat (length (drop (Z.to_nat copy_size) rd))).
      { rewrite length_drop. lia. }
      destruct (Z.eqb_spec (send_size - copy_size) 0) as [Hdone|Hmore];
        cbn [negb andb].
      * assert (analog_loop fuel s1 idx nr (drop (Z.to_nat copy_size) rd)
                  (send_size - copy_size) = Returns (SR_OK, s1)) as ->.
        { rewrite Hdone. by destruct fuel. }
        exists s1. split; [done|].
        rewrite <- Htake, Hdone. simpl. by rewrite app_nil_r.
      * destruct (Z.eqb_spec
                    (ab_alloc_size buff - ab_fill_size buff - copy_size) 0)
          as [Hfull|Hroom''].
        -- rewrite Hb1, Hnr.
           destruct (analog_flush_reliable s1 idx buff')
             as (s2 & Happ & Hb3 & Hstep2);
             [apply Hstep | apply Hstep | apply Hstep | done | done
             | simpl; lia |].
           change (first_analog_index (ctx s1))
             with (first_analog_index (ctx s)) in Happ.
           rewrite Happ. cbn [is_ok negb].
           pose proof (analog_step_trans _ _ _ _ _ _ Hstep Hstep2) as Hstep12.
           destruct (analog_frame_layout _ _ (ast_frame _ _ _ _ Hstep12))
             as (Hf & Hc & _).
           destruct (IH (set_analog_fill s2 idx 0) idx
                       (usize (first_analog_index (ctx s) + idx))
                       (drop (Z.to_nat copy_size) rd)
                       (send_size - copy_size)
                       (ab_with_fill
                          (ab_with_next_chunk_num buff'
                             (u32 (ab_next_chunk_num buff' + 1))) 0)
                       (af_wf _ _ (ast_frame _ _ _ _ Hstep12))
                       (ast_reliable _ _ _ _ Hstep12)
                       (ast_roomy _ _ _ _ Hstep12))
             as (s' & Hq & Hstep'); try done.
           ++ by rewrite Hc.
           ++ by rewrite Hf.
           ++ lia.
           ++ simpl. rewrite Ha. simpl. lia.
           ++ exists s'. split; [done|]. rewrite <- Htake.
              rewrite app_nil_r in Hstep12.
              apply (analog_step_trans _ _ _ _ _ _ Hstep12 Hstep').
        -- destruct (IH s1 idx nr (drop (Z.to_nat copy_size) rd)
                       (send_size - copy_size) buff'
                       (af_wf _ _ (ast_frame _ _ _ _ Hstep))
                       (ast_reliable _ _ _ _ Hstep) (ast_roomy _ _ _ _ Hstep))
             as (s' & Hq & Hstep'); try done.
           ++ lia.
           ++ simpl.
              destruct (Z.eqb_spec (ab_fill_size buff + copy_size)
                          (ab_alloc_size buff)); lia.
           ++ exists s'. split; [done|]. rewrite <- Htake.
              apply (analog_step_trans _ _ _ _ _ _ Hstep Hstep').
Qed.

Lemma find_slot_first_from todo : forall i map v idx,
  0 <= i <= idx ->
  idx < i + Z.of_nat todo ->
  i + Z.of_nat todo < 2 ^ 64 ->
  map !! Z.to_nat idx = Some v ->
  (forall j, i <= j < idx -> map !! Z.to_nat j <> Some v) ->
  find_slot todo i map v = Some idx.
Proof.
  induction todo as [|todo IH]; intros i map v idx Hi Hlt Hmax Hv Hfirst; [lia|].
  cbn [find_slot].
  destruct (decide (i = idx)) as [->|Hne].
  - by rewrite Hv, Z.eqb_refl.
  - destruct (lookup_lt_is_Some_2 map (Z.to_nat i)) as [x Hx].
    { apply lookup_lt_Some in Hv. lia. }
    rewrite Hx. destruct (Z.eqb_spec x v) as [->|_].
    { exfalso. apply (Hfirst i); [lia | done]. }
    rewrite usize_small by lia. apply IH; try lia; try done.
    intros j Hj. apply Hfirst. lia.
Qed.

Lemma find_slot_first c v idx :
  index_map_wf c ->
  first_slot (analog_index_map c) v idx ->
  find_slot (Z.to_nat (analog_ch_count c)) 0 (analog_index_map c) v = Some idx /\
  0 <= idx < analog_ch_count c.
Proof.
  intros [Hcount Hmax] (Hidx & Hv & Hfirst).
  pose proof (lookup_lt_Some _ _ _ Hv) as Hlt.
  split; [|lia].
  apply find_slot_first_from; try done; try lia.
Qed.

Lemma g_try_malloc0_roomy w n :
  roomy w -> n <> 0 ->
  exists w',
    g_try_malloc0 w n = (true, w') /\
    trace w' = trace w /\ io_script w' = io_script w /\ roomy w'.
Proof.
  unfold roomy, g_try_malloc0, next_answer. intros H Hn.
  destruct (Z.eqb_spec n 0) as [|_]; [done|].
  destruct (malloc_script w) as [|b rest] eqn:E.
  - eexists. split; [reflexivity|]. simpl. by rewrite ?E.
  - inversion H; subst. eexists. split; [reflexivity|]. simpl. done.
Qed.

(** The copying part of [dir_append_analog_queue] when nothing fails: the
    floats of the packet go to the channel's samples, and what is left of
    the call is the flush that the caller may have asked for. *)
Lemma analog_queue_copied
    (sr_analog_to_float : sr_datafeed_analog -> sr_error_code * list float32)
    s a ch idx flush :
  analog_wf (ctx s) ->
  index_map_wf (ctx s) ->
  reliable (env s) ->
  roomy (env s) ->
  meaning_channels a = [ch] ->
  first_slot (analog_index_map (ctx s)) (ch_index ch) idx ->
  0 < num_samples a < 2 ^ 32 ->
  (sr_analog_to_float a).1 = SR_OK ->
  Z.of_nat (length (sr_analog_to_float a).2) = num_samples a ->
  exists s1 buff1,
    analog_step s s1 idx (sr_analog_to_float a).2 /\
    0 <= idx < analog_ch_count (ctx s) /\
    analog_buff_of (ctx s1) !! Z.to_nat idx = Some buff1 /\
    0 <= ab_fill_size buff1 /\
    dir_append_analog_queue sr_analog_to_float s (Some a) flush =
      if flush && negb (ab_fill_size buff1 =? 0) then
        match
          dir_append_analog s1 (ab_samples buff1) (ab_fill_size buff1)
            (usize (first_analog_index (ctx s) + idx))
        with
        | Returns (ret, s2) =>
            if negb (is_ok ret) then Returns (ret, s2)
            else Returns (SR_OK, set_analog_fill s2 idx 0)
        | Hangs => Hangs
        | Crashes => Crashes
        end
      else Returns (SR_OK, s1).
Proof.
  intros Hwf Hmap Hrel Hroom Hch Hslot Hn Hconv Hlen.
  destruct (find_slot_first _ _ _ Hmap Hslot) as [Hfind Hidx].
  unfold dir_append_analog_queue. rewrite Hch, Hfind.
  destruct (Z.eqb_spec idx (analog_ch_count (ctx s))) as [|_]; [lia|].
  destruct (g_try_malloc0_roomy (env s) (usize (num_samples a * sizeof_float))
              Hroom) as (w & -> & Htr & Hio & Hroom').
  { unfold sizeof_float. rewrite usize_small; lia. }
  cbn [negb].
  destruct (sr_analog_to_float a) as [retc values]. cbn [fst snd] in *.
  subst retc. cbn [is_ok negb].
  assert (Hstep0 : analog_step s (mk_state (ctx s) w) idx []).
  { split; cbn [ctx env]; try done.
    - split; [done | by rewrite with_analog_buff_same
             | by apply only_chunks_same].
    - unfold reliable. by rewrite Hio.
    - by rewrite Htr.
    - unfold analog_stream. cbn [ctx env]. by rewrite Htr, app_nil_r.
    - intros j _ _. unfold analog_stream. cbn [ctx env]. by rewrite Htr. }
  destruct (analog_slot _ _ Hwf Hidx) as (buff & Hb & Hfresh & _).
  destruct (analog_loop_reliable (loop_fuel (num_samples a))
              (mk_state (ctx s) w) idx
              (usize (first_analog_index (ctx s) + idx)) values
              (num_samples a) buff)
    as (s1 & Hloop & Hstep1); try done; try lia; try apply Hstep0.
  { unfold loop_fuel. destruct (_ =? _)%Z; lia. }
  rewrite Hloop. cbn [is_ok negb].
  pose proof (analog_step_trans _ _ _ _ _ _ Hstep0 Hstep1) as Hstep01.
  cbn [app] in Hstep01.
  rewrite <- Hlen, Nat2Z.id, firstn_all in Hstep01.
  destruct (analog_frame_layout _ _ (ast_frame _ _ _ _ Hstep01))
    as (Hf1 & Hc1 & _).
  destruct (analog_slot (ctx s1) idx (af_wf _ _ (ast_frame _ _ _ _ Hstep01)))
    as (buff1 & Hb1 & Hfresh1 & _); [lia|].
  rewrite Hb1. exists s1, buff1.
  split; [done|]. split; [done|]. split; [done|].
  split; [destruct Hfresh1; lia | done].
Qed.

(** X2. An analog packet for one channel of the index map, with at least
    one sample, in a world where nothing fails: the call answers SR_OK and
    the samples of the channel, those in its files followed by those in
    its buffer, are what they were followed by the floats of the packet,
    in order and however many chunks that takes. The samples of the other
    channels, the logic files and the rest of the context are as they
    were; a flush that was asked for leaves the buffer of the channel
    empty. *)
Theorem analog_queue_reliable
    (sr_analog_to_float : sr_datafeed_analog -> sr_error_code * list float32)
    s a ch idx flush :
  analog_wf (ctx s) ->
  index_map_wf (ctx s) ->
  reliable (env s) ->
  roomy (env s) ->
  meaning_channels a = [ch] ->
  first_slot (analog_index_map (ctx s)) (ch_index ch) idx ->
  0 < num_samples a < 2 ^ 32 ->
  (sr_analog_to_float a).1 = SR_OK ->
  Z.of_nat (length (sr_analog_to_float a).2) = num_samples a ->
  exists s',
    dir_append_analog_queue sr_analog_to_float s (Some a) flush =
      Returns (SR_OK, s') /\
    analog_step s s' idx (sr_analog_to_float a).2 /\
    (flush = true ->
     exists b,
       analog_buff_of (ctx s') !! Z.to_nat idx = Some b /\ ab_fill_size b = 0).
Proof.
  intros Hwf Hmap Hrel Hroom Hch Hslot Hn Hconv Hlen.
  destruct (analog_queue_copied sr_analog_to_float s a ch idx flush)
    as (s1 & buff1 & Hstep1 & Hidx & Hb1 & Hfill & ->); try done.
  destruct (analog_frame_layout _ _ (ast_frame _ _ _ _ Hstep1))
    as (Hf1 & Hc1 & _).
  destruct flush; cbn [andb].
  2:{ exists s1. split; [done|]. split; [done|]. by intros [=]. }
  destruct (Z.eqb_spec (ab_fill_size buff1) 0) as [Hz|Hnz]; cbn [negb].
  { exists s1. split; [done|]. split; [done|]. intros _. by exists buff1. }
  destruct (analog_flush_reliable s1 idx buff1) as (s2 & Happ & Hb3 & Hstep2);
    try done; try apply Hstep1; try lia.
  rewrite Hf1 in Happ. rewrite Happ. cbn [is_ok negb].
  eexists. split; [reflexivity|]. split.
  - pose proof (analog_step_trans _ _ _ _ _ _ Hstep1 Hstep2) as H.
    by rewrite app_nil_r in H.
  - intros _. eexists. split; [exact Hb3 | done].
Qed.

Lemma analog_queue_reliable_witness :
  let s := opened (device 0 1) (world_of []) in
  let a := mk_analog [x07; x08] 2 [analog_channel 0] in
  exists s',
    dir_append_analog_queue bytes_to_float s (Some a) true =
      Returns (SR_OK, s') /\
    analog_step s s' 0 (bytes_to_float a).2 /\
    (true = true ->
     exists b,
       analog_buff_of (ctx s') !! Z.to_nat 0 = Some b /\ ab_fill_size b = 0).
Proof.
  intros s a.
  apply (analog_queue_reliable bytes_to_float s a (analog_channel 0) 0 true).
  - split.
    + vm_compute. split; discriminate.
    + vm_compute. split; [discriminate | reflexivity].
    + reflexivity.
    + repeat constructor; vm_compute; try reflexivity; discriminate.
  - split; vm_compute; [reflexivity | reflexivity].
  - constructor.
  - constructor.
  - reflexivity.
  - split; [lia|]. split; [reflexivity|]. intros j Hj. lia.
  - simpl. lia.
  - reflexivity.
  - reflexivity.
Defined.

Lemma streams_kept_refl s :
  analog_wf (ctx s) -> reliable (env s) -> roomy (env s) -> streams_kept s s.
Proof. intros. split; try done. by apply analog_frame_refl. Qed.

Lemma streams_kept_trans s1 s2 s3 :
  streams_kept s1 s2 -> streams_kept s2 s3 -> streams_kept s1 s3.
Proof.
  intros [F1 R1 M1 L1 S1] [F2 R2 M2 L2 S2]. split; try done.
  - by eapply analog_frame_trans.
  - by rewrite L2.
  - intros j Hj. rewrite S2, S1; try done.
    destruct (analog_frame_layout _ _ F1) as (_ & -> & _). done.
Qed.

Lemma analog_step_kept s s' idx :
  analog_step s s' idx [] -> streams_kept s s'.
Proof.
  intros [F R M L S O]. split; try done.
  intros j Hj. destruct (decide (j = idx)) as [->|Hne].
  - by rewrite S, app_nil_r.
  - by apply O.
Qed.

Lemma flush_analog_reliable todo : forall idx s,
  analog_wf (ctx s) -> reliable (env s) -> roomy (env s) ->
  0 <= idx ->
  idx + Z.of_nat todo <= analog_ch_count (ctx s) ->
  exists s',
    flush_analog todo idx s = Returns (SR_OK, s') /\ streams_kept s s'.
Proof.
  induction todo as [|todo IH]; intros idx s Hwf Hrel Hroom Hidx Hmax.
  - exists s. split; [done | by apply streams_kept_refl].
  - cbn [flush_analog].
    destruct (analog_slot (ctx s) idx Hwf) as (buff & Hb & Hfresh & _); [lia|].
    rewrite Hb. pose proof (wf_count _ Hwf) as Hc.
    rewrite (usize_small (idx + 1)) by lia.
    destruct (Z.eqb_spec (ab_fill_size buff) 0) as [Hz|Hnz].
    { apply IH; try done; lia. }
    destruct (analog_flush_reliable s idx buff) as (s2 & Happ & _ & Hstep);
      try done; try lia.
    { destruct Hfresh. lia. }
    rewrite Happ. cbn [is_ok negb].
    apply analog_step_kept in Hstep.
    destruct (analog_frame_layout _ _ (sk_frame _ _ Hstep)) as (_ & Hc' & _).
    destruct (IH (idx + 1) (set_analog_fill s2 idx 0)) as (s' & Hfl & Hk);
      try apply Hstep; try lia.
    exists s'. split; [done|]. by eapply streams_kept_trans.
Qed.

(** ** A whole session without failures *)

(** The logic path leaves the allocator alone. *)
Lemma dir_append_mallocs s buf unitsize length ret s' :
  dir_append s buf unitsize length = Returns (ret, s') ->
  malloc_script (env s') = malloc_script (env s).
Proof.
  unfold dir_append. destruct (length =? 0); [by intros [= _ <-]|].
  destruct (unitsize =? 0); [done|].
  match goal with |- context [write_file ?w ?f ?p] =>
    pose proof (write_file_trace w f p) as [_ Hm];
    destruct (write_file w f p) as [ok w'] end.
  cbn [snd] in Hm. by destruct ok; intros [= _ <-].
Qed.

Lemma queue_loop_mallocs fuel : forall s rd send_size ret s',
  queue_loop fuel s rd send_size = Returns (ret, s') ->
  malloc_script (env s') = malloc_script (env s).
Proof.
  induction fuel as [|fuel IH]; intros s rd send_size ret s'.
  - simpl. destruct (send_size =? 0); [|done]. by intros [= _ <-].
  - cbn [queue_loop]. destruct (send_size =? 0); [by intros [= _ <-]|].
    set (remain := usize _).
    destruct (negb (remain =? 0)).
    + set (s1 := mk_state _ (env s)).
      destruct (negb (_ =? 0) && (_ =? 0)).
      * destruct (dir_append s1 _ _ _) as [[ret2 s2]| |] eqn:Happ; try done.
        apply dir_append_mallocs in Happ.
        destruct (negb (is_ok ret2)); [by intros [= _ <-]|].
        intros H%IH. by rewrite H.
      * by intros H%IH.
    + destruct (negb (_ =? 0) && (_ =? 0)).
      * destruct (dir_append s _ _ _) as [[ret2 s2]| |] eqn:Happ; try done.
        apply dir_append_mallocs in Happ.
        destruct (negb (is_ok ret2)); [by intros [= _ <-]|].
        intros H%IH. by rewrite H.
      * by intros H%IH.
Qed.

Lemma dir_append_queue_mallocs s buf unitsize length flush ret s' :
  dir_append_queue s buf unitsize length flush = Returns (ret, s') ->
  malloc_script (env s') = malloc_script (env s).
Proof.
  unfold dir_append_queue.
  destruct (negb (length =? 0) && _); [by intros [= _ <-]|].
  destruct (queue_loop _ s buf _) as [[ret1 s1]| |] eqn:Hq; try done.
  apply queue_loop_mallocs in Hq.
  destruct (negb (is_ok ret1)); [by intros [= _ <-]|].
  destruct (flush && _); [|by intros [= _ <-]].
  destruct (dir_append s1 _ _ _) as [[ret2 s2]| |] eqn:Happ; try done.
  apply dir_append_mallocs in Happ.
  destruct (negb (is_ok ret2)); intros [= _ <-]; cbn [set_logic_fill env];
    congruence.
Qed.

(** The chunks of the logic path are no files of an analog channel. *)
Lemma logic_run_analog_written nr n new n' :
  logic_run n new n' -> analog_written nr new = [].
Proof. induction 1; [done|]. done. Qed.

Lemma alloc_analog_buffs_roomy todo : forall index bufs w,
  roomy w ->
  exists bufs' w',
    alloc_analog_buffs todo index bufs w = (SR_OK, bufs', w') /\
    roomy w' /\ io_script w' = io_script w /\ trace w' = trace w.
Proof.
  induction todo as [|todo IH]; intros index bufs w Hroom.
  - by exists bufs, w.
  - cbn [alloc_analog_buffs].
    destruct (g_try_malloc0_roomy w CHUNK_SIZE Hroom) as (w1 & -> & Ht & Hi & Hr);
      [done|].
    cbn [negb].
    destruct (IH (u32 (index + 1))
                (<[Z.to_nat index :=
                     mk_analog_buff (CHUNK_SIZE / sizeof_float) (fun _ => 0) 0 1]>
                   bufs) w1 Hr) as (bufs' & w' & -> & Hr' & Hi' & Ht').
    exists bufs', w'. split; [done|]. split; [done|]. split; congruence.
Qed.

(** With a file system and an allocator that do not fail, [dir_create]
    succeeds. *)
Lemma dir_create_reliable sdi s :
  reliable (env s) -> roomy (env s) ->
  exists s',
    dir_create sdi s = (SR_OK, s') /\ reliable (env s') /\ roomy (env s').
Proof.
  intros Hrel Hroom. unfold dir_create.
  set (outc := if samplerate (ctx s) =? 0 then _ else _).
  unfold g_mkdir, g_chdir, write_file.
  destruct (next_answer_reliable _ Hrel) as (r1 & -> & Hr1).
  cbn [negb io_script].
  destruct (next_answer_reliable _ Hr1) as (r2 & -> & Hr2).
  cbn [negb io_script].
  destruct (next_answer_reliable _ Hr2) as (r3 & -> & Hr3).
  cbn [negb io_script trace malloc_script].
  set (c := count_channels (channels sdi) (mk_counts 0 0 0)).
  destruct (name_channels (channels sdi) _ 0 _ _) as [[index map] meta].
  set (w3 := mk_world _ r3 _).
  destruct (g_try_malloc0_roomy w3 CHUNK_SIZE) as (w4 & -> & Ht4 & Hi4 & Hr4);
    [done | done |].
  cbn [negb].
  destruct (alloc_analog_buffs_roomy (Z.to_nat (enabled_analog_channels c)) 0
              (replicate (Z.to_nat (enabled_analog_channels c))
                 zero_analog_buff) w4 Hr4)
    as (bufs & w5 & -> & Hr5 & Hi5 & Ht5).
  cbn [is_ok negb].
  destruct (next_answer_reliable (io_script w5)) as (r6 & -> & Hr6).
  { rewrite Hi5, Hi4. done. }
  cbn [negb]. eexists. split; [reflexivity|]. split; [done|].
  done.
Qed.

(** The context and the events of a successful [dir_create], in terms of
    the channel list. *)
Lemma dir_create_layout sdi s s' :
  let l := channels sdi in
  let L := count_of is_logic l in
  let A := count_of is_enabled_analog l in
  let unit_size := (L + 7) / 8 in
  Z.of_nat (length l) < 2 ^ 32 - 1 ->
  dir_create sdi s = (SR_OK, s') ->
  ctx s' =
    mk_out_context (dir_created (ctx s)) (samplerate (ctx s'))
      (filename (ctx s)) (first_analog_number sdi) A
      (List.map ch_index (List.filter is_enabled_analog l))
      (mk_logic_buff unit_size
         (if unit_size =? 0 then CHUNK_SIZE else CHUNK_SIZE / unit_size)
         (fun _ => x00) 0 1)
      (replicate (Z.to_nat A) new_analog_buff) /\
  exists meta,
    trace (env s') =
      trace (env s) ++
      [E_mkdir (filename (ctx s)) true; E_chdir (filename (ctx s)) true;
       E_write F_version (P_bytes [x32]) true;
       E_write F_metadata (P_keyfile meta) true].
Proof.
  intros l L A unit_size Hlen Hok.
  destruct (dir_create_ok _ _ _ Hok)
    as (rate & head & index & map & meta & tail & Hhead & Htail & Hnc & Hctx & Htr).
  fold l in Hnc, Hctx.
  rewrite (count_channels_exact l) in Hnc, Hctx by lia.
  cbn [logic_channels enabled_logic_channels enabled_analog_channels]
    in Hnc, Hctx.
  fold L A in Hnc, Hctx.
  pose proof (count_of_le is_logic l). pose proof (count_of_nonneg is_logic l).
  pose proof (count_of_le is_enabled_analog l).
  pose proof (count_of_nonneg is_enabled_analog l).
  fold L in H, H0. fold A in H1, H2.
  rewrite (u32_small (L + 1)) in Hnc, Hctx by lia.
  unfold first_analog_number. fold l L.
  set (first := if 0 <? count_of is_enabled_logic l then L + 1 else 1) in *.
  assert (Hfirst : 0 <= first <= 2 ^ 32).
  { subst first. destruct (0 <? _); lia. }
  destruct (name_channels_spec l first 0
              (replicate (Z.to_nat A) 0) head)
    as (meta' & Hspec & Hkeys); try done; try (fold A; lia).
  { fold A. rewrite length_replicate. lia. }
  rewrite Hnc in Hspec. injection Hspec as _ Hmap <-.
  fold A in Hmap. rewrite Z.add_0_l in Hmap.
  change (Z.to_nat 0) with 0%nat in Hmap.
  rewrite drop_ge, app_nil_r in Hmap by (rewrite length_replicate; lia).
  cbn [take app] in Hmap.
  assert (Hunit : usize (usize (L + (8 - 1)) / 8) = unit_size).
  { rewrite (usize_small (L + (8 - 1))) by lia.
    apply usize_small. split.
    - apply Z.div_pos; lia.
    - apply Z.div_lt_upper_bound; lia. }
  rewrite Hunit in Hctx.
  split; [|by eexists].
  rewrite Hctx. cbn [samplerate]. by rewrite Hmap.
Qed.

Lemma first_slot_exists map v :
  v ∈ map -> exists idx, first_slot map v idx.
Proof.
  induction map as [|x map IH]; [by intros ?%elem_of_nil|].
  destruct (decide (x = v)) as [->|Hne].
  - intros _. exists 0. split; [lia|]. split; [done|]. intros j Hj. lia.
  - intros [?|Hin]%elem_of_cons; [done|].
    destruct (IH Hin) as (idx & Hidx & Hv & Hfirst).
    exists (idx + 1). split; [lia|]. split.
    + replace (Z.to_nat (idx + 1)) with (S (Z.to_nat idx)) by lia. done.
    + intros j Hj. destruct (decide (j = 0)) as [->|Hj0].
      * simpl. congruence.
      * replace (Z.to_nat j) with (S (Z.to_nat (j - 1))) by lia.
        simpl. apply Hfirst. lia.
Qed.

Lemma first_slot_unique map v i j :
  first_slot map v i -> first_slot map v j -> i = j.
Proof.
  intros (Hi & Hvi & Hfi) (Hj & Hvj & Hfj).
  destruct (Z.lt_trichotomy i j) as [Hlt|[->|Hgt]]; [|done|].
  - destruct (Hfj i); [lia | done].
  - destruct (Hfi j); [lia | done].
Qed.

Lemma logic_written_not_chunk tr :
  Forall not_chunk tr -> logic_written tr = [].
Proof.
  induction 1 as [|e tr He _ IH]; [done|].
  destruct e as [| |f p ok]; simpl; try done.
  destruct f; try done.
Qed.

Lemma analog_written_not_chunk nr tr :
  Forall not_chunk tr -> analog_written nr tr = [].
Proof.
  induction 1 as [|e tr He _ IH]; [done|].
  destruct e as [| |f p ok]; simpl; try done.
  destruct f; try done.
Qed.

Lemma load_nil {A} (m : mem A) : load m 0 = [].
Proof. done. Qed.

(** The directory step of the first sample packet, and of the later
    ones. *)
Lemma ensure_dir_good sdi s lin ain :
  small_device sdi ->
  session_good sdi s lin ain ->
  exists s1,
    ensure_dir sdi s = (SR_OK, s1) /\ archive_inv sdi s1 lin ain.
Proof.
  intros Hsmall Hgood. unfold session_good in Hgood. unfold ensure_dir.
  destruct (dir_created (ctx s)) eqn:Hd; [by exists s|].
  destruct Hgood as (Hrel & Hroom & Htr & -> & Hain).
  destruct (dir_create_reliable sdi s Hrel Hroom) as (s' & Hc & Hrel' & Hroom').
  rewrite Hc. cbn [is_ok negb]. eexists. split; [reflexivity|].
  assert (Hlen : Z.of_nat (length (channels sdi)) < 2 ^ 32 - 1).
  { unfold small_device in Hsmall. rewrite CHUNK_SIZE_eq in Hsmall. lia. }
  destruct (dir_create_layout _ _ _ Hlen Hc) as [Hctx (meta & Htr')].
  rewrite Htr in Htr'. cbn [app] in Htr'.
  pose proof (dir_create_analog_wf _ _ _ Hc) as Hwf.
  pose proof (dir_create_index_map_wf _ _ _ Hc) as Hmap.
  destruct (dir_create_session_ok _ _ _ Hsmall Hc) as [_ Hlogic].
  split; cbn [ctx env]; try done.
  - by apply analog_wf_created.
  - by rewrite Hctx.
  - by rewrite Hctx.
  - by rewrite Hctx.
  - unfold logic_stream, logic_buffered. cbn [ctx env]. rewrite Htr'.
    rewrite Hctx. cbn. done.
  - intros j v _. rewrite Hain. unfold analog_stream. cbn [ctx env].
    rewrite Htr'. rewrite analog_written_not_chunk by (by repeat constructor).
    rewrite Hctx. cbn [with_dir_created analog_buff_of first_analog_index].
    destruct (_ !! _) as [b|] eqn:Hb; [|done].
    apply lookup_replicate in Hb as [-> _]. done.
Qed.

Lemma index_map_wf_analog c bufs :
  index_map_wf c -> index_map_wf (with_analog_buff c bufs).
Proof. done. Qed.

(** A call of the logic path in such a session: a block of whole samples,
    or the flush call of the end of the stream. *)
Lemma logic_path_good sdi s lin ain buf unitsize length flush :
  archive_inv sdi s lin ain ->
  length = 0 \/
    unitsize = lb_unit_size (logic_buff_of (ctx s)) /\
    0 < lb_unit_size (logic_buff_of (ctx s)) ->
  0 <= length < 2 ^ 64 ->
  length <= Z.of_nat (List.length buf) ->
  exists s',
    dir_append_queue s buf unitsize length flush = Returns (SR_OK, s') /\
    archive_inv sdi s'
      (lin ++
       take (Z.to_nat (length / lb_unit_size (logic_buff_of (ctx s)) *
                       lb_unit_size (logic_buff_of (ctx s)))) buf)
      ain /\
    (flush = true -> lb_fill_size (logic_buff_of (ctx s')) = 0).
Proof.
  intros Hinv Hcase Hlen Hbuf.
  pose proof Hinv as [Hd Hwf Hmwf Hmap Hfirst Hlogic Hunit Hrel Hroom Hlin Hain].
  destruct (Z.eqb_spec (lb_unit_size (logic_buff_of (ctx s))) 0) as [Hu0|Hu].
  - (* no logic channels: only the flush call comes here *)
    destruct Hcase as [->|[_ ?]]; [|lia].
    pose proof (ok_empty _ Hlogic Hu0) as Hfill.
    exists s. rewrite Hu0. cbn [Z.mul Z.to_nat take]. rewrite app_nil_r.
    split; [|by split].
    unfold dir_append_queue. cbn [Z.eqb negb andb]. rewrite Hu0.
    cbn [Z.eqb loop_fuel Z.to_nat queue_loop is_ok negb].
    rewrite Hfill. cbn [Z.eqb negb]. by rewrite andb_false_r.
  - assert (Hpos : 0 < lb_unit_size (logic_buff_of (ctx s))).
    { pose proof (ok_unit _ Hlogic). lia. }
    pose proof (logic_ok_wf _ Hlogic Hpos) as Hlwf.
    destruct (dir_append_queue_reliable s buf unitsize length flush Hlwf Hrel)
      as (s' & new & Hq & Hstep & Hflush); try done.
    { destruct Hcase as [->|[-> _]]; [by left | by right]. }
    exists s'. split; [done|]. split; [|done].
    pose proof (dir_append_queue_frame _ _ _ _ _ _ _ Hq) as [Hctx _].
    pose proof (dir_append_queue_mallocs _ _ _ _ _ _ _ Hq) as Hm.
    destruct Hstep as [Hwf' Hrel' Hu' Ha' Htr' Hrun Hstream].
    split; try done.
    + by rewrite Hctx.
    + rewrite Hctx. by apply analog_wf_logic.
    + rewrite Hctx. by apply index_map_wf_logic.
    + by rewrite Hctx.
    + by rewrite Hctx.
    + by apply logic_wf_ok.
    + by rewrite Hu'.
    + unfold roomy. by rewrite Hm.
    + by rewrite Hstream, Hlin.
    + intros j v Hslot. rewrite Hctx in Hslot. cbn in Hslot.
      rewrite <- (Hain j v Hslot). unfold analog_stream.
      rewrite Htr', analog_written_app,
        (logic_run_analog_written _ _ _ _ Hrun), app_nil_r.
      rewrite Hctx. done.
Qed.

(** A call of the analog path in such a session, for a packet that fits
    the device. *)
Lemma analog_path_good
    (sr_analog_to_float : sr_datafeed_analog -> sr_error_code * list float32)
    sdi s lin ain a :
  archive_inv sdi s lin ain ->
  good_packet sr_analog_to_float sdi (SR_DF_ANALOG a) ->
  exists s',
    dir_append_analog_queue sr_analog_to_float s (Some a) false =
      Returns (SR_OK, s') /\
    archive_inv sdi s' lin
      (fun v => ain v ++ analog_of sr_analog_to_float v (SR_DF_ANALOG a)).
Proof.
  intros Hinv (ch & Hch & Hin & Hn & Hconv & Hlen).
  pose proof Hinv as [Hd Hwf Hmwf Hmap Hfirst Hlogic Hunit Hrel Hroom Hlin Hain].
  rewrite <- Hmap in Hin.
  destruct (first_slot_exists _ _ Hin) as (idx & Hslot).
  destruct (analog_queue_copied sr_analog_to_float s a ch idx false)
    as (s' & buff' & Hstep & _ & _ & _ & Hq); try done.
  cbn [andb] in Hq.
  exists s'. split; [done|].
  destruct Hstep as [Hframe Hrel' Hroom' Hlog Hstream Hothers].
  destruct (analog_frame_layout _ _ Hframe) as (Hf' & Hc' & Hd' & Hm' & Hl').
  destruct (find_slot_first _ _ _ Hmwf Hslot) as [_ Hidx].
  split; try done.
  - by rewrite Hd'.
  - apply Hframe.
  - destruct Hmwf as [H1 H2]. split; by rewrite ?Hc', ?Hm'.
  - by rewrite Hm'.
  - by rewrite Hf'.
  - by rewrite Hl'.
  - by rewrite Hl'.
  - unfold logic_stream. by rewrite Hlog, Hl'.
  - intros j v Hj. rewrite Hm' in Hj. cbn [analog_of]. rewrite Hch.
    destruct (Z.eqb_spec (ch_index ch) v) as [<-|Hne].
    + rewrite (first_slot_unique _ _ _ _ Hj Hslot).
      by rewrite Hstream, (Hain _ _ Hslot).
    + rewrite app_nil_r, <- (Hain _ _ Hj). apply Hothers.
      * destruct (find_slot_first _ _ _ Hmwf Hj). done.
      * intros ->. destruct Hj as (_ & Hvj & _), Hslot as (_ & Hvs & _).
        congruence.
Qed.

(** The end of the stream in such a session: both flushes go well, the
    streams are as they were and every buffer is empty. *)
Lemma end_path_good
    (sr_analog_to_float : sr_datafeed_analog -> sr_error_code * list float32)
    sdi s lin ain :
  archive_inv sdi s lin ain ->
  exists s',
    receive_packet sr_analog_to_float sdi s SR_DF_END = Returns (SR_OK, s') /\
    archive_inv sdi s' lin ain /\
    buffers_empty (ctx s').
Proof.
  intros Hinv. cbn [receive_packet]. rewrite (ai_created _ _ _ _ Hinv).
  destruct (logic_path_good sdi s lin ain [] 0 0 true Hinv)
    as (s1 & Hq & Hinv1 & Hfill); [by left | lia | simpl; lia |].
  rewrite Hq. cbn [is_ok negb]. specialize (Hfill eq_refl).
  rewrite Zdiv_0_l in Hinv1. cbn [Z.mul Z.to_nat take] in Hinv1.
  rewrite app_nil_r in Hinv1.
  pose proof Hinv1
    as [Hd Hwf Hmwf Hmap Hfirst Hlogic Hunit Hrel Hroom Hlin Hain].
  pose proof (wf_count _ Hwf) as Hc.
  unfold dir_append_analog_queue.
  assert (H0 : 0 <= 0) by lia.
  assert (Hmax : 0 + Z.of_nat (Z.to_nat (analog_ch_count (ctx s1))) <=
                 analog_ch_count (ctx s1)) by lia.
  destruct (flush_analog_reliable (Z.to_nat (analog_ch_count (ctx s1))) 0 s1
              Hwf Hrel Hroom H0 Hmax) as (s2 & Hfl & Hkept).
  rewrite Hfl. exists s2. split; [done|].
  destruct Hkept as [Hframe Hrel' Hroom' Hlog Hstreams].
  destruct (analog_frame_layout _ _ Hframe) as (Hf' & Hc' & Hd' & Hm' & Hl').
  split; [split; try done|].
  - by rewrite Hd'.
  - apply Hframe.
  - destruct Hmwf as [H1 H2]. split; by rewrite ?Hc', ?Hm'.
  - by rewrite Hm'.
  - by rewrite Hf'.
  - by rewrite Hl'.
  - by rewrite Hl'.
  - unfold logic_stream. by rewrite Hlog, Hl'.
  - intros j v Hj. rewrite Hm' in Hj. rewrite <- (Hain _ _ Hj).
    apply Hstreams. by destruct (find_slot_first _ _ _ Hmwf Hj).
  - split; [by rewrite Hl'|].
    apply Forall_lookup_2. intros j buff Hj.
    destruct (flush_analog_empties _ _ _ _ Hwf H0 Hmax Hfl j buff Hj)
      as [[_ Hf]|[Hr _]]; [done|].
    exfalso. apply Hr. apply lookup_lt_Some in Hj.
    rewrite (wf_slots _ (af_wf _ _ Hframe)) in Hj. lia.
Qed.

Lemma archive_inv_ext sdi s lin lin' ain ain' :
  archive_inv sdi s lin ain ->
  lin = lin' -> (forall v, ain v = ain' v) ->
  archive_inv sdi s lin' ain'.
Proof.
  intros [] <- Hext. split; try done.
  intros j v Hj. rewrite <- Hext. auto.
Qed.

Lemma archive_inv_samplerate sdi s lin ain r :
  archive_inv sdi s lin ain ->
  archive_inv sdi (mk_state (with_samplerate (ctx s) r) (env s)) lin ain.
Proof.
  intros [Hd Hwf Hmwf Hmap Hfirst Hlogic Hunit Hrel Hroom Hlin Hain].
  split; cbn [ctx env]; try done.
  by apply analog_wf_samplerate.
Qed.

(** Every packet that fits the device is answered with SR_OK and goes into
    its stream. *)
Lemma receive_packet_good
    (sr_analog_to_float : sr_datafeed_analog -> sr_error_code * list float32)
    sdi s lin ain p :
  small_device sdi ->
  session_good sdi s lin ain ->
  good_packet sr_analog_to_float sdi p ->
  exists s',
    receive_packet sr_analog_to_float sdi s p = Returns (SR_OK, s') /\
    session_good sdi s' (lin ++ logic_of p)
      (fun v => ain v ++ analog_of sr_analog_to_float v p).
Proof.
  intros Hsmall Hgood Hp.
  destruct p as [config|logic|analog| |]; cbn [receive_packet logic_of].
  - eexists. split; [reflexivity|]. unfold session_good in *. cbn [ctx env].
    change (dir_created (with_samplerate _ _)) with (dir_created (ctx s)).
    destruct (dir_created (ctx s)) eqn:Hd.
    + eapply archive_inv_ext.
      * by apply archive_inv_samplerate.
      * by rewrite app_nil_r.
      * intros v. cbn. by rewrite app_nil_r.
    + destruct Hgood as (? & ? & ? & -> & Hain). repeat split; try done.
      intros v. cbn. by rewrite Hain.
  - destruct (ensure_dir_good sdi s lin ain Hsmall Hgood) as (s1 & -> & Hinv1).
    cbn [is_ok negb].
    destruct Hp as (HL & Hunit & Hlen & Hmod & Hmax).
    destruct (logic_path_good sdi s1 lin ain (logic_data logic)
                (logic_unitsize logic) (logic_length logic) false Hinv1)
      as (s' & Hq & Hinv' & _).
    { right. rewrite (ai_unit _ _ _ _ Hinv1). split; [done|].
      apply Z.div_str_pos. lia. }
    { lia. }
    { lia. }
    exists s'. split; [done|]. unfold session_good.
    rewrite (ai_created _ _ _ _ Hinv').
    eapply archive_inv_ext; [exact Hinv'| |].
    + f_equal. rewrite (ai_unit _ _ _ _ Hinv1), <- Hunit.
      assert (Hupos : 0 < logic_unitsize logic).
      { rewrite Hunit. apply Z.div_str_pos. lia. }
      replace (logic_length logic / logic_unitsize logic *
               logic_unitsize logic) with (logic_length logic).
      * rewrite Hlen, Nat2Z.id. apply firstn_all.
      * pose proof (Z.div_mod (logic_length logic) (logic_unitsize logic)).
        lia.
    + intros v. cbn. by rewrite app_nil_r.
  - destruct (ensure_dir_good sdi s lin ain Hsmall Hgood) as (s1 & -> & Hinv1).
    cbn [is_ok negb].
    destruct (analog_path_good sr_analog_to_float sdi s1 lin ain analog Hinv1 Hp)
      as (s' & Hq & Hinv').
    exists s'. split; [done|]. unfold session_good.
    rewrite (ai_created _ _ _ _ Hinv').
    eapply archive_inv_ext; [exact Hinv'| |done]. by rewrite app_nil_r.
  - unfold session_good in Hgood.
    destruct (dir_created (ctx s)) eqn:Hd.
    + destruct (end_path_good sr_analog_to_float sdi s lin ain Hgood)
        as (s' & Hr & Hinv' & _).
      cbn [receive_packet] in Hr. rewrite Hd in Hr.
      exists s'. split; [done|]. unfold session_good.
      rewrite (ai_created _ _ _ _ Hinv').
      eapply archive_inv_ext; [exact Hinv'| |].
      * by rewrite app_nil_r.
      * intros v. cbn. by rewrite app_nil_r.
    + exists s. split; [done|]. unfold session_good. rewrite Hd.
      destruct Hgood as (? & ? & ? & -> & Hain). repeat split; try done.
      intros v. cbn. by rewrite Hain.
  - exists s. split; [done|]. unfold session_good in *.
    destruct (dir_created (ctx s)) eqn:Hd.
    + eapply archive_inv_ext; [exact Hgood| |].
      * by rewrite app_nil_r.
      * intros v. cbn. by rewrite app_nil_r.
    + destruct Hgood as (? & ? & ? & -> & Hain). repeat split; try done.
      intros v. cbn. by rewrite Hain.
Qed.

Lemma session_good_ext sdi s lin lin' ain ain' :
  session_good sdi s lin ain ->
  lin = lin' -> (forall v, ain v = ain' v) ->
  session_good sdi s lin' ain'.
Proof.
  unfold session_good. destruct (dir_created (ctx s)).
  - apply archive_inv_ext.
  - intros (? & ? & ? & -> & Hain) <- Hext. repeat split; try done.
    intros v. by rewrite <- Hext.
Qed.

Lemma feed_good
    (sr_analog_to_float : sr_datafeed_analog -> sr_error_code * list float32)
    sdi packets : forall o w c lin ain,
  small_device sdi ->
  o_sdi o = Some sdi ->
  o_priv o = Some c ->
  session_good sdi (mk_state c w) lin ain ->
  Forall (good_packet sr_analog_to_float sdi) packets ->
  exists c' w',
    feed sr_analog_to_float o w packets =
      Returns (SR_OK, mk_output (o_filename o) (Some sdi) (Some c'), w') /\
    session_good sdi (mk_state c' w') (lin ++ logic_input packets)
      (fun v => ain v ++ analog_input sr_analog_to_float v packets).
Proof.
  induction packets as [|p rest IH];
    intros o w c lin ain Hsmall Hsdi Hpriv Hgood Hall.
  - exists c, w. split.
    + destruct o. simpl in *. by subst.
    + eapply session_good_ext; [exact Hgood| |].
      * unfold logic_input. simpl. by rewrite app_nil_r.
      * intros v. unfold analog_input. simpl. by rewrite app_nil_r.
  - inversion Hall as [|? ? Hp Hrest]; subst. cbn [feed].
    unfold receive. rewrite Hsdi, Hpriv.
    destruct (receive_packet_good sr_analog_to_float sdi (mk_state c w)
                lin ain p Hsmall Hgood Hp) as (s' & -> & Hgood').
    destruct (IH (mk_output (o_filename o) (Some sdi) (Some (ctx s'))) (env s')
                (ctx s') (lin ++ logic_of p)
                (fun v => ain v ++ analog_of sr_analog_to_float v p)
                Hsmall eq_refl eq_refl) as (c' & w' & Hfeed & Hg);
      [by destruct s' | done |].
    exists c', w'. split; [done|].
    eapply session_good_ext; [exact Hg| |].
    + unfold logic_input. cbn [map concat]. by rewrite app_assoc.
    + intros v. unfold analog_input. cbn [map concat]. by rewrite app_assoc.
Qed.

(** X1. A whole session in a world where nothing fails, on a device whose
    logic samples fit into the buffer: any packets that fit the device
    (stream metadata, logic blocks of whole samples, analog packets for one
    enabled analog channel each, ends of the stream in between, others),
    followed by the end of the stream. Every packet is answered with
    SR_OK; the [logic-1-*] files, read in the order they were written,
    hold the bytes of the logic packets in the order they came; and the
    [analog-1-<n>-*] files of the [k]-th enabled analog channel, whose
    number [n] is [first_analog_number + k], hold the floats of the
    packets of that channel. Nothing is lost, duplicated or reordered, and
    nothing stays behind in a buffer. *)
Theorem archive_roundtrip
    (sr_analog_to_float : sr_datafeed_analog -> sr_error_code * list float32)
    o0 o sdi w packets :
  init o0 = (SR_OK, o) ->
  o_sdi o0 = Some sdi ->
  small_device sdi ->
  trace w = [] ->
  reliable w ->
  roomy w ->
  Forall (good_packet sr_analog_to_float sdi) packets ->
  exists o' w',
    feed sr_analog_to_float o w (packets ++ [SR_DF_END]) =
      Returns (SR_OK, o', w') /\
    logic_written (trace w') = logic_input packets /\
    forall k v,
      first_slot
        (List.map ch_index (List.filter is_enabled_analog (channels sdi))) v k ->
      analog_written (first_analog_number sdi + k) (trace w') =
      analog_input sr_analog_to_float v packets.
Proof.
  intros Hinit Hsdi Hsmall Htr Hrel Hroom Hall.
  apply init_ok in Hinit as (name & ->).
  destruct (feed_good sr_analog_to_float sdi packets
              (mk_output (o_filename o0) (o_sdi o0) (Some (zero_context name)))
              w (zero_context name) [] (fun _ => []) Hsmall Hsdi eq_refl)
    as (c1 & w1 & Hfeed & Hgood); [by repeat split | done |].
  rewrite (feed_app _ _ _ _ _ _ _ Hfeed). cbn [feed o_filename app] in *.
  unfold receive. cbn [o_sdi o_priv o_filename].
  unfold session_good in Hgood. cbn [ctx env] in Hgood.
  destruct (dir_created c1) eqn:Hd.
  - destruct (end_path_good sr_analog_to_float sdi (mk_state c1 w1) _ _ Hgood)
      as (s' & -> & Hinv & Hfill & Hfills).
    eexists _, _. split; [reflexivity|].
    destruct Hinv as [_ Hwf Hmwf Hmap Hfirst _ _ _ _ Hlin Hain].
    split.
    + rewrite <- Hlin. unfold logic_stream, logic_buffered.
      rewrite Hfill. cbn [Z.mul load Z.to_nat seq map]. by rewrite app_nil_r.
    + intros k v Hslot. rewrite <- Hmap in Hslot.
      rewrite <- (Hain _ _ Hslot). unfold analog_stream. rewrite Hfirst.
      destruct (_ !! _) as [b|] eqn:Hb; [|by rewrite app_nil_r].
      unfold analog_buffered. rewrite (Forall_lookup_1 _ _ _ _ Hfills Hb).
      by rewrite app_nil_r.
  - cbn [receive_packet ctx]. rewrite Hd.
    eexists _, _. split; [reflexivity|]. cbn [env].
    destruct Hgood as (_ & _ & Htr1 & Hlin & Hain). rewrite Htr1.
    cbn [app] in Hlin. split; [done|].
    intros k v _. specialize (Hain v). cbn [app] in Hain. by rewrite Hain.
Qed.

Lemma archive_roundtrip_witness :
  exists o' w',
    feed bytes_to_float (init sample_output).2 (world_of [])
      (sample_packets ++ [SR_DF_END]) = Returns (SR_OK, o', w') /\
    logic_written (trace w') = logic_input sample_packets /\
    forall k v,
      first_slot
        (List.map ch_index
           (List.filter is_enabled_analog (channels (device 9 1)))) v k ->
      analog_written (first_analog_number (device 9 1) + k) (trace w') =
      analog_input bytes_to_float v sample_packets.
Proof.
  apply (archive_roundtrip bytes_to_float sample_output
           (init sample_output).2 (device 9 1) (world_of []) sample_packets).
  - reflexivity.
  - reflexivity.
  - vm_compute. discriminate.
  - reflexivity.
  - constructor.
  - constructor.
  - repeat constructor; try (vm_compute; reflexivity); try (simpl; lia).
    exists (analog_channel 9). split; [reflexivity|].
    split; [vm_compute; apply list_elem_of_here|].
    split; [simpl; lia|]. split; reflexivity.
Defined.

(** ** Bounds *)

(** X13. In every session that can come about on a device whose logic
    samples fit into the buffer, whatever failed on the way, the samples
    in use never exceed the blocks that were allocated: the logic buffer
    holds at most 4 MiB, there is an analog buffer for each counted
    channel, and each holds at most 4 MiB of floats. *)
Theorem buffers_within_bounds
    (sr_analog_to_float : sr_datafeed_analog -> sr_error_code * list float32)
    o w c :
  reachable sr_analog_to_float o w ->
  (forall sdi, o_sdi o = Some sdi -> small_device sdi) ->
  o_priv o = Some c ->
  dir_created c = true ->
  0 <= lb_fill_size (logic_buff_of c) * lb_unit_size (logic_buff_of c)
    <= CHUNK_SIZE /\
  length (analog_buff_of c) = Z.to_nat (analog_ch_count c) /\
  Forall (fun b => 0 <= sizeof_float * ab_fill_size b <= CHUNK_SIZE)
    (analog_buff_of c).
Proof.
  intros Hreach Hsmall Hpriv Hd.
  destruct (reachable_ok _ _ _ Hreach Hsmall) as (c' & Hpriv' & [Hinv Hok]).
  rewrite Hpriv in Hpriv'. injection Hpriv' as <-.
  destruct (Hok Hd) as [_ [Hu Ha Hf Hb _ _]].
  destruct Hinv as [_ Hwf]. destruct (Hwf Hd) as [_ _ Hslots Hbufs].
  split; [nia|]. split; [done|].
  eapply Forall_impl; [exact Hbufs|].
  intros b Hfresh. pose proof (fresh_alloc _ Hfresh). destruct Hfresh.
  rewrite CHUNK_SIZE_eq. unfold sizeof_float. lia.
Qed.

Lemma buffers_within_bounds_witness :
  let r := run bytes_to_float (init sample_output).2 (world_of []) sample_packets in
  let c := match o_priv r.1 with Some c => c | None => zero_context "" end in
  0 <= lb_fill_size (logic_buff_of c) * lb_unit_size (logic_buff_of c)
    <= CHUNK_SIZE /\
  length (analog_buff_of c) = Z.to_nat (analog_ch_count c) /\
  Forall (fun b => 0 <= sizeof_float * ab_fill_size b <= CHUNK_SIZE)
    (analog_buff_of c).
Proof.
  intros r c.
  apply (buffers_within_bounds bytes_to_float r.1 r.2 c).
  - apply sample_reachable; [reflexivity | apply sample_packets_wf].
  - intros sdi H. vm_compute in H. injection H as <-. vm_compute. discriminate.
  - vm_compute. reflexivity.
  - vm_compute. reflexivity.
Defined.

(** X14. The capacity that [dir_create] gives the logic buffer is 0
    exactly when the device has more than 8 * 4 MiB = 33554432 logic
    channels: a sample is then larger than the 4 MiB block. *)
Theorem capacity_zero_iff sdi s s' :
  Z.of_nat (length (channels sdi)) < 2 ^ 32 - 1 ->
  dir_create sdi s = (SR_OK, s') ->
  (lb_alloc_size (logic_buff_of (ctx s')) = 0 <->
   8 * CHUNK_SIZE < count_of is_logic (channels sdi)).
Proof.
  intros Hlen Hok.
  destruct (dir_create_layout _ _ _ Hlen Hok) as [-> _].
  cbn [logic_buff_of lb_alloc_size].
  set (L := count_of is_logic (channels sdi)).
  pose proof (count_of_nonneg is_logic (channels sdi)) as HL. fold L in HL.
  rewrite CHUNK_SIZE_eq.
  destruct (Z.eqb_spec ((L + 7) / 8) 0) as [E|Hne].
  - assert ((L + 7) / 8 * 8 <= L + 7 < ((L + 7) / 8 + 1) * 8).
    { pose proof (Z.div_mod (L + 7) 8). pose proof (Z.mod_pos_bound (L + 7) 8).
      lia. }
    lia.
  - assert (Hu : 0 < (L + 7) / 8).
    { assert (0 <= (L + 7) / 8) by (apply Z.div_pos; lia). lia. }
    assert (Hdm : (L + 7) / 8 * 8 <= L + 7 < ((L + 7) / 8 + 1) * 8).
    { pose proof (Z.div_mod (L + 7) 8). pose proof (Z.mod_pos_bound (L + 7) 8).
      lia. }
    split.
    + intros Hz. apply Z.div_small_iff in Hz as [Hz|Hz]; lia.
    + intros Hbig. apply Z.div_small. lia.
Qed.

Lemma capacity_zero_iff_witness :
  let s := mk_state (zero_context "capture") (world_of []) in
  let s' := (dir_create (device 9 1) s).2 in
  lb_alloc_size (logic_buff_of (ctx s')) = 0 <->
  8 * CHUNK_SIZE < count_of is_logic (channels (device 9 1)).
Proof.
  intros s s'.
  apply (capacity_zero_iff (device 9 1) s s').
  - vm_compute. reflexivity.
  - vm_compute. reflexivity.
Defined.

(** X15. On an empty logic buffer of capacity 0 a call with at least one
    sample never returns: however many rounds of the loop are followed, it
    has neither room to copy into nor samples to flush, and goes round
    again. *)
Theorem queue_without_capacity_hangs s buf unitsize length flush :
  let b := logic_buff_of (ctx s) in
  lb_alloc_size b = 0 ->
  lb_fill_size b = 0 ->
  unitsize = lb_unit_size b ->
  0 < lb_unit_size b <= length ->
  (forall fuel, queue_loop fuel s buf (length / lb_unit_size b) = Hangs) /\
  dir_append_queue s buf unitsize length flush = Hangs.
Proof.
  intros b Ha Hf -> Hlen.
  assert (Hsend : length / lb_unit_size b <> 0).
  { assert (0 < length / lb_unit_size b); [|lia].
    apply Z.div_str_pos. lia. }
  split.
  - intros fuel. by apply queue_loop_hangs.
  - unfold dir_append_queue. fold b. rewrite Z.eqb_refl. cbn [negb].
    rewrite andb_false_r.
    destruct (Z.eqb_spec (lb_unit_size b) 0) as [|_]; [lia|].
    by rewrite queue_loop_hangs.
Qed.

Lemma queue_without_capacity_hangs_witness :
  let s :=
    mk_state
      (with_logic_buff (zero_context "capture")
         (mk_logic_buff 1 0 (fun _ => x00) 0 1))
      (world_of []) in
  (forall fuel, queue_loop fuel s [x01] (1 / 1) = Hangs) /\
  dir_append_queue s [x01] 1 1 false = Hangs.
Proof.
  intros s.
  apply (queue_without_capacity_hangs s [x01] 1 1 false).
  - reflexivity.
  - reflexivity.
  - reflexivity.
  - simpl. lia.
Defined.

(** ** Chunks come after the metadata *)

Lemma not_chunk_event e : not_chunk e -> is_chunk_event e = false.
Proof. by destruct e. Qed.

Lemma guarded_app_quiet tr new :
  guarded tr -> Forall not_chunk new -> guarded (tr ++ new).
Proof.
  intros Hg Hnew pre e post Heq He.
  destruct (decide (length pre < length tr)%nat) as [Hlt|Hge].
  - assert (Hpre : pre = take (length pre) tr).
    { apply (f_equal (take (length pre))) in Heq.
      rewrite take_app_le in Heq by lia.
      by rewrite take_app_length in Heq. }
    assert (He' : tr !! length pre = Some e).
    { apply (f_equal (fun l => l !! length pre)) in Heq.
      rewrite lookup_app_l in Heq by done.
      by rewrite list_lookup_middle in Heq. }
    apply (Hg pre e (drop (S (length pre)) tr)); [|done].
    rewrite Hpre at 1. rewrite <- (take_drop_middle _ _ _ He') at 1.
    by rewrite <- Hpre.
  - exfalso.
    assert (He' : new !! (length pre - length tr)%nat = Some e).
    { apply (f_equal (fun l => l !! length pre)) in Heq.
      rewrite lookup_app_r in Heq by lia.
      by rewrite list_lookup_middle in Heq. }
    pose proof (Forall_lookup_1 _ _ _ _ Hnew He') as Hn.
    apply not_chunk_event in Hn. congruence.
Qed.

Lemma guarded_app_after tr new :
  guarded tr -> Exists metadata_written tr -> guarded (tr ++ new).
Proof.
  intros Hg Hex pre e post Heq He.
  destruct (decide (length pre < length tr)%nat) as [Hlt|Hge].
  - assert (Hpre : pre = take (length pre) tr).
    { apply (f_equal (take (length pre))) in Heq.
      rewrite take_app_le in Heq by lia.
      by rewrite take_app_length in Heq. }
    assert (He' : tr !! length pre = Some e).
    { apply (f_equal (fun l => l !! length pre)) in Heq.
      rewrite lookup_app_l in Heq by done.
      by rewrite list_lookup_middle in Heq. }
    apply (Hg pre e (drop (S (length pre)) tr)); [|done].
    rewrite Hpre at 1. rewrite <- (take_drop_middle _ _ _ He') at 1.
    by rewrite <- Hpre.
  - assert (Hpre : pre = tr ++ take (length pre - length tr) new).
    { apply (f_equal (take (length pre))) in Heq.
      rewrite take_app_length in Heq.
      rewrite take_app_ge in Heq by lia. done. }
    rewrite Hpre. apply Exists_app. by left.
Qed.

Lemma ensure_dir_setup sdi s ret s1 :
  setup_inv (ctx s) (env s) ->
  ensure_dir sdi s = (ret, s1) ->
  setup_inv (ctx s1) (env s1) /\
  (ret = SR_OK -> dir_created (ctx s1) = true).
Proof.
  intros [Hg Hex]. unfold ensure_dir.
  destruct (dir_created (ctx s)) eqn:Hd.
  { intros [= <- <-]. split; [|done]. split; [done|]. intros _. by apply Hex. }
  destruct (dir_create sdi s) as [ret1 s'] eqn:Hc.
  pose proof (dir_create_any _ _ _ _ Hc) as (Hd' & new & Htr & Hnc & _).
  assert (Hg' : guarded (trace (env s'))).
  { rewrite Htr. by apply guarded_app_quiet. }
  destruct ret1; cbn [is_ok negb]; intros [= <- <-]; cbn [ctx env].
  2-4: split; [|done]; split; [done|]; by rewrite Hd', Hd.
  split; [|done]. split; [done|]. intros _.
  destruct (dir_create_ok _ _ _ Hc)
    as (rate & head & index & map & meta & tail & _ & _ & _ & _ & Htr').
  rewrite Htr'. apply Exists_app. right.
  do 3 apply Exists_cons_tl. by apply Exists_cons_hd.
Qed.

Lemma receive_packet_setup
    (sr_analog_to_float : sr_datafeed_analog -> sr_error_code * list float32)
    sdi s p ret s' :
  session_inv (ctx s) (env s) ->
  setup_inv (ctx s) (env s) ->
  packet_wf p ->
  receive_packet sr_analog_to_float sdi s p = Returns (ret, s') ->
  setup_inv (ctx s') (env s').
Proof.
  intros Hinv Hset Hp.
  assert (Hquiet : forall s1,
            setup_inv (ctx s1) (env s1) -> dir_created (ctx s1) = true ->
            quiet_step s1 s' -> setup_inv (ctx s') (env s')).
  { intros s1 [Hg Hex] Hd ((new & Htr & _) & Hd' & _).
    specialize (Hex Hd). split.
    - rewrite Htr. by apply guarded_app_after.
    - intros _. rewrite Htr. apply Exists_app. by left. }
  destruct p as [config|logic|analog| |]; cbn [receive_packet].
  - by intros [= <- <-].
  - destruct (ensure_dir sdi s) as [ret1 s1] eqn:He.
    pose proof (ensure_dir_setup _ _ _ _ Hset He) as [Hset1 Hok1].
    destruct ret1; cbn [is_ok negb]; try (by intros [= <- <-]).
    intros H%dir_append_queue_frame%logic_frame_quiet.
    by apply (Hquiet s1 Hset1 (Hok1 eq_refl)).
  - destruct (ensure_dir sdi s) as [ret1 s1] eqn:He.
    pose proof (ensure_dir_setup _ _ _ _ Hset He) as [Hset1 Hok1].
    pose proof (ensure_dir_step _ _ _ _ Hinv He) as [Hstep _].
    destruct ret1; cbn [is_ok negb]; try (by intros [= <- <-]).
    intros H. apply dir_append_analog_queue_frame in H;
      [|by apply Hstep, Hok1|done].
    apply (Hquiet s1 Hset1 (Hok1 eq_refl)). by apply analog_frame_quiet.
  - destruct (dir_created (ctx s)) eqn:Hd; [|by intros [= <- <-]].
    destruct (dir_append_queue s [] 0 0 true) as [[ret1 s1]| |] eqn:Hq; try done.
    apply dir_append_queue_frame, logic_frame_quiet in Hq.
    destruct (negb (is_ok ret1)).
    { intros [= <- <-]. by apply (Hquiet s Hset Hd). }
    intros H. apply dir_append_analog_queue_frame in H; [| |done].
    + apply (Hquiet s Hset Hd).
      eapply quiet_step_trans; [exact Hq | by apply analog_frame_quiet].
    + apply Hq, Hinv. done.
  - by intros [= <- <-].
Qed.

(** X9. In every session that can come about, whatever failed on the way
    and whether or not the caller went on after errors, a chunk file is
    only written after a write of the [metadata] file that went well:
    samples never go into a directory that was not set up. *)
Theorem chunks_follow_metadata
    (sr_analog_to_float : sr_datafeed_analog -> sr_error_code * list float32)
    o w pre e post :
  reachable sr_analog_to_float o w ->
  trace w = pre ++ e :: post ->
  is_chunk_event e = true ->
  Exists metadata_written pre.
Proof.
  intros Hreach.
  assert (Hset : exists c, o_priv o = Some c /\ setup_inv c w).
  { induction Hreach as [o0 o w Hinit Htr|o w p ret o1 w1 Hr IH Hp Hrec].
    - apply init_ok in Hinit as (name & ->). eexists. split; [done|].
      split; [|done]. rewrite Htr. intros pre' e' post' Heq.
      by destruct pre'.
    - destruct IH as (c & Hpriv & Hset).
      destruct (reachable_inv _ _ _ Hr) as (c' & Hpriv' & Hinv).
      rewrite Hpriv in Hpriv'. injection Hpriv' as <-.
      unfold receive in Hrec. rewrite Hpriv in Hrec.
      destruct (o_sdi o) as [sdi|].
      2:{ injection Hrec as _ <- <-. by exists c. }
      destruct (receive_packet _ sdi _ p) as [[r s1]| |] eqn:Hrp; try done.
      injection Hrec as _ <- <-. exists (ctx s1). split; [done|].
      by apply (receive_packet_setup _ _ (mk_state c w) _ _ _ Hinv Hset Hp Hrp). }
  destruct Hset as (c & _ & Hg & _). apply Hg.
Qed.

Lemma chunks_follow_metadata_witness :
  let r :=
    run bytes_to_float (init sample_output).2 (world_of [])
      (sample_packets ++ [SR_DF_END]) in
  Exists metadata_written (take 4 (trace r.2)).
Proof.
  intros r.
  apply (chunks_follow_metadata bytes_to_float r.1 r.2 (take 4 (trace r.2))
           (E_write (F_logic 1) (P_bytes [x01; x02; x03; x04]) true)
           (drop 5 (trace r.2))).
  - apply sample_reachable; [reflexivity|].
    repeat constructor; simpl; lia.
  - vm_compute. reflexivity.
  - reflexivity.
Defined.

(** ** Chunk numbers *)

Lemma analog_chunk_numbers_app nr tr1 tr2 :
  analog_chunk_numbers nr (tr1 ++ tr2) =
  analog_chunk_numbers nr tr1 ++ analog_chunk_numbers nr tr2.
Proof.
  induction tr1 as [|e tr1 IH]; [done|].
  destruct e as [| |f p ok]; simpl; try done.
  destruct f; try done. destruct (ch_nr =? nr); [|done]. by rewrite IH.
Qed.

Lemma count_up_S k : count_up (S k) = count_up k ++ [u32 (1 + Z.of_nat k)].
Proof. unfold count_up. by rewrite seq_S, map_app. Qed.

Lemma u32_next k : u32 (u32 (1 + Z.of_nat k) + 1) = u32 (1 + Z.of_nat (S k)).
Proof. rewrite u32_succ. f_equal. lia. Qed.

Lemma numbers_not_chunk tr :
  Forall not_chunk tr ->
  logic_chunk_numbers tr = [] /\ forall nr, analog_chunk_numbers nr tr = [].
Proof.
  induction 1 as [|e tr He _ [IH1 IH2]]; [done|].
  destruct e as [| |f p ok]; simpl; try done.
  destruct f; try done.
Qed.

(** A state with the same events, the same first number and the same
    counters is numbered as well. *)
Lemma numbered_same s s' :
  numbered s ->
  trace (env s') = trace (env s) ->
  first_analog_index (ctx s') = first_analog_index (ctx s) ->
  lb_next_chunk_num (logic_buff_of (ctx s')) =
    lb_next_chunk_num (logic_buff_of (ctx s)) ->
  (forall idx b',
     analog_buff_of (ctx s') !! idx = Some b' ->
     exists b,
       analog_buff_of (ctx s) !! idx = Some b /\
       ab_next_chunk_num b' = ab_next_chunk_num b) ->
  numbered s'.
Proof.
  intros [(k & Hk & Hn) Ha] Htr Hf Hl Hb. split.
  - exists k. by rewrite Htr, Hl.
  - intros idx b' Hb'. destruct (Hb idx b' Hb') as (b & Hbb & Hnext).
    destruct (Ha idx b Hbb) as (k' & Hk' & Hn').
    exists k'. by rewrite Htr, Hf, Hnext.
Qed.

Lemma dir_append_numbered s buf unitsize length ret s' :
  numbered s ->
  dir_append s buf unitsize length = Returns (ret, s') ->
  numbered s'.
Proof.
  intros Hnum. unfold dir_append.
  destruct (length =? 0); [by intros [= _ <-]|].
  destruct (unitsize =? 0); [done|].
  pose proof (write_file_trace (env s)
                (F_logic (lb_next_chunk_num (logic_buff_of (ctx s))))
                (P_bytes (load buf length))) as [Ht _].
  destruct Hnum as [(k & Hk & Hn) Ha].
  destruct (write_file _ _ _) as [[] w]; cbn [negb fst snd] in *;
    intros [= _ <-]; cbn [ctx env]; (split; cbn [ctx env]).
  - exists (S k). rewrite Ht, logic_chunk_numbers_app, Hk, count_up_S.
    cbn. rewrite Hn. split; [done|]. apply u32_next.
  - intros idx b Hb. cbn in Hb. destruct (Ha idx b Hb) as (k' & Hk' & Hn').
    exists k'. rewrite Ht, analog_chunk_numbers_app. cbn.
    by rewrite app_nil_r.
  - exists k. rewrite Ht, logic_chunk_numbers_app. cbn.
    by rewrite app_nil_r.
  - intros idx b Hb. destruct (Ha idx b Hb) as (k' & Hk' & Hn').
    exists k'. rewrite Ht, analog_chunk_numbers_app. cbn.
    by rewrite app_nil_r.
Qed.

Lemma queue_loop_numbered fuel : forall s rd send_size ret s',
  numbered s ->
  queue_loop fuel s rd send_size = Returns (ret, s') -> numbered s'.
Proof.
  induction fuel as [|fuel IH]; intros s rd send_size ret s' Hnum.
  - simpl. destruct (send_size =? 0); [|done]. by intros [= _ <-].
  - cbn [queue_loop]. destruct (send_size =? 0); [by intros [= _ <-]|].
    set (b := logic_buff_of (ctx s)).
    destruct (negb (usize (lb_alloc_size b - lb_fill_size b) =? 0)).
    + set (s1 := mk_state _ _).
      assert (H1 : numbered s1).
      { apply (numbered_same s); try done. intros idx b' Hb'. by exists b'. }
      destruct (_ && _).
      * destruct (dir_append s1 _ _ _) as [[ret2 s2]| |] eqn:Happ; try done.
        apply dir_append_numbered in Happ; [|done].
        destruct (negb (is_ok ret2)); [by intros [= _ <-]|].
        apply IH. apply (numbered_same s2); try done.
        intros idx b' Hb'. by exists b'.
      * by apply IH.
    + destruct (_ && _).
      * destruct (dir_append s _ _ _) as [[ret2 s2]| |] eqn:Happ; try done.
        apply dir_append_numbered in Happ; [|done].
        destruct (negb (is_ok ret2)); [by intros [= _ <-]|].
        apply IH. apply (numbered_same s2); try done.
        intros idx b' Hb'. by exists b'.
      * by apply IH.
Qed.

Lemma dir_append_queue_numbered s buf unitsize length flush ret s' :
  numbered s ->
  dir_append_queue s buf unitsize length flush = Returns (ret, s') ->
  numbered s'.
Proof.
  intros Hnum. unfold dir_append_queue.
  destruct (negb (length =? 0) && _); [by intros [= _ <-]|].
  destruct (queue_loop _ s buf _) as [[ret1 s1]| |] eqn:Hq; try done.
  apply queue_loop_numbered in Hq; [|done].
  destruct (negb (is_ok ret1)); [by intros [= _ <-]|].
  destruct (flush && _); [|by intros [= _ <-]].
  destruct (dir_append s1 _ _ _) as [[ret2 s2]| |] eqn:Happ; try done.
  apply dir_append_numbered in Happ; [|done].
  destruct (negb (is_ok ret2)); intros [= _ <-]; [done|].
  apply (numbered_same s2); try done. intros idx b' Hb'. by exists b'.
Qed.

Lemma dir_append_analog_numbered s idx values count ret s' :
  analog_wf (ctx s) ->
  0 <= idx < analog_ch_count (ctx s) ->
  numbered s ->
  dir_append_analog s values count
    (usize (first_analog_index (ctx s) + idx)) = Returns (ret, s') ->
  numbered s'.
Proof.
  intros Hwf Hidx [(k & Hk & Hn) Ha] Happ.
  pose proof (dir_append_analog_chunk_number _ _ _ _ _ _ Happ)
    as (buff & ok & Hb & Htr & _ & Hbufs & Hctx & _).
  destruct (analog_slot _ _ Hwf Hidx) as (buff0 & Hb0 & _ & Hslot).
  rewrite Hslot in Hb, Hbufs. rewrite Hb0 in Hb. injection Hb as <-.
  pose proof (wf_first _ Hwf) as Hf. pose proof (wf_count _ Hwf) as Hc.
  rewrite (usize_small (first_analog_index (ctx s) + idx)) in Htr by lia.
  assert (Hfirst : first_analog_index (ctx s') = first_analog_index (ctx s)).
  { by rewrite <- Hctx. }
  assert (Hlogic : logic_buff_of (ctx s') = logic_buff_of (ctx s)).
  { by rewrite <- Hctx. }
  split.
  - exists k. rewrite Htr, logic_chunk_numbers_app, Hlogic. cbn.
    by rewrite app_nil_r.
  - intros j b Hj. rewrite Hbufs in Hj. rewrite Htr, Hfirst.
    rewrite analog_chunk_numbers_app. cbn.
    destruct (decide (j = Z.to_nat idx)) as [->|Hne].
    + rewrite list_lookup_insert_eq in Hj by (by apply lookup_lt_is_Some_1).
      injection Hj as <-.
      destruct (Ha _ _ Hb0) as (k' & Hk' & Hn').
      rewrite Z2Nat.id in Hk' |- * by lia. rewrite Z.eqb_refl.
      exists (S k'). rewrite Hk', count_up_S, Hn'. split; [done|].
      cbn. apply u32_next.
    + rewrite list_lookup_insert_ne in Hj by done.
      destruct (Ha _ _ Hj) as (k' & Hk' & Hn').
      destruct (Z.eqb_spec (first_analog_index (ctx s) + idx)
                  (first_analog_index (ctx s) + Z.of_nat j)) as [E|_]; [lia|].
      exists k'. by rewrite app_nil_r.
Qed.

Lemma set_analog_fill_numbered s idx fill :
  numbered s -> numbered (set_analog_fill s idx fill).
Proof.
  intros Hnum. unfold set_analog_fill.
  destruct (analog_buff_of (ctx s) !! Z.to_nat idx) as [buff|] eqn:Hb; [|done].
  apply (numbered_same s); try done. cbn.
  intros j b' Hj. destruct (decide (j = Z.to_nat idx)) as [->|Hne].
  - rewrite list_lookup_insert_eq in Hj by (by apply lookup_lt_is_Some_1).
    injection Hj as <-. by exists buff.
  - rewrite list_lookup_insert_ne in Hj by done. by exists b'.
Qed.

Lemma analog_loop_numbered fuel : forall s idx nr rd send_size ret s',
  analog_wf (ctx s) ->
  0 <= idx < analog_ch_count (ctx s) ->
  nr = usize (first_analog_index (ctx s) + idx) ->
  0 <= send_size < 2 ^ 64 ->
  numbered s ->
  analog_loop fuel s idx nr rd send_size = Returns (ret, s') ->
  numbered s'.
Proof.
  induction fuel as [|fuel IH];
    intros s idx nr rd send_size ret s' Hwf Hidx Hnr Hsend Hnum.
  - simpl. destruct (send_size =? 0); [|done]. by intros [= _ <-].
  - cbn [analog_loop]. destruct (Z.eqb_spec send_size 0) as [|Hne].
    { by intros [= _ <-]. }
    destruct (analog_slot _ _ Hwf Hidx) as (buff & Hb & Hfresh & _).
    rewrite Hb. pose proof (fresh_alloc _ Hfresh) as Ha.
    destruct Hfresh as [_ Hrange]. rewrite Ha in Hrange.
    rewrite (usize_small (ab_alloc_size buff - ab_fill_size buff)) by lia.
    destruct (Z.eqb_spec (ab_alloc_size buff - ab_fill_size buff) 0)
      as [Hfull|Hroom]; cbn [negb].
    + destruct (Z.eqb_spec send_size 0) as [|_]; [done|]. cbn [negb andb].
      destruct (Z.eqb_spec (ab_alloc_size buff - ab_fill_size buff) 0)
        as [_|]; [|done].
      rewrite Hb.
      destruct (dir_append_analog s _ _ nr) as [[ret2 s2]| |] eqn:Happ;
        try done.
      rewrite Hnr in Happ.
      pose proof (dir_append_analog_numbered _ _ _ _ _ _ Hwf Hidx Hnum Happ)
        as Hnum2.
      apply analog_flush_frame in Happ as [H2 H3]; try done; [|lia].
      destruct (negb (is_ok ret2)); [by intros [= _ <-]|].
      destruct (analog_frame_layout _ _ H3) as (Hf & Hc & _).
      apply IH; [apply H3 | by rewrite Hc | by rewrite Hf | done|].
      by apply set_analog_fill_numbered.
    + set (copy_size := Z.min send_size (ab_alloc_size buff - ab_fill_size buff)).
      assert (Hcopy : 0 < copy_size <= ab_alloc_size buff - ab_fill_size buff)
        by (unfold copy_size; lia).
      assert (Hcs : copy_size <= send_size) by (unfold copy_size; lia).
      rewrite (usize_small (ab_fill_size buff + copy_size)) by lia.
      rewrite (usize_small (send_size - copy_size)) by lia.
      rewrite (usize_small (ab_alloc_size buff - ab_fill_size buff - copy_size))
        by lia.
      set (buff' := ab_with_samples _ _).
      set (s1 := mk_state _ _).
      assert (Hfresh' : fresh_analog_buff buff').
      { split; simpl; [by rewrite Ha | lia]. }
      assert (H1 : analog_frame s s1).
      { split; [by apply analog_wf_insert | done | by apply only_chunks_same]. }
      assert (Hb1 : analog_buff_of (ctx s1) !! Z.to_nat idx = Some buff').
      { simpl. apply list_lookup_insert_eq. by apply lookup_lt_is_Some_1. }
      assert (Hnum1 : numbered s1).
      { apply (numbered_same s); try done. cbn.
        intros j b' Hj. destruct (decide (j = Z.to_nat idx)) as [->|Hnej].
        - rewrite list_lookup_insert_eq in Hj by (by apply lookup_lt_is_Some_1).
          injection Hj as <-. by exists buff.
        - rewrite list_lookup_insert_ne in Hj by done. by exists b'. }
      destruct (Z.eqb_spec (send_size - copy_size) 0) as [Hdone|Hmore];
        cbn [negb andb].
      * apply IH; [apply H1 | exact Hidx | exact Hnr | lia | done].
      * destruct (Z.eqb_spec
                    (ab_alloc_size buff - ab_fill_size buff - copy_size) 0)
          as [Hfull|Hroom'].
        -- rewrite Hb1.
           destruct (dir_append_analog s1 _ _ nr) as [[ret2 s2]| |] eqn:Happ;
             try done.
           rewrite Hnr in Happ.
           pose proof (dir_append_analog_numbered s1 idx _ _ _ _
                         (af_wf _ _ H1) Hidx Hnum1 Happ) as Hnum2.
           apply (analog_flush_frame s1 idx buff') in Happ as [H2 H3];
             try done; [|apply H1 | simpl; lia].
           destruct (negb (is_ok ret2)); [by intros [= _ <-]|].
           destruct (analog_frame_layout _ _ H3) as (Hf & Hc & _).
           apply IH;
             [apply H3 | rewrite Hc; exact Hidx | rewrite Hf; exact Hnr
             | lia|].
           by apply set_analog_fill_numbered.
        -- apply IH; [apply H1 | exact Hidx | exact Hnr | lia | done].
Qed.

Lemma flush_analog_numbered todo : forall idx s ret s',
  analog_wf (ctx s) ->
  0 <= idx ->
  idx + Z.of_nat todo <= analog_ch_count (ctx s) ->
  numbered s ->
  flush_analog todo idx s = Returns (ret, s') ->
  numbered s'.
Proof.
  induction todo as [|todo IH]; intros idx s ret s' Hwf Hidx Hmax Hnum.
  - by intros [= _ <-].
  - cbn [flush_analog].
    destruct (analog_slot (ctx s) idx Hwf) as (buff & Hb & Hfresh & _); [lia|].
    rewrite Hb. pose proof (wf_count _ Hwf) as Hc.
    rewrite (usize_small (idx + 1)) by lia.
    destruct (Z.eqb_spec (ab_fill_size buff) 0) as [Hz|Hnz].
    { apply IH; [done | lia | lia | done]. }
    destruct (dir_append_analog s _ _ _) as [[ret2 s2]| |] eqn:Happ; try done.
    assert (Hidx' : 0 <= idx < analog_ch_count (ctx s)) by lia.
    pose proof (dir_append_analog_numbered _ _ _ _ _ _ Hwf Hidx' Hnum Happ)
      as Hnum2.
    apply analog_flush_frame in Happ as [H2 H3]; try done.
    2:{ destruct Hfresh. lia. }
    destruct (negb (is_ok ret2)); [by intros [= _ <-]|].
    destruct (analog_frame_layout _ _ H3) as (_ & Hc' & _).
    apply IH; [apply H3 | lia | rewrite Hc'; lia|].
    by apply set_analog_fill_numbered.
Qed.

Lemma dir_append_analog_queue_numbered
    (sr_analog_to_float : sr_datafeed_analog -> sr_error_code * list float32)
    s analog flush ret s' :
  analog_wf (ctx s) ->
  match analog with Some a => 0 <= num_samples a < 2 ^ 32 | None => True end ->
  numbered s ->
  dir_append_analog_queue sr_analog_to_float s analog flush = Returns (ret, s') ->
  numbered s'.
Proof.
  intros Hwf Hpkt Hnum. unfold dir_append_analog_queue.
  pose proof (wf_count _ Hwf) as Hc.
  destruct analog as [a|].
  2:{ destruct flush; [|done]. apply flush_analog_numbered; try done; lia. }
  destruct (meaning_channels a) as [|ch [|ch' rest]].
  1,3: by intros [= _ <-].
  destruct (find_slot _ 0 _ _) as [idx|] eqn:Hfind; [|done].
  apply find_slot_range in Hfind; [|lia|lia].
  destruct (Z.eqb_spec idx (analog_ch_count (ctx s))) as [_|Hslot].
  { by intros [= _ <-]. }
  pose proof (malloc_frame s (usize (num_samples a * sizeof_float)) Hwf) as Hm.
  pose proof (g_try_malloc0_trace (env s)
                (usize (num_samples a * sizeof_float))) as [Htm _].
  destruct (g_try_malloc0 (env s) _) as [[] w]; cbn [negb snd] in *.
  2:{ intros [= _ <-]. apply (numbered_same s); try done.
      intros j b' Hj. by exists b'. }
  assert (Hnum0 : numbered (mk_state (ctx s) w)).
  { apply (numbered_same s); try done. intros j b' Hj. by exists b'. }
  destruct (sr_analog_to_float a) as [retc values].
  destruct (negb (is_ok retc)); [by intros [= _ <-]|].
  destruct (analog_loop _ _ idx _ values _) as [[ret1 s1]| |] eqn:Hloop;
    try done.
  pose proof Hloop as Hloop'.
  apply analog_loop_numbered in Hloop'; [|done|simpl; lia|done|lia|done].
  apply analog_loop_frame in Hloop; [|done|simpl; lia|done|lia].
  assert (H1 : analog_frame s s1) by (by eapply analog_frame_trans).
  destruct (negb (is_ok ret1)); [by intros [= _ <-]|].
  destruct (analog_frame_layout _ _ H1) as (Hf & Hc' & _).
  destruct (analog_slot (ctx s1) idx (af_wf _ _ H1)) as (buff1 & Hb1 & Hfresh & _);
    [lia|].
  rewrite Hb1. destruct flush; cbn [andb]; [|by intros [= _ <-]].
  destruct (Z.eqb_spec (ab_fill_size buff1) 0) as [_|Hnz]; cbn [negb].
  { by intros [= _ <-]. }
  destruct (dir_append_analog s1 _ _ _) as [[ret2 s2]| |] eqn:Happ; try done.
  rewrite <- Hf in Happ.
  assert (Hidx1 : 0 <= idx < analog_ch_count (ctx s1)) by lia.
  pose proof (dir_append_analog_numbered _ _ _ _ _ _ (af_wf _ _ H1) Hidx1
                Hloop' Happ) as Hnum2.
  destruct (negb (is_ok ret2)); intros [= _ <-]; [done|].
  by apply set_analog_fill_numbered.
Qed.

Lemma ensure_dir_numbered sdi s ret s1 :
  numbering_inv (ctx s) (env s) ->
  ensure_dir sdi s = (ret, s1) ->
  numbering_inv (ctx s1) (env s1) /\
  (ret = SR_OK -> numbered s1).
Proof.
  unfold numbering_inv, ensure_dir.
  destruct (dir_created (ctx s)) eqn:Hd.
  { intros Hnum [= <- <-]. rewrite Hd. destruct s. by split. }
  intros Hquiet.
  destruct (dir_create sdi s) as [ret1 s'] eqn:Hc.
  pose proof (dir_create_any _ _ _ _ Hc) as (Hd' & new & Htr & Hnc & _).
  assert (Hquiet' : Forall not_chunk (trace (env s'))).
  { rewrite Htr. by apply Forall_app_2. }
  destruct ret1; cbn [is_ok negb]; intros [= <- <-]; cbn [ctx env].
  2-4: split; [|done]; by rewrite Hd', Hd.
  destruct (numbers_not_chunk _ Hquiet') as [Hl Ha].
  destruct (dir_create_ok _ _ _ Hc)
    as (rate & head & index & map & meta & tail & _ & _ & _ & Hctx & _).
  assert (Hnum : numbered
            (mk_state (with_dir_created (ctx s') true) (env s'))).
  { split; cbn [ctx env].
    - exists 0%nat. rewrite Hl, Hctx. done.
    - intros idx b Hb. exists 0%nat. rewrite Ha. split; [done|].
      rewrite Hctx in Hb. cbn in Hb.
      apply lookup_replicate in Hb as [-> _]. done. }
  by split.
Qed.

Lemma receive_packet_numbered
    (sr_analog_to_float : sr_datafeed_analog -> sr_error_code * list float32)
    sdi s p ret s' :
  session_inv (ctx s) (env s) ->
  numbering_inv (ctx s) (env s) ->
  packet_wf p ->
  receive_packet sr_analog_to_float sdi s p = Returns (ret, s') ->
  numbering_inv (ctx s') (env s').
Proof.
  intros Hinv Hnum Hp.
  assert (Hcreated : forall s1,
            quiet_step s1 s' -> dir_created (ctx s1) = true -> numbered s' ->
            numbering_inv (ctx s') (env s')).
  { intros s1 (_ & Hd' & _) Hd Hn. unfold numbering_inv.
    rewrite Hd', Hd. by destruct s'. }
  destruct p as [config|logic|analog| |]; cbn [receive_packet].
  - intros [= <- <-]. unfold numbering_inv in *. cbn [ctx env].
    change (dir_created (with_samplerate _ _)) with (dir_created (ctx s)).
    destruct (dir_created (ctx s)); [|done].
    apply (numbered_same (mk_state (ctx s) (env s))); try done.
    intros idx b' Hb'. by exists b'.
  - destruct (ensure_dir sdi s) as [ret1 s1] eqn:He.
    pose proof (ensure_dir_numbered _ _ _ _ Hnum He) as [Hnum1 Hok1].
    pose proof (ensure_dir_step _ _ _ _ Hinv He) as [_ Hd1].
    destruct ret1; cbn [is_ok negb]; try (by intros [= <- <-]).
    intros H. pose proof (dir_append_queue_numbered _ _ _ _ _ _ _
                            (Hok1 eq_refl) H) as Hn.
    apply dir_append_queue_frame, logic_frame_quiet in H.
    by apply (Hcreated s1 H (Hd1 eq_refl)).
  - destruct (ensure_dir sdi s) as [ret1 s1] eqn:He.
    pose proof (ensure_dir_numbered _ _ _ _ Hnum He) as [Hnum1 Hok1].
    pose proof (ensure_dir_step _ _ _ _ Hinv He) as [Hstep Hd1].
    destruct ret1; cbn [is_ok negb]; try (by intros [= <- <-]).
    assert (Hwf1 : analog_wf (ctx s1)) by (by apply Hstep, Hd1).
    intros H.
    pose proof (dir_append_analog_queue_numbered _ _ (Some analog) _ _ _
                  Hwf1 Hp (Hok1 eq_refl) H) as Hn.
    apply dir_append_analog_queue_frame in H; [|done|done].
    apply (Hcreated s1); [by apply analog_frame_quiet | by apply Hd1 | done].
  - destruct (dir_created (ctx s)) eqn:Hd; [|by intros [= <- <-]].
    assert (Hn0 : numbered s).
    { unfold numbering_inv in Hnum. rewrite Hd in Hnum. by destruct s. }
    destruct (dir_append_queue s [] 0 0 true) as [[ret1 s1]| |] eqn:Hq; try done.
    pose proof (dir_append_queue_numbered _ _ _ _ _ _ _ Hn0 Hq) as Hn1.
    apply dir_append_queue_frame, logic_frame_quiet in Hq.
    destruct (negb (is_ok ret1)).
    { intros [= <- <-]. by apply (Hcreated s). }
    assert (Hwf1 : analog_wf (ctx s1)) by (apply Hq, Hinv; done).
    intros H.
    pose proof (dir_append_analog_queue_numbered _ _ None _ _ _ Hwf1 I Hn1 H)
      as Hn2.
    apply dir_append_analog_queue_frame in H; [|done|done].
    apply (Hcreated s); [|done|done].
    eapply quiet_step_trans; [exact Hq | by apply analog_frame_quiet].
  - by intros [= <- <-].
Qed.

(** X18. In every session that can come about, once the directory exists
    and whatever failed on the way: the [logic-1-*] files that were
    written carry the numbers 1, 2, 3, ... in the order they were
    written, and the counter of the logic buffer is the next number; for
    each analog channel the chunk writes that were tried, failed or not,
    carry the numbers 1, 2, 3, ... in the order they were made, and the
    counter of its buffer is the next number. The counters are 32 bits
    wide. A logic number is taken by a write that went well, an analog
    number by every attempt. *)
Theorem chunk_numbers_sequential
    (sr_analog_to_float : sr_datafeed_analog -> sr_error_code * list float32)
    o w c :
  reachable sr_analog_to_float o w ->
  o_priv o = Some c ->
  dir_created c = true ->
  (exists k,
     logic_chunk_numbers (trace w) = count_up k /\
     lb_next_chunk_num (logic_buff_of c) = u32 (1 + Z.of_nat k)) /\
  forall idx b,
    analog_buff_of c !! idx = Some b ->
    exists k,
      analog_chunk_numbers (first_analog_index c + Z.of_nat idx) (trace w) =
        count_up k /\
      ab_next_chunk_num b = u32 (1 + Z.of_nat k).
Proof.
  intros Hreach Hpriv Hd.
  assert (Hnum : exists c', o_priv o = Some c' /\ numbering_inv c' w).
  { clear Hpriv Hd c.
    induction Hreach as [o0 o w Hinit Htr|o w p ret o1 w1 Hr IH Hp Hrec].
    - apply init_ok in Hinit as (name & ->). eexists. split; [done|].
      unfold numbering_inv. cbn. by rewrite Htr.
    - destruct IH as (c & Hpriv & Hnum).
      destruct (reachable_inv _ _ _ Hr) as (c' & Hpriv' & Hinv).
      rewrite Hpriv in Hpriv'. injection Hpriv' as <-.
      unfold receive in Hrec. rewrite Hpriv in Hrec.
      destruct (o_sdi o) as [sdi|].
      2:{ injection Hrec as _ <- <-. by exists c. }
      destruct (receive_packet _ sdi _ p) as [[r s1]| |] eqn:Hrp; try done.
      injection Hrec as _ <- <-. exists (ctx s1). split; [done|].
      by apply (receive_packet_numbered _ _ (mk_state c w) _ _ _ Hinv Hnum Hp
                  Hrp). }
  destruct Hnum as (c' & Hpriv' & Hnum).
  rewrite Hpriv in Hpriv'. injection Hpriv' as <-.
  unfold numbering_inv in Hnum. rewrite Hd in Hnum. exact Hnum.
Qed.

Lemma chunk_numbers_sequential_witness :
  let r :=
    run bytes_to_float (init sample_output).2
      (world_of [true; true; true; true; true; false])
      (sample_packets ++ [SR_DF_END; SR_DF_END]) in
  let c := match o_priv r.1 with Some c => c | None => zero_context "" end in
  (exists k,
     logic_chunk_numbers (trace r.2) = count_up k /\
     lb_next_chunk_num (logic_buff_of c) = u32 (1 + Z.of_nat k)) /\
  forall idx b,
    analog_buff_of c !! idx = Some b ->
    exists k,
      analog_chunk_numbers (first_analog_index c + Z.of_nat idx) (trace r.2) =
        count_up k /\
      ab_next_chunk_num b = u32 (1 + Z.of_nat k).
Proof.
  intros r c.
  apply (chunk_numbers_sequential bytes_to_float r.1 r.2 c).
  - apply sample_reachable; [reflexivity|].
    repeat constructor; simpl; lia.
  - vm_compute. reflexivity.
  - vm_compute. reflexivity.
Defined.

(** ** The chunks of the analog path *)

(** The chunk of the buffer in slot [idx]: one event, a chunk of the
    channel of the slot with the samples that the buffer holds. *)
Lemma dir_append_analog_event s idx buff ret s2 :
  analog_wf (ctx s) ->
  0 <= idx < analog_ch_count (ctx s) ->
  analog_buff_of (ctx s) !! Z.to_nat idx = Some buff ->
  dir_append_analog s (ab_samples buff) (ab_fill_size buff)
    (usize (first_analog_index (ctx s) + idx)) = Returns (ret, s2) ->
  exists e,
    trace (env s2) = trace (env s) ++ [e] /\
    analog_chunk_of_size (first_analog_index (ctx s) + idx)
      (ab_fill_size buff) e.
Proof.
  intros Hwf Hidx Hb Happ.
  pose proof (dir_append_analog_chunk_number _ _ _ _ _ _ Happ)
    as (buff1 & ok & _ & Htr & _).
  assert (Hfresh : fresh_analog_buff buff).
  { eapply Forall_lookup_1; [apply Hwf | exact Hb]. }
  pose proof (fresh_alloc _ Hfresh) as Ha. destruct Hfresh as [_ Hrange].
  rewrite Ha in Hrange.
  pose proof (wf_first _ Hwf). pose proof (wf_count _ Hwf).
  rewrite (usize_small (first_analog_index (ctx s) + idx)) in Htr by lia.
  eexists. split; [exact Htr|]. split; [done|].
  rewrite length_load. unfold sizeof_float. rewrite usize_small by lia.
  rewrite Z.mul_comm, Z.div_mul by lia. lia.
Qed.

Lemma analog_loop_full_chunks fuel : forall s idx nr rd send_size ret s',
  analog_wf (ctx s) ->
  0 <= idx < analog_ch_count (ctx s) ->
  nr = usize (first_analog_index (ctx s) + idx) ->
  0 <= send_size < 2 ^ 64 ->
  analog_loop fuel s idx nr rd send_size = Returns (ret, s') ->
  analog_frame s s' /\
  exists new,
    trace (env s') = trace (env s) ++ new /\
    Forall (analog_chunk_of_size (first_analog_index (ctx s) + idx)
              (CHUNK_SIZE / sizeof_float)) new.
Proof.
  induction fuel as [|fuel IH];
    intros s idx nr rd send_size ret s' Hwf Hidx Hnr Hsend.
  - simpl. destruct (send_size =? 0); [|done]. intros [= <- <-].
    split; [by apply analog_frame_refl|]. exists []. by rewrite app_nil_r.
  - cbn [analog_loop]. destruct (Z.eqb_spec send_size 0) as [|Hne].
    { intros [= <- <-]. split; [by apply analog_frame_refl|].
      exists []. by rewrite app_nil_r. }
    destruct (analog_slot _ _ Hwf Hidx) as (buff & Hb & Hfresh & _).
    rewrite Hb. pose proof (fresh_alloc _ Hfresh) as Ha.
    destruct Hfresh as [Hcap Hrange]. rewrite Ha in Hrange.
    rewrite (usize_small (ab_alloc_size buff - ab_fill_size buff)) by lia.
    destruct (Z.eqb_spec (ab_alloc_size buff - ab_fill_size buff) 0)
      as [Hfull|Hroom]; cbn [negb].
    + destruct (Z.eqb_spec send_size 0) as [|_]; [done|]. cbn [negb andb].
      destruct (Z.eqb_spec (ab_alloc_size buff - ab_fill_size buff) 0)
        as [_|]; [|done].
      rewrite Hb.
      destruct (dir_append_analog s _ _ nr) as [[ret2 s2]| |] eqn:Happ;
        try done.
      rewrite Hnr in Happ.
      destruct (dir_append_analog_event _ _ _ _ _ Hwf Hidx Hb Happ)
        as (e & Htr2 & He).
      replace (ab_fill_size buff) with (CHUNK_SIZE / sizeof_float) in He
        by lia.
      apply analog_flush_frame in Happ as [H2 H3]; try done; [|lia].
      destruct (negb (is_ok ret2)).
      { intros [= <- <-]. split; [done|]. exists [e]. split; [done|].
        by constructor. }
      destruct (analog_frame_layout _ _ H3) as (Hf & Hc & _).
      intros H. apply IH in H as (H4 & new & Htr & Hnew);
        [|apply H3 | by rewrite Hc | by rewrite Hf | done].
      split; [by eapply analog_frame_trans|].
      exists (e :: new). split.
      * rewrite Htr. unfold set_analog_fill.
        destruct (analog_buff_of (ctx s2) !! Z.to_nat idx); cbn [env];
          by rewrite Htr2, <- app_assoc.
      * constructor; [done|]. by rewrite Hf in Hnew.
    + set (copy_size := Z.min send_size (ab_alloc_size buff - ab_fill_size buff)).
      assert (Hcopy : 0 < copy_size <= ab_alloc_size buff - ab_fill_size buff)
        by (unfold copy_size; lia).
      assert (Hcs : copy_size <= send_size) by (unfold copy_size; lia).
      rewrite (usize_small (ab_fill_size buff + copy_size)) by lia.
      rewrite (usize_small (send_size - copy_size)) by lia.
      rewrite (usize_small (ab_alloc_size buff - ab_fill_size buff - copy_size))
        by lia.
      set (buff' := ab_with_samples _ _).
      set (s1 := mk_state _ _).
      assert (Hfresh' : fresh_analog_buff buff').
      { split; simpl; [done | lia]. }
      assert (H1 : analog_frame s s1).
      { split; [by apply analog_wf_insert | done | by apply only_chunks_same]. }
      assert (Hb1 : analog_buff_of (ctx s1) !! Z.to_nat idx = Some buff').
      { simpl. apply list_lookup_insert_eq. by apply lookup_lt_is_Some_1. }
      assert (Ht1 : trace (env s1) = trace (env s)) by done.
      destruct (Z.eqb_spec (send_size - copy_size) 0) as [Hdone|Hmore];
        cbn [negb andb].
      * intros H. apply IH in H as (H4 & new & Htr & Hnew);
          [|apply H1 | exact Hidx | exact Hnr | lia].
        split; [by eapply analog_frame_trans|].
        exists new. by rewrite Htr, Ht1.
      * destruct (Z.eqb_spec
                    (ab_alloc_size buff - ab_fill_size buff - copy_size) 0)
          as [Hfull|Hroom'].
        -- rewrite Hb1.
           destruct (dir_append_analog s1 _ _ nr) as [[ret2 s2]| |] eqn:Happ;
             try done.
           rewrite Hnr in Happ.
           destruct (dir_append_analog_event s1 idx buff' _ _ (af_wf _ _ H1)
                       Hidx Hb1 Happ) as (e & Htr2 & He).
           change (first_analog_index (ctx s1))
             with (first_analog_index (ctx s)) in He.
           replace (ab_fill_size buff') with (CHUNK_SIZE / sizeof_float) in He
             by (simpl; lia).
           apply (analog_flush_frame s1 idx buff') in Happ as [H2 H3];
             try done; [|apply H1 | simpl; lia].
           destruct (negb (is_ok ret2)).
           { intros [= <- <-]. split; [by eapply analog_frame_trans|].
             exists [e]. split; [by rewrite Htr2, Ht1 | by constructor]. }
           destruct (analog_frame_layout _ _ H3) as (Hf & Hc & _).
           intros H. apply IH in H as (H4 & new & Htr & Hnew);
             [|apply H3 | rewrite Hc; exact Hidx | rewrite Hf; exact Hnr | lia].
           split.
           { eapply analog_frame_trans; [exact H1|].
             by eapply analog_frame_trans. }
           exists (e :: new). split.
           ++ rewrite Htr. unfold set_analog_fill.
              destruct (analog_buff_of (ctx s2) !! Z.to_nat idx); cbn [env];
                by rewrite Htr2, Ht1, <- app_assoc.
           ++ constructor; [done|]. by rewrite Hf in Hnew.
        -- intros H. apply IH in H as (H4 & new & Htr & Hnew);
             [|apply H1 | exact Hidx | exact Hnr | lia].
           split; [by eapply analog_frame_trans|].
           exists new. by rewrite Htr, Ht1.
Qed.

(** X19. Whatever the file system and the conversion answer, an analog
    packet only writes chunks of one channel, and every chunk that it
    writes from inside the loop is a full buffer, 1048576 floats (4 MiB).
    Only the flush that the caller asks for adds a chunk that may be
    shorter: at most one, the last event of the call, not empty and no
    longer than a full buffer. *)
Theorem analog_chunks_full
    (sr_analog_to_float : sr_datafeed_analog -> sr_error_code * list float32)
    s a flush ret s' :
  analog_wf (ctx s) ->
  0 <= num_samples a < 2 ^ 32 ->
  dir_append_analog_queue sr_analog_to_float s (Some a) flush =
    Returns (ret, s') ->
  exists nr full final,
    trace (env s') = trace (env s) ++ full ++ final /\
    Forall (analog_chunk_of_size nr (CHUNK_SIZE / sizeof_float)) full /\
    (flush = false -> final = []) /\
    (length final <= 1)%nat /\
    Forall (fun e => exists size,
              0 < size <= CHUNK_SIZE / sizeof_float /\
              analog_chunk_of_size nr size e) final.
Proof.
  intros Hwf Hpkt. unfold dir_append_analog_queue.
  pose proof (wf_count _ Hwf) as Hc.
  assert (Hnone : forall s0 : state,
            trace (env s0) = trace (env s) ->
            exists nr full final,
              trace (env s0) = trace (env s) ++ full ++ final /\
              Forall (analog_chunk_of_size nr (CHUNK_SIZE / sizeof_float))
                full /\
              (flush = false -> final = []) /\
              (length final <= 1)%nat /\
              Forall (fun e => exists size,
                        0 < size <= CHUNK_SIZE / sizeof_float /\
                        analog_chunk_of_size nr size e) final).
  { intros s0 Htr. exists 0, [], []. rewrite app_nil_r.
    repeat split; try done. simpl. lia. }
  destruct (meaning_channels a) as [|ch [|ch' rest]].
  1,3: intros [= _ <-]; by apply Hnone.
  destruct (find_slot _ 0 _ _) as [idx|] eqn:Hfind; [|done].
  apply find_slot_range in Hfind; [|lia|lia].
  destruct (Z.eqb_spec idx (analog_ch_count (ctx s))) as [_|Hslot].
  { intros [= _ <-]. by apply Hnone. }
  pose proof (malloc_frame s (usize (num_samples a * sizeof_float)) Hwf) as Hm.
  pose proof (g_try_malloc0_trace (env s)
                (usize (num_samples a * sizeof_float))) as [Htm _].
  destruct (g_try_malloc0 (env s) _) as [[] w]; cbn [negb snd] in *.
  2:{ intros [= _ <-]. by apply Hnone. }
  destruct (sr_analog_to_float a) as [retc values].
  destruct (negb (is_ok retc)); [intros [= _ <-]; by apply Hnone|].
  destruct (analog_loop _ _ idx _ values _) as [[ret1 s1]| |] eqn:Hloop;
    try done.
  apply analog_loop_full_chunks in Hloop as (H1 & full & Htr1 & Hfull);
    [|done|simpl; lia|done|lia].
  cbn [ctx env] in Htr1, Hfull. rewrite Htm in Htr1.
  set (nr := first_analog_index (ctx s) + idx) in Hfull.
  destruct (negb (is_ok ret1)).
  { intros [= _ <-]. exists nr, full, []. rewrite app_nil_r.
    repeat split; try done. simpl. lia. }
  destruct (analog_frame_layout _ _ H1) as (Hf & Hc' & _).
  cbn [ctx] in Hf, Hc'.
  destruct (analog_slot (ctx s1) idx (af_wf _ _ H1)) as (buff1 & Hb1 & Hfresh & _);
    [lia|].
  rewrite Hb1. destruct flush; cbn [andb].
  2:{ intros [= _ <-]. exists nr, full, []. rewrite app_nil_r.
      repeat split; try done. simpl. lia. }
  destruct (Z.eqb_spec (ab_fill_size buff1) 0) as [_|Hnz]; cbn [negb].
  { intros [= _ <-]. exists nr, full, []. rewrite app_nil_r.
    repeat split; try done. simpl. lia. }
  destruct (dir_append_analog s1 _ _ _) as [[ret2 s2]| |] eqn:Happ; try done.
  rewrite <- Hf in Happ.
  assert (Hidx1 : 0 <= idx < analog_ch_count (ctx s1)) by lia.
  destruct (dir_append_analog_event s1 idx buff1 _ _ (af_wf _ _ H1) Hidx1 Hb1
              Happ) as (e & Htr2 & He).
  rewrite Hf in He. fold nr in He.
  pose proof (fresh_alloc _ Hfresh) as Ha. destruct Hfresh as [_ Hrange].
  intros Hret.
  assert (Htr' : trace (env s') = trace (env s2)).
  { destruct (negb (is_ok ret2)); injection Hret as _ <-; [done|].
    unfold set_analog_fill.
    by destruct (analog_buff_of (ctx s2) !! Z.to_nat idx). }
  exists nr, full, [e].
  split; [by rewrite Htr', Htr2, Htr1, <- app_assoc|].
  split; [done|]. split; [done|]. split; [simpl; lia|].
  constructor; [|done]. exists (ab_fill_size buff1). split; [|done].
  rewrite Ha in Hrange. change (CHUNK_SIZE / sizeof_float) with 1048576. lia.
Qed.

Lemma analog_chunks_full_witness :
  let s := opened (device 0 1) (world_of []) in
  let a := mk_analog [x07; x08] 2 [analog_channel 0] in
  let s' := after s (dir_append_analog_queue bytes_to_float s (Some a) true) in
  exists nr full final,
    trace (env s') = trace (env s) ++ full ++ final /\
    Forall (analog_chunk_of_size nr (CHUNK_SIZE / sizeof_float)) full /\
    (true = false -> final = []) /\
    (length final <= 1)%nat /\
    Forall (fun e => exists size,
              0 < size <= CHUNK_SIZE / sizeof_float /\
              analog_chunk_of_size nr size e) final.
Proof.
  intros s a s'.
  apply (analog_chunks_full bytes_to_float s a true SR_OK s').
  - split.
    + vm_compute. split; discriminate.
    + vm_compute. split; [discriminate | reflexivity].
    + reflexivity.
    + repeat constructor; vm_compute; try reflexivity; discriminate.
  - simpl. lia.
  - vm_compute. reflexivity.
Defined.

(** ** An answer to every packet *)

Lemma receive_returns_witness :
  let r := run bytes_to_float (init sample_output).2 (world_of []) sample_packets in
  exists ret o1 w1,
    receive bytes_to_float r.1 r.2 SR_DF_END = Returns (ret, o1, w1).
Proof.
  intros r.
  apply (receive_returns bytes_to_float r.1 r.2 SR_DF_END).
  - apply sample_reachable; [reflexivity | apply sample_packets_wf].
  - intros sdi H. vm_compute in H. injection H as <-. vm_compute. discriminate.
  - exact I.
Defined.
